(* ===== verification/_CoqProject ===== *)
-Q . S2P
Prelude.v
Buffer.v
Config.v
Packet.v
Parser.v
Filter.v
TopicTree.v
Retained.v
Subscription.v
Auth.v
Timer.v
Qos.v
Inflight.v
Qos1.v
Qos2.v
Delivery.v
World.v
Session.v
Closing.v
Steady.v
Server.v
Safety.v
Routing.v
Release.v
Wire.v
Requests.v
Spec.v
Refinement.v
Behaviour.v
Mdns.v
ConfigLoad.v
Admin.v
Logger.v
Broker.v
UnitTests.v
