(* ===== verification/Prelude.v ===== *)
(** * JellyBroker, an MQTT 3.1.1 broker: verification development

    The program (C++17 on Boost.Asio, sources under [src/src/]) accepts TCP
    connections ([Server]), runs one [Session] per connection, frames and
    decodes the byte stream ([PacketParser], [packets.cpp]), and routes
    publications through the [TopicTree] to the subscribed sessions, at QoS 0,
    1 or 2 ([DeliveryEngine] and its three handlers).  Authentication and access
    rules come from an [Authenticator]; persistent subscriptions are kept by
    the [SubscriptionManager].  All sessions share these objects through
    [BrokerContext]; their handlers run as asio completion handlers and timer
    callbacks.  [main] loads the [Config] and starts the [Broker], which owns
    all of this and, if configured, an [AdminServer] that reports on it and an
    [MdnsResponder] that announces it.

    ** The files

    - [Prelude] (this file): machine integers, bytes, the monad [M] of
      computations that may throw, deadlock or be undefined, tactics, generic
      lemmas.
    - [Buffer]: [utils/buffer.cpp], all members.
    - [Config]: the values of the getters of [config.h] as a record; every
      definition that reads [Config::instance()] takes it as [cfg].
    - [Packet]: [packet/types.h], [packets.cpp], [builder.cpp], and the header
      decoding at the start of [Session::handle_packet].
    - [Parser]: [packet/parser.cpp].
    - [Filter]: [topic/filter.cpp].
    - [TopicTree], [Retained]: [topic/topic_tree.cpp]; the second file holds the
      theory of retained messages.
    - [Subscription]: [subscription.cpp].
    - [Auth]: [auth/].  The interface is the class [Authenticator E A] (state
      [A], outside world [E]) with the instances [AllowAllAuthenticator] and
      [PgAuthenticator].  PostgreSQL, SHA-256 and the clock are fields of the
      environment [PgEnv], of which nothing is assumed.
    - [Timer]: [utils/timer.cpp] over the queue of asio wait handlers.
    - [Qos], [Inflight], [Qos1], [Qos2]: [qos/].  [Inflight] holds the table of
      unacknowledged messages both handlers keep.
    - [Delivery]: [core/delivery_engine.cpp].
    - [World]: the state of the whole broker ([core/context.h], the members of
      [session.h] and [server.h]).
    - [Session]: [session.cpp], every handler.
    - [Closing]: what [close] and [deliver] do, as lemmas for the next files.
    - [Steady]: no packet handler touches a parser, so that the extraction loop
      of [on_read] ends.
    - [Server]: [server.cpp] and the event loop: one event per completion
      handler and timer, [exec] running it, [step] and [reachable] the
      broker's state machine from the start state [initial], with [serving] the
      runs in which no handler has blocked.
    - [Safety]: the invariant of the whole broker and its preservation by every
      handler and event.
    - [Routing]: from a PUBLISH of one session to the output streams of the
      others.
    - [Release]: from a PUBREL or a SUBSCRIBE to the output streams.
    - [Wire]: from bytes on a socket to the handlers: what a read does whatever
      the segmentation, and a PUBLISH from its bytes to the output streams.
    - [Requests]: what CONNECT, UNSUBSCRIBE and PINGREQ do, as whole handlers.
    - [Spec]: an abstract publish/subscribe machine (connected clients, their
      subscriptions, the stored subscriptions, the retained messages, one
      output stream per client) and the bytes of its requests.
    - [Refinement]: the broker refines the machine from start-up on; what holds
      of the machine is carried over to the broker.
    - [Behaviour]: the observable behaviour of sessions.
    - [Mdns]: [mdns/mdns_responder.cpp]: names, datagrams, the response and
      the receive loop.
    - [ConfigLoad]: [config.cpp]: every getter, [load] and [is_valid] over an
      abstract JSON library (class [Json]); [settings] collects the getters into
      the record of [Config].
    - [Admin]: [admin/admin_server.cpp]: the commands, as computations on the
      [World], and the connections, as a state machine of their own.
    - [Logger]: [logger.h], [logger.cpp]; spdlog is the class [Spdlog], with the
      documented behaviour the theorems rely on as [SpdlogLaws].
    - [Broker]: [broker.cpp], [main.cpp] and the constructor, [start] and
      [stop] of [server.cpp]: starting up and shutting down.
    - [UnitTests]: the assertions of the repository's own unit tests
      ([tests/]), evaluated on the definitions.

    ** How code becomes definitions

    A class is a record with the source's member names and a member function a
    definition of the same name in a [Module] named after the class.  A
    mutating member is a computation [M S A], that is [S -> outcome A * S]:
    [Ret], [Throw] (the state reached so far stays, as in C++), [Deadlock] (a
    thread locks a mutex that is taken and never given back) or [Undefined]
    (signed overflow, a conversion out of range, access outside an object, use
    of a destroyed session).  Integers are [Z] with the
    conversions of the code written out ([u8], [u16], [u32], [u64], [i32]).
    [std::unordered_map] is [gmap]; vectors are lists.  A [Session*] is a key
    of the heap [sessions], and a [weak_ptr] locks while its key is there; the
    key of a new session is the number of sessions created before
    ([Server.created]), so that no key is used twice.

    Of asio the model keeps per session whether the socket is open, whether a
    read is outstanding, and the packets given to [async_write]; an event is
    [enabled] only when asio could run its handler.  The packets the QoS
    handlers send are collected and delivered in order ([sender]).  Choices to
    know about:
    - [Session::deliver] runs its body at once, as [dispatch] does on an idle
      strand; handlers are atomic, so that of the thread pool the order of
      handlers remains, but not their overlap, and a handler finds the server
      mutex taken only when another has blocked for ever while holding it;
    - a handler that blocks leaves the state as it is, the mutex included, and
      the others go on ([step]); the pointers on the stack of a blocked worker
      are not counted in [owned], so that the model has more runs than the
      program there; what is undefined has no successor;
    - no call takes the mutex of [TopicTree], of [SubscriptionManager], of a QoS
      handler or of the engine while it holds the same one, and these are not
      represented; the server mutex, which [close] may take while its caller
      holds it, is ([with_lock]);
    - the configured [double] [keepalive_multiplier] is a rational;
    - of TLS there is the handshake with which a session starts; the
      encryption of its reads and writes, and the lifetime of the [Timer]
      objects after their owner is erased, are not represented;
    - the broker's start state [initial] has no null pointer in its context;
      [start_fail_closed] shows that this is what [Broker::run] leaves;
    - the environment of a component is a parameter: [Host] for the start (the
      operating system, OpenSSL, the database), [Json], [dump] and [iterate] for
      the JSON library and the order of an [unordered_map], [parse_v4] for
      dotted addresses, [Spdlog] for the logging library.  What is assumed of
      them are the classes [JsonLaws], [DumpLaws], [IterateLaws] and
      [SpdlogLaws], each with an instance.

    ** Loops

    A loop that is not structural takes fuel, and the result is proved for the
    fuel given: the loops of [split], of the filter lists of SUBSCRIBE and
    UNSUBSCRIBE and of [on_read] get one round more than the bytes there are,
    each round consuming at least one; the remaining-length loops five rounds
    (four octets and the check); the identifier search [id_fuel] = 65535, the
    number of identifiers; [lookup]'s stack loop the number of frames it can
    ever push.  The parsers' and [on_read]'s loops are [Undefined] when they
    run dry, which [parsers_memory_safe] and [broker_defined] exclude; the
    others are pinned down by [allocate_fresh], [tree_lookup_correct],
    [remaining_length_roundtrip] and the equations of [split].  The scans of a
    datagram get one round more than it has octets.  The recursion of the
    responder's [decode_name] is not bounded in the source: its fuel is the
    depth of the stack, [Undefined] stands for a stack overflow, and
    [decode_name_decided] shows that a stack deeper than the datagram is long
    suffices unless the compression pointers run into a cycle, and none does
    then.

    ** What is proved

    - Bytes: a buffer is a byte queue ([buffer_refines_queue]); strings,
      lengths and packets round trip ([string_roundtrip],
      [remaining_length_roundtrip], [publish_roundtrip], [requests_roundtrip],
      [ack_roundtrip], [parse_subscribe_complete]); the parsers stay in bounds
      ([parsers_memory_safe]).
    - Framing: however the stream is cut, the frames come out
      ([parser_framing]); memory is bounded and errors are final
      ([parser_buffer_bounded], [parser_errors_final]); what is extracted is
      what its header says ([extracted_packet_header]).
    - Topics: [matches] and [is_valid_filter] decide the wildcard rules; the
      tree refines a map from filters to lists of subscribers, which [subscribe]
      appends to or updates in place and [unsubscribe] filters; its [lookup] returns
      every matching entry once ([tree_lookup_correct],
      [tree_refines_filter_map], [subscribe_at_most_once]); retained messages
      refine a bounded map ([retained_refines_map],
      [retained_count_exact_bounded]); persistent subscriptions refine a map.
    - Access: decisions of [authenticate] and [check_acl] while the database
      answers, and by the cache for its lifetime ([authenticate_decision],
      [acl_decision]).
    - Delivery: identifiers are fresh ([allocate_fresh]), the in-flight tables
      consistent ([qos1_invariant], [qos2_invariant]), QoS 1 delivers to
      everyone and retries boundedly ([qos1_deliver_complete],
      [qos1_retry_bounded], [qos1_puback_exact]), QoS 2 follows the handshake
      on both sides, and a PUBLISH is not repeated once PUBREC has come
      ([qos2_message_steps], [qos2_exactly_once], [qos2_exchange],
      [incoming_at_most_once], [incoming_release]); timers fire at most once
      per start.
    - Routing: an admitted publication reaches the output streams of its
      subscribers, exactly once per packet and in order ([publish_routed],
      [qos0_reaches_matching]), a QoS 2 publication when its PUBREL releases it
      ([qos2_end_to_end]), and a new subscription is sent the retained messages
      ([subscription_served]).
    - Requests: the read handler runs the packet handlers on the frames that
      are complete, in order ([read_handles_frames]); a PUBLISH from its bytes
      to the streams ([publish_over_wire]); an accepted CONNECT, which restores
      exactly the stored subscriptions ([connect_accepted]), and an UNSUBSCRIBE ([unsubscribe_served]).
    - The contract: every run of the broker in which clients connect,
      subscribe, publish at QoS 0, ping, leave and are lost, with any
      interleaving of accepts, handshakes and write completions, is a run of
      the machine of [Spec] ([broker_refines_machine]); a subscriber receives
      what it subscribed to ([subscriber_receives]), and a persistent session
      that comes back is served again ([session_resumed]).  In these runs
      ([wire_run]) CONNECTs are admitted, with a client id nobody is connected
      under, filters are subscribed to one at a time, every request is one frame
      in one segment, and queues have room; refused and takeover CONNECTs,
      publications at QoS 1 and 2, retries, and segments cut otherwise are the
      subject of the other theorems.
    - The broker: the invariant [world_wf] in every reachable state, also
      after a handler has blocked, and the mutex free exactly before one has
      ([broker_invariant]); every enabled event is defined under settings
      whose limits an [int] holds ([broker_defined], [settings_ok]); and there are never more sessions than
      [max_connections] ([connections_bounded]); sessions keep packets in
      order, ignore everything before CONNECT, drop refused publications,
      answer SUBSCRIBE filter by filter and ban addresses ([auth_ban], over the
      whole handler of CONNECT).  A
      session hands over what it queued ([queue_drains]).
    - Configuration and start: [load] accepts exactly the sound documents, by
      the values they hold before clamping and narrowing
      ([load_accepts_sound]), an empty one gives the documented defaults
      ([defaults_documented], [default_start]); the broker starts as configured
      or not at all ([start_fail_closed]), and for every configuration the
      settings it reads are within [int] ([serving_settings]).
    - Admin endpoint: commands only read ([admin_reads_only]) and report what is
      there ([clients_reported], [client_reported]); one response per connection
      ([admin_connections]).
    - Announcement: queries are answered exactly ([query_answered]) with a
      response that can be read back ([response_readable]); decoding and the
      handler are safe on datagrams without pointers ([receive_defined]).
    - Logging: exactly the messages at or above the configured level reach the
      sinks, in order, until [shutdown] ([logger_filters]); a second [init]
      throws ([second_init_throws]).
    - What the code does otherwise than it means to, as theorems:
      [takeover_deadlocks], [full_broker_stays_full], [will_ignored],
      [reconnect_releases_twice], [connected_session_never_destroyed],
      [partial_connect_stalls],
      [disconnect_leaks], [refused_connect_silent], [stray_pubrel],
      [pool_leak], [clean_session_subscriptions_stay],
      [cleared_retained_stays], [matchers_disagree_on_parent_level],
      [trailing_slash_collapses], [remaining_length_fifth_octet_overflows],
      [qos1_ignores_granted_qos], [qos2_downgrade_id_zero],
      [write_rule_grants_read], [pointer_loop_crashes],
      [responders_never_stop], [capitals_not_resolved],
      [mdns_announces_loopback], [admin_crash], [admin_tls_dropped],
      [signal_shutdown_fails], [failed_handshake_keeps_count], [port_wraps],
      [limits_unchecked], [keepalive_conversion_undefined], [pool_clamped].

    ** Not modelled

    What spdlog, the JSON library, PostgreSQL, OpenSSL, asio and the operating
    system do inside, which are parameters or events; the texts of the log
    messages and where they are logged; the encryption of TLS streams; the
    overlap of handlers on several workers, beyond the joins of [shutdown];
    the execution of the worker threads, of which [run] leaves the list; the
    Python clients under [ClientPy/], which are not part of the broker. *)

From Stdlib Require Import Strings.Byte Strings.String Strings.Ascii ZArith Lia.
From stdpp Require Import base list strings numbers gmap option fin_maps.

#[export] Set Default Goal Selector "!".
Global Generalizable All Variables.

(** ** Machine integers

    A C++ integer of width [w] is a [Z]; the conversions the source performs
    (explicit [static_cast], implicit promotions on assignment) are the
    functions below. *)

Open Scope Z_scope.

(** Conversion to [uint8_t], [uint16_t], [uint32_t] and [size_t] (64 bits). *)
Definition u8 (z : Z) : Z := z mod 2 ^ 8.
Definition u16 (z : Z) : Z := z mod 2 ^ 16.
Definition u32 (z : Z) : Z := z mod 2 ^ 32.
Definition u64 (z : Z) : Z := z mod 2 ^ 64.

(** Conversion to [int] (two's complement, 32 bits). *)
Definition i32 (z : Z) : Z := (z + 2 ^ 31) mod 2 ^ 32 - 2 ^ 31.

(** The range of [int]: signed arithmetic that leaves it is undefined. *)
Definition int_fits (z : Z) : bool := (- 2 ^ 31 <=? z) && (z <? 2 ^ 31).

(** ** Bytes and strings

    [uint8_t] in a buffer is [Byte.byte]; [std::string] is [string]. *)

Abbreviation byte := Byte.byte.

Definition Z_of_byte (b : byte) : Z := Z.of_N (Byte.to_N b).

(** [static_cast<uint8_t>(z)]. *)
Definition byte_of_Z (z : Z) : byte :=
  match Byte.of_N (Z.to_N (u8 z)) with Some b => b | None => Byte.x00 end.

(** The bytes of a [std::string], and the string of a byte range. *)
Abbreviation string_bytes := String.list_byte_of_string.
Abbreviation bytes_string := String.string_of_list_byte.

#[export] Instance byte_eq_dec : EqDecision byte := Byte.byte_eq_dec.
#[export] Instance byte_inhabited : Inhabited byte := populate Byte.x00.

(** ** Effects

    A member function that mutates an object of type [S] is a computation
    [M S A]: it ends in an [outcome] and leaves a state behind, also when it
    throws (C++ has no rollback).  [Deadlock] is a thread that locks a
    non-recursive mutex it already holds; [Undefined] is undefined behaviour
    (signed overflow, a read outside an object). *)

Inductive exn : Type :=
| out_of_range (what : string)
| runtime_error (what : string)
| broken_connection.

Inductive outcome (A : Type) : Type :=
| Ret (a : A)
| Throw (e : exn)
| Deadlock
| Undefined.

Arguments Ret {A} a.
Arguments Throw {A} e.
Arguments Deadlock {A}.
Arguments Undefined {A}.

Definition M (S A : Type) : Type := S -> outcome A * S.

#[export] Instance M_ret S : MRet (M S) := fun A a s => (Ret a, s).

#[export] Instance M_bind S : MBind (M S) := fun A B k m s =>
  match m s with
  | (Ret a, s') => k a s'
  | (Throw e, s') => (Throw e, s')
  | (Deadlock, s') => (Deadlock, s')
  | (Undefined, s') => (Undefined, s')
  end.

Definition throw {S A} (e : exn) : M S A := fun s => (Throw e, s).
Definition undefined {S A} : M S A := fun s => (Undefined, s).
Definition deadlock {S A} : M S A := fun s => (Deadlock, s).
Definition get {S} : M S S := fun s => (Ret s, s).
Definition gets {S A} (f : S -> A) : M S A := fun s => (Ret (f s), s).
Definition modify {S} (f : S -> S) : M S unit := fun s => (Ret tt, f s).

(** [try { m } catch (const std::exception& e) { h(e) }]. *)
Definition try_catch {S A} (m : M S A) (h : exn -> M S A) : M S A := fun s =>
  match m s with
  | (Throw e, s') => h e s'
  | r => r
  end.

(** [for (x : l) f(x)]. *)
Fixpoint for_each {S A} (l : list A) (f : A -> M S unit) : M S unit :=
  match l with
  | [] => mret tt
  | x :: l' => f x ≫= fun _ => for_each l' f
  end.

Notation "m1 ;; m2" := (m1 ≫= fun _ => m2)
  (at level 100, m2 at level 200, right associativity,
   format "m1 ;;  '/' m2") : stdpp_scope.

(** A sequence that returned: both parts did. *)
Lemma bind_ret_inv {S A B} (m : M S A) (k : A -> M S B) s b s' :
  (m ≫= k) s = (Ret b, s') -> exists a s1, m s = (Ret a, s1) /\ k a s1 = (Ret b, s').
Proof.
  unfold mbind, M_bind. destruct (m s) as [[a|e| |] s1]; try done. by eauto.
Qed.

(** ** Tactics *)

(** Split every [if] of the goal and of the hypotheses on its test, turning
    the boolean tests on [Z] and [nat] into propositions. *)
Ltac case_if :=
  match goal with
  | |- context [if ?b then _ else _] => destruct b eqn:?
  | H : context [if ?b then _ else _] |- _ => destruct b eqn:?
  end.

Ltac tests_to_props :=
  repeat match goal with
  | H : (_ && _)%bool = true |- _ => apply andb_prop in H; destruct H
  | H : (_ && _)%bool = false |- _ => apply andb_false_iff in H
  | H : (_ || _)%bool = false |- _ => apply orb_false_iff in H; destruct H
  | H : (_ || _)%bool = true |- _ => apply orb_true_iff in H
  | H : negb _ = true |- _ => apply negb_true_iff in H
  | H : negb _ = false |- _ => apply negb_false_iff in H
  | H : (_ <? _)%Z = true |- _ => apply Z.ltb_lt in H
  | H : (_ <? _)%Z = false |- _ => apply Z.ltb_ge in H
  | H : (_ <=? _)%Z = true |- _ => apply Z.leb_le in H
  | H : (_ <=? _)%Z = false |- _ => apply Z.leb_gt in H
  | H : (_ =? _)%Z = true |- _ => apply Z.eqb_eq in H
  | H : (_ =? _)%Z = false |- _ => apply Z.eqb_neq in H
  | H : (_ <? _)%nat = true |- _ => apply Nat.ltb_lt in H
  | H : (_ <? _)%nat = false |- _ => apply Nat.ltb_ge in H
  | H : (_ <=? _)%nat = true |- _ => apply Nat.leb_le in H
  | H : (_ <=? _)%nat = false |- _ => apply Nat.leb_gt in H
  | H : (_ =? _)%nat = true |- _ => apply Nat.eqb_eq in H
  | H : (_ =? _)%nat = false |- _ => apply Nat.eqb_neq in H
  | H : bool_decide _ = true |- _ => apply bool_decide_eq_true in H
  | H : bool_decide _ = false |- _ => apply bool_decide_eq_false in H
  end.

(** Decide the boolean test in the goal by arithmetic. *)
Ltac rewrite_test b v :=
  replace b with v by
    (symmetry;
     first [ apply Z.ltb_lt | apply Z.ltb_ge | apply Z.leb_le | apply Z.leb_gt
           | apply Z.eqb_eq | apply Z.eqb_neq
           | apply Nat.ltb_lt | apply Nat.ltb_ge | apply Nat.leb_le
           | apply Nat.leb_gt | apply Nat.eqb_eq | apply Nat.eqb_neq ]; lia).

(** ** Lemmas on machine integers and bytes *)

Lemma u8_range z : 0 <= u8 z < 256.
Proof. unfold u8. apply Z.mod_pos_bound. lia. Qed.

Lemma u16_range z : 0 <= u16 z < 65536.
Proof. unfold u16. apply Z.mod_pos_bound. lia. Qed.

Lemma u16_small z : 0 <= z < 65536 -> u16 z = z.
Proof. intros. unfold u16. apply Z.mod_small. lia. Qed.

Lemma u32_small z : 0 <= z < 2 ^ 32 -> u32 z = z.
Proof. intros. unfold u32. apply Z.mod_small. lia. Qed.

Lemma u64_small z : 0 <= z < 2 ^ 64 -> u64 z = z.
Proof. intros. unfold u64. apply Z.mod_small. lia. Qed.

Lemma i32_small z : - 2 ^ 31 <= z < 2 ^ 31 -> i32 z = z.
Proof. intros. unfold i32. rewrite Z.mod_small; lia. Qed.

Lemma Z_of_byte_range b : 0 <= Z_of_byte b < 256.
Proof.
  unfold Z_of_byte. pose proof (Byte.to_N_bounded b). lia.
Qed.

Lemma Z_of_byte_inj b1 b2 : Z_of_byte b1 = Z_of_byte b2 -> b1 = b2.
Proof.
  unfold Z_of_byte. intros H%N2Z.inj.
  pose proof (Byte.of_to_N b1). pose proof (Byte.of_to_N b2). congruence.
Qed.

Lemma Z_of_byte_of_Z z : Z_of_byte (byte_of_Z z) = u8 z.
Proof.
  unfold byte_of_Z, Z_of_byte. pose proof (u8_range z).
  destruct (Byte.of_N (Z.to_N (u8 z))) as [b|] eqn:E.
  - apply Byte.to_of_N in E. rewrite E. lia.
  - apply Byte.of_N_None_iff in E. lia.
Qed.

Lemma byte_of_Z_of_byte b : byte_of_Z (Z_of_byte b) = b.
Proof.
  apply Z_of_byte_inj. rewrite Z_of_byte_of_Z. unfold u8.
  apply Z.mod_small, Z_of_byte_range.
Qed.

Lemma Z_of_byte_of_Z_small z : 0 <= z < 256 -> Z_of_byte (byte_of_Z z) = z.
Proof. intros. rewrite Z_of_byte_of_Z. unfold u8. apply Z.mod_small. lia. Qed.

(** A boolean property of octets is settled by evaluating it on all of them. *)
Lemma below_256 (P : Z -> bool) :
  forallb P (seqZ 0 256) = true -> forall z, 0 <= z < 256 -> P z = true.
Proof.
  intros HP z Hz. rewrite forallb_forall in HP. apply HP.
  apply list_elem_of_In, elem_of_seqZ. lia.
Qed.

(** The low seven bits and the continuation bit of an octet. *)
Lemma land_7f z : Z.land z 0x7F = z mod 128.
Proof. change 0x7F with (Z.ones 7). rewrite Z.land_ones by lia. reflexivity. Qed.

Lemma land_80 z : 0 <= z < 256 -> (Z.land z 0x80 =? 0) = (z <? 128).
Proof.
  intros H. apply eqb_prop.
  apply (below_256 (fun z => Bool.eqb (Z.land z 0x80 =? 0) (z <? 128)));
    [vm_compute; reflexivity | done].
Qed.

(** Setting the continuation bit on a seven-bit value adds 128. *)
Lemma lor_80 z : 0 <= z < 128 -> Z.lor z 0x80 = z + 128.
Proof.
  intros H. pose proof (Z.add_lor_land z 0x80).
  assert (Z.land z 0x80 = 0); [|lia].
  apply Z.eqb_eq. rewrite land_80 by lia. apply Z.ltb_lt. lia.
Qed.

Lemma land_ff z : Z.land z 0xFF = z mod 256.
Proof. change 0xFF with (Z.ones 8). rewrite Z.land_ones by lia. reflexivity. Qed.

(** A big-endian pair of octets. *)
Lemma lor_shiftl_8 a b : 0 <= a -> 0 <= b < 256 -> Z.lor (Z.shiftl a 8) b = a * 256 + b.
Proof.
  intros Ha Hb. pose proof (Z.add_lor_land (Z.shiftl a 8) b) as E.
  rewrite Z.shiftl_mul_pow2 in * by lia.
  assert (Z.land (a * 2 ^ 8) b = 0); [|lia].
  apply Z.bits_inj'. intros n Hn. rewrite Z.land_spec, Z.bits_0.
  destruct (Z.ltb_spec n 8).
  - rewrite Z.mul_pow2_bits_low by lia. done.
  - assert (Z.testbit b n = false) as ->; [|apply andb_false_r].
    destruct (Z.eq_dec b 0) as [->|]; [apply Z.bits_0|].
    apply Z.bits_above_log2; [lia|].
    assert (Z.log2 b < 8); [|lia]. apply Z.log2_lt_pow2; lia.
Qed.

(** ** Lemmas on strings *)

Lemma length_string_bytes s : length (string_bytes s) = String.length s.
Proof.
  unfold String.list_byte_of_string. rewrite length_map. induction s; simpl; congruence.
Qed.

Lemma bytes_string_bytes s : bytes_string (string_bytes s) = s.
Proof. apply String.string_of_list_byte_of_string. Qed.

(** ** Lemmas on lists *)

(** Writing [k] into [l] at [i], seen up to its end. *)
Lemma take_list_inserts {A} (i : nat) (k l : list A) :
  (i + length k <= length l)%nat ->
  take (i + length k) (list_inserts i k l) = take i l ++ k.
Proof.
  intros H. rewrite <- (take_drop i l) at 1.
  rewrite <- (take_drop (length k) (drop i l)).
  assert (Hi : length (take i l) = i) by (rewrite length_take; lia).
  assert (Hk : length (take (length k) (drop i l)) = length k)
    by (rewrite length_take, length_drop; lia).
  rewrite <- Hi at 2. rewrite <- (Nat.add_0_r (length (take i l))).
  rewrite list_inserts_app_r, list_inserts_0_r by done.
  rewrite app_assoc, take_app_length'; [done|]. rewrite length_app, Hi. done.
Qed.
