(* ===== verification/Buffer.v ===== *)
(** * The byte buffer ([src/utils/buffer.h], [src/utils/buffer.cpp])

    [Buffer] is a growable byte vector with a read and a write cursor.  The
    operations below are the member functions, one definition each; the ones
    that throw are computations in [M Buffer].  The abstract view is the
    queue of unread bytes [unread]: writing appends to it, reading takes a
    prefix of it or throws.  [consumes] packages this for the packet parsers:
    a reader that consumes exactly the bytes [bs] and returns [a].

    [size_t] cursors are [nat]: a vector holds fewer than [2^63] bytes and the
    lengths added to a cursor are at most [2^32], so the sums never wrap. *)

From Stdlib Require Import Strings.Byte Strings.String ZArith Lia.
From stdpp Require Import base list strings numbers gmap option.
From S2P Require Import Prelude.

Open Scope Z_scope.

Record Buffer : Type := mkBuffer {
  data_ : list byte;
  read_pos_ : nat;
  write_pos_ : nat
}.

Module Buffer.

(** [Buffer()], [Buffer(reserve_size)] and [Buffer(data, len)]. *)
Definition init : Buffer := mkBuffer [] 0 0.

Definition reserved (reserve_size : nat) : Buffer := mkBuffer [] 0 0.

Definition of_bytes (bs : list byte) : Buffer := mkBuffer bs 0 (length bs).

(** [Buffer::write]: grow when the tail is too short, then [memcpy]. *)
Definition write (src : list byte) (b : Buffer) : Buffer :=
  let len := length src in
  let d := if (length (data_ b) <? write_pos_ b + len)%nat
           then resize (write_pos_ b + len) Byte.x00 (data_ b)
           else data_ b in
  mkBuffer (list_inserts (write_pos_ b) src d) (read_pos_ b) (write_pos_ b + len).

(** [Buffer::read]. *)
Definition read (len : nat) : M Buffer (list byte) := fun b =>
  if (write_pos_ b <? read_pos_ b + len)%nat
  then (Throw (out_of_range "Buffer underflow"), b)
  else (Ret (take len (drop (read_pos_ b) (data_ b))),
        mkBuffer (data_ b) (read_pos_ b + len) (write_pos_ b)).

Definition write_byte (x : byte) (b : Buffer) : Buffer := write [x] b.

Definition read_byte : M Buffer byte :=
  bs ← read 1; mret (default Byte.x00 (head bs)).

(** Big-endian 16-bit integers. *)
Definition uint16_bytes (v : Z) : list byte :=
  [byte_of_Z (Z.land (Z.shiftr v 8) 0xFF); byte_of_Z (Z.land v 0xFF)].

Definition uint16_of_bytes (bs : list byte) : Z :=
  u16 (Z.lor (Z.shiftl (Z_of_byte (default Byte.x00 (bs !! 0%nat))) 8)
             (Z_of_byte (default Byte.x00 (bs !! 1%nat)))).

Definition write_uint16 (v : Z) (b : Buffer) : Buffer := write (uint16_bytes v) b.

Definition read_uint16 : M Buffer Z :=
  bs ← read 2; mret (uint16_of_bytes bs).

(** Length-prefixed strings: the prefix is [static_cast<uint16_t>(s.size())]. *)
Definition write_string (s : string) (b : Buffer) : Buffer :=
  write (string_bytes s) (write_uint16 (u16 (Z.of_nat (String.length s))) b).

Definition read_string : M Buffer string :=
  len ← read_uint16;
  bs ← read (Z.to_nat len);
  mret (bytes_string bs).

(** [Buffer::write_remaining_length]: the [do ... while] loop on a
    [uint32_t]; five rounds exhaust any such value ([2^32 <= 128^5]). *)
Fixpoint write_remaining_length_loop (fuel : nat) (v : Z) (b : Buffer) : Buffer :=
  match fuel with
  | O => b
  | S fuel =>
      let enc := v mod 128 in
      let v := v / 128 in
      let enc := if 0 <? v then Z.lor enc 0x80 else enc in
      let b := write_byte (byte_of_Z enc) b in
      if 0 <? v then write_remaining_length_loop fuel v b else b
  end.

Definition write_remaining_length (v : Z) (b : Buffer) : Buffer :=
  write_remaining_length_loop 5 v b.

(** [Buffer::read_remaining_length]: [multiplier] is a signed [int], so the
    two products are undefined outside its range; [value] is a [uint32_t].
    The fifth round always ends the loop. *)
Fixpoint read_remaining_length_loop (fuel : nat) (value multiplier count : Z)
  : M Buffer Z :=
  match fuel with
  | O => undefined
  | S fuel =>
      b ← get;
      if (write_pos_ b <=? read_pos_ b)%nat
      then throw (out_of_range "Incomplete remaining length")
      else
        enc ← read_byte;
        let enc := Z_of_byte enc in
        let product := Z.land enc 0x7F * multiplier in
        if negb (int_fits product) then undefined else
        let value := u32 (value + product) in
        if negb (int_fits (multiplier * 128)) then undefined else
        let multiplier := multiplier * 128 in
        let count := count + 1 in
        if 4 <? count then throw (runtime_error "Malformed remaining length")
        else if Z.land enc 0x80 =? 0 then mret value
        else read_remaining_length_loop fuel value multiplier count
  end.

Definition read_remaining_length : M Buffer Z := read_remaining_length_loop 5 0 1 0.

(** Cursor operations. *)
Definition skip (n : nat) : M Buffer unit := fun b =>
  if (write_pos_ b <? read_pos_ b + n)%nat
  then (Throw (out_of_range "Buffer skip underflow"), b)
  else (Ret tt, mkBuffer (data_ b) (read_pos_ b + n) (write_pos_ b)).

Definition clear (b : Buffer) : Buffer := mkBuffer [] 0 0.

Definition readable (b : Buffer) : nat := (write_pos_ b - read_pos_ b)%nat.
Definition writable (b : Buffer) : nat := (length (data_ b) - write_pos_ b)%nat.
Definition empty (b : Buffer) : bool := (readable b =? 0)%nat.
Definition size (b : Buffer) : nat := write_pos_ b.
Definition read_position (b : Buffer) : nat := read_pos_ b.

Definition set_read_position (pos : nat) : M Buffer unit := fun b =>
  if (write_pos_ b <? pos)%nat
  then (Throw (out_of_range "Invalid read position"), b)
  else (Ret tt, mkBuffer (data_ b) pos (write_pos_ b)).

Definition write_capacity (b : Buffer) : nat := (length (data_ b) - write_pos_ b)%nat.

Definition ensure_writable (n : nat) (b : Buffer) : Buffer :=
  if (length (data_ b) <? write_pos_ b + n)%nat
  then mkBuffer (resize (write_pos_ b + n) Byte.x00 (data_ b)) (read_pos_ b) (write_pos_ b)
  else b.

Definition advance_write (n : nat) : M Buffer unit := fun b =>
  if (length (data_ b) <? write_pos_ b + n)%nat
  then (Throw (out_of_range "Buffer advance overflow"), b)
  else (Ret tt, mkBuffer (data_ b) (read_pos_ b) (write_pos_ b + n)).

(** [Buffer(p + pos, len)] for a pointer [p] into the vector [d]: the copy
    reads [len] bytes whatever the size of [d]. *)
Definition from_ptr {S} (d : list byte) (pos len : nat) : M S Buffer :=
  if (length d <? pos + len)%nat then undefined
  else mret (of_bytes (take len (drop pos d))).

End Buffer.

(** The bytes [data()..data()+size()] that a caller copies out of a buffer. *)
Definition contents (b : Buffer) : list byte := take (write_pos_ b) (data_ b).

(** ** The abstract view *)

Definition buffer_wf (b : Buffer) : Prop :=
  (read_pos_ b <= write_pos_ b)%nat /\ (write_pos_ b <= length (data_ b))%nat.

Definition unread (b : Buffer) : list byte := drop (read_pos_ b) (contents b).

(** Moving the read cursor, the only effect of a successful reader. *)
Definition advance (n : nat) (b : Buffer) : Buffer :=
  mkBuffer (data_ b) (read_pos_ b + n) (write_pos_ b).

(** The remaining-length encoding as a function on values. *)
Fixpoint remaining_length_bytes_loop (fuel : nat) (v : Z) : list byte :=
  match fuel with
  | O => []
  | S fuel =>
      if v <? 128 then [byte_of_Z v]
      else byte_of_Z (v mod 128 + 128) :: remaining_length_bytes_loop fuel (v / 128)
  end.

Definition remaining_length_bytes (v : Z) : list byte := remaining_length_bytes_loop 5 v.

Definition string_field (s : string) : list byte :=
  Buffer.uint16_bytes (u16 (Z.of_nat (String.length s))) ++ string_bytes s.

(** The reader [m] consumes exactly [bs], whatever follows, and returns [a]. *)
Definition consumes {A} (m : M Buffer A) (bs : list byte) (a : A) : Prop :=
  forall b rest, buffer_wf b -> unread b = bs ++ rest -> m b = (Ret a, advance (length bs) b).

(** The reader [m] is memory safe on every well-formed buffer: it returns
    after moving the read cursor within the written bytes, or throws. *)
Definition safe_reader {A} (m : M Buffer A) : Prop :=
  forall b, buffer_wf b ->
  match m b with
  | (Ret _, b') => exists n, (n <= length (unread b))%nat /\ b' = advance n b
  | (Throw _, b') => buffer_wf b'
  | _ => False
  end.

(** The buffers a program can build with the member functions. *)
Inductive buffer_reachable : Buffer -> Prop :=
| reach_init : buffer_reachable Buffer.init
| reach_reserved n : buffer_reachable (Buffer.reserved n)
| reach_of_bytes bs : buffer_reachable (Buffer.of_bytes bs)
| reach_write src b : buffer_reachable b -> buffer_reachable (Buffer.write src b)
| reach_write_string s b : buffer_reachable b -> buffer_reachable (Buffer.write_string s b)
| reach_write_remaining_length v b :
    buffer_reachable b -> buffer_reachable (Buffer.write_remaining_length v b)
| reach_read n b : buffer_reachable b -> buffer_reachable (Buffer.read n b).2
| reach_read_string b : buffer_reachable b -> buffer_reachable (Buffer.read_string b).2
| reach_read_remaining_length b :
    buffer_reachable b -> buffer_reachable (Buffer.read_remaining_length b).2
| reach_skip n b : buffer_reachable b -> buffer_reachable (Buffer.skip n b).2
| reach_clear b : buffer_reachable b -> buffer_reachable (Buffer.clear b)
| reach_set_read_position pos b :
    buffer_reachable b -> buffer_reachable (Buffer.set_read_position pos b).2
| reach_ensure_writable n b :
    buffer_reachable b -> buffer_reachable (Buffer.ensure_writable n b)
| reach_advance_write n b :
    buffer_reachable b -> buffer_reachable (Buffer.advance_write n b).2.

(** ** Refinement: the operations on the queue of unread bytes *)

Lemma length_unread b : buffer_wf b -> length (unread b) = Buffer.readable b.
Proof.
  intros [H1 H2]. unfold unread, contents, Buffer.readable.
  rewrite length_drop, length_take. lia.
Qed.

Lemma length_contents b : buffer_wf b -> length (contents b) = Buffer.size b.
Proof. intros [H1 H2]. unfold contents, Buffer.size. rewrite length_take. lia. Qed.

(** Writing keeps the invariant and appends to the unread bytes. *)
Lemma write_wf src b : buffer_wf b -> buffer_wf (Buffer.write src b).
Proof.
  intros [H1 H2]. split; simpl; [lia|].
  rewrite length_inserts. case_if; tests_to_props; [rewrite length_resize|]; lia.
Qed.

Lemma contents_write src b :
  buffer_wf b -> contents (Buffer.write src b) = contents b ++ src.
Proof.
  intros [H1 H2]. unfold contents, Buffer.write; simpl.
  case_if; tests_to_props.
  - rewrite take_list_inserts by (rewrite length_resize; lia).
    rewrite take_resize_le, resize_le by lia. done.
  - rewrite take_list_inserts by lia. done.
Qed.

Lemma unread_write src b :
  buffer_wf b -> unread (Buffer.write src b) = unread b ++ src.
Proof.
  intros H. pose proof H as [H1 H2]. unfold unread. rewrite contents_write by done. simpl.
  rewrite drop_app_le; [done|]. rewrite length_contents by done. unfold Buffer.size. lia.
Qed.

Lemma of_bytes_wf bs : buffer_wf (Buffer.of_bytes bs).
Proof. split; simpl; lia. Qed.

Lemma contents_of_bytes bs : contents (Buffer.of_bytes bs) = bs.
Proof. unfold contents; simpl. apply firstn_all. Qed.

Lemma unread_of_bytes bs : unread (Buffer.of_bytes bs) = bs.
Proof. unfold unread. rewrite contents_of_bytes. done. Qed.

Lemma init_wf : buffer_wf Buffer.init.
Proof. split; simpl; lia. Qed.

Lemma advance_wf n b :
  buffer_wf b -> (n <= length (unread b))%nat -> buffer_wf (advance n b).
Proof.
  intros H Hn. rewrite length_unread in Hn by done. destruct H.
  unfold Buffer.readable in Hn. split; simpl; lia.
Qed.

Lemma unread_advance n b : unread (advance n b) = drop n (unread b).
Proof. unfold unread, advance, contents; simpl. rewrite drop_drop. done. Qed.

Lemma advance_advance n m b : advance m (advance n b) = advance (n + m) b.
Proof. unfold advance; simpl. f_equal. lia. Qed.

(** Reading [n] bytes takes the first [n] unread ones, or throws and leaves
    the buffer as it was. *)
Lemma read_spec n b :
  buffer_wf b ->
  Buffer.read n b =
    if (length (unread b) <? n)%nat
    then (Throw (out_of_range "Buffer underflow"), b)
    else (Ret (take n (unread b)), advance n b).
Proof.
  intros H. rewrite length_unread by done. destruct H as [H1 H2].
  unfold Buffer.read, Buffer.readable.
  replace (write_pos_ b - read_pos_ b <? n)%nat with (write_pos_ b <? read_pos_ b + n)%nat
    by (destruct (Nat.ltb_spec (write_pos_ b) (read_pos_ b + n));
        destruct (Nat.ltb_spec (write_pos_ b - read_pos_ b) n); lia).
  destruct (Nat.ltb_spec (write_pos_ b) (read_pos_ b + n)); [done|].
  f_equal. f_equal. unfold unread, contents.
  rewrite skipn_firstn_comm, take_take. f_equal. lia.
Qed.

(** ** Readers that consume a known prefix *)

Lemma consumes_ret {A} (a : A) : consumes (mret a) [] a.
Proof.
  intros b rest _ _. unfold advance; simpl. rewrite Nat.add_0_r. by destruct b.
Qed.

Lemma consumes_bind {A B} (m : M Buffer A) (k : A -> M Buffer B) bs1 bs2 a v :
  consumes m bs1 a -> consumes (k a) bs2 v -> consumes (m ≫= k) (bs1 ++ bs2) v.
Proof.
  intros Hm Hk b rest Hwf Hb. rewrite <- app_assoc in Hb.
  unfold mbind, M_bind. rewrite (Hm b (bs2 ++ rest)) by done.
  rewrite (Hk _ rest).
  - rewrite advance_advance, length_app. done.
  - apply advance_wf; [done|]. rewrite Hb, length_app. lia.
  - rewrite unread_advance, Hb, drop_app_length. done.
Qed.

(** The last step of a reader that returns without reading. *)
Lemma consumes_map {A B} (m : M Buffer A) (f : A -> B) bs a :
  consumes m bs a -> consumes (m ≫= fun x => mret (f x)) bs (f a).
Proof.
  intros H. rewrite <- (app_nil_r bs). eapply consumes_bind; [done|].
  apply consumes_ret.
Qed.

Lemma consumes_read bs n : n = length bs -> consumes (Buffer.read n) bs bs.
Proof.
  intros -> b rest Hwf Hb. rewrite read_spec by done. rewrite Hb, length_app.
  rewrite_test (length bs + length rest <? length bs)%nat false.
  rewrite take_app_length. done.
Qed.

Lemma consumes_read_byte x : consumes Buffer.read_byte [x] x.
Proof.
  apply (consumes_map (Buffer.read 1) (fun bs => default Byte.x00 (head bs)) [x] [x]).
  by apply consumes_read.
Qed.

Lemma uint16_of_bytes_bytes v :
  0 <= v < 65536 -> Buffer.uint16_of_bytes (Buffer.uint16_bytes v) = v.
Proof.
  intros H. unfold Buffer.uint16_of_bytes, Buffer.uint16_bytes; simpl.
  rewrite !land_ff, !Z_of_byte_of_Z, Z.shiftr_div_pow2 by lia. unfold u8.
  change (2 ^ 8) with 256. rewrite !Z.mod_mod by lia.
  rewrite lor_shiftl_8 by (apply Z.mod_pos_bound || (pose proof (Z.mod_pos_bound (v / 256) 256)); lia).
  rewrite (Z.mod_small (v / 256)).
  - rewrite u16_small; pose proof (Z.div_mod v 256); lia.
  - split; [apply Z.div_pos; lia|]. apply Z.div_lt_upper_bound; lia.
Qed.

Lemma consumes_read_uint16 v :
  0 <= v < 65536 -> consumes Buffer.read_uint16 (Buffer.uint16_bytes v) v.
Proof.
  intros H. rewrite <- (uint16_of_bytes_bytes v) at 2 by done.
  apply (consumes_map (Buffer.read 2) Buffer.uint16_of_bytes). by apply consumes_read.
Qed.

Lemma consumes_read_string s :
  Z.of_nat (String.length s) < 65536 -> consumes Buffer.read_string (string_field s) s.
Proof.
  intros H. unfold string_field, Buffer.read_string.
  eapply consumes_bind; [apply consumes_read_uint16, u16_range|].
  rewrite u16_small, Nat2Z.id by lia.
  rewrite <- (bytes_string_bytes s) at 3.
  apply (consumes_map (Buffer.read (String.length s)) bytes_string).
  apply consumes_read. by rewrite length_string_bytes.
Qed.

(** ** Remaining length *)

Lemma remaining_length_bytes_loop_S k v :
  remaining_length_bytes_loop (S k) v =
    if v <? 128 then [byte_of_Z v]
    else byte_of_Z (v mod 128 + 128) :: remaining_length_bytes_loop k (v / 128).
Proof. reflexivity. Qed.

Lemma write_remaining_length_loop_spec fuel v b :
  0 <= v < 128 ^ Z.of_nat fuel -> buffer_wf b ->
  buffer_wf (Buffer.write_remaining_length_loop fuel v b) /\
  contents (Buffer.write_remaining_length_loop fuel v b) =
    contents b ++ remaining_length_bytes_loop fuel v.
Proof.
  revert v b. induction fuel as [|fuel IH]; intros v b Hv Hwf.
  { simpl. by rewrite app_nil_r. }
  rewrite Nat2Z.inj_succ, Z.pow_succ_r in Hv by lia.
  cbn [Buffer.write_remaining_length_loop remaining_length_bytes_loop].
  pose proof (Z.mod_pos_bound v 128 ltac:(lia)) as Hmod.
  destruct (Z.ltb_spec v 128) as [Hlt|Hge].
  - rewrite Z.div_small, Z.mod_small by lia. simpl.
    split; [by apply write_wf | by apply contents_write].
  - assert (0 < v / 128) by (apply Z.div_str_pos; lia).
    rewrite_test (0 <? v / 128) true. rewrite lor_80 by lia.
    destruct (IH (v / 128) (Buffer.write_byte (byte_of_Z (v mod 128 + 128)) b)) as [Hw Hc].
    { split; [lia|]. apply Z.div_lt_upper_bound; lia. }
    { by apply write_wf. }
    split; [done|]. rewrite Hc. unfold Buffer.write_byte.
    rewrite contents_write by done. by rewrite <- app_assoc.
Qed.

(** One round of the decoder on an octet in the range the encoder emits. *)
Lemma read_remaining_length_round fuel value m count x bs b :
  buffer_wf b -> unread b = x :: bs ->
  0 <= value -> 0 <= m <= 2097152 -> value < m -> count < 4 ->
  Buffer.read_remaining_length_loop (S fuel) value m count b =
    let value' := value + Z_of_byte x mod 128 * m in
    if Z_of_byte x <? 128 then (Ret value', advance 1 b)
    else Buffer.read_remaining_length_loop fuel value' (m * 128) (count + 1) (advance 1 b).
Proof.
  intros Hwf Hb Hv Hm Hvm Hc.
  assert (Hpos : (write_pos_ b <=? read_pos_ b)%nat = false).
  { apply Nat.leb_gt. pose proof (length_unread b Hwf) as Hl. rewrite Hb in Hl.
    unfold Buffer.readable in Hl. simpl in Hl. lia. }
  cbn [Buffer.read_remaining_length_loop]. unfold mbind, M_bind, get at 1.
  rewrite Hpos. rewrite (consumes_read_byte x b bs) by done.
  pose proof (Z_of_byte_range x). pose proof (Z.mod_pos_bound (Z_of_byte x) 128 ltac:(lia)).
  rewrite land_7f, land_80 by done. unfold int_fits.
  assert (0 <= Z_of_byte x mod 128 * m <= 127 * m) by nia.
  rewrite_test (- 2 ^ 31 <=? Z_of_byte x mod 128 * m) true.
  rewrite_test (Z_of_byte x mod 128 * m <? 2 ^ 31) true.
  rewrite_test (- 2 ^ 31 <=? m * 128) true. rewrite_test (m * 128 <? 2 ^ 31) true.
  rewrite_test (4 <? count + 1) false. simpl negb. cbv iota.
  rewrite u32_small by lia.
  destruct (Z_of_byte x <? 128); reflexivity.
Qed.

Lemma read_remaining_length_loop_spec k : forall v value m count b rest,
  0 <= v < 128 ^ Z.of_nat k -> m = 128 ^ count -> count + Z.of_nat k = 4 -> 0 <= count ->
  (k > 0)%nat -> 0 <= value < m -> buffer_wf b ->
  unread b = remaining_length_bytes_loop (S k) v ++ rest ->
  Buffer.read_remaining_length_loop (S k) value m count b =
    (Ret (value + v * m), advance (length (remaining_length_bytes_loop (S k) v)) b).
Proof.
  induction k as [|k IH]; intros v value m count b rest Hv Hm Hk Hc Hk0 Hval Hwf Hb; [lia|].
  rewrite Nat2Z.inj_succ, Z.pow_succ_r in Hv by lia.
  assert (Hm' : 0 <= m <= 2097152).
  { subst m. split; [apply Z.pow_nonneg; lia|]. change 2097152 with (128 ^ 3).
    apply Z.pow_le_mono_r; lia. }
  pose proof (Z.mod_pos_bound v 128 ltac:(lia)) as Hmod.
  rewrite remaining_length_bytes_loop_S in Hb |- *.
  destruct (Z.ltb_spec v 128) as [Hlt|Hge].
  - rewrite (read_remaining_length_round _ _ _ _ (byte_of_Z v) rest) by (done || lia).
    rewrite Z_of_byte_of_Z_small by lia. cbv zeta.
    rewrite_test (v <? 128) true. rewrite Z.mod_small by lia. done.
  - rewrite (read_remaining_length_round _ _ _ _ (byte_of_Z (v mod 128 + 128))
               (remaining_length_bytes_loop (S k) (v / 128) ++ rest)) by (done || lia).
    rewrite Z_of_byte_of_Z_small by lia. cbv zeta.
    rewrite_test (v mod 128 + 128 <? 128) false.
    rewrite Z.add_mod, Z.mod_same, Z.add_0_r, !Z.mod_mod by lia.
    assert (Hdm := Z.div_mod v 128 ltac:(lia)).
    destruct k as [|k].
    { exfalso. change (128 * 128 ^ Z.of_nat 0) with 128 in Hv. lia. }
    rewrite (IH (v / 128) _ _ _ _ rest).
    + rewrite advance_advance. cbn [length]. f_equal. f_equal. lia.
    + split; [apply Z.div_pos; lia|]. apply Z.div_lt_upper_bound; lia.
    + subst m. rewrite Z.pow_add_r by lia. lia.
    + lia.
    + lia.
    + lia.
    + nia.
    + apply advance_wf; [done|]. rewrite Hb. simpl. lia.
    + rewrite unread_advance, Hb. done.
Qed.

(** ** Memory safety of the readers *)

Create HintDb buffer discriminated.

Lemma safe_ret {A} (a : A) : safe_reader (mret a).
Proof.
  intros b Hwf. exists 0%nat. split; [lia|]. unfold advance. rewrite Nat.add_0_r. by destruct b.
Qed.

Lemma safe_throw {A} e : safe_reader (A := A) (throw e).
Proof. intros b Hwf. done. Qed.

Lemma safe_bind {A B} (m : M Buffer A) (k : A -> M Buffer B) :
  safe_reader m -> (forall a, safe_reader (k a)) -> safe_reader (m ≫= k).
Proof.
  intros Hm Hk b Hwf. specialize (Hm b Hwf). unfold mbind, M_bind.
  destruct (m b) as [[a|e| |] b']; try done.
  destruct Hm as (n & Hn & ->).
  assert (Hwf' : buffer_wf (advance n b)) by by apply advance_wf.
  specialize (Hk a _ Hwf'). destruct (k a (advance n b)) as [[v|e| |] b'']; try done.
  destruct Hk as (n' & Hn' & ->). rewrite unread_advance, length_drop in Hn'.
  exists (n + n')%nat. split; [lia | apply advance_advance].
Qed.

Lemma safe_read n : safe_reader (Buffer.read n).
Proof.
  intros b Hwf. rewrite read_spec by done. case_if; tests_to_props; [done|].
  exists n. split; [lia | done].
Qed.

Lemma safe_get {A} (k : Buffer -> M Buffer A) :
  (forall b, safe_reader (k b)) -> safe_reader (get ≫= k).
Proof. intros Hk b Hwf. exact (Hk b b Hwf). Qed.

Lemma safe_if {A} (t : bool) (m1 m2 : M Buffer A) :
  safe_reader m1 -> safe_reader m2 -> safe_reader (if t then m1 else m2).
Proof. by destruct t. Qed.

#[export] Hint Resolve safe_ret safe_throw safe_bind safe_read safe_get safe_if : buffer.

Lemma safe_read_byte : safe_reader Buffer.read_byte.
Proof. apply safe_bind; auto with buffer. Qed.

Lemma safe_read_uint16 : safe_reader Buffer.read_uint16.
Proof. apply safe_bind; auto with buffer. Qed.

#[export] Hint Resolve safe_read_byte safe_read_uint16 : buffer.

Lemma safe_read_string : safe_reader Buffer.read_string.
Proof. apply safe_bind; auto with buffer. Qed.

#[export] Hint Resolve safe_read_string : buffer.

Lemma skip_spec n b :
  buffer_wf b ->
  Buffer.skip n b =
    if (length (unread b) <? n)%nat
    then (Throw (out_of_range "Buffer skip underflow"), b)
    else (Ret tt, advance n b).
Proof.
  intros H. rewrite length_unread by done. destruct H as [H1 H2].
  unfold Buffer.skip, Buffer.readable.
  destruct (Nat.ltb_spec (write_pos_ b) (read_pos_ b + n));
    destruct (Nat.ltb_spec (write_pos_ b - read_pos_ b) n); done || lia.
Qed.

Lemma safe_reader_wf {A} (m : M Buffer A) b :
  safe_reader m -> buffer_wf b -> buffer_wf (m b).2.
Proof.
  intros Hm Hwf. specialize (Hm b Hwf). destruct (m b) as [[a|e| |] b']; try done.
  destruct Hm as (n & Hn & ->). by apply advance_wf.
Qed.

(** The decoder keeps the invariant even on the octets that make it
    overflow. *)
Lemma read_remaining_length_loop_wf fuel value m count b :
  buffer_wf b -> buffer_wf (Buffer.read_remaining_length_loop fuel value m count b).2.
Proof.
  revert value m count b. induction fuel as [|fuel IH]; intros value m count b Hwf; [done|].
  cbn [Buffer.read_remaining_length_loop]. unfold mbind, M_bind, get.
  destruct (_ <=? _)%nat; [done|].
  pose proof (safe_reader_wf _ b safe_read_byte Hwf) as Hwf'.
  destruct (Buffer.read_byte b) as [[x|e| |] b']; try done.
  repeat (case_if; [done|]). by apply IH.
Qed.

Lemma write_remaining_length_loop_wf fuel v b :
  buffer_wf b -> buffer_wf (Buffer.write_remaining_length_loop fuel v b).
Proof.
  revert v b. induction fuel as [|fuel IH]; intros v b Hwf; [done|].
  cbn [Buffer.write_remaining_length_loop].
  assert (forall x, buffer_wf (Buffer.write_byte x b)) by (intros; by apply write_wf).
  repeat case_if; auto.
Qed.

(** ** Correctness of the buffer *)

(** The cursor invariant [read_pos_ <= write_pos_ <= data_.size()] holds of
    every buffer the member functions can build, also after a throw. *)
Theorem buffer_reachable_invariant b : buffer_reachable b -> buffer_wf b.
Proof.
  induction 1 as [ | | | | | | | | | n b _ IH | b _ IH | pos b _ IH | n b _ IH | n b _ IH ];
    eauto using init_wf, of_bytes_wf, write_wf, safe_reader_wf, safe_read,
      safe_read_string, read_remaining_length_loop_wf, write_remaining_length_loop_wf.
  - rewrite skip_spec by done. case_if; tests_to_props; [done|]. by apply advance_wf.
  - unfold Buffer.set_read_position. case_if; tests_to_props; [done|].
    destruct IH. split; simpl; lia.
  - destruct IH. unfold Buffer.ensure_writable.
    case_if; tests_to_props; [|done]. split; simpl; [lia|]. rewrite length_resize. lia.
  - destruct IH. unfold Buffer.advance_write.
    case_if; tests_to_props; [done|]. split; simpl; lia.
Qed.

Lemma buffer_reachable_invariant_witness :
  buffer_wf (Buffer.read 2 (Buffer.write [Byte.x01; Byte.x02; Byte.x03] Buffer.init)).2.
Proof. apply buffer_reachable_invariant. repeat constructor. Defined.

(** Refinement to a byte queue: on a well-formed buffer, writing appends to
    the unread bytes; reading [n] bytes returns the first [n] unread ones and
    drops them, and when fewer are unread throws and leaves the buffer as it
    was. *)
Theorem buffer_refines_queue src n b :
  buffer_wf b ->
  unread (Buffer.write src b) = unread b ++ src /\
  match Buffer.read n b with
  | (Ret bs, b') =>
      (n <= length (unread b))%nat /\ bs = take n (unread b) /\ unread b' = drop n (unread b)
  | (Throw e, b') =>
      (length (unread b) < n)%nat /\ e = out_of_range "Buffer underflow" /\ b' = b
  | _ => False
  end.
Proof.
  intros Hwf. split; [by apply unread_write|].
  rewrite read_spec by done. case_if; tests_to_props; [done|].
  rewrite unread_advance. repeat split; lia.
Qed.

Lemma buffer_refines_queue_witness :
  buffer_wf (Buffer.of_bytes [Byte.x01; Byte.x02]) /\
  unread (Buffer.write [Byte.x03] (Buffer.of_bytes [Byte.x01; Byte.x02])) =
    [Byte.x01; Byte.x02] ++ [Byte.x03].
Proof.
  split; [split; simpl; lia|].
  apply (buffer_refines_queue [Byte.x03] 2 (Buffer.of_bytes [Byte.x01; Byte.x02])).
  split; simpl; lia.
Defined.

(** Reading back what was written behind an empty queue. *)
Lemma consumes_after_write {A} (m : M Buffer A) bs a b b' :
  consumes m bs a -> buffer_wf b' -> unread b = [] -> unread b' = unread b ++ bs ->
  exists b'', m b' = (Ret a, b'') /\ unread b'' = [].
Proof.
  intros Hm Hwf Hb Hb'. rewrite Hb in Hb'. simpl in Hb'.
  exists (advance (length bs) b'). split.
  - apply (Hm b' []); [done|]. by rewrite app_nil_r.
  - rewrite unread_advance, Hb'. apply skipn_all.
Qed.

Lemma unread_write_string s b :
  buffer_wf b -> unread (Buffer.write_string s b) = unread b ++ string_field s.
Proof.
  intros Hwf. unfold Buffer.write_string, Buffer.write_uint16, string_field.
  rewrite !unread_write by auto using write_wf. by rewrite <- app_assoc.
Qed.

(** Length-prefixed strings round trip: a string shorter than 65536 bytes
    written to a drained buffer is read back unchanged and nothing is left. *)
Theorem string_roundtrip s b :
  buffer_wf b -> unread b = [] -> Z.of_nat (String.length s) < 65536 ->
  exists b', Buffer.read_string (Buffer.write_string s b) = (Ret s, b') /\ unread b' = [].
Proof.
  intros Hwf Hb Hs.
  apply (consumes_after_write _ (string_field s) _ b); auto using consumes_read_string.
  - by apply write_wf, write_wf.
  - by apply unread_write_string.
Qed.

Lemma string_roundtrip_witness :
  exists b', Buffer.read_string (Buffer.write_string "hello" Buffer.init) = (Ret "hello"%string, b')
             /\ unread b' = [].
Proof. apply string_roundtrip; [split; simpl; lia | reflexivity | simpl; lia]. Defined.

Lemma consumes_read_remaining_length v :
  0 <= v < 2 ^ 28 -> consumes Buffer.read_remaining_length (remaining_length_bytes v) v.
Proof.
  intros Hv b rest Hwf Hb. unfold Buffer.read_remaining_length.
  rewrite (read_remaining_length_loop_spec 4 v 0 1 0 b rest); try (done || lia).
  by rewrite Z.mul_1_r, Z.add_0_l.
Qed.

(** The variable-length "remaining length" round trips over its whole range
    0 .. 268435455: the decoder returns the encoded value, consumes exactly the
    encoder's bytes, and no signed product leaves the range of [int]. *)
Theorem remaining_length_roundtrip v b :
  buffer_wf b -> unread b = [] -> 0 <= v <= 268435455 ->
  exists b', Buffer.read_remaining_length (Buffer.write_remaining_length v b) = (Ret v, b')
             /\ unread b' = [].
Proof.
  intros Hwf Hb Hv.
  destruct (write_remaining_length_loop_spec 5 v b) as [Hw Hc]; [lia | done |].
  apply (consumes_after_write _ (remaining_length_bytes v) _ b);
    [apply consumes_read_remaining_length; lia | done | done |].
  unfold unread. unfold Buffer.write_remaining_length. rewrite Hc.
  assert (Hr : read_pos_ (Buffer.write_remaining_length_loop 5 v b) = read_pos_ b).
  { clear. generalize 5%nat. intros n. revert v b. induction n as [|n IH]; intros v b; [done|].
    cbn [Buffer.write_remaining_length_loop]. case_if; [by rewrite IH | done]. }
  rewrite Hr. apply drop_app_le. rewrite length_contents by done.
  destruct Hwf. done.
Qed.

Lemma remaining_length_roundtrip_witness :
  exists b', Buffer.read_remaining_length (Buffer.write_remaining_length 268435455 Buffer.init)
             = (Ret 268435455, b') /\ unread b' = [].
Proof. apply remaining_length_roundtrip; [split; simpl; lia | reflexivity | lia]. Defined.

(** The guard [++count > 4] of the decoder comes too late: on five octets
    whose first four carry the continuation bit, the signed multiplication
    [multiplier *= 128] overflows [int] before the guard is evaluated. *)
Theorem remaining_length_fifth_octet_overflows x1 x2 x3 x4 x5 rest b :
  buffer_wf b -> unread b = [x1; x2; x3; x4; x5] ++ rest ->
  Forall (fun x => 128 <= Z_of_byte x) [x1; x2; x3; x4] ->
  (Buffer.read_remaining_length b).1 = Undefined.
Proof.
  intros Hwf Hb Hx. rewrite !List.Forall_cons_iff in Hx. destruct Hx as (H1 & H2 & H3 & H4 & _).
  unfold Buffer.read_remaining_length.
  assert (Hu : forall n, unread (advance n b) = drop n ([x1; x2; x3; x4; x5] ++ rest))
    by (intros n; by rewrite unread_advance, Hb).
  assert (Hw : forall n, (n <= 5)%nat -> buffer_wf (advance n b)).
  { intros n Hn. apply advance_wf; [done|]. rewrite Hb. simpl. lia. }
  assert (Hm : forall x, 0 <= Z_of_byte x mod 128 < 128) by (intros; apply Z.mod_pos_bound; lia).
  pose proof (Hm x1). pose proof (Hm x2). pose proof (Hm x3). pose proof (Hm x4).
  pose proof (Hm x5).
  rewrite (read_remaining_length_round 4 0 1 0 x1 ([x2; x3; x4; x5] ++ rest)) by (done || lia).
  cbv zeta. rewrite_test (Z_of_byte x1 <? 128) false.
  rewrite (read_remaining_length_round 3 _ _ _ x2 ([x3; x4; x5] ++ rest))
    by first [ apply Hw; lia | by rewrite Hu | lia ].
  cbv zeta. rewrite_test (Z_of_byte x2 <? 128) false. rewrite advance_advance.
  rewrite (read_remaining_length_round 2 _ _ _ x3 ([x4; x5] ++ rest))
    by first [ apply Hw; lia | by rewrite Hu | lia ].
  cbv zeta. rewrite_test (Z_of_byte x3 <? 128) false. rewrite advance_advance.
  rewrite (read_remaining_length_round 1 _ _ _ x4 ([x5] ++ rest))
    by first [ apply Hw; lia | by rewrite Hu | lia ].
  cbv zeta. rewrite_test (Z_of_byte x4 <? 128) false. rewrite advance_advance.
  cbn [Buffer.read_remaining_length_loop Nat.add].
  unfold mbind, M_bind, get at 1.
  case_if; tests_to_props.
  { pose proof (length_unread _ (Hw 4%nat ltac:(lia))) as Hl. rewrite Hu in Hl.
    unfold Buffer.readable in Hl. simpl in *. lia. }
  rewrite (consumes_read_byte x5 _ rest) by first [ apply Hw; lia | by rewrite Hu ].
  case_if; [done|]. done.
Qed.

Lemma remaining_length_fifth_octet_overflows_witness :
  (Buffer.read_remaining_length
     (Buffer.of_bytes [Byte.xff; Byte.xff; Byte.xff; Byte.xff; Byte.x01])).1 = Undefined.
Proof.
  apply (remaining_length_fifth_octet_overflows Byte.xff Byte.xff Byte.xff Byte.xff Byte.x01 []);
    [split; simpl; lia | reflexivity |].
  repeat constructor; vm_compute; discriminate.
Defined.
