(* ===== verification/Config.v ===== *)
(** * Configuration values ([src/config.h], [src/config.cpp])

    [Config::instance()] is a process-wide object whose getters are read by the
    other components; the JSON document behind it does not change after
    [load].  [Config] is the record of the getter results, one field per
    getter that other components call. *)

From Stdlib Require Import Strings.String ZArith QArith.QArith_base Lia.
From stdpp Require Import base strings numbers.
From S2P Require Import Prelude.

Open Scope Z_scope.

Record Config : Type := mkConfig {
  max_connections : Z;
  max_connections_per_ip : Z;
  max_keepalive : Z;
  (** a [double], kept as the rational it denotes *)
  keepalive_multiplier : Q;
  max_packet_size : Z;
  max_topic_depth : Z;
  max_topic_length : Z;
  max_subscriptions_per_client : Z;
  max_retained_messages : Z;
  max_write_queue_size : Z;
  max_parser_buffer_size : Z;
  max_auth_attempts : Z;
  auth_ban_seconds : Z;
  retry_interval_seconds : Z;
  max_retry_count : Z
}.

(** The values the getters return for an empty document. *)
Definition default_config : Config := {|
  max_connections := 100000;
  max_connections_per_ip := 100;
  max_keepalive := 3600;
  keepalive_multiplier := Qmake 3 2;
  max_packet_size := 262144;
  max_topic_depth := 128;
  max_topic_length := 65536;
  max_subscriptions_per_client := 1000;
  max_retained_messages := 10000;
  max_write_queue_size := 10000;
  max_parser_buffer_size := 1048576;
  max_auth_attempts := 10;
  auth_ban_seconds := 60;
  retry_interval_seconds := 5;
  max_retry_count := 5
|}.
