(* ===== verification/Packet.v ===== *)
(** * MQTT packets ([src/packet/types.h], [packets.h/.cpp], [builder.h/.cpp])

    The packet structures, their [parse] functions (computations on the packet
    buffer) and the [PacketBuilder] functions (pure functions that return a
    fresh buffer). *)

From Stdlib Require Import Strings.Byte Strings.String ZArith Lia.
From stdpp Require Import base list strings numbers gmap option.
From S2P Require Import Prelude Buffer.

Open Scope Z_scope.

(** ** Types *)

Inductive PacketType : Type :=
| CONNECT | CONNACK | PUBLISH | PUBACK | PUBREC | PUBREL | PUBCOMP
| SUBSCRIBE | SUBACK | UNSUBSCRIBE | UNSUBACK | PINGREQ | PINGRESP | DISCONNECT.

#[export] Instance PacketType_eq_dec : EqDecision PacketType.
Proof. solve_decision. Defined.

(** [static_cast<uint8_t>(type)]. *)
Definition packet_type_val (t : PacketType) : Z :=
  match t with
  | CONNECT => 1 | CONNACK => 2 | PUBLISH => 3 | PUBACK => 4 | PUBREC => 5
  | PUBREL => 6 | PUBCOMP => 7 | SUBSCRIBE => 8 | SUBACK => 9
  | UNSUBSCRIBE => 10 | UNSUBACK => 11 | PINGREQ => 12 | PINGRESP => 13
  | DISCONNECT => 14
  end.

(** [static_cast<PacketType>(v)]: a scoped enumeration also holds the values
    that no enumerator names, here [None]. *)
Definition packet_type_of (v : Z) : option PacketType :=
  match v with
  | 1 => Some CONNECT | 2 => Some CONNACK | 3 => Some PUBLISH | 4 => Some PUBACK
  | 5 => Some PUBREC | 6 => Some PUBREL | 7 => Some PUBCOMP | 8 => Some SUBSCRIBE
  | 9 => Some SUBACK | 10 => Some UNSUBSCRIBE | 11 => Some UNSUBACK
  | 12 => Some PINGREQ | 13 => Some PINGRESP | 14 => Some DISCONNECT
  | _ => None
  end.

(** The fixed header; [hdr_type] keeps the raw four-bit value. *)
Record FixedHeader : Type := mkFixedHeader {
  hdr_type : Z;
  hdr_dup : bool;
  hdr_qos : Z;
  hdr_retain : bool;
  hdr_remaining_length : Z
}.

Inductive ConnackCode : Type :=
| ACCEPTED | REFUSED_PROTOCOL | REFUSED_ID_REJECTED | REFUSED_SERVER_UNAVAIL
| REFUSED_BAD_USERNAME | REFUSED_NOT_AUTHORIZED.

Definition connack_code_val (c : ConnackCode) : Z :=
  match c with
  | ACCEPTED => 0 | REFUSED_PROTOCOL => 1 | REFUSED_ID_REJECTED => 2
  | REFUSED_SERVER_UNAVAIL => 3 | REFUSED_BAD_USERNAME => 4 | REFUSED_NOT_AUTHORIZED => 5
  end.

(** [SubackCode]: like every scoped enumeration it also holds the octets that
    no enumerator names. *)
Inductive SubackCode : Type :=
| MAX_QOS0 | MAX_QOS1 | MAX_QOS2 | FAILURE
| suback_unnamed (v : Z).

(** [static_cast<SubackCode>(requested_qos)]. *)
Definition suback_code_of (v : Z) : SubackCode :=
  match v with
  | 0 => MAX_QOS0 | 1 => MAX_QOS1 | 2 => MAX_QOS2 | 0x80 => FAILURE
  | _ => suback_unnamed v
  end.

Definition suback_code_val (c : SubackCode) : Z :=
  match c with
  | MAX_QOS0 => 0 | MAX_QOS1 => 1 | MAX_QOS2 => 2 | FAILURE => 0x80
  | suback_unnamed v => v
  end.

Definition MQTT_PROTOCOL_LEVEL : Z := 4.
Definition MQTT_PROTOCOL_NAME : string := "MQTT".

(** ** Packet structures and parsers *)

Record ConnectPacket : Type := mkConnectPacket {
  protocol_name : string;
  protocol_level : Z;
  clean_session : bool;
  will_flag : bool;
  will_qos : Z;
  will_retain : bool;
  will_topic : string;
  will_message : string;
  username : string;
  password : string;
  keepalive : Z;
  client_id : string
}.

Record PublishPacket : Type := mkPublishPacket {
  topic : string;
  payload : Buffer;
  qos : Z;
  retain : bool;
  dup : bool;
  packet_id : Z
}.

Record SubscribeFilter : Type := mkSubscribeFilter {
  topic_filter : string;
  requested_qos : Z
}.

Record SubscribePacket : Type := mkSubscribePacket {
  sub_packet_id : Z;
  filters : list SubscribeFilter
}.

Record UnsubscribePacket : Type := mkUnsubscribePacket {
  unsub_packet_id : Z;
  topic_filters : list string
}.

(** A flag test [(flags & mask) != 0]. *)
Definition flag (flags mask : Z) : bool := negb (Z.land flags mask =? 0).

Definition parse_connect : M Buffer ConnectPacket :=
  name ← Buffer.read_string;
  level ← Buffer.read_byte;
  flags ← Buffer.read_byte;
  let flags := Z_of_byte flags in
  let has_username := flag flags 0x80 in
  let has_password := flag flags 0x40 in
  let wf := flag flags 0x04 in
  ka ← Buffer.read_uint16;
  cid ← Buffer.read_string;
  '(wt, wm) ← (if wf
               then t ← Buffer.read_string; m ← Buffer.read_string; mret (t, m)
               else mret (""%string, ""%string));
  user ← (if has_username then Buffer.read_string else mret ""%string);
  pass ← (if has_password then Buffer.read_string else mret ""%string);
  mret {| protocol_name := name; protocol_level := Z_of_byte level;
          clean_session := flag flags 0x02; will_flag := wf;
          will_qos := Z.land (Z.shiftr flags 3) 0x03;
          will_retain := flag flags 0x20;
          will_topic := wt; will_message := wm; username := user; password := pass;
          keepalive := ka; client_id := cid |}.

Definition parse_publish (hdr : FixedHeader) : M Buffer PublishPacket :=
  t ← Buffer.read_string;
  let consumed := 2 + Z.of_nat (String.length t) in
  '(pid, consumed) ← (if 0 <? hdr_qos hdr
                      then p ← Buffer.read_uint16; mret (p, consumed + 2)
                      else mret (0, consumed));
  if hdr_remaining_length hdr <? consumed
  then throw (runtime_error "Invalid publish packet: remaining_length too small")
  else
    let payload_len := Z.to_nat (hdr_remaining_length hdr - consumed) in
    pl ← (if (0 <? payload_len)%nat
          then b ← get;
               p ← Buffer.from_ptr (data_ b) (read_pos_ b) payload_len;
               Buffer.skip payload_len;; mret p
          else mret Buffer.init);
    mret {| topic := t; payload := pl; qos := hdr_qos hdr; retain := hdr_retain hdr;
            dup := hdr_dup hdr; packet_id := pid |}.

(** The [while (buf.readable() > 0)] loops: each round consumes at least two
    bytes or throws, so the number of readable bytes bounds the rounds. *)
Fixpoint parse_filters (fuel : nat) : M Buffer (list SubscribeFilter) :=
  match fuel with
  | O => undefined
  | S fuel =>
      b ← get;
      if (0 <? Buffer.readable b)%nat then
        f ← Buffer.read_string;
        q ← Buffer.read_byte;
        fs ← parse_filters fuel;
        mret (mkSubscribeFilter f (Z.land (Z_of_byte q) 0x03) :: fs)
      else mret []
  end.

Definition parse_subscribe : M Buffer SubscribePacket :=
  pid ← Buffer.read_uint16;
  b ← get;
  fs ← parse_filters (S (Buffer.readable b));
  mret {| sub_packet_id := pid; filters := fs |}.

Fixpoint parse_topic_filters (fuel : nat) : M Buffer (list string) :=
  match fuel with
  | O => undefined
  | S fuel =>
      b ← get;
      if (0 <? Buffer.readable b)%nat then
        f ← Buffer.read_string;
        fs ← parse_topic_filters fuel;
        mret (f :: fs)
      else mret []
  end.

Definition parse_unsubscribe : M Buffer UnsubscribePacket :=
  pid ← Buffer.read_uint16;
  b ← get;
  fs ← parse_topic_filters (S (Buffer.readable b));
  mret {| unsub_packet_id := pid; topic_filters := fs |}.

(** The four acknowledgement parsers: a two-byte packet identifier. *)
Definition parse_ack (what : string) : M Buffer Z :=
  b ← get;
  if (Buffer.readable b <? 2)%nat then throw (runtime_error what)
  else Buffer.read_uint16.

Definition parse_puback : M Buffer Z := parse_ack "Invalid puback packet".
Definition parse_pubrec : M Buffer Z := parse_ack "Invalid pubrec packet".
Definition parse_pubrel : M Buffer Z := parse_ack "Invalid pubrel packet".
Definition parse_pubcomp : M Buffer Z := parse_ack "Invalid pubcomp packet".

(** ** Builders *)

Module PacketBuilder.

Definition wrap (type : PacketType) (flags : Z) (body : Buffer) : Buffer :=
  let byte1 := Z.lor (u8 (Z.shiftl (packet_type_val type) 4)) (Z.land flags 0x0F) in
  let packet := Buffer.write_byte (byte_of_Z byte1) Buffer.init in
  let packet := Buffer.write_remaining_length (u32 (Z.of_nat (Buffer.size body))) packet in
  if (0 <? Buffer.size body)%nat then Buffer.write (contents body) packet else packet.

Definition build_connack (session_present : bool) (code : ConnackCode) : Buffer :=
  let body := Buffer.write_byte (if session_present then Byte.x01 else Byte.x00) Buffer.init in
  let body := Buffer.write_byte (byte_of_Z (connack_code_val code)) body in
  wrap CONNACK 0 body.

Definition build_suback (packet_id : Z) (codes : list SubackCode) : Buffer :=
  let body := Buffer.write_uint16 packet_id Buffer.init in
  let body := foldl (fun b c => Buffer.write_byte (byte_of_Z (suback_code_val c)) b) body codes in
  wrap SUBACK 0 body.

Definition build_unsuback (packet_id : Z) : Buffer :=
  wrap UNSUBACK 0 (Buffer.write_uint16 packet_id Buffer.init).

(** [flags |= 0x08] and the like on a [uint8_t]. *)
Definition publish_flags (qos : Z) (retain dup : bool) : Z :=
  let flags := 0 in
  let flags := if dup then Z.lor flags 0x08 else flags in
  let flags := Z.lor flags (Z.shiftl (Z.land qos 0x03) 1) in
  if retain then Z.lor flags 0x01 else flags.

Definition build_publish (topic : string) (payload : list byte) (qos : Z)
    (retain dup : bool) (packet_id : Z) : Buffer :=
  let body := Buffer.write_string topic Buffer.init in
  let body := if 0 <? qos then Buffer.write_uint16 packet_id body else body in
  let body := if (0 <? length payload)%nat then Buffer.write payload body else body in
  wrap PUBLISH (publish_flags qos retain dup) body.

Definition build_puback (packet_id : Z) : Buffer :=
  wrap PUBACK 0 (Buffer.write_uint16 packet_id Buffer.init).

Definition build_pubrec (packet_id : Z) : Buffer :=
  wrap PUBREC 0 (Buffer.write_uint16 packet_id Buffer.init).

Definition build_pubrel (packet_id : Z) : Buffer :=
  wrap PUBREL 2 (Buffer.write_uint16 packet_id Buffer.init).

Definition build_pubcomp (packet_id : Z) : Buffer :=
  wrap PUBCOMP 0 (Buffer.write_uint16 packet_id Buffer.init).

Definition build_pingresp : Buffer := wrap PINGRESP 0 Buffer.init.

End PacketBuilder.

(** ** The wire format of a frame *)

(** The first octet, the encoded length and the body. *)
Definition frame (byte1 : Z) (body : list byte) : list byte :=
  byte_of_Z byte1 :: remaining_length_bytes (Z.of_nat (length body)) ++ body.

Definition publish_body (t : string) (pl : list byte) (q pid : Z) : list byte :=
  string_field t ++ (if 0 <? q then Buffer.uint16_bytes pid else []) ++ pl.

(** The first octet read by [Session::handle_packet] and by the parser. *)
Definition decode_byte1 (byte1 : Z) : FixedHeader := {|
  hdr_type := Z.land (Z.shiftr byte1 4) 0x0F;
  hdr_dup := flag byte1 0x08;
  hdr_qos := Z.land (Z.shiftr byte1 1) 0x03;
  hdr_retain := flag byte1 0x01;
  hdr_remaining_length := 0
|}.

(** The header decoding at the top of [Session::handle_packet]. *)
Definition read_header : M Buffer FixedHeader :=
  byte1 ← Buffer.read_byte;
  rl ← Buffer.read_remaining_length;
  let h := decode_byte1 (Z_of_byte byte1) in
  mret {| hdr_type := hdr_type h; hdr_dup := hdr_dup h; hdr_qos := hdr_qos h;
          hdr_retain := hdr_retain h; hdr_remaining_length := rl |}.

(** The encodings a client sends for SUBSCRIBE and UNSUBSCRIBE bodies. *)
Definition filter_field (f : SubscribeFilter) : list byte :=
  string_field (topic_filter f) ++ [byte_of_Z (requested_qos f)].

Definition subscribe_body (p : SubscribePacket) : list byte :=
  Buffer.uint16_bytes (sub_packet_id p) ++ flat_map filter_field (filters p).

Definition unsubscribe_body (p : UnsubscribePacket) : list byte :=
  Buffer.uint16_bytes (unsub_packet_id p) ++ flat_map string_field (topic_filters p).

Lemma contents_init : contents Buffer.init = [].
Proof. reflexivity. Qed.

#[export] Hint Resolve init_wf of_bytes_wf write_wf : buffer.

Lemma wrap_spec type flags body :
  buffer_wf body -> Z.of_nat (length (contents body)) < 2 ^ 32 ->
  buffer_wf (PacketBuilder.wrap type flags body) /\
  contents (PacketBuilder.wrap type flags body) =
    frame (Z.lor (u8 (Z.shiftl (packet_type_val type) 4)) (Z.land flags 0x0F)) (contents body).
Proof.
  intros Hwf Hlen. unfold PacketBuilder.wrap, frame.
  rewrite <- length_contents by done. rewrite u32_small by lia.
  set (b1 := byte_of_Z _).
  destruct (write_remaining_length_loop_spec 5 (Z.of_nat (length (contents body)))
              (Buffer.write_byte b1 Buffer.init)) as [Hw Hc]; [lia | apply write_wf, init_wf |].
  unfold Buffer.write_byte in Hc at 2. rewrite contents_write in Hc by auto with buffer.
  rewrite contents_init in Hc.
  destruct (Nat.ltb_spec 0 (length (contents body))) as [Hpos|Hz].
  - split; [apply write_wf, Hw|]. rewrite contents_write by exact Hw.
    unfold Buffer.write_remaining_length. by rewrite Hc.
  - assert (E : contents body = []) by (apply length_zero_iff_nil; lia).
    rewrite E in Hw, Hc |- *. split; [exact Hw|]. rewrite app_nil_r. exact Hc.
Qed.

Lemma from_ptr_unread {S} b pl rest :
  buffer_wf b -> unread b = pl ++ rest ->
  Buffer.from_ptr (S := S) (data_ b) (read_pos_ b) (length pl) = mret (Buffer.of_bytes pl).
Proof.
  intros Hwf Hb. pose proof (length_unread b Hwf) as Hl. destruct Hwf as [H1 H2].
  rewrite Hb, length_app in Hl. unfold Buffer.readable in Hl. unfold Buffer.from_ptr.
  rewrite_test (length (data_ b) <? read_pos_ b + length pl)%nat false.
  f_equal. f_equal.
  assert (E : take (length pl) (unread b) = pl) by (rewrite Hb; apply take_app_length).
  rewrite <- E at 2. unfold unread, contents.
  rewrite skipn_firstn_comm, take_take. f_equal. lia.
Qed.

Lemma consumes_parse_ack what v :
  0 <= v < 65536 -> consumes (parse_ack what) (Buffer.uint16_bytes v) v.
Proof.
  intros Hv b rest Hwf Hb. unfold parse_ack, mbind, M_bind, get.
  rewrite <- length_unread, Hb, length_app by done. simpl length.
  rewrite_test (2 + length rest <? 2)%nat false.
  by apply (consumes_read_uint16 v Hv b rest).
Qed.

(** The payload step of [PublishPacket::parse]. *)
Lemma consumes_payload pl :
  consumes (if (0 <? length pl)%nat
            then b ← get;
                 p ← Buffer.from_ptr (data_ b) (read_pos_ b) (length pl);
                 Buffer.skip (length pl);; mret p
            else mret Buffer.init) pl (Buffer.of_bytes pl).
Proof.
  destruct (Nat.ltb_spec 0 (length pl)) as [Hpos|Hz].
  - intros b rest Hwf Hb. unfold mbind, M_bind, get.
    rewrite (from_ptr_unread b pl rest) by done. unfold mret, M_ret at 1.
    rewrite skip_spec, Hb, length_app by done.
    rewrite_test (length pl + length rest <? length pl)%nat false. done.
  - assert (pl = []) as -> by (apply length_zero_iff_nil; lia). apply consumes_ret.
Qed.

Lemma length_string_field s : length (string_field s) = (2 + String.length s)%nat.
Proof. unfold string_field. rewrite length_app, length_string_bytes. done. Qed.

Lemma consumes_parse_publish hdr t pl pid :
  Z.of_nat (String.length t) < 65536 -> 0 <= pid < 65536 ->
  hdr_remaining_length hdr = Z.of_nat (length (publish_body t pl (hdr_qos hdr) pid)) ->
  consumes (parse_publish hdr) (publish_body t pl (hdr_qos hdr) pid)
    {| topic := t; payload := Buffer.of_bytes pl; qos := hdr_qos hdr; retain := hdr_retain hdr;
       dup := hdr_dup hdr; packet_id := if 0 <? hdr_qos hdr then pid else 0 |}.
Proof.
  intros Ht Hpid Hrl. unfold publish_body in *.
  rewrite !length_app, length_string_field in Hrl. unfold parse_publish.
  eapply consumes_bind; [by apply consumes_read_string|].
  destruct (0 <? hdr_qos hdr) eqn:Hq.
  - eapply consumes_bind.
    { apply (consumes_map _ (fun p => (p, _))). by apply consumes_read_uint16. }
    simpl in Hrl. cbv beta iota.
    rewrite_test (hdr_remaining_length hdr <? 2 + Z.of_nat (String.length t) + 2) false.
    replace (Z.to_nat _) with (length pl) by lia.
    eapply (consumes_map _ (fun p => _)), consumes_payload.
  - eapply consumes_bind; [apply consumes_ret|].
    simpl in Hrl. cbv beta iota.
    rewrite_test (hdr_remaining_length hdr <? 2 + Z.of_nat (String.length t)) false.
    replace (Z.to_nat _) with (length pl) by lia.
    eapply (consumes_map _ (fun p => _)), consumes_payload.
Qed.

(** ** Round trips *)

Lemma consumes_read_header byte1 (body : list byte) :
  0 <= byte1 < 256 -> Z.of_nat (length body) < 2 ^ 28 ->
  consumes read_header
    (byte_of_Z byte1 :: remaining_length_bytes (Z.of_nat (length body)))
    {| hdr_type := hdr_type (decode_byte1 byte1); hdr_dup := hdr_dup (decode_byte1 byte1);
       hdr_qos := hdr_qos (decode_byte1 byte1); hdr_retain := hdr_retain (decode_byte1 byte1);
       hdr_remaining_length := Z.of_nat (length body) |}.
Proof.
  intros Hb Hl. change (byte_of_Z byte1 :: ?l) with ([byte_of_Z byte1] ++ l).
  eapply consumes_bind; [apply consumes_read_byte|].
  cbv beta. rewrite Z_of_byte_of_Z_small by done.
  eapply (consumes_map _ (fun rl => _)), consumes_read_remaining_length. lia.
Qed.

Lemma decode_byte1_publish q r d :
  0 <= q <= 3 ->
  let byte1 := Z.lor (u8 (Z.shiftl (packet_type_val PUBLISH) 4))
                     (Z.land (PacketBuilder.publish_flags q r d) 0x0F) in
  0 <= byte1 < 256 /\
  decode_byte1 byte1 = {| hdr_type := 3; hdr_dup := d; hdr_qos := q; hdr_retain := r;
                          hdr_remaining_length := 0 |}.
Proof.
  intros Hq. assert (q = 0 \/ q = 1 \/ q = 2 \/ q = 3) as [-> | [-> | [-> | ->]]] by lia;
    destruct r, d; vm_compute; repeat split; congruence.
Qed.

Lemma build_publish_contents t pl q r d pid :
  Z.of_nat (length (publish_body t pl q pid)) < 2 ^ 32 ->
  buffer_wf (PacketBuilder.build_publish t pl q r d pid) /\
  contents (PacketBuilder.build_publish t pl q r d pid) =
    frame (Z.lor (u8 (Z.shiftl (packet_type_val PUBLISH) 4))
                 (Z.land (PacketBuilder.publish_flags q r d) 0x0F)) (publish_body t pl q pid).
Proof.
  intros Hlen. unfold PacketBuilder.build_publish.
  set (b1 := Buffer.write_string t Buffer.init).
  set (b2 := if 0 <? q then Buffer.write_uint16 pid b1 else b1).
  set (b3 := if (0 <? length pl)%nat then Buffer.write pl b2 else b2).
  assert (H1 : buffer_wf b1 /\ contents b1 = string_field t).
  { split; [by apply write_wf, write_wf, init_wf|]. unfold b1, Buffer.write_string.
    unfold Buffer.write_uint16. rewrite !contents_write by auto with buffer. done. }
  assert (H2 : buffer_wf b2 /\
               contents b2 = string_field t ++ (if 0 <? q then Buffer.uint16_bytes pid else [])).
  { destruct H1 as [Hw Hc]. unfold b2. destruct (0 <? q).
    - split; [by apply write_wf|]. unfold Buffer.write_uint16. by rewrite contents_write, Hc.
    - by rewrite app_nil_r. }
  assert (H3 : buffer_wf b3 /\ contents b3 = publish_body t pl q pid).
  { destruct H2 as [Hw Hc]. unfold b3, publish_body. rewrite app_assoc, <- Hc.
    destruct (Nat.ltb_spec 0 (length pl)) as [Hpos|Hz].
    - split; [by apply write_wf | by rewrite contents_write].
    - assert (pl = []) as -> by (apply length_zero_iff_nil; lia). by rewrite app_nil_r. }
  destruct H3 as [Hw Hc]. rewrite <- Hc in Hlen |- *. by apply wrap_spec.
Qed.

(** Reading back a frame that was built in memory. *)
Lemma consumes_of_bytes {A} (m : M Buffer A) bs a :
  consumes m bs a -> m (Buffer.of_bytes bs) = (Ret a, mkBuffer bs (length bs) (length bs)).
Proof.
  intros Hm. rewrite (Hm _ []); [done | apply of_bytes_wf |].
  by rewrite unread_of_bytes, app_nil_r.
Qed.

(** [C33] PUBLISH round trip: the packet [PacketBuilder::build_publish] builds for
    any topic below 64 KiB, QoS 0..3, flags, packet id and payload (frame body
    below 2^28 bytes) is decoded by [handle_packet]'s header code and
    [PublishPacket::parse] to the same fields, with nothing left over. *)
Theorem publish_roundtrip t pl q r d pid :
  Z.of_nat (String.length t) < 65536 -> 0 <= q <= 3 -> 0 <= pid < 65536 ->
  Z.of_nat (length (publish_body t pl q pid)) < 2 ^ 28 ->
  exists b',
    (hdr ← read_header; pub ← parse_publish hdr; mret (hdr_type hdr, pub))
      (Buffer.of_bytes (contents (PacketBuilder.build_publish t pl q r d pid))) =
    (Ret (3, {| topic := t; payload := Buffer.of_bytes pl; qos := q; retain := r; dup := d;
                packet_id := if 0 <? q then pid else 0 |}), b') /\
    unread b' = [].
Proof.
  intros Ht Hq Hpid Hlen.
  destruct (build_publish_contents t pl q r d pid) as [_ ->]; [lia|].
  destruct (decode_byte1_publish q r d Hq) as [Hb1 Hdec].
  set (byte1 := Z.lor _ _) in *. unfold frame.
  rewrite (consumes_of_bytes _ _
    (3, {| topic := t; payload := Buffer.of_bytes pl; qos := q; retain := r; dup := d;
           packet_id := if 0 <? q then pid else 0 |})).
  - eexists. split; [done|]. apply drop_ge. apply firstn_le_length.
  - rewrite app_comm_cons.
    eapply consumes_bind; [by apply consumes_read_header|]. rewrite Hdec. simpl.
    eapply (consumes_map _ (fun pub => (3, pub))).
    eapply (consumes_parse_publish
              {| hdr_type := 3; hdr_dup := d; hdr_qos := q; hdr_retain := r;
                 hdr_remaining_length := _ |}); done.
Qed.

Lemma publish_roundtrip_witness :
  exists b',
    (hdr ← read_header; pub ← parse_publish hdr; mret (hdr_type hdr, pub))
      (Buffer.of_bytes (contents
         (PacketBuilder.build_publish "sensor/temp" [Byte.x32; Byte.x33] 1 true false 7))) =
    (Ret (3, {| topic := "sensor/temp"; payload := Buffer.of_bytes [Byte.x32; Byte.x33];
                qos := 1; retain := true; dup := false; packet_id := 7 |}), b') /\
    unread b' = [].
Proof.
  apply (publish_roundtrip "sensor/temp" [Byte.x32; Byte.x33] 1 true false 7);
    vm_compute; intuition congruence.
Defined.

(** ** Acknowledgements *)

Definition ack_byte1 (t : PacketType) : Z :=
  Z.lor (u8 (Z.shiftl (packet_type_val t) 4)) (Z.land (if decide (t = PUBREL) then 2 else 0) 0x0F).

Lemma ack_frame t pid :
  contents (PacketBuilder.wrap t (if decide (t = PUBREL) then 2 else 0)
              (Buffer.write_uint16 pid Buffer.init)) =
    frame (ack_byte1 t) (Buffer.uint16_bytes pid).
Proof.
  assert (Hc : contents (Buffer.write_uint16 pid Buffer.init) = Buffer.uint16_bytes pid).
  { unfold Buffer.write_uint16. by rewrite contents_write by apply init_wf. }
  destruct (wrap_spec t (if decide (t = PUBREL) then 2 else 0)
              (Buffer.write_uint16 pid Buffer.init)) as [_ ->].
  - apply write_wf, init_wf.
  - rewrite Hc. simpl. lia.
  - by rewrite Hc.
Qed.

Lemma ack_roundtrip_frame t what pid :
  0 <= pid < 65536 ->
  exists b',
    (hdr ← read_header; p ← parse_ack what; mret (packet_type_of (hdr_type hdr), p))
      (Buffer.of_bytes (frame (ack_byte1 t) (Buffer.uint16_bytes pid))) =
    (Ret (Some t, pid), b') /\ unread b' = [].
Proof.
  intros Hpid. unfold frame.
  assert (Hb1 : 0 <= ack_byte1 t < 256 /\
                packet_type_of (hdr_type (decode_byte1 (ack_byte1 t))) = Some t)
    by (destruct t; vm_compute; intuition congruence).
  destruct Hb1 as [Hb1 Hty].
  rewrite (consumes_of_bytes _ _ (Some t, pid)).
  - eexists. split; [done|]. apply drop_ge. apply firstn_le_length.
  - rewrite app_comm_cons.
    eapply consumes_bind; [apply consumes_read_header; [done | simpl; lia]|].
    cbn [hdr_type]. rewrite Hty.
    apply (consumes_map _ (fun p => (Some t, p))). by apply consumes_parse_ack.
Qed.

(** The four acknowledgement builders and parsers agree: every packet id
    survives the trip and the header decodes to the packet's own type. *)
Theorem ack_roundtrip pid :
  0 <= pid < 65536 ->
  let decode p m :=
    (hdr ← read_header; i ← m; mret (packet_type_of (hdr_type hdr), i))
      (Buffer.of_bytes (contents p)) in
  (decode (PacketBuilder.build_puback pid) parse_puback).1 = Ret (Some PUBACK, pid) /\
  (decode (PacketBuilder.build_pubrec pid) parse_pubrec).1 = Ret (Some PUBREC, pid) /\
  (decode (PacketBuilder.build_pubrel pid) parse_pubrel).1 = Ret (Some PUBREL, pid) /\
  (decode (PacketBuilder.build_pubcomp pid) parse_pubcomp).1 = Ret (Some PUBCOMP, pid).
Proof.
  intros Hpid decode. unfold decode.
  assert (H : forall t what,
    ((hdr ← read_header; i ← parse_ack what; mret (packet_type_of (hdr_type hdr), i))
      (Buffer.of_bytes (contents (PacketBuilder.wrap t (if decide (t = PUBREL) then 2 else 0)
              (Buffer.write_uint16 pid Buffer.init))))).1 = Ret (Some t, pid)).
  { intros t what. rewrite ack_frame.
    destruct (ack_roundtrip_frame t what pid Hpid) as (b' & -> & _). done. }
  exact (conj (H PUBACK _) (conj (H PUBREC _) (conj (H PUBREL _) (H PUBCOMP _)))).
Qed.

Lemma ack_roundtrip_witness :
  ((hdr ← read_header; i ← parse_puback; mret (packet_type_of (hdr_type hdr), i))
     (Buffer.of_bytes (contents (PacketBuilder.build_puback 65535)))).1 = Ret (Some PUBACK, 65535).
Proof. apply (ack_roundtrip 65535). lia. Defined.

(** ** Memory safety of the parsers *)

(** A successful run of [m] consumes at least [k] bytes. *)
Definition progress {A} (k : nat) (m : M Buffer A) : Prop :=
  forall b a b', buffer_wf b -> m b = (Ret a, b') -> (length (unread b') + k <= length (unread b))%nat.

Lemma progress_read n : progress n (Buffer.read n).
Proof.
  intros b a b' Hwf. rewrite read_spec by done. case_if; tests_to_props; intros [= <- <-].
  rewrite unread_advance, length_drop. lia.
Qed.

Lemma safe_progress {A} (m : M Buffer A) : safe_reader m -> progress 0 m.
Proof.
  intros Hm b a b' Hwf E. specialize (Hm b Hwf). rewrite E in Hm.
  destruct Hm as (n & Hn & ->). rewrite unread_advance, length_drop. lia.
Qed.

Lemma progress_bind {A B} k (m : M Buffer A) (f : A -> M Buffer B) :
  progress k m -> safe_reader m -> (forall a, progress 0 (f a)) -> progress k (m ≫= f).
Proof.
  intros Hp Hs Hf b v b'' Hwf. unfold mbind, M_bind.
  pose proof (safe_reader_wf m b Hs Hwf) as Hwf'.
  destruct (m b) as [[a|e| |] b'] eqn:E; try done. intros E'.
  specialize (Hp b a b' Hwf E). specialize (Hf a b' v b'' Hwf' E'). lia.
Qed.

Lemma progress_read_string : progress 2 Buffer.read_string.
Proof.
  apply progress_bind.
  - apply progress_bind; auto using progress_read, safe_progress with buffer.
  - auto with buffer.
  - auto using safe_progress with buffer.
Qed.

(** What a reader may do when started on [b]. *)
Definition safe_at {A} (m : M Buffer A) (b : Buffer) : Prop :=
  match m b with
  | (Ret _, b') => exists n, (n <= length (unread b))%nat /\ b' = advance n b
  | (Throw _, b') => buffer_wf b'
  | _ => False
  end.

Lemma safe_at_ret {A} (a : A) b : buffer_wf b -> safe_at (mret a) b.
Proof. exact (safe_ret a b). Qed.

Lemma safe_at_bind {A B} (m : M Buffer A) (k : A -> M Buffer B) b :
  safe_reader m -> buffer_wf b ->
  (forall a b', m b = (Ret a, b') -> buffer_wf b' -> safe_at (k a) b') -> safe_at (m ≫= k) b.
Proof.
  intros Hm Hwf Hk. pose proof (Hm b Hwf) as Hb. unfold safe_at, mbind, M_bind.
  destruct (m b) as [[a|e| |] b'] eqn:E; try done.
  destruct Hb as (n & Hn & ->).
  assert (Hwf' : buffer_wf (advance n b)) by by apply advance_wf.
  specialize (Hk a _ eq_refl Hwf'). unfold safe_at in Hk.
  destruct (k a (advance n b)) as [[v|e| |] b'']; try done.
  destruct Hk as (n' & Hn' & ->). rewrite unread_advance, length_drop in Hn'.
  exists (n + n')%nat. split; [lia | apply advance_advance].
Qed.

(** A recursive parser that ends with the tail of the list it builds. *)
Lemma safe_at_cons {A B} (m : M Buffer A) (f : A -> B) b :
  safe_at m b -> safe_at (x ← m; mret (f x)) b.
Proof.
  unfold safe_at, mbind, M_bind. by destruct (m b) as [[a|e| |] b'].
Qed.

Lemma safe_parse_filters fuel b :
  buffer_wf b -> (length (unread b) < fuel)%nat -> safe_at (parse_filters fuel) b.
Proof.
  revert b. induction fuel as [|fuel IH]; intros b Hwf Hf; [lia|].
  cbn [parse_filters]. change (safe_at (get ≫= ?k) b) with (safe_at (k b) b). cbv beta.
  destruct (0 <? Buffer.readable b)%nat; [|by apply safe_at_ret].
  apply safe_at_bind; auto with buffer. intros t b1 E1 Hwf1.
  apply safe_at_bind; auto with buffer. intros q b2 E2 Hwf2.
  apply (safe_at_cons _ (cons _)), IH; [done|].
  pose proof (progress_read_string _ _ _ Hwf E1).
  pose proof (safe_progress _ safe_read_byte _ _ _ Hwf1 E2). lia.
Qed.

Lemma safe_parse_topic_filters fuel b :
  buffer_wf b -> (length (unread b) < fuel)%nat -> safe_at (parse_topic_filters fuel) b.
Proof.
  revert b. induction fuel as [|fuel IH]; intros b Hwf Hf; [lia|].
  cbn [parse_topic_filters]. change (safe_at (get ≫= ?k) b) with (safe_at (k b) b). cbv beta.
  destruct (0 <? Buffer.readable b)%nat; [|by apply safe_at_ret].
  apply safe_at_bind; auto with buffer. intros t b1 E1 Hwf1.
  apply (safe_at_cons _ (cons _)), IH; [done|].
  pose proof (progress_read_string _ _ _ Hwf E1). lia.
Qed.

Lemma safe_parse_connect : safe_reader parse_connect.
Proof.
  unfold parse_connect.
  repeat (apply safe_bind; [by auto 10 with buffer | intros ?]).
  match goal with p : (string * string)%type |- _ => destruct p end. auto 10 with buffer.
Qed.

Lemma safe_parse_ack what : safe_reader (parse_ack what).
Proof. unfold parse_ack. auto with buffer. Qed.

Lemma parsers_safe b :
  buffer_wf b ->
  safe_at parse_connect b /\ safe_at parse_subscribe b /\ safe_at parse_unsubscribe b /\
  safe_at parse_puback b /\ safe_at parse_pubrec b /\ safe_at parse_pubrel b /\
  safe_at parse_pubcomp b.
Proof.
  intros Hwf. split; [by apply safe_parse_connect|].
  assert (Hsub : safe_at parse_subscribe b).
  { apply safe_at_bind; auto with buffer. intros pid b1 E1 Hwf1.
    change (safe_at (get ≫= ?k) b1) with (safe_at (k b1) b1). cbv beta.
    apply (safe_at_cons _ (mkSubscribePacket pid)), safe_parse_filters; [done|].
    rewrite length_unread by done. lia. }
  assert (Hunsub : safe_at parse_unsubscribe b).
  { apply safe_at_bind; auto with buffer. intros pid b1 E1 Hwf1.
    change (safe_at (get ≫= ?k) b1) with (safe_at (k b1) b1). cbv beta.
    apply (safe_at_cons _ (mkUnsubscribePacket pid)), safe_parse_topic_filters; [done|].
    rewrite length_unread by done. lia. }
  split; [done|]. split; [done|].
  repeat split; by apply safe_parse_ack.
Qed.

(** Memory safety and termination of the parsers that need no header: on any
    well-formed packet buffer, whatever its bytes, CONNECT, SUBSCRIBE,
    UNSUBSCRIBE and the acknowledgements are parsed to a value (moving the read
    cursor within the written bytes) or throw; none reads out of bounds and no
    filter loop runs forever. *)
Theorem parsers_memory_safe b :
  buffer_wf b ->
  safe_at parse_connect b /\ safe_at parse_subscribe b /\ safe_at parse_unsubscribe b /\
  safe_at parse_puback b /\ safe_at parse_pubrec b /\ safe_at parse_pubrel b /\
  safe_at parse_pubcomp b.
Proof. apply parsers_safe. Qed.

Lemma parsers_memory_safe_witness :
  safe_at parse_subscribe (Buffer.of_bytes [Byte.x00; Byte.x01; Byte.x00; Byte.xff]).
Proof.
  apply (parsers_memory_safe (Buffer.of_bytes [Byte.x00; Byte.x01; Byte.x00; Byte.xff])).
  split; simpl; lia.
Defined.

(** [PublishPacket::parse] copies the payload before it checks the length, so
    it is safe only when the header's remaining length is really there. *)
Lemma read_exact n b bs b' :
  buffer_wf b -> Buffer.read n b = (Ret bs, b') ->
  length bs = n /\ (length (unread b') + n = length (unread b))%nat /\ buffer_wf b'.
Proof.
  intros Hwf. rewrite read_spec by done. case_if; tests_to_props; intros [= <- <-].
  rewrite unread_advance, length_drop, length_take. split; [lia|]. split; [lia|].
  by apply advance_wf.
Qed.

Lemma length_bytes_string bs : String.length (bytes_string bs) = length bs.
Proof.
  rewrite <- length_string_bytes. by rewrite String.list_byte_of_string_of_list_byte.
Qed.

Lemma read_uint16_exact b v b' :
  buffer_wf b -> Buffer.read_uint16 b = (Ret v, b') ->
  (length (unread b') + 2 = length (unread b))%nat /\ buffer_wf b'.
Proof.
  intros Hwf. unfold Buffer.read_uint16, mbind, M_bind.
  destruct (Buffer.read 2 b) as [[bs|e| |] b1] eqn:E; try done.
  destruct (read_exact _ _ _ _ Hwf E) as (_ & Hl & Hwf1). by intros [= _ <-].
Qed.

Lemma read_string_exact b s b' :
  buffer_wf b -> Buffer.read_string b = (Ret s, b') ->
  (length (unread b') + 2 + String.length s = length (unread b))%nat /\ buffer_wf b'.
Proof.
  intros Hwf. unfold Buffer.read_string, mbind at 1, M_bind at 1.
  destruct (Buffer.read_uint16 b) as [[v|e| |] b1] eqn:E1; try done.
  destruct (read_uint16_exact _ _ _ Hwf E1) as [Hl1 Hwf1].
  unfold mbind, M_bind.
  destruct (Buffer.read (Z.to_nat v) b1) as [[bs|e| |] b2] eqn:E2; try done.
  destruct (read_exact _ _ _ _ Hwf1 E2) as (Hlen & Hl2 & Hwf2).
  intros [= <- <-]. rewrite length_bytes_string. split; [lia | done].
Qed.

Lemma safe_payload n b :
  buffer_wf b -> (n <= length (unread b))%nat ->
  safe_at (if (0 <? n)%nat
           then b ← get; p ← Buffer.from_ptr (data_ b) (read_pos_ b) n; Buffer.skip n;; mret p
           else mret Buffer.init) b.
Proof.
  intros Hwf Hn. rewrite <- (take_drop n (unread b)) in Hn.
  pose proof (consumes_payload (take n (unread b)) b (drop n (unread b)) Hwf) as H.
  rewrite take_drop in H, Hn. specialize (H eq_refl). rewrite length_take_le in H by done.
  unfold safe_at. rewrite H. exists n. done.
Qed.

Lemma safe_parse_publish hdr b :
  buffer_wf b -> hdr_remaining_length hdr <= Z.of_nat (length (unread b)) ->
  safe_at (parse_publish hdr) b.
Proof.
  intros Hwf Hrl. unfold parse_publish.
  apply safe_at_bind; auto with buffer. intros t b1 E1 _.
  destruct (read_string_exact _ _ _ Hwf E1) as [Hl1 Hwf1].
  apply safe_at_bind; [auto 10 with buffer | done |].
  intros [pid consumed] b2 E2 Hwf2.
  assert (Hc : consumed + Z.of_nat (length (unread b2)) = Z.of_nat (length (unread b))).
  { destruct (0 <? hdr_qos hdr).
    - unfold mbind, M_bind in E2.
      destruct (Buffer.read_uint16 b1) as [[v|e| |] b3] eqn:E3; try done.
      destruct (read_uint16_exact _ _ _ Hwf1 E3) as [Hl3 _].
      injection E2 as <- <- <-. lia.
    - injection E2 as <- <- <-. lia. }
  destruct (Z.ltb_spec (hdr_remaining_length hdr) consumed).
  { exact Hwf2. }
  apply (safe_at_cons _ (fun pl => _)), safe_payload; [done|]. lia.
Qed.

(** ** SUBSCRIBE bodies *)

Definition mask_qos (f : SubscribeFilter) : SubscribeFilter :=
  mkSubscribeFilter (topic_filter f) (Z.land (requested_qos f) 0x03).

Definition filter_encodable (f : SubscribeFilter) : Prop :=
  Z.of_nat (String.length (topic_filter f)) < 65536 /\ 0 <= requested_qos f < 256.

Lemma parse_filters_spec fs : forall fuel b,
  Forall filter_encodable fs -> buffer_wf b -> unread b = flat_map filter_field fs ->
  (length (unread b) < fuel)%nat ->
  parse_filters fuel b = (Ret (map mask_qos fs), advance (length (unread b)) b).
Proof.
  induction fs as [|f fs IH]; intros [|fuel] b Henc Hwf Hb Hf; try lia.
  - cbn [parse_filters]. unfold mbind, M_bind, get. rewrite <- length_unread, Hb by done.
    symmetry. simpl. unfold advance. rewrite Nat.add_0_r. by destruct b.
  - rewrite List.Forall_cons_iff in Henc. destruct Henc as [[Ht Hq] Henc].
    cbn [flat_map] in Hb. unfold filter_field at 1 in Hb. rewrite <- app_assoc in Hb.
    cbn [parse_filters]. unfold mbind, M_bind at 1, get. rewrite <- length_unread by done.
    assert (0 < length (unread b))%nat by (rewrite Hb, length_app, length_string_field; lia).
    rewrite_test (0 <? length (unread b))%nat true.
    unfold M_bind at 1. rewrite (consumes_read_string _ Ht b _ Hwf Hb).
    set (b1 := advance _ b).
    assert (Hwf1 : buffer_wf b1) by (apply advance_wf; [done|]; rewrite Hb, length_app; lia).
    assert (Hb1 : unread b1 = [byte_of_Z (requested_qos f)] ++ flat_map filter_field fs)
      by (unfold b1; by rewrite unread_advance, Hb, drop_app_length).
    unfold M_bind at 1. rewrite (consumes_read_byte _ b1 _ Hwf1 Hb1).
    set (b2 := advance _ b1).
    assert (Hwf2 : buffer_wf b2) by (apply advance_wf; [done|]; rewrite Hb1; simpl; lia).
    assert (Hb2 : unread b2 = flat_map filter_field fs)
      by (unfold b2; by rewrite unread_advance, Hb1).
    unfold M_bind at 1. rewrite (IH fuel b2); try done.
    + unfold mret, M_ret. rewrite Z_of_byte_of_Z_small by done. f_equal.
      rewrite Hb2. unfold b2, b1. rewrite !advance_advance. f_equal.
      rewrite Hb, !length_app. simpl. lia.
    + rewrite Hb2. rewrite Hb, !length_app, length_string_field in Hf. simpl in Hf. lia.
Qed.

Lemma parse_subscribe_body b p :
  buffer_wf b -> unread b = subscribe_body p ->
  0 <= sub_packet_id p < 65536 -> Forall filter_encodable (filters p) ->
  exists b', parse_subscribe b =
    (Ret {| sub_packet_id := sub_packet_id p; filters := map mask_qos (filters p) |}, b') /\ unread b' = [].
Proof.
  intros Hwf Hb Hpid Hf. unfold subscribe_body in Hb. set (tl := flat_map filter_field (filters p)) in Hb.
  unfold parse_subscribe. unfold mbind, M_bind at 1.
  rewrite (consumes_read_uint16 _ Hpid b tl Hwf Hb).
  set (b1 := advance _ b).
  assert (Hwf1 : buffer_wf b1) by (apply advance_wf; [done|]; rewrite Hb, length_app; lia).
  assert (Hb1 : unread b1 = tl) by (unfold b1; by rewrite unread_advance, Hb, drop_app_length).
  unfold M_bind at 1, get. unfold M_bind at 1.
  rewrite (parse_filters_spec (filters p)); auto.
  - eexists. split; [done|]. rewrite unread_advance. apply drop_ge. lia.
  - rewrite length_unread by done. lia.
Qed.

(** SUBSCRIBE bodies are decoded completely and in order: on the encoding of a
    packet id and a list of filters, [SubscribePacket::parse] returns exactly
    those filters, each QoS octet masked to its two low bits, and consumes the
    whole body. *)
Theorem parse_subscribe_complete p :
  0 <= sub_packet_id p < 65536 -> Forall filter_encodable (filters p) ->
  exists b',
    parse_subscribe (Buffer.of_bytes (subscribe_body p)) =
      (Ret {| sub_packet_id := sub_packet_id p; filters := map mask_qos (filters p) |}, b') /\
    unread b' = [].
Proof. apply parse_subscribe_body; [apply of_bytes_wf | apply unread_of_bytes]. Qed.

Lemma parse_subscribe_complete_witness :
  exists b',
    parse_subscribe (Buffer.of_bytes (subscribe_body
      {| sub_packet_id := 1; filters := [mkSubscribeFilter "sensor/+" 1; mkSubscribeFilter "home/#" 0] |})) =
      (Ret {| sub_packet_id := 1; filters := [mkSubscribeFilter "sensor/+" 1; mkSubscribeFilter "home/#" 0] |}, b') /\
    unread b' = [].
Proof.
  apply (parse_subscribe_complete
    {| sub_packet_id := 1; filters := [mkSubscribeFilter "sensor/+" 1; mkSubscribeFilter "home/#" 0] |}).
  - simpl. lia.
  - repeat constructor; simpl; lia.
Defined.

(** ** UNSUBSCRIBE bodies *)

Lemma parse_topic_filters_spec fs : forall fuel b,
  Forall (fun f => Z.of_nat (String.length f) < 65536) fs -> buffer_wf b ->
  unread b = flat_map string_field fs -> (length (unread b) < fuel)%nat ->
  parse_topic_filters fuel b = (Ret fs, advance (length (unread b)) b).
Proof.
  induction fs as [|f fs IH]; intros [|fuel] b Henc Hwf Hb Hf; try lia.
  - cbn [parse_topic_filters]. unfold mbind, M_bind, get. rewrite <- length_unread, Hb by done.
    symmetry. simpl. unfold advance. rewrite Nat.add_0_r. by destruct b.
  - rewrite List.Forall_cons_iff in Henc. destruct Henc as [Ht Henc]. cbn [flat_map] in Hb.
    cbn [parse_topic_filters]. unfold mbind, M_bind at 1, get. rewrite <- length_unread by done.
    assert (0 < length (unread b))%nat by (rewrite Hb, length_app, length_string_field; lia).
    rewrite_test (0 <? length (unread b))%nat true.
    unfold M_bind at 1. rewrite (consumes_read_string _ Ht b _ Hwf Hb).
    set (b1 := advance _ b).
    assert (Hwf1 : buffer_wf b1) by (apply advance_wf; [done|]; rewrite Hb, length_app; lia).
    assert (Hb1 : unread b1 = flat_map string_field fs)
      by (unfold b1; by rewrite unread_advance, Hb, drop_app_length).
    unfold M_bind at 1. rewrite (IH fuel b1); try done.
    + unfold mret, M_ret. f_equal. rewrite Hb1. unfold b1. rewrite advance_advance. f_equal.
      rewrite Hb, length_app. lia.
    + rewrite Hb1. rewrite Hb, length_app, length_string_field in Hf. lia.
Qed.

Lemma parse_unsubscribe_body b p :
  buffer_wf b -> unread b = unsubscribe_body p -> 0 <= unsub_packet_id p < 65536 ->
  Forall (fun f => Z.of_nat (String.length f) < 65536) (topic_filters p) ->
  exists b', parse_unsubscribe b = (Ret p, b') /\ unread b' = [].
Proof.
  intros Hwf Hb Hpid Hf. unfold unsubscribe_body in Hb. set (tl := flat_map string_field (topic_filters p)) in Hb.
  unfold parse_unsubscribe. unfold mbind, M_bind at 1.
  rewrite (consumes_read_uint16 _ Hpid b tl Hwf Hb).
  set (b1 := advance _ b).
  assert (Hwf1 : buffer_wf b1) by (apply advance_wf; [done|]; rewrite Hb, length_app; lia).
  assert (Hb1 : unread b1 = tl) by (unfold b1; by rewrite unread_advance, Hb, drop_app_length).
  unfold M_bind at 1, get. unfold M_bind at 1.
  rewrite (parse_topic_filters_spec (topic_filters p)); auto.
  - destruct p. eexists. split; [done|]. rewrite unread_advance. apply drop_ge. lia.
  - rewrite length_unread by done. lia.
Qed.

(** ** CONNECT bodies *)

(** The flags and the body a client sends for a CONNECT; a user name or password
    is sent when it is not empty, a will when its flag is set. *)
Definition connect_flags (c : ConnectPacket) : Z :=
  (if String.eqb (username c) "" then 0 else 0x80) + (if String.eqb (password c) "" then 0 else 0x40) +
  (if will_retain c then 0x20 else 0) + Z.shiftl (will_qos c) 3 + (if will_flag c then 0x04 else 0) +
  (if clean_session c then 0x02 else 0).

Definition connect_body (c : ConnectPacket) : list byte :=
  string_field (protocol_name c) ++ [byte_of_Z (protocol_level c)] ++ [byte_of_Z (connect_flags c)] ++
  Buffer.uint16_bytes (keepalive c) ++ string_field (client_id c) ++
  (if will_flag c then string_field (will_topic c) ++ string_field (will_message c) else []) ++
  (if String.eqb (username c) "" then [] else string_field (username c)) ++
  (if String.eqb (password c) "" then [] else string_field (password c)).

Definition short (s : string) : Prop := Z.of_nat (String.length s) < 65536.

Record connect_encodable (c : ConnectPacket) : Prop := {
  ce_strings : short (protocol_name c) /\ short (client_id c) /\ short (will_topic c) /\
               short (will_message c) /\ short (username c) /\ short (password c);
  ce_level : 0 <= protocol_level c < 256;
  ce_qos : 0 <= will_qos c <= 3;
  ce_keepalive : 0 <= keepalive c < 65536;
  ce_will : will_flag c = false -> will_topic c = ""%string /\ will_message c = ""%string
}.

Lemma connect_flags_decode (u p wr wf cl : bool) q :
  0 <= q <= 3 ->
  let flags := (if u then 0 else 0x80) + (if p then 0 else 0x40) + (if wr then 0x20 else 0) +
               Z.shiftl q 3 + (if wf then 0x04 else 0) + (if cl then 0x02 else 0) in
  0 <= flags < 256 /\ flag flags 0x80 = negb u /\ flag flags 0x40 = negb p /\ flag flags 0x20 = wr /\
  flag flags 0x04 = wf /\ flag flags 0x02 = cl /\ Z.land (Z.shiftr flags 3) 0x03 = q.
Proof.
  intros Hq. assert (q = 0 \/ q = 1 \/ q = 2 \/ q = 3) as [-> | [-> | [-> | ->]]] by lia;
    destruct u, p, wr, wf, cl; vm_compute; repeat split; congruence.
Qed.

(** An optional string. *)
Lemma consumes_optional (e : bool) s :
  short s -> (e = true -> s = ""%string) ->
  consumes (if negb e then Buffer.read_string else mret ""%string) (if e then [] else string_field s) s.
Proof.
  intros Hs He. destruct e; simpl; [rewrite (He eq_refl); apply consumes_ret|by apply consumes_read_string].
Qed.

Lemma consumes_parse_connect c : connect_encodable c -> consumes parse_connect (connect_body c) c.
Proof.
  intros [(Hn & Hi & Hwt & Hwm & Hu & Hp) Hl Hq Hk Hw]. unfold parse_connect, connect_body.
  pose proof (connect_flags_decode (String.eqb (username c) "") (String.eqb (password c) "")
    (will_retain c) (will_flag c) (clean_session c) (will_qos c) Hq) as Hf.
  fold (connect_flags c) in Hf. cbv zeta in Hf. destruct Hf as (Hr & H80 & H40 & H20 & H4 & H2 & H3).
  eapply consumes_bind; [by apply consumes_read_string|].
  eapply consumes_bind; [apply consumes_read_byte|].
  eapply consumes_bind; [apply consumes_read_byte|]. cbv beta zeta.
  rewrite (Z_of_byte_of_Z_small (connect_flags c)), (Z_of_byte_of_Z_small (protocol_level c)) by done.
  rewrite H80, H40, H20, H4, H2, H3.
  eapply consumes_bind; [by apply consumes_read_uint16|].
  eapply consumes_bind; [by apply consumes_read_string|].
  eapply consumes_bind.
  { instantiate (1 := (will_topic c, will_message c)). destruct (will_flag c).
    - eapply consumes_bind; [by apply consumes_read_string|].
      by apply (consumes_map _ (fun m => (will_topic c, m))), consumes_read_string.
    - destruct (Hw eq_refl) as [-> ->]. apply consumes_ret. }
  cbv beta iota.
  eapply consumes_bind; [apply consumes_optional; [done|apply String.eqb_eq]|].
  destruct c as [pn pl cs wf wq wr wt wm us pw ka ci].
  apply (consumes_map _ (fun pass => mkConnectPacket pn pl cs wf wq wr wt wm us pass ka ci)).
  apply consumes_optional; [done|apply String.eqb_eq].
Qed.

Lemma parse_connect_body b c :
  buffer_wf b -> unread b = connect_body c -> connect_encodable c ->
  exists b', parse_connect b = (Ret c, b') /\ unread b' = [].
Proof.
  intros Hwf Hb Hc. rewrite (consumes_parse_connect c Hc b []) by (done || by rewrite Hb, app_nil_r).
  eexists. split; [done|]. rewrite unread_advance, Hb. by apply drop_ge.
Qed.

Lemma connect_body_small c : connect_encodable c -> Z.of_nat (length (connect_body c)) < 2 ^ 28.
Proof.
  unfold short. intros [(Hn & Hi & Hwt & Hwm & Hu & Hp) _ _ _ _]. unfold connect_body, short in *.
  destruct (will_flag c), (String.eqb (username c) ""), (String.eqb (password c) "");
    rewrite ?length_app, ?length_string_field; simpl length; lia.
Qed.

(** The keepalive of a parsed CONNECT has 16 bits. *)
Lemma parse_connect_keepalive b c b' :
  parse_connect b = (Ret c, b') -> 0 <= keepalive c < 65536.
Proof.
  unfold parse_connect. intros Hp.
  apply bind_ret_inv in Hp as (name & b1 & _ & Hp). apply bind_ret_inv in Hp as (lv & b2 & _ & Hp).
  apply bind_ret_inv in Hp as (fl & b3 & _ & Hp). cbv zeta in Hp.
  apply bind_ret_inv in Hp as (ka & b4 & Hka & Hp). apply bind_ret_inv in Hp as (cid & b5 & _ & Hp).
  apply bind_ret_inv in Hp as ([wt wm] & b6 & _ & Hp). apply bind_ret_inv in Hp as (us & b7 & _ & Hp).
  apply bind_ret_inv in Hp as (pw & b8 & _ & Hp). injection Hp as <- _. simpl.
  unfold Buffer.read_uint16 in Hka. apply bind_ret_inv in Hka as (bs & b9 & _ & Hka).
  injection Hka as <- _. apply u16_range.
Qed.

(** [C34] Request round trips: on the body a client sends for a CONNECT or an
    UNSUBSCRIBE the parser returns exactly the fields, for all flags, with or
    without a will, a user name and a password, and leaves nothing over. *)
Theorem requests_roundtrip c u :
  connect_encodable c -> 0 <= unsub_packet_id u < 65536 ->
  Forall (fun f => Z.of_nat (String.length f) < 65536) (topic_filters u) ->
  (exists b', parse_connect (Buffer.of_bytes (connect_body c)) = (Ret c, b') /\ unread b' = []) /\
  (exists b', parse_unsubscribe (Buffer.of_bytes (unsubscribe_body u)) = (Ret u, b') /\ unread b' = []).
Proof.
  intros Hc Hp Hf. split.
  - apply parse_connect_body; [apply of_bytes_wf|apply unread_of_bytes|done].
  - apply parse_unsubscribe_body; [apply of_bytes_wf|apply unread_of_bytes|done|done].
Qed.

Definition sample_connect : ConnectPacket :=
  {| protocol_name := "MQTT"; protocol_level := 4; clean_session := true; will_flag := true; will_qos := 1;
     will_retain := false; will_topic := "dev/state"; will_message := "gone"; username := "alice";
     password := "secret"; keepalive := 60; client_id := "dev" |}.

Lemma requests_roundtrip_witness :
  exists b', parse_connect (Buffer.of_bytes (connect_body sample_connect)) = (Ret sample_connect, b') /\ unread b' = [].
Proof.
  apply (requests_roundtrip sample_connect (mkUnsubscribePacket 3 ["a/+"; "b"]%string)).
  - constructor; vm_compute; intuition congruence.
  - simpl. lia.
  - repeat constructor; simpl; lia.
Defined.
