(* ===== verification/Parser.v ===== *)
(** * The stream parser ([src/packet/parser.h], [src/packet/parser.cpp])

    [PacketParser] accumulates the bytes of a TCP stream and cuts complete MQTT
    packets out of them.  Its specification is framing: whatever the chunks the
    stream arrives in, the packets that come out are the frames of the stream,
    in order. *)

From Stdlib Require Import Strings.Byte Strings.String ZArith Lia.
From stdpp Require Import base list strings numbers option pretty.
From S2P Require Import Prelude Config Buffer Packet.

Open Scope Z_scope.

Record PacketParser : Type := mkParser {
  buffer_ : Buffer;
  error_msg_ : string
}.

Module PacketParser.

Definition reset (p : PacketParser) : PacketParser :=
  mkParser (Buffer.clear (buffer_ p)) "".

(** The constructor. *)
Definition init : PacketParser := reset (mkParser Buffer.init "").

Definition has_error (p : PacketParser) : bool := negb (String.eqb (error_msg_ p) "").

Definition error_message (p : PacketParser) : string := error_msg_ p.

Definition feed (cfg : Config) (data : list byte) (p : PacketParser) : PacketParser :=
  if (0 <? length data)%nat then
    if u64 (max_parser_buffer_size cfg) <? Z.of_nat (Buffer.size (buffer_ p) + length data)
    then mkParser (buffer_ p) "Parser buffer overflow"
    else mkParser (Buffer.write data (buffer_ p)) (error_msg_ p)
  else p.

Definition decode_header (p : PacketParser) : FixedHeader :=
  if (Buffer.readable (buffer_ p) <? 1)%nat
  then {| hdr_type := 0; hdr_dup := false; hdr_qos := 0; hdr_retain := false;
          hdr_remaining_length := 0 |}
  else decode_byte1 (Z_of_byte (default Byte.x00 (data_ (buffer_ p) !! 0%nat))).

(** The loop of [decode_remaining_length] over the bytes [data()[pos ..]] below
    [size()]: the value, the final [pos], and the error message it leaves. *)
Fixpoint decode_remaining_length_loop (bs : list byte) (value multiplier count : Z)
    (pos : nat) (err : string) : Z * nat * string :=
  match bs with
  | [] => (0, 0%nat, err)
  | enc :: bs =>
      let enc := Z_of_byte enc in
      let value := u32 (value + u32 (Z.land enc 0x7F * multiplier)) in
      let pos := S pos in
      let count := count + 1 in
      if Z.land enc 0x80 =? 0 then (value, pos, err)
      else if (4 <=? count) || (2097152 <? multiplier)
      then (0, pos, "Malformed remaining length"%string)
      else decode_remaining_length_loop bs value (u32 (multiplier * 128)) count pos err
  end.

Definition decode_remaining_length (p : PacketParser) : Z * nat * PacketParser :=
  let '(value, pos, err) :=
    decode_remaining_length_loop (drop 1 (contents (buffer_ p))) 0 1 0 1 (error_msg_ p) in
  (value, pos, mkParser (buffer_ p) err).

(** [try_extract]: the packet it stores in [out] when it returns [true]. *)
Definition try_extract (cfg : Config) (p : PacketParser) : option Buffer * PacketParser :=
  if has_error p then (None, p)
  else if (Buffer.readable (buffer_ p) <? 1)%nat then (None, p)
  else
    let type_val := hdr_type (decode_header p) in
    if (type_val <? 1) || (14 <? type_val)
    then (None, mkParser (buffer_ p) ("Invalid packet type: " +:+ pretty type_val))
    else
      let '(remaining, header_end, p) := decode_remaining_length p in
      if has_error p then (None, p)
      else if (remaining =? 0) && (header_end =? 0)%nat then (None, p)
      else if u32 (max_packet_size cfg) <? remaining
      then (None, mkParser (buffer_ p) ("Packet too large: " +:+ pretty remaining))
      else
        let total_size := (header_end + Z.to_nat remaining)%nat in
        if (Buffer.size (buffer_ p) <? total_size)%nat then (None, p)
        else
          let out := Buffer.of_bytes (take total_size (data_ (buffer_ p))) in
          let remaining_data :=
            Buffer.of_bytes (take (Buffer.size (buffer_ p) - total_size)
                                  (drop total_size (data_ (buffer_ p)))) in
          (Some out, mkParser remaining_data (error_msg_ p)).

(** [while (parser_.try_extract(packet)) ...]: the packets one read yields.
    Every extraction removes at least two bytes. *)
Fixpoint drain (cfg : Config) (fuel : nat) (p : PacketParser) : list Buffer * PacketParser :=
  match fuel with
  | O => ([], p)
  | S fuel =>
      match try_extract cfg p with
      | (Some out, p') => let '(outs, p'') := drain cfg fuel p' in (out :: outs, p'')
      | (None, p') => ([], p')
      end
  end.

(** One read of the socket: feed the chunk, then extract. *)
Definition on_chunk (cfg : Config) (chunk : list byte) (p : PacketParser)
  : list Buffer * PacketParser :=
  let p := feed cfg chunk p in drain cfg (S (Buffer.size (buffer_ p))) p.

Fixpoint on_chunks (cfg : Config) (chunks : list (list byte)) (p : PacketParser)
  : list Buffer * PacketParser :=
  match chunks with
  | [] => ([], p)
  | c :: cs =>
      let '(outs, p) := on_chunk cfg c p in
      let '(outs', p) := on_chunks cfg cs p in (outs ++ outs', p)
  end.

End PacketParser.

(** ** Specification *)

(** A parser that waits with the bytes [bs] buffered, without an error. *)
Definition holding (bs : list byte) (p : PacketParser) : Prop :=
  buffer_wf (buffer_ p) /\ read_pos_ (buffer_ p) = 0%nat /\
  contents (buffer_ p) = bs /\ error_msg_ p = ""%string.

(** A frame the broker accepts: a packet type 1..14 and a body within the
    configured limit. *)
Definition valid_frame (cfg : Config) (f : list byte) : Prop :=
  exists byte1 body, f = frame byte1 body /\ 16 <= byte1 < 240 /\
    Z.of_nat (length body) < 2 ^ 28 /\ Z.of_nat (length body) <= u32 (max_packet_size cfg).

(** ** The header decoder *)

Lemma remaining_length_bytes_loop_nonempty k v : (1 <= length (remaining_length_bytes_loop (S k) v))%nat.
Proof. simpl. destruct (v <? 128); simpl; lia. Qed.

(** On an encoded length, complete or cut short. *)
Lemma decode_loop_spec k : forall v value m count pos err tail,
  0 <= v < 128 ^ Z.of_nat k -> m = 128 ^ count -> count + Z.of_nat k = 4 -> 0 <= count ->
  (k > 0)%nat -> 0 <= value < m ->
  let rl := remaining_length_bytes_loop (S k) v in
  PacketParser.decode_remaining_length_loop (rl ++ tail) value m count pos err =
    (value + v * m, (pos + length rl)%nat, err) /\
  forall n, (n < length rl)%nat ->
    PacketParser.decode_remaining_length_loop (take n rl) value m count pos err = (0, 0%nat, err).
Proof.
  induction k as [|k IH]; intros v value m count pos err tail Hv Hm Hk Hc Hk0 Hval; [lia|].
  rewrite Nat2Z.inj_succ, Z.pow_succ_r in Hv by lia.
  assert (Hm' : 0 < m <= 2097152).
  { subst m. split; [apply Z.pow_pos_nonneg; lia|]. change 2097152 with (128 ^ 3).
    apply Z.pow_le_mono_r; lia. }
  pose proof (Z.mod_pos_bound v 128 ltac:(lia)) as Hmod.
  pose proof (Z.div_mod v 128 ltac:(lia)) as Hdm.
  cbv zeta. rewrite remaining_length_bytes_loop_S.
  destruct (Z.ltb_spec v 128) as [Hlt|Hge].
  - split.
    + cbn [app PacketParser.decode_remaining_length_loop length].
      rewrite Z_of_byte_of_Z_small, land_7f, land_80 by lia.
      assert (0 <= v * m <= 127 * m) by nia.
      rewrite_test (v <? 128) true. rewrite Z.mod_small by lia.
      rewrite (u32_small (v * m)), u32_small by lia.
      f_equal. f_equal. lia.
    + intros [|n] Hn; [done | simpl in Hn; lia].
  - destruct k as [|k].
    { exfalso. change (128 * 128 ^ Z.of_nat 0) with 128 in Hv. lia. }
    destruct (IH (v / 128) (value + v mod 128 * m) (m * 128) (count + 1) (S pos) err tail)
      as [IH1 IH2]; try lia.
    { subst m. rewrite Z.pow_add_r by lia. lia. }
    { nia. }
    assert (Hstep : forall bs,
      PacketParser.decode_remaining_length_loop (byte_of_Z (v mod 128 + 128) :: bs) value m count pos err =
      PacketParser.decode_remaining_length_loop bs (value + v mod 128 * m) (m * 128) (count + 1) (S pos) err).
    { intros bs. cbn [PacketParser.decode_remaining_length_loop].
      rewrite Z_of_byte_of_Z_small, land_7f, land_80 by lia.
      rewrite_test (v mod 128 + 128 <? 128) false.
      rewrite_test (4 <=? count + 1) false. rewrite_test (2097152 <? m) false. simpl orb.
      rewrite Z.add_mod, Z.mod_same, Z.add_0_r, !Z.mod_mod by lia.
      assert (0 <= v mod 128 * m <= 127 * m) by nia. 
      rewrite (u32_small (v mod 128 * m)), !u32_small by lia. done. }
    split.
    + rewrite <- app_comm_cons, Hstep, IH1. cbn [length]. f_equal. f_equal; lia.
    + intros [|n] Hn; [done|]. cbn [take length] in Hn |- *. rewrite Hstep.
      apply IH2. lia.
Qed.

(** The parser's decoder and the one [handle_packet] uses agree on arbitrary
    bytes: when the first accepts a header the second returns the same length
    and consumes the same octets, without overflow. *)
Lemma decoders_agree bs : forall value m count pos err v pos' b fuel,
  PacketParser.decode_remaining_length_loop bs value m count pos err = (v, pos', err) ->
  (v, pos') <> (0, 0%nat) -> err = ""%string ->
  m = 128 ^ count -> 0 <= count <= 3 -> 0 <= value < m ->
  buffer_wf b -> unread b = bs -> (Z.of_nat fuel + count >= 5) ->
  (pos < pos')%nat /\ (pos' - pos <= length bs)%nat /\ 0 <= v < 2 ^ 28 /\
  Buffer.read_remaining_length_loop fuel value m count b = (Ret v, advance (pos' - pos) b).
Proof.
  induction bs as [|x bs IH];
    intros value m count pos err v pos' b fuel E Hne Herr Hm Hc Hval Hwf Hb Hf;
    cbn [PacketParser.decode_remaining_length_loop] in E.
  { injection E as <- <-. done. }
  assert (Hm' : 0 < m <= 2097152).
  { subst m. split; [apply Z.pow_pos_nonneg; lia|]. change 2097152 with (128 ^ 3).
    apply Z.pow_le_mono_r; lia. }
  pose proof (Z_of_byte_range x). pose proof (Z.mod_pos_bound (Z_of_byte x) 128 ltac:(lia)).
  assert (0 <= Z_of_byte x mod 128 * m <= 127 * m) by nia.
  destruct fuel as [|fuel]; [lia|].
  rewrite (read_remaining_length_round fuel value m count x bs) by (done || lia).
  rewrite land_7f, land_80 in E by done. rewrite (u32_small (_ * m)) in E by lia. rewrite !u32_small in E by lia.
  cbv zeta in E |- *.
  destruct (Z_of_byte x <? 128).
  { injection E as <- <-. cbn [length]. replace (S pos - pos)%nat with 1%nat by lia.
    repeat split; try lia. }
  destruct ((4 <=? count + 1) || (2097152 <? m)) eqn:Hover; [subst err; done|].
  tests_to_props.
  destruct (IH _ _ _ _ _ _ _ (advance 1 b) fuel E Hne Herr) as (Hp & Hl & Hv & ->); try lia.
  - subst m. rewrite Z.pow_add_r by lia. lia.
  - apply advance_wf; [done|]. rewrite Hb. simpl. lia.
  - by rewrite unread_advance, Hb.
  - rewrite advance_advance. cbn [length]. split; [lia|]. split; [lia|]. split; [done|].
    f_equal. f_equal. lia.
Qed.

(** The decoder looks only at the octets it consumes. *)
Lemma decode_loop_ge bs : forall value m count pos err v pos' err',
  PacketParser.decode_remaining_length_loop bs value m count pos err = (v, pos', err') ->
  (v = 0 /\ pos' = 0%nat) \/ (pos < pos')%nat.
Proof.
  induction bs as [|x bs IH]; intros value m count pos err v pos' err' E;
    cbn [PacketParser.decode_remaining_length_loop] in E.
  - left. split; congruence.
  - destruct (_ =? 0); [right; injection E; lia|].
    destruct (_ || _); [right; injection E; lia|].
    destruct (IH _ _ _ _ _ _ _ _ E); [by left | right; lia].
Qed.

Lemma decode_loop_take bs : forall value m count pos err v pos' err' n,
  PacketParser.decode_remaining_length_loop bs value m count pos err = (v, pos', err') ->
  pos' <> 0%nat -> (pos' - pos <= n)%nat ->
  PacketParser.decode_remaining_length_loop (take n bs) value m count pos err = (v, pos', err').
Proof.
  induction bs as [|x bs IH]; intros value m count pos err v pos' err' n E Hne Hn.
  { by rewrite take_nil. }
  destruct (decode_loop_ge _ _ _ _ _ _ _ _ _ E) as [[_ ?]|Hlt]; [done|].
  destruct n as [|n]; [lia|]. cbn [take PacketParser.decode_remaining_length_loop] in E |- *.
  destruct (_ =? 0); [done|]. destruct (_ || _); [done|].
  apply IH; [done | done | lia].
Qed.

(** ** Extraction *)

Lemma holding_init : holding [] PacketParser.init.
Proof. split; [apply init_wf | done]. Qed.

Lemma holding_size bs p : holding bs p -> Buffer.size (buffer_ p) = length bs.
Proof. intros (Hwf & _ & <- & _). by rewrite length_contents. Qed.

Lemma holding_readable bs p : holding bs p -> Buffer.readable (buffer_ p) = length bs.
Proof.
  intros (Hwf & Hr & <- & _). rewrite length_contents by done.
  unfold Buffer.readable, Buffer.size. lia.
Qed.

Lemma holding_data bs p n :
  holding bs p -> (n <= length bs)%nat ->
  take n (data_ (buffer_ p)) = take n bs /\
  take (Buffer.size (buffer_ p) - n) (drop n (data_ (buffer_ p))) = drop n bs.
Proof.
  intros H Hn. rewrite (holding_size bs p H). destruct H as (Hwf & Hr & Hc & _).
  pose proof (length_contents _ Hwf) as Hl. rewrite Hc in Hl. unfold Buffer.size in Hl.
  unfold contents in Hc. split.
  - rewrite <- Hc, take_take. f_equal. lia.
  - rewrite <- Hc at 2. rewrite skipn_firstn_comm. by rewrite <- Hl.
Qed.

Lemma holding_no_error bs p : holding bs p -> PacketParser.has_error p = false.
Proof. intros (_ & _ & _ & He). unfold PacketParser.has_error. by rewrite He. Qed.

Lemma decode_header_holding x bs p :
  holding (x :: bs) p -> PacketParser.decode_header p = decode_byte1 (Z_of_byte x).
Proof.
  intros H. unfold PacketParser.decode_header. rewrite (holding_readable _ _ H).
  simpl length. simpl Nat.ltb.
  destruct (holding_data _ _ 1 H) as [Hd _]; [simpl; lia|].
  destruct (data_ (buffer_ p)) as [|y l]; [done|]. by injection Hd as ->.
Qed.

Lemma frame_type_iff z :
  0 <= z < 256 ->
  (hdr_type (decode_byte1 z) <? 1) || (14 <? hdr_type (decode_byte1 z)) =
    negb ((16 <=? z) && (z <? 240)).
Proof.
  intros H. apply eqb_prop.
  apply (below_256 (fun z => Bool.eqb
    ((hdr_type (decode_byte1 z) <? 1) || (14 <? hdr_type (decode_byte1 z)))
    (negb ((16 <=? z) && (z <? 240))))); [vm_compute; reflexivity | done].
Qed.

Lemma frame_type_ok byte1 :
  16 <= byte1 < 240 ->
  let t := hdr_type (decode_byte1 (Z_of_byte (byte_of_Z byte1))) in
  (t <? 1) || (14 <? t) = false.
Proof.
  intros H. cbv zeta. rewrite Z_of_byte_of_Z_small, frame_type_iff by lia.
  rewrite_test (16 <=? byte1) true. by rewrite_test (byte1 <? 240) true.
Qed.

Lemma feed_holding cfg chunk bs p :
  holding bs p ->
  Z.of_nat (length bs + length chunk) <= u64 (max_parser_buffer_size cfg) ->
  holding (bs ++ chunk) (PacketParser.feed cfg chunk p).
Proof.
  intros H Hlen. unfold PacketParser.feed. rewrite (holding_size _ _ H).
  destruct (Nat.ltb_spec 0 (length chunk)) as [Hpos|Hz].
  - rewrite_test (u64 (max_parser_buffer_size cfg) <? Z.of_nat (length bs + length chunk)) false.
    destruct H as (Hwf & Hr & <- & He). split; [by apply write_wf|]. split; [done|].
    split; [by apply contents_write | done].
  - assert (chunk = []) as -> by (apply length_zero_iff_nil; lia). by rewrite app_nil_r.
Qed.

(** What [try_extract] does once the fixed header is known to be complete. *)
Lemma try_extract_header cfg byte1 (body tail : list byte) p :
  16 <= byte1 < 240 -> Z.of_nat (length body) < 2 ^ 28 ->
  Z.of_nat (length body) <= u32 (max_packet_size cfg) ->
  let hd := byte_of_Z byte1 :: remaining_length_bytes (Z.of_nat (length body)) in
  holding (hd ++ tail) p ->
  let total := (length hd + length body)%nat in
  PacketParser.try_extract cfg p =
    if (length (hd ++ tail) <? total)%nat then (None, p)
    else (Some (Buffer.of_bytes (take total (hd ++ tail))),
          mkParser (Buffer.of_bytes (drop total (hd ++ tail))) "").
Proof.
  intros Hb1 Hl Hmax hd H total. unfold PacketParser.try_extract.
  rewrite (holding_no_error _ _ H), (holding_readable _ _ H), (decode_header_holding _ _ _ H).
  rewrite frame_type_ok by done.
  assert ((length (hd ++ tail) <? 1)%nat = false) as -> by reflexivity.
  unfold PacketParser.decode_remaining_length.
  assert (He : error_msg_ p = ""%string) by apply H.
  assert (Hc : contents (buffer_ p) = hd ++ tail) by apply H.
  destruct (decode_loop_spec 4 (Z.of_nat (length body)) 0 1 0 1 "" tail) as [Hdec _]; try lia.
  rewrite Hc, He. unfold hd at 1. rewrite <- app_comm_cons. cbn [drop]. rewrite drop_0.
  unfold remaining_length_bytes. rewrite Hdec.
  fold (remaining_length_bytes (Z.of_nat (length body))).
  rewrite Z.mul_1_r, Z.add_0_l.
  replace (mkParser (buffer_ p) "") with p by (destruct p; simpl in He; by subst).
  rewrite (holding_no_error _ _ H).
  change (1 + length (remaining_length_bytes (Z.of_nat (length body))))%nat with (length hd).
  assert ((length hd =? 0)%nat = false) as -> by reflexivity.
  rewrite andb_false_r. rewrite_test (u32 (max_packet_size cfg) <? Z.of_nat (length body)) false.
  rewrite Nat2Z.id, (holding_size _ _ H).
  fold total. destruct (Nat.ltb_spec (length (hd ++ tail)) total) as [|Hge]; [done|].
  destruct (holding_data _ _ total H Hge) as [-> Hd].
  rewrite (holding_size _ _ H) in Hd. by rewrite Hd, He.
Qed.

Lemma holding_of_bytes bs : holding bs (mkParser (Buffer.of_bytes bs) "").
Proof.
  split; [apply of_bytes_wf|]. split; [done|]. split; [apply contents_of_bytes | done].
Qed.

Lemma try_extract_frame_eq cfg f rest p :
  valid_frame cfg f -> holding (f ++ rest) p ->
  PacketParser.try_extract cfg p = (Some (Buffer.of_bytes f), mkParser (Buffer.of_bytes rest) "").
Proof.
  intros (byte1 & body & -> & Hb1 & Hl & Hmax) H. unfold frame in *.
  rewrite app_comm_cons, <- app_assoc in H.
  rewrite (try_extract_header cfg byte1 body (body ++ rest) p Hb1 Hl Hmax H).
  rewrite app_assoc.
  set (hd := byte_of_Z byte1 :: remaining_length_bytes (Z.of_nat (length body))) in *.
  assert (length hd + length body <= length ((hd ++ body) ++ rest))%nat
    by (rewrite !length_app; lia).
  rewrite_test (length ((hd ++ body) ++ rest) <? length hd + length body)%nat false.
  by rewrite take_app_length', drop_app_length' by (by rewrite length_app).
Qed.

Lemma try_extract_frame cfg f rest p :
  valid_frame cfg f -> holding (f ++ rest) p ->
  exists p', PacketParser.try_extract cfg p = (Some (Buffer.of_bytes f), p') /\ holding rest p'.
Proof.
  intros Hf H. eexists. split; [by apply try_extract_frame_eq|]. apply holding_of_bytes.
Qed.

Lemma try_extract_incomplete_header cfg byte1 v n p :
  16 <= byte1 < 240 -> 0 <= v < 2 ^ 28 -> (n < length (remaining_length_bytes v))%nat ->
  holding (byte_of_Z byte1 :: take n (remaining_length_bytes v)) p ->
  PacketParser.try_extract cfg p = (None, p).
Proof.
  intros Hb1 Hv Hn H. unfold PacketParser.try_extract.
  rewrite (holding_no_error _ _ H), (holding_readable _ _ H), (decode_header_holding _ _ _ H).
  rewrite frame_type_ok by done. unfold PacketParser.decode_remaining_length.
  assert (He : error_msg_ p = ""%string) by apply H.
  assert (Hc : contents (buffer_ p) = byte_of_Z byte1 :: take n (remaining_length_bytes v)) by apply H.
  destruct (decode_loop_spec 4 v 0 1 0 1 "" []) as [_ Hdec]; try lia.
  rewrite Hc, He. cbn [drop]. rewrite drop_0. unfold remaining_length_bytes.
  rewrite (Hdec n Hn).
  replace (mkParser (buffer_ p) "") with p by (destruct p; simpl in He; by subst).
  rewrite (holding_no_error _ _ H). done.
Qed.

Lemma try_extract_prefix cfg f c more p :
  valid_frame cfg f -> f = c ++ more -> more <> [] -> holding c p ->
  PacketParser.try_extract cfg p = (None, p).
Proof.
  intros (byte1 & body & -> & Hb1 & Hl & Hmax) Hf Hmore H. unfold frame in Hf.
  destruct c as [|x c].
  { unfold PacketParser.try_extract.
    by rewrite (holding_no_error _ _ H), (holding_readable _ _ H). }
  rewrite <- app_comm_cons in Hf. injection Hf as <- Hf.
  set (rl := remaining_length_bytes (Z.of_nat (length body))) in *.
  assert (Hlen : (length rl + length body = length c + length more)%nat)
    by (rewrite <- !length_app; congruence).
  assert (0 < length more)%nat by (destruct more; [done | simpl; lia]).
  destruct (Nat.le_gt_cases (length rl) (length c)) as [Hle|Hgt].
  - assert (Hc : c = rl ++ drop (length rl) c).
    { rewrite <- (take_drop (length rl) c) at 1. f_equal.
      apply (f_equal (take (length rl))) in Hf.
      by rewrite take_app_length, take_app_le in Hf. }
    rewrite Hc, app_comm_cons in H.
    rewrite (try_extract_header cfg byte1 body _ p Hb1 Hl Hmax H).
    match goal with |- (if (?a <? ?b)%nat then _ else _) = _ =>
      assert (a < b)%nat as ->%Nat.ltb_lt; [|done] end.
    rewrite length_app, length_drop. simpl length. fold rl. lia.
  - apply (try_extract_incomplete_header cfg byte1 (Z.of_nat (length body)) (length c)); try done.
    + lia.
    + fold rl. replace (take (length c) rl) with c; [done|].
      apply (f_equal (take (length c))) in Hf.
      by rewrite take_app_length, take_app_le in Hf by lia.
Qed.

(** [drain] on a prefix of a stream of frames extracts the complete ones. *)
Lemma drain_frames cfg frames : forall c future p fuel,
  Forall (valid_frame cfg) frames -> c ++ future = concat frames -> holding c p ->
  (length c < fuel)%nat ->
  exists fs1 fs2 c' p',
    frames = fs1 ++ fs2 /\ PacketParser.drain cfg fuel p = (map Buffer.of_bytes fs1, p') /\
    holding c' p' /\ c' ++ future = concat fs2 /\ (future = [] -> fs2 = []) /\
    match fs2 with [] => c' = [] | f :: _ => (length c' < length f)%nat end.
Proof.
  induction frames as [|f frames IH]; intros c future p fuel Hv Hc H Hf;
    (destruct fuel as [|fuel]; [lia|]).
  - apply app_nil in Hc as [-> ->]. exists [], [], [], p. cbn [PacketParser.drain].
    unfold PacketParser.try_extract.
    rewrite (holding_no_error _ _ H), (holding_readable _ _ H). done.
  - apply List.Forall_cons_iff in Hv as [Hvf Hv]. cbn [concat] in Hc.
    assert (Hfl : (1 < length f)%nat).
    { destruct Hvf as (byte1 & body & -> & _). unfold frame. cbn [length]. rewrite length_app.
      pose proof (remaining_length_bytes_loop_nonempty 4 (Z.of_nat (length body))).
      unfold remaining_length_bytes. lia. }
    destruct (Nat.le_gt_cases (length f) (length c)) as [Hle|Hgt].
    + assert (Hsplit : c = f ++ drop (length f) c).
      { rewrite <- (take_drop (length f) c) at 1. f_equal.
        apply (f_equal (take (length f))) in Hc.
        by rewrite take_app_length, take_app_le in Hc. }
      set (rest := drop (length f) c) in *. rewrite Hsplit in H.
      destruct (try_extract_frame cfg f rest p Hvf H) as (p1 & E1 & H1).
      assert (Hrest : rest ++ future = concat frames).
      { rewrite Hsplit, <- app_assoc in Hc. by apply app_inv_head in Hc. }
      destruct (IH rest future p1 fuel Hv Hrest H1) as (fs1 & fs2 & c' & p' & -> & E2 & H2 & H3 & H4 & H5).
      { unfold rest. rewrite length_drop. lia. }
      exists (f :: fs1), fs2, c', p'. cbn [PacketParser.drain]. rewrite E1, E2.
      do 5 (split; [done|]). done.
    + assert (Hf' : f = c ++ drop (length c) f).
      { rewrite <- (take_drop (length c) f) at 1. f_equal.
        apply (f_equal (take (length c))) in Hc.
        by rewrite take_app_length, take_app_le in Hc by lia. }
      exists [], (f :: frames), c, p. cbn [PacketParser.drain].
      rewrite (try_extract_prefix cfg f c (drop (length c) f) p Hvf Hf'); [|
        intros E; apply (f_equal length) in E; rewrite length_drop in E; simpl in E; lia | done].
      do 4 (split; [done|]). split; [|done].
      intros ->. rewrite app_nil_r in Hc. apply (f_equal length) in Hc.
      rewrite length_app in Hc. lia.
Qed.

(** ** Correctness of the parser *)

(** [C12] Framing: cut a stream of valid frames into chunks in any way (each at most
    [K] bytes, each frame at most [F] bytes, [F + K] within the configured
    buffer limit); feeding the chunks one read at a time extracts exactly the
    frames, in order, and leaves the parser empty and without an error. *)
Theorem parser_framing cfg frames chunks F K :
  Forall (valid_frame cfg) frames -> concat chunks = concat frames ->
  Forall (fun f => length f <= F)%nat frames -> Forall (fun c => length c <= K)%nat chunks ->
  Z.of_nat (F + K) <= u64 (max_parser_buffer_size cfg) ->
  exists p', PacketParser.on_chunks cfg chunks PacketParser.init = (map Buffer.of_bytes frames, p')
             /\ holding [] p'.
Proof.
  intros Hv Hcat HF HK Hmax.
  cut (forall frames c p, Forall (valid_frame cfg) frames -> Forall (fun f => length f <= F)%nat frames ->
         c ++ concat chunks = concat frames -> holding c p ->
         (match frames with [] => c = [] | f :: _ => (length c < length f)%nat end) ->
         exists p', PacketParser.on_chunks cfg chunks p = (map Buffer.of_bytes frames, p') /\ holding [] p').
  { intros H. apply (H frames []); try done.
    destruct frames as [|f fs]; [done|]. apply List.Forall_cons_iff in Hv as [(b1 & bd & -> & _) _].
    simpl. lia. }
  clear frames Hv Hcat HF. induction HK as [|ch chunks Hch HK IH]; intros frames c p Hv HF Hc H Hres.
  - cbn [concat] in Hc. rewrite app_nil_r in Hc.
    destruct frames as [|f fs].
    { simpl. exists p. by subst c. }
    subst c. cbn [concat] in Hres. rewrite length_app in Hres. lia.
  - cbn [concat PacketParser.on_chunks] in Hc |- *. rewrite app_assoc in Hc.
    assert (Hcl : (length c <= F)%nat).
    { destruct frames as [|f fs]; [subst c; simpl; lia|].
      apply List.Forall_cons_iff in HF as [Hf _]. lia. }
    assert (H' : holding (c ++ ch) (PacketParser.feed cfg ch p)) by (apply feed_holding; [done | lia]).
    unfold PacketParser.on_chunk.
    destruct (drain_frames cfg frames (c ++ ch) (concat chunks) (PacketParser.feed cfg ch p)
                (S (Buffer.size (buffer_ (PacketParser.feed cfg ch p)))) Hv Hc H')
      as (fs1 & fs2 & c' & p1 & -> & -> & H1 & H2 & _ & H4).
    { rewrite (holding_size _ _ H'). lia. }
    apply List.Forall_app in Hv as [_ Hv2]. apply List.Forall_app in HF as [_ HF2].
    destruct (IH fs2 c' p1 Hv2 HF2 H2 H1 H4) as (p' & -> & Hp'). exists p'. by rewrite map_app.
Qed.

Lemma parser_framing_witness :
  exists p', PacketParser.on_chunks default_config
      [[Byte.xc0]; [Byte.x00; Byte.x40; Byte.x02; Byte.x00]; [Byte.x07]] PacketParser.init =
      (map Buffer.of_bytes [frame 0xC0 []; frame 0x40 [Byte.x00; Byte.x07]], p')
    /\ holding [] p'.
Proof.
  apply (parser_framing default_config [frame 0xC0 []; frame 0x40 [Byte.x00; Byte.x07]]
    [[Byte.xc0]; [Byte.x00; Byte.x40; Byte.x02; Byte.x00]; [Byte.x07]] 4 4).
  - constructor; [exists 0xC0, []; vm_compute; intuition congruence|].
    constructor; [exists 0x40, [Byte.x00; Byte.x07]; vm_compute; intuition congruence | constructor].
  - reflexivity.
  - repeat constructor; simpl; lia.
  - repeat constructor; simpl; lia.
  - vm_compute. congruence.
Defined.

(** The states a parser goes through. *)
Inductive parser_reachable (cfg : Config) : PacketParser -> Prop :=
| parser_start : parser_reachable cfg PacketParser.init
| parser_fed data p : parser_reachable cfg p -> parser_reachable cfg (PacketParser.feed cfg data p)
| parser_extracted p : parser_reachable cfg p -> parser_reachable cfg (PacketParser.try_extract cfg p).2
| parser_reset p : parser_reachable cfg p -> parser_reachable cfg (PacketParser.reset p).

Definition parser_inv (cfg : Config) (p : PacketParser) : Prop :=
  buffer_wf (buffer_ p) /\ read_pos_ (buffer_ p) = 0%nat /\
  Z.of_nat (Buffer.size (buffer_ p)) <= u64 (max_parser_buffer_size cfg).

(** Every outcome of [try_extract]: nothing extracted and the bytes kept, or a
    non-empty prefix cut off. *)
Lemma try_extract_cases cfg p :
  buffer_wf (buffer_ p) -> read_pos_ (buffer_ p) = 0%nat ->
  let '(o, p') := PacketParser.try_extract cfg p in
  match o with
  | None => buffer_ p' = buffer_ p
  | Some out =>
      PacketParser.has_error p = false /\
      exists v pos, let total := (pos + Z.to_nat v)%nat in
        16 <= Z_of_byte (default Byte.x00 (data_ (buffer_ p) !! 0%nat)) < 240 /\
        (1 <= Buffer.size (buffer_ p))%nat /\
        PacketParser.decode_remaining_length_loop (drop 1 (contents (buffer_ p))) 0 1 0 1 "" =
          (v, pos, ""%string) /\ (v, pos) <> (0, 0%nat) /\ v <= u32 (max_packet_size cfg) /\
        (total <= length (contents (buffer_ p)))%nat /\
        out = Buffer.of_bytes (take total (contents (buffer_ p))) /\
        p' = mkParser (Buffer.of_bytes (drop total (contents (buffer_ p)))) ""
  end.
Proof.
  intros Hwf Hr. unfold PacketParser.try_extract.
  destruct (PacketParser.has_error p) eqn:He; [done|].
  assert (Herr : error_msg_ p = ""%string).
  { unfold PacketParser.has_error in He. apply negb_false_iff, String.eqb_eq in He. done. }
  assert (H : holding (contents (buffer_ p)) p) by done.
  destruct (Buffer.readable (buffer_ p) <? 1)%nat eqn:Hrd; [done|].
  destruct (_ || _) eqn:Hty; [done|].
  unfold PacketParser.decode_remaining_length. rewrite Herr.
  destruct (PacketParser.decode_remaining_length_loop _ _ _ _ _ _) as [[v pos] err] eqn:Hdec.
  destruct (PacketParser.has_error (mkParser (buffer_ p) err)) eqn:He'; [done|].
  assert (err = ""%string) as ->.
  { unfold PacketParser.has_error in He'. by apply negb_false_iff, String.eqb_eq in He'. }
  destruct ((v =? 0) && (pos =? 0)%nat) eqn:Hinc; [done|].
  cbn [buffer_ error_msg_].
  destruct (u32 (max_packet_size cfg) <? v) eqn:Hbig; [done|].
  destruct (Buffer.size (buffer_ p) <? pos + Z.to_nat v)%nat eqn:Hsz; [done|].
  apply Nat.ltb_ge in Hrd. apply Z.ltb_ge in Hbig. apply Nat.ltb_ge in Hsz.
  rewrite <- length_contents in Hsz by done. rewrite (holding_readable _ _ H) in Hrd.
  destruct (holding_data _ _ _ H Hsz) as [-> ->].
  split; [done|]. exists v, pos. rewrite <- length_contents by done.
  split.
  - unfold PacketParser.decode_header in Hty. rewrite (holding_readable _ _ H) in Hty.
    replace (length (contents (buffer_ p)) <? 1)%nat with false in Hty
      by (symmetry; apply Nat.ltb_ge; lia).
    rewrite frame_type_iff in Hty by apply Z_of_byte_range. tests_to_props. lia.
  - split; [lia|]. split; [done|]. split; [|done].
    intros [= -> ->]. done.
Qed.

Lemma parser_inv_init cfg : parser_inv cfg PacketParser.init.
Proof.
  assert (Hu : 0 <= u64 (max_parser_buffer_size cfg)) by (apply Z.mod_pos_bound; lia).
  split; [apply init_wf|]. split; [done|]. simpl. lia.
Qed.

Lemma parser_inv_feed cfg data p :
  parser_inv cfg p -> parser_inv cfg (PacketParser.feed cfg data p).
Proof.
  intros (Hwf & Hr & Hs). unfold PacketParser.feed. case_if; tests_to_props; [|done].
  case_if; tests_to_props; [done|].
  split; [by apply write_wf|]. split; [done|]. unfold Buffer.size in *. simpl. lia.
Qed.

Lemma parser_inv_extract cfg p :
  parser_inv cfg p -> parser_inv cfg (PacketParser.try_extract cfg p).2.
Proof.
  intros (Hwf & Hr & Hs). pose proof (try_extract_cases cfg p Hwf Hr) as Hc.
  destruct (PacketParser.try_extract cfg p) as [[out|] p']; simpl.
  - destruct Hc as (_ & v & pos & _ & _ & _ & _ & _ & _ & _ & ->).
    split; [apply of_bytes_wf|]. split; [done|]. simpl.
    rewrite length_drop, length_contents by done. unfold Buffer.size in *. lia.
  - unfold parser_inv. by rewrite Hc.
Qed.

(** Every extraction shortens the buffer. *)
Lemma try_extract_shrinks cfg p out p' :
  parser_inv cfg p -> PacketParser.try_extract cfg p = (Some out, p') ->
  (Buffer.size (buffer_ p') < Buffer.size (buffer_ p))%nat.
Proof.
  intros (Hwf & Hr & _) E. pose proof (try_extract_cases cfg p Hwf Hr) as Hc. rewrite E in Hc.
  destruct Hc as (_ & v & pos & _ & Hsz & Hdec & Hne & _ & Htot & _ & ->).
  destruct (decode_loop_ge _ _ _ _ _ _ _ _ _ Hdec) as [[-> ->]|Hpos]; [done|].
  unfold Buffer.size in *. simpl in *. rewrite length_contents in Htot by done.
  rewrite length_drop, length_contents by done. unfold Buffer.size in *. lia.
Qed.

Lemma parser_inv_reachable cfg p : parser_reachable cfg p -> parser_inv cfg p.
Proof.
  induction 1; auto using parser_inv_init, parser_inv_feed, parser_inv_extract.
Qed.

(** Resource bound: in every reachable state of the parser the internal buffer
    holds at most [max_parser_buffer_size] bytes and its cursors are
    consistent. *)
Theorem parser_buffer_bounded cfg p :
  parser_reachable cfg p ->
  buffer_wf (buffer_ p) /\
  Z.of_nat (Buffer.size (buffer_ p)) <= u64 (max_parser_buffer_size cfg).
Proof. intros H. by destruct (parser_inv_reachable cfg p H) as (? & _ & ?). Qed.

Lemma parser_buffer_bounded_witness :
  buffer_wf (buffer_ (PacketParser.feed default_config [Byte.x10] PacketParser.init)) /\
  Z.of_nat (Buffer.size (buffer_ (PacketParser.feed default_config [Byte.x10] PacketParser.init)))
    <= 1048576.
Proof.
  apply (parser_buffer_bounded default_config
           (PacketParser.feed default_config [Byte.x10] PacketParser.init)).
  repeat constructor.
Defined.

(** What an extracted packet looks like to [handle_packet]. *)
Lemma extracted_packet cfg p out p' :
  parser_inv cfg p -> PacketParser.try_extract cfg p = (Some out, p') ->
  exists hdr out',
    read_header out = (Ret hdr, out') /\ 1 <= hdr_type hdr <= 14 /\
    hdr_remaining_length hdr = Z.of_nat (length (unread out')) /\
    hdr_remaining_length hdr <= u32 (max_packet_size cfg) /\
    safe_at (parse_publish hdr) out' /\ buffer_wf out'.
Proof.
  intros (Hwf & Hr & _) E.
  pose proof (try_extract_cases cfg p Hwf Hr) as Hc. rewrite E in Hc.
  destruct Hc as (_ & v & pos & Hty & Hsz & Hdec & Hne & Hmax & Htot & -> & _).
  rewrite <- length_contents in Hsz by done.
  destruct (contents (buffer_ p)) as [|x bs] eqn:Ebs; [simpl in Hsz; lia|].
  assert (Hx : data_ (buffer_ p) !! 0%nat = Some x).
  { unfold contents in Ebs. destruct (data_ (buffer_ p)) as [|y l]; [by rewrite take_nil in Ebs|].
    destruct (write_pos_ (buffer_ p)); [done|]. by injection Ebs as ->. }
  rewrite Hx in Hty. simpl default in Hty. cbn [drop] in Hdec. rewrite drop_0 in Hdec.
  destruct (decode_loop_ge _ _ _ _ _ _ _ _ _ Hdec) as [[-> ->]|Hpos]; [done|].
  destruct pos as [|pos]; [lia|].
  set (n := (pos + Z.to_nat v)%nat).
  change (take (S pos + Z.to_nat v) (x :: bs)) with (x :: take n bs).
  cbn [length] in Htot. fold n in Htot. assert (Hn : (n <= length bs)%nat) by (unfold n; lia).
  set (out := Buffer.of_bytes (x :: take n bs)).
  assert (Hwo : buffer_wf out) by apply of_bytes_wf.
  assert (Huo : unread out = [x] ++ take n bs) by apply unread_of_bytes.
  assert (Hw1 : buffer_wf (advance 1 out)) by (apply advance_wf; [done|]; rewrite Huo; simpl; lia).
  assert (Hu1 : unread (advance 1 out) = take n bs) by by rewrite unread_advance, Huo.
  destruct (decoders_agree (take n bs) 0 1 0 1 "" v (S pos) (advance 1 out) 5)
    as (_ & Hl & Hv & Hrl); try (done || lia).
  { apply decode_loop_take; [done | lia | unfold n; lia]. }
  rewrite length_take_le in Hl by done. replace (S pos - 1)%nat with pos in * by lia.
  unfold read_header, mbind, M_bind. rewrite (consumes_read_byte x out _ Hwo Huo).
  cbn [length]. unfold Buffer.read_remaining_length. rewrite Hrl.
  eexists _, _. split; [reflexivity|]. cbn [hdr_type hdr_remaining_length].
  assert (Hlen : length (unread (advance pos (advance 1 out))) = Z.to_nat v).
  { rewrite unread_advance, Hu1, length_drop, length_take_le by done. unfold n. lia. }
  assert (Ht : 1 <= hdr_type (decode_byte1 (Z_of_byte x)) <= 14).
  { pose proof (frame_type_iff (Z_of_byte x) (Z_of_byte_range x)) as Hi.
    replace (16 <=? Z_of_byte x) with true in Hi by (symmetry; apply Z.leb_le; lia).
    replace (Z_of_byte x <? 240) with true in Hi by (symmetry; apply Z.ltb_lt; lia).
    simpl negb in Hi. tests_to_props. lia. }
  assert (Hw2 : buffer_wf (advance pos (advance 1 out)))
    by (apply advance_wf; [done|]; rewrite Hu1, length_take_le by done; done).
  split; [done|]. rewrite Hlen. split; [lia|]. split; [done|]. split; [|done].
  apply safe_parse_publish; [done|cbn [hdr_remaining_length]; lia].
Qed.

(** Whatever bytes arrived, a packet that [try_extract] hands to
    [handle_packet] has a type 1..14, decodes to a header whose remaining length
    is exactly the number of bytes left in the packet and at most
    [max_packet_size], and a PUBLISH body with that header is parsed without
    reading out of bounds. *)
Theorem extracted_packet_header cfg p out p' :
  parser_reachable cfg p -> PacketParser.try_extract cfg p = (Some out, p') ->
  exists hdr out',
    read_header out = (Ret hdr, out') /\ 1 <= hdr_type hdr <= 14 /\
    hdr_remaining_length hdr = Z.of_nat (length (unread out')) /\
    hdr_remaining_length hdr <= u32 (max_packet_size cfg) /\
    safe_at (parse_publish hdr) out'.
Proof.
  intros Hr E. destruct (extracted_packet cfg p out p' (parser_inv_reachable cfg p Hr) E)
    as (hdr & out' & H1 & H2 & H3 & H4 & H5 & _). by exists hdr, out'.
Qed.

Lemma extracted_packet_header_witness :
  exists hdr out',
    read_header (Buffer.of_bytes [Byte.xc0; Byte.x00]) = (Ret hdr, out') /\ 1 <= hdr_type hdr <= 14 /\
    hdr_remaining_length hdr = Z.of_nat (length (unread out')) /\
    hdr_remaining_length hdr <= u32 (max_packet_size default_config) /\
    safe_at (parse_publish hdr) out'.
Proof.
  apply (extracted_packet_header default_config
           (PacketParser.feed default_config [Byte.xc0; Byte.x00] PacketParser.init)
           (Buffer.of_bytes [Byte.xc0; Byte.x00]) (mkParser (Buffer.of_bytes []) "")).
  - repeat constructor.
  - vm_compute. reflexivity.
Defined.

(** ** Errors are final *)

Lemma on_chunks_error cfg chunks p :
  PacketParser.has_error p = true ->
  (PacketParser.on_chunks cfg chunks p).1 = [] /\
  PacketParser.has_error (PacketParser.on_chunks cfg chunks p).2 = true.
Proof.
  revert p. induction chunks as [|c cs IH]; intros p He; [done|].
  cbn [PacketParser.on_chunks]. unfold PacketParser.on_chunk.
  assert (He' : PacketParser.has_error (PacketParser.feed cfg c p) = true).
  { unfold PacketParser.feed. by repeat case_if. }
  set (p1 := PacketParser.feed cfg c p) in *. cbn [PacketParser.drain].
  unfold PacketParser.try_extract. rewrite He'.
  destruct (IH p1 He') as [H1 H2].
  destruct (PacketParser.on_chunks cfg cs p1) as [outs p2]. simpl in *. by subst outs.
Qed.

(** The two ways a stream is refused are final: bytes beyond the buffer limit and
    a first octet with type 0 or 15 both put the parser in an error state, in
    which it extracts nothing from whatever is fed later. *)
Theorem parser_errors_final cfg chunk chunks bs p :
  holding bs p ->
  (chunk <> [] /\ u64 (max_parser_buffer_size cfg) < Z.of_nat (length bs + length chunk) \/
   (exists x tl, bs ++ chunk = x :: tl /\ (Z_of_byte x < 16 \/ 240 <= Z_of_byte x)) /\
   Z.of_nat (length bs + length chunk) <= u64 (max_parser_buffer_size cfg)) ->
  let '(outs, p') := PacketParser.on_chunks cfg (chunk :: chunks) p in
  outs = [] /\ PacketParser.has_error p' = true.
Proof.
  intros H Hbad. cbn [PacketParser.on_chunks].
  assert (Hd : (PacketParser.on_chunk cfg chunk p).1 = [] /\
               PacketParser.has_error (PacketParser.on_chunk cfg chunk p).2 = true).
  { unfold PacketParser.on_chunk.
    destruct Hbad as [[Hne Hover]|[(x & tl & Hx & Hty) Hfit]].
    - unfold PacketParser.feed. rewrite (holding_size _ _ H).
      assert (0 < length chunk)%nat by (destruct chunk; [done | simpl; lia]).
      rewrite_test (0 <? length chunk)%nat true.
      rewrite_test (u64 (max_parser_buffer_size cfg) <? Z.of_nat (length bs + length chunk)) true.
      done.
    - pose proof (feed_holding cfg chunk bs p H Hfit) as H'. rewrite Hx in H'.
      cbn [PacketParser.drain]. unfold PacketParser.try_extract.
      rewrite (holding_no_error _ _ H'), (holding_readable _ _ H'), (decode_header_holding _ _ _ H').
      cbn [length]. rewrite frame_type_iff by apply Z_of_byte_range.
      replace ((16 <=? Z_of_byte x) && (Z_of_byte x <? 240)) with false; [done|].
      symmetry. apply andb_false_iff. rewrite Z.leb_gt, Z.ltb_ge. lia. }
  destruct (PacketParser.on_chunk cfg chunk p) as [outs p1]. simpl in Hd. destruct Hd as [-> He].
  destruct (on_chunks_error cfg chunks p1 He) as [H1 H2].
  destruct (PacketParser.on_chunks cfg chunks p1) as [outs' p2]. simpl in *. by subst outs'.
Qed.

Lemma parser_errors_final_witness :
  let '(outs, p') := PacketParser.on_chunks default_config [[Byte.x00]; [Byte.xc0; Byte.x00]] PacketParser.init in
  outs = [] /\ PacketParser.has_error p' = true.
Proof.
  apply (parser_errors_final default_config [Byte.x00] [[Byte.xc0; Byte.x00]] [] PacketParser.init).
  - repeat split; simpl; lia.
  - right. split; [exists Byte.x00, []; vm_compute; split; [done | by left] | vm_compute; congruence].
Defined.
