(* ===== verification/Filter.v ===== *)
(** * Topic filters ([src/topic/filter.h], [src/topic/filter.cpp])

    Splitting a path into segments, matching a topic against a filter, and the
    validity checks for topics and filters. *)

From Stdlib Require Import Strings.String Strings.Ascii ZArith Lia.
From stdpp Require Import base list strings numbers option.
From S2P Require Import Prelude Config.

Open Scope Z_scope.

Module topic.

(** [std::getline(stream, segment, '/')] on a stream with unread characters:
    the characters before the delimiter, and what follows it. *)
Fixpoint getline (s : string) : string * string :=
  match s with
  | EmptyString => (""%string, ""%string)
  | String c s =>
      if Ascii.eqb c "/" then (""%string, s)
      else let '(seg, rest) := getline s in (String c seg, rest)
  end.

(** The [while (std::getline(...))] loop: it fails, and ends the loop, only
    when no character is left; each round consumes at least one. *)
Fixpoint split_loop (fuel : nat) (s : string) : list string :=
  match fuel with
  | O => []
  | S fuel =>
      match s with
      | EmptyString => []
      | _ => let '(seg, rest) := getline s in seg :: split_loop fuel rest
      end
  end.

Definition split (path : string) : list string := split_loop (String.length path) path.

(** The [while] loop of [matches] on the two segment vectors. *)
Fixpoint match_segments (ts fs : list string) : bool :=
  match ts, fs with
  | t :: ts, f :: fs =>
      if String.eqb f "#" then true
      else if String.eqb f "+" then match_segments ts fs
      else if negb (String.eqb t f) then false
      else match_segments ts fs
  | [], [] => true
  | _, _ => false
  end.

Definition matches (topic filter : string) : bool :=
  match_segments (split topic) (split filter).

Definition topic_segment_ok (seg : string) : bool :=
  if String.eqb seg "" then false
  else if String.eqb seg "+" || String.eqb seg "#" then false
  else true.

Definition is_valid_topic (cfg : Config) (topic : string) : bool :=
  if String.eqb topic "" then false
  else if max_topic_length cfg <? i32 (Z.of_nat (String.length topic)) then false
  else
    let segments := split topic in
    if max_topic_depth cfg <? i32 (Z.of_nat (length segments)) then false
    else forallb topic_segment_ok segments.

(** [seg.find(c) != std::string::npos]. *)
Fixpoint contains (c : ascii) (s : string) : bool :=
  match s with
  | EmptyString => false
  | String c' s => Ascii.eqb c' c || contains c s
  end.

(** The [for] loop of [is_valid_filter]; [rest] is empty exactly when
    [i == segments.size() - 1]. *)
Fixpoint filter_segments_ok (segments : list string) : bool :=
  match segments with
  | [] => true
  | seg :: rest =>
      if String.eqb seg "" then false
      else if contains "+" seg && negb (String.eqb seg "+") then false
      else if String.eqb seg "#" then (length rest =? 0)%nat
      else if contains "#" seg then false
      else filter_segments_ok rest
  end.

Definition is_valid_filter (cfg : Config) (filter : string) : bool :=
  if String.eqb filter "" then false
  else if max_topic_length cfg <? i32 (Z.of_nat (String.length filter)) then false
  else
    let segments := split filter in
    if max_topic_depth cfg <? i32 (Z.of_nat (length segments)) then false
    else filter_segments_ok segments.

End topic.

(** ** Specifications *)

(** MQTT matching as the comments of [filter.cpp] intend it: ["+"] stands for
    one level, ["#"] for one or more, any other segment for itself. *)
Inductive filter_matches : list string -> list string -> Prop :=
| fm_nil : filter_matches [] []
| fm_multi t ts fs : filter_matches (t :: ts) ("#"%string :: fs)
| fm_single t ts fs : filter_matches ts fs -> filter_matches (t :: ts) ("+"%string :: fs)
| fm_exact t ts fs :
    t <> "#"%string -> t <> "+"%string ->
    filter_matches ts fs -> filter_matches (t :: ts) (t :: fs).

(** A segment [std::getline] can produce. *)
Definition no_slash (seg : string) : Prop := topic.contains "/" seg = false.

Definition join (segs : list string) : string := String.concat "/" segs.

(** The well-formedness a valid filter promises to the subscription tree. *)
Definition plain (seg : string) : Prop := seg <> "+"%string /\ seg <> "#"%string.

Inductive filter_shape : list string -> Prop :=
| fs_end : filter_shape []
| fs_hash : filter_shape ["#"%string]
| fs_plus fs : filter_shape fs -> filter_shape ("+"%string :: fs)
| fs_plain seg fs :
    seg <> ""%string -> topic.contains "+" seg = false -> topic.contains "#" seg = false ->
    filter_shape fs -> filter_shape (seg :: fs).

(** ** Splitting *)

Lemma getline_length s : (String.length (topic.getline s).2 <= String.length s)%nat.
Proof.
  induction s as [|c s IH]; simpl; [lia|].
  destruct (Ascii.eqb c "/"); simpl; [lia|]. destruct (topic.getline s); simpl in *. lia.
Qed.

Lemma split_loop_S n c s :
  topic.split_loop (S n) (String c s) =
    (topic.getline (String c s)).1 :: topic.split_loop n (topic.getline (String c s)).2.
Proof. cbn [topic.split_loop]. by destruct (topic.getline (String c s)). Qed.

Lemma getline_String c s : (String.length (topic.getline (String c s)).2 <= String.length s)%nat.
Proof.
  simpl. destruct (Ascii.eqb c "/"); [done|].
  pose proof (getline_length s). by destruct (topic.getline s).
Qed.

Lemma split_loop_fuel s : forall n m,
  (String.length s <= n)%nat -> (String.length s <= m)%nat ->
  topic.split_loop n s = topic.split_loop m s.
Proof.
  remember (String.length s) as len eqn:Hlen.
  revert s Hlen. induction len as [len IH] using lt_wf_ind. intros s -> n m Hn Hm.
  destruct s as [|c s]; [by destruct n, m|]. simpl in Hn, Hm.
  destruct n as [|n], m as [|m]; try lia. rewrite !split_loop_S.
  pose proof (getline_String c s). f_equal.
  apply (IH (String.length (topic.getline (String c s)).2)); cbn [String.length]; lia.
Qed.

(** [split] by recursion on the path. *)
Lemma split_nil : topic.split "" = [].
Proof. done. Qed.

Lemma split_slash s : topic.split (String "/" s) = ""%string :: topic.split s.
Proof. done. Qed.

Lemma split_char c s :
  c <> "/"%char ->
  topic.split (String c s) =
    match topic.split s with
    | [] => [String c ""]
    | seg :: segs => String c seg :: segs
    end.
Proof.
  intros Hc. unfold topic.split. cbn [String.length]. rewrite split_loop_S.
  assert (E : topic.getline (String c s) = (String c (topic.getline s).1, (topic.getline s).2)).
  { simpl. rewrite (proj2 (Ascii.eqb_neq c "/") Hc). by destruct (topic.getline s). }
  rewrite E. cbn [fst snd]. destruct s as [|c' s]; [done|].
  cbn [String.length]. rewrite (split_loop_S (String.length s)).
  f_equal. pose proof (getline_String c' s). apply split_loop_fuel; lia.
Qed.

Lemma split_segments_no_slash s : Forall no_slash (topic.split s).
Proof.
  induction s as [|c s IH]; [constructor|].
  destruct (Ascii.eqb_spec c "/") as [->|Hc].
  - rewrite split_slash. by constructor.
  - rewrite split_char by done. destruct (topic.split s) as [|seg segs].
    + constructor; [|constructor]. unfold no_slash. simpl.
      by rewrite (proj2 (Ascii.eqb_neq c "/") Hc).
    + apply List.Forall_cons_iff in IH as [H1 H2]. constructor; [|done]. unfold no_slash in *. simpl.
      by rewrite (proj2 (Ascii.eqb_neq c "/") Hc).
Qed.

Lemma string_app_assoc (s1 s2 s3 : string) : ((s1 ++ s2) ++ s3 = s1 ++ (s2 ++ s3))%string.
Proof.
  induction s1 as [|c s1 IH]; [done|].
  change ((String c s1 ++ s2) ++ s3)%string with (String c ((s1 ++ s2) ++ s3)).
  by rewrite IH.
Qed.

Lemma concat_cons seg segs :
  join (seg :: segs) = match segs with [] => seg | _ => (seg ++ String "/" (join segs))%string end.
Proof. destruct segs; done. Qed.

Lemma split_app_slash seg s :
  no_slash seg -> topic.split (seg ++ String "/" s) = seg :: topic.split s.
Proof.
  induction seg as [|c seg IH]; intros Hn; [done|].
  unfold no_slash in Hn. simpl in Hn. apply orb_false_iff in Hn as [Hc Hn].
  apply Ascii.eqb_neq in Hc.
  change (String c seg ++ String "/" s)%string with (String c (seg ++ String "/" s)).
  by rewrite split_char, IH.
Qed.

Lemma split_single seg : no_slash seg -> seg <> ""%string -> topic.split seg = [seg].
Proof.
  induction seg as [|c seg IH]; intros Hn Hne; [done|].
  unfold no_slash in Hn. simpl in Hn. apply orb_false_iff in Hn as [Hc Hn].
  apply Ascii.eqb_neq in Hc. rewrite split_char by done.
  destruct seg as [|c' seg]; [done|]. by rewrite IH.
Qed.

Lemma split_join_segments segs last :
  Forall no_slash segs -> no_slash last -> last <> ""%string ->
  topic.split (join (segs ++ [last])) = segs ++ [last].
Proof.
  intros Hs Hl Hne. induction Hs as [|seg segs Hseg Hs IH]; [by apply split_single|].
  cbn [app]. rewrite concat_cons.
  destruct (segs ++ [last]) eqn:E; [by destruct segs|].
  rewrite split_app_slash, IH by done. done.
Qed.

(** [split] inverts joining with ["/"]: any non-empty list of slash-free segments
    whose last one is not empty is recovered from the path it spells. *)
Theorem split_join segs last :
  Forall no_slash segs -> no_slash last -> last <> ""%string ->
  topic.split (join (segs ++ [last])) = segs ++ [last].
Proof. apply split_join_segments. Qed.

Lemma split_join_witness : topic.split "a//b" = ["a"; ""; "b"]%string.
Proof. apply (split_join ["a"; ""]%string "b"); repeat constructor; discriminate. Defined.

(** A trailing slash is lost: a path that ends in ["/"] has the same segments as
    the path without it, so ["a/"] is validated, matched and stored as ["a"]. *)
Theorem trailing_slash_collapses segs last :
  Forall no_slash segs -> no_slash last -> last <> ""%string ->
  topic.split (join (segs ++ [last]) ++ "/") = topic.split (join (segs ++ [last])).
Proof.
  intros Hs Hl Hne. rewrite split_join_segments by done.
  induction Hs as [|seg segs Hseg Hs IH].
  - simpl. apply (split_app_slash last ""). done.
  - cbn [app]. rewrite concat_cons. destruct (segs ++ [last]) eqn:E; [by destruct segs|].
    rewrite string_app_assoc. set (j := join _) in *.
    change (String "/" j ++ "/")%string with (String "/" (j ++ "/")).
    by rewrite split_app_slash, IH.
Qed.

Lemma trailing_slash_collapses_witness : topic.split "a/b/" = topic.split "a/b".
Proof. apply (trailing_slash_collapses ["a"]%string "b"); repeat constructor; discriminate. Defined.

(** ** Matching *)

Lemma match_segments_spec ts fs : topic.match_segments ts fs = true <-> filter_matches ts fs.
Proof.
  split.
  - revert fs. induction ts as [|t ts IH]; intros [|f fs]; simpl; try done; [constructor|].
    destruct (String.eqb_spec f "#") as [->|H1]; [constructor|].
    destruct (String.eqb_spec f "+") as [->|H2]; [constructor; auto|].
    destruct (String.eqb_spec t f) as [->|]; [|done]. constructor; auto.
  - induction 1 as [| |t ts fs _ IH|t ts fs H1 H2 _ IH]; try done.
    simpl. rewrite (proj2 (String.eqb_neq t "#") H1), (proj2 (String.eqb_neq t "+") H2).
    by rewrite String.eqb_refl.
Qed.

(** [C35] [topic::matches] decides the wildcard semantics on the segments of the two
    strings. *)
Theorem matches_correct t f :
  topic.matches t f = true <-> filter_matches (topic.split t) (topic.split f).
Proof. apply match_segments_spec. Qed.

Lemma contains_eqb c s : topic.contains c s = false -> s <> String c "".
Proof. intros H ->. simpl in H. by rewrite Ascii.eqb_refl in H. Qed.

Lemma filter_segments_ok_shape fs : topic.filter_segments_ok fs = true -> filter_shape fs.
Proof.
  induction fs as [|seg fs IH]; simpl; [constructor|].
  destruct (String.eqb_spec seg "") as [|Hne]; [done|].
  destruct (topic.contains "+" seg && negb (String.eqb seg "+")) eqn:Hp; [done|].
  destruct (String.eqb_spec seg "#") as [->|Hh].
  - intros Hl%Nat.eqb_eq. destruct fs; [constructor | done].
  - destruct (topic.contains "#" seg) eqn:Hh'; [done|]. intros Hrest.
    destruct (String.eqb_spec seg "+") as [->|Hpl]; [constructor; auto|].
    rewrite andb_true_r in Hp. constructor; auto.
Qed.

Lemma filter_shape_segments_ok fs : filter_shape fs -> topic.filter_segments_ok fs = true.
Proof.
  induction 1 as [| |fs _ IH|seg fs Hne Hp Hh _ IH]; try done.
  simpl. rewrite (proj2 (String.eqb_neq seg "") Hne), Hp, Hh. simpl.
  by rewrite (proj2 (String.eqb_neq seg "#") (contains_eqb _ _ Hh)).
Qed.

Lemma split_length s : (length (topic.split s) <= String.length s)%nat.
Proof.
  induction s as [|c s IH]; [done|].
  destruct (Ascii.eqb_spec c "/") as [->|Hc].
  - rewrite split_slash. simpl. lia.
  - rewrite split_char by done. destruct (topic.split s); simpl in *; lia.
Qed.

(** [is_valid_filter] accepts exactly the non-empty filters within the length and
    depth limits in which no segment is empty, ["+"] occurs only as a whole
    segment and ["#"] only as the whole last segment. *)
Theorem is_valid_filter_correct cfg f :
  Z.of_nat (String.length f) < 2 ^ 31 ->
  topic.is_valid_filter cfg f = true <->
  f <> ""%string /\ Z.of_nat (String.length f) <= max_topic_length cfg /\
  Z.of_nat (length (topic.split f)) <= max_topic_depth cfg /\ filter_shape (topic.split f).
Proof.
  intros Hlen. unfold topic.is_valid_filter.
  pose proof (split_length f). rewrite !i32_small by lia.
  destruct (String.eqb_spec f "") as [|Hne]; [naive_solver|].
  destruct (Z.ltb_spec (max_topic_length cfg) (Z.of_nat (String.length f))); [naive_solver lia|].
  destruct (Z.ltb_spec (max_topic_depth cfg) (Z.of_nat (length (topic.split f)))); [naive_solver lia|].
  naive_solver eauto using filter_segments_ok_shape, filter_shape_segments_ok.
Qed.

Lemma is_valid_filter_correct_witness :
  topic.is_valid_filter default_config "home/+/#" = true <->
  "home/+/#"%string <> ""%string /\ Z.of_nat (String.length "home/+/#") <= 65536 /\
  Z.of_nat (length (topic.split "home/+/#")) <= 128 /\ filter_shape (topic.split "home/+/#").
Proof. apply (is_valid_filter_correct default_config "home/+/#"). simpl. lia. Defined.
