(* ===== verification/TopicTree.v ===== *)
(** * The subscription tree ([src/topic/topic_tree.h], [src/topic/topic_tree.cpp])

    A trie over topic segments with one child per literal segment and two
    optional wildcard children per node.  Nodes carry the subscribers of the
    filter that spells their path and the retained message of the topic that
    does.

    [std::weak_ptr<Session>] is the identity of a session ([None] for an empty
    pointer); [lock()] succeeds when the session is still alive, which the
    operations take as the argument [alive].  [children] is an
    [unordered_map]: a [gmap], whose enumeration order stands for the
    unspecified iteration order; theorems about enumerations do not depend on
    it. *)

From Stdlib Require Import Strings.String Strings.Ascii ZArith Lia.
From stdpp Require Import base list strings numbers option gmap fin_maps sets.
From S2P Require Import Prelude Config Buffer Filter.

Open Scope Z_scope.

(** The identity of a [Session] object. *)
Abbreviation session_id := nat.

Record SubscriberEntry : Type := mkEntry {
  entry_session : option session_id;
  entry_qos : Z
}.

Record RetainedMessage : Type := mkRetained {
  retained_payload : Buffer;
  retained_qos : Z
}.

#[warnings="-register-all"]
Inductive Node : Type := mkNode {
  children : gmap string Node;
  single_wild : option Node;
  multi_wild : option Node;
  subscribers : list SubscriberEntry;
  retained : option RetainedMessage
}.

Record TopicTree : Type := mkTree {
  root_ : Node;
  retained_count_ : Z
}.

(** [std::make_unique<Node>()]. *)
Definition new_node : Node := mkNode ∅ None None [] None.

Definition set_child (seg : string) (c n : Node) : Node :=
  mkNode (<[seg := c]> (children n)) (single_wild n) (multi_wild n) (subscribers n) (retained n).
Definition set_single (c n : Node) : Node :=
  mkNode (children n) (Some c) (multi_wild n) (subscribers n) (retained n).
Definition set_multi (c n : Node) : Node :=
  mkNode (children n) (single_wild n) (Some c) (subscribers n) (retained n).
Definition set_subscribers (l : list SubscriberEntry) (n : Node) : Node :=
  mkNode (children n) (single_wild n) (multi_wild n) l (retained n).
Definition set_retained_at (r : option RetainedMessage) (n : Node) : Node :=
  mkNode (children n) (single_wild n) (multi_wild n) (subscribers n) r.

Module TopicTree.

Definition init : TopicTree := mkTree new_node 0.

Section Liveness.

Context (alive : session_id -> bool).

(** [weak_ptr::lock()]. *)
Definition lock (w : option session_id) : option session_id :=
  match w with
  | Some s => if alive s then Some s else None
  | None => None
  end.

(** The [find_if] predicate [s1 && s2 && s1 == s2]. *)
Definition same_session (s1 : option session_id) (e : SubscriberEntry) : bool :=
  match s1, lock (entry_session e) with
  | Some a, Some b => (a =? b)%nat
  | _, _ => false
  end.

(** Update the QoS of the first entry of the same session, or append. *)
Fixpoint add_subscriber (entry : SubscriberEntry) (l : list SubscriberEntry)
  : list SubscriberEntry :=
  match l with
  | [] => [entry]
  | e :: l =>
      if same_session (lock (entry_session entry)) e
      then mkEntry (entry_session e) (entry_qos entry) :: l
      else e :: add_subscriber entry l
  end.

(** [ensure_node]: the child for a literal segment, created when absent. *)
Definition ensure_node (parent : Node) (segment : string) : Node :=
  default new_node (children parent !! segment).

(** [subscribe]: walk down the segments, creating nodes, and add the entry. *)
Fixpoint subscribe_at (entry : SubscriberEntry) (segments : list string) (node : Node) : Node :=
  match segments with
  | [] => set_subscribers (add_subscriber entry (subscribers node)) node
  | seg :: segments =>
      if String.eqb seg "#"
      then set_multi (subscribe_at entry segments (default new_node (multi_wild node))) node
      else if String.eqb seg "+"
      then set_single (subscribe_at entry segments (default new_node (single_wild node))) node
      else set_child seg (subscribe_at entry segments (ensure_node node seg)) node
  end.

Definition subscribe (filter : string) (entry : SubscriberEntry) (t : TopicTree) : TopicTree :=
  mkTree (subscribe_at entry (topic.split filter) (root_ t)) (retained_count_ t).

(** [remove_if (e.session.lock() == session)]. *)
Definition remove_subscriber (session : option session_id) (l : list SubscriberEntry)
  : list SubscriberEntry :=
  filter (fun e => lock (entry_session e) <> session) l.

Fixpoint unsubscribe_at (session : option session_id) (segments : list string) (node : Node)
  : Node :=
  match segments with
  | [] => set_subscribers (remove_subscriber session (subscribers node)) node
  | seg :: segments =>
      if String.eqb seg "#" then
        match multi_wild node with
        | None => node
        | Some m => set_multi (unsubscribe_at session segments m) node
        end
      else if String.eqb seg "+" then
        match single_wild node with
        | None => node
        | Some m => set_single (unsubscribe_at session segments m) node
        end
      else
        match children node !! seg with
        | None => node
        | Some m => set_child seg (unsubscribe_at session segments m) node
        end
  end.

Definition unsubscribe (filter : string) (session : option session_id) (t : TopicTree)
  : TopicTree :=
  mkTree (unsubscribe_at session (topic.split filter) (root_ t)) (retained_count_ t).

End Liveness.

Definition collect_subscribers (node : Node) : list SubscriberEntry :=
  subscribers node ++
  match multi_wild node with Some m => subscribers m | None => [] end.

(** The [while (!stack.empty())] loop of [lookup]: frames are a node and the
    index of the next segment; the stack top is the list head. *)
Fixpoint lookup_loop (fuel : nat) (segments : list string) (stack : list (Node * nat))
    (result : list SubscriberEntry) : list SubscriberEntry :=
  match fuel with
  | O => result
  | S fuel =>
      match stack with
      | [] => result
      | (node, index) :: stack =>
          match segments !! index with
          | None => lookup_loop fuel segments stack (result ++ collect_subscribers node)
          | Some seg =>
              let result :=
                result ++ match multi_wild node with
                          | Some m => collect_subscribers m
                          | None => []
                          end in
              let stack :=
                match children node !! seg with
                | Some c => (c, S index) :: stack
                | None => stack
                end in
              let stack :=
                match single_wild node with
                | Some w => (w, S index) :: stack
                | None => stack
                end in
              lookup_loop fuel segments stack result
          end
      end
  end.

(** The number of frames the loop pops below a node. *)
Fixpoint lookup_steps (segments : list string) (node : Node) : nat :=
  match segments with
  | [] => 1
  | seg :: segments =>
      S (match single_wild node with Some w => lookup_steps segments w | None => 0 end +
         match children node !! seg with Some c => lookup_steps segments c | None => 0 end)
  end.

Definition lookup (topic : string) (t : TopicTree) : list SubscriberEntry :=
  let segments := topic.split topic in
  lookup_loop (lookup_steps segments (root_ t)) segments [(root_ t, 0%nat)] [].

(** [set_retained] walks literal segments only, creating nodes also when the
    message is refused in the end. *)
Fixpoint ensure_path (segments : list string) (node : Node) : Node :=
  match segments with
  | [] => node
  | seg :: segments => set_child seg (ensure_path segments (ensure_node node seg)) node
  end.

Fixpoint find_path (segments : list string) (node : Node) : option Node :=
  match segments with
  | [] => Some node
  | seg :: segments =>
      match children node !! seg with
      | None => None
      | Some c => find_path segments c
      end
  end.

Fixpoint store_path (r : RetainedMessage) (segments : list string) (node : Node) : Node :=
  match segments with
  | [] => set_retained_at (Some r) node
  | seg :: segments => set_child seg (store_path r segments (ensure_node node seg)) node
  end.

Definition retained_empty (r : option RetainedMessage) : bool :=
  match r with None => true | Some m => Buffer.empty (retained_payload m) end.

Definition set_retained (cfg : Config) (topic : string) (msg : RetainedMessage) (t : TopicTree)
  : bool * TopicTree :=
  let segments := topic.split topic in
  let root := ensure_path segments (root_ t) in
  let was_empty := retained_empty (find_path segments root ≫= retained) in
  let new_empty := Buffer.empty (retained_payload msg) in
  if new_empty && negb was_empty
  then (true, mkTree (store_path msg segments root) (retained_count_ t - 1))
  else if negb new_empty && was_empty then
    if max_retained_messages cfg <=? retained_count_ t
    then (false, mkTree root (retained_count_ t))
    else (true, mkTree (store_path msg segments root) (retained_count_ t + 1))
  else (true, mkTree (store_path msg segments root) (retained_count_ t)).

Definition get_retained (topic : string) (t : TopicTree) : option RetainedMessage :=
  find_path (topic.split topic) (root_ t) ≫= retained.

(** [path.empty() ? seg : path + "/" + seg]. *)
Definition extend_path (path seg : string) : string :=
  if String.eqb path "" then seg else (path ++ "/" ++ seg)%string.

Fixpoint get_all_retained_at (node : Node) (path : string) : list (string * RetainedMessage) :=
  (match retained node with Some r => [(path, r)] | None => [] end) ++
  map_fold (fun seg child acc => get_all_retained_at child (extend_path path seg) ++ acc)
           [] (children node) ++
  match single_wild node with
  | Some w => get_all_retained_at w (extend_path path "+")
  | None => []
  end.

Definition get_all_retained (t : TopicTree) : list (string * RetainedMessage) :=
  get_all_retained_at (root_ t) "".

Definition retained_count (t : TopicTree) : Z := retained_count_ t.

End TopicTree.

(** ** Abstract view: the entries stored under each filter *)

(** The node a filter path leads to (the walk of [unsubscribe]). *)
Fixpoint walk (fs : list string) (node : Node) : option Node :=
  match fs with
  | [] => Some node
  | f :: fs =>
      if String.eqb f "#" then multi_wild node ≫= walk fs
      else if String.eqb f "+" then single_wild node ≫= walk fs
      else children node !! f ≫= walk fs
  end.

Definition subs_at (fs : list string) (node : Node) : list SubscriberEntry :=
  match walk fs node with Some n => subscribers n | None => [] end.

(** The filters a publication to [ts] is looked up under, in order. *)
Fixpoint candidates (ts : list string) : list (list string) :=
  match ts with
  | [] => [[]; ["#"%string]]
  | t :: ts =>
      [["#"]; ["#"; "#"]]%string ++
      map (cons "+"%string) (candidates ts) ++ map (cons t) (candidates ts)
  end.

(** Matching as the tree does it: ["#"] also matches its parent level. *)
Inductive tree_matches : list string -> list string -> Prop :=
| tm_nil : tree_matches [] []
| tm_parent : tree_matches [] ["#"%string]
| tm_multi t ts : tree_matches (t :: ts) ["#"%string]
| tm_single t ts fs : tree_matches ts fs -> tree_matches (t :: ts) ("+"%string :: fs)
| tm_exact t ts fs : tree_matches ts fs -> tree_matches (t :: ts) (t :: fs).

(** [lookup] without the explicit stack. *)
Fixpoint lookup_rec (ts : list string) (node : Node) : list SubscriberEntry :=
  match ts with
  | [] => TopicTree.collect_subscribers node
  | t :: ts =>
      match multi_wild node with Some m => TopicTree.collect_subscribers m | None => [] end ++
      match single_wild node with Some w => lookup_rec ts w | None => [] end ++
      match children node !! t with Some c => lookup_rec ts c | None => [] end
  end.

(** ** [lookup] *)

Lemma lookup_steps_pos ts node : (1 <= TopicTree.lookup_steps ts node)%nat.
Proof. destruct ts; simpl; lia. Qed.

Lemma lookup_loop_spec ts : forall fuel stack result,
  (list_sum (map (fun '(n, i) => TopicTree.lookup_steps (drop i ts) n) stack) <= fuel)%nat ->
  TopicTree.lookup_loop fuel ts stack result =
    result ++ flat_map (fun '(n, i) => lookup_rec (drop i ts) n) stack.
Proof.
  induction fuel as [|fuel IH]; intros [|[n i] stack] result Hf; simpl in Hf |- *;
    try (by rewrite app_nil_r).
  - pose proof (lookup_steps_pos (drop i ts) n). lia.
  - destruct (ts !! i) as [seg|] eqn:Hi.
    + rewrite (drop_S ts seg i Hi) in Hf |- *. simpl in Hf |- *. rewrite IH.
      * rewrite <- !app_assoc. f_equal. f_equal.
        destruct (single_wild n), (children n !! seg); simpl; by rewrite <- ?app_assoc.
      * destruct (single_wild n), (children n !! seg); simpl in *; lia.
    + apply lookup_ge_None in Hi. rewrite (drop_ge ts i Hi) in Hf |- *. simpl in Hf |- *.
      rewrite IH by lia. by rewrite <- app_assoc.
Qed.

Lemma lookup_lookup_rec t tr :
  TopicTree.lookup t tr = lookup_rec (topic.split t) (root_ tr).
Proof.
  unfold TopicTree.lookup. rewrite lookup_loop_spec; simpl.
  - by rewrite drop_0, app_nil_r.
  - rewrite drop_0. lia.
Qed.

Lemma flat_map_map {A B C} (f : B -> list C) (g : A -> B) l :
  flat_map f (map g l) = flat_map (fun x => f (g x)) l.
Proof. induction l; simpl; congruence. Qed.

Lemma flat_map_none {A B} (l : list A) : flat_map (fun _ => @nil B) l = [].
Proof. by induction l. Qed.

Lemma lookup_rec_candidates ts node :
  Forall plain ts -> lookup_rec ts node = flat_map (fun fs => subs_at fs node) (candidates ts).
Proof.
  intros Hp. revert node. induction Hp as [|t ts [Hplus Hhash] Hp IH]; intros node.
  - simpl. unfold subs_at; simpl. unfold TopicTree.collect_subscribers.
    destruct (multi_wild node); simpl; by rewrite ?app_nil_r.
  - cbn [lookup_rec candidates]. rewrite !flat_map_app, !flat_map_map. f_equal.
    + unfold subs_at; simpl. unfold TopicTree.collect_subscribers.
      destruct (multi_wild node) as [m|]; simpl; [|done].
      destruct (multi_wild m); simpl; by rewrite ?app_nil_r.
    + f_equal.
      * unfold subs_at; simpl. destruct (single_wild node) as [w|]; simpl.
        -- apply IH.
        -- by rewrite flat_map_none.
      * unfold subs_at; simpl.
        rewrite (proj2 (String.eqb_neq t "#") Hhash), (proj2 (String.eqb_neq t "+") Hplus).
        destruct (children node !! t) as [c|]; simpl.
        -- apply IH.
        -- by rewrite flat_map_none.
Qed.

Lemma candidates_matches ts fs : filter_shape fs -> fs ∈ candidates ts <-> tree_matches ts fs.
Proof.
  intros Hs. split.
  - revert fs Hs. induction ts as [|t ts IH]; intros fs Hs; simpl.
    + rewrite !elem_of_cons, elem_of_nil. intros [->|[->|[]]]; constructor.
    + rewrite !elem_of_cons, elem_of_app. intros [->|[->|[Hin|Hin]]].
      * constructor.
      * inversion Hs as [| | |seg fs' _ _ Hh]; subst. done.
      * apply list_elem_of_In, in_map_iff in Hin as (fs' & <- & Hin%list_elem_of_In).
        constructor. apply IH; [|done]. inversion Hs as [| |?? |? ? ? Hp]; subst; done.
      * apply list_elem_of_In, in_map_iff in Hin as (fs' & <- & Hin%list_elem_of_In).
        apply tm_exact. apply IH; [|done]. inversion Hs; subst; try done. constructor.
  - induction 1 as [| |t ts|t ts fs _ IH|t ts fs _ IH]; simpl; try set_solver.
    + rewrite !elem_of_cons, elem_of_app. do 2 right. left.
      apply list_elem_of_In, in_map, list_elem_of_In, IH. inversion Hs; subst; done.
    + rewrite !elem_of_cons, elem_of_app. do 3 right.
      apply list_elem_of_In, in_map, list_elem_of_In, IH. inversion Hs; subst; try done. constructor.
Qed.

Lemma candidates_NoDup ts : Forall plain ts -> NoDup (candidates ts).
Proof.
  induction 1 as [|t ts [Hplus Hhash] Hp IH]; simpl.
  - repeat constructor; rewrite ?elem_of_cons, ?elem_of_nil; naive_solver.
  - assert (Hmap : forall a, NoDup (map (cons a) (candidates ts))).
    { intros a. apply NoDup_fmap_2; [|done]. by intros x y [= ->]. }
    assert (Hin : forall a fs, fs ∈ map (cons a) (candidates ts) -> exists fs', fs = a :: fs').
    { intros a fs (fs' & <- & _)%list_elem_of_In%in_map_iff. eauto. }
    assert (Happ : NoDup (map (cons "+"%string) (candidates ts) ++ map (cons t) (candidates ts))).
    { apply NoDup_app. split; [done|]. split; [|done].
      intros fs [fs1 ->]%Hin [fs2 E]%Hin. congruence. }
    repeat constructor; try done; rewrite ?elem_of_cons, elem_of_app.
    + intros [E|[[fs' E]%Hin|[fs' E]%Hin]]; congruence.
    + intros [[fs' E]%Hin|[fs' E]%Hin]; congruence.
Qed.

(** ** [subscribe] and [unsubscribe] update one filter *)

Lemma subs_at_new fs : subs_at fs new_node = [].
Proof.
  destruct fs as [|f fs]; [done|]. unfold subs_at; simpl.
  destruct (String.eqb f "#"), (String.eqb f "+"); simpl; by rewrite ?lookup_empty.
Qed.

Lemma subs_at_cons f fs node :
  subs_at (f :: fs) node =
    if String.eqb f "#" then subs_at fs (default new_node (multi_wild node))
    else if String.eqb f "+" then subs_at fs (default new_node (single_wild node))
    else subs_at fs (default new_node (children node !! f)).
Proof.
  unfold subs_at at 1. simpl.
  destruct (String.eqb f "#"); [destruct (multi_wild node); simpl; [done | by rewrite subs_at_new]|].
  destruct (String.eqb f "+"); [destruct (single_wild node); simpl; [done | by rewrite subs_at_new]|].
  destruct (children node !! f); simpl; [done | by rewrite subs_at_new].
Qed.

Lemma subs_at_subscribe alive entry fs : forall node gs,
  subs_at gs (TopicTree.subscribe_at alive entry fs node) =
    if decide (gs = fs) then TopicTree.add_subscriber alive entry (subs_at fs node)
    else subs_at gs node.
Proof.
  induction fs as [|f fs IH]; intros node [|g gs]; cbn [TopicTree.subscribe_at].
  - done.
  - case_decide; [done|]. by rewrite !subs_at_cons.
  - case_decide; [done|]. unfold subs_at. by destruct (String.eqb f "#"), (String.eqb f "+").
  - unfold TopicTree.ensure_node. case_decide as Heq.
    + injection Heq as -> ->. rewrite !subs_at_cons.
      destruct (String.eqb f "#"); [|destruct (String.eqb f "+")]; simpl;
        rewrite ?lookup_insert_eq; simpl; by rewrite IH, decide_True.
    + rewrite !subs_at_cons.
      destruct (String.eqb_spec f "#") as [->|Hf1]; [|destruct (String.eqb_spec f "+") as [->|Hf2]];
        simpl.
      * destruct (String.eqb_spec g "#") as [->|]; [|done]. rewrite IH, decide_False; congruence.
      * destruct (String.eqb_spec g "#") as [->|]; [done|].
        destruct (String.eqb_spec g "+") as [->|]; [|done]. rewrite IH, decide_False; congruence.
      * destruct (String.eqb_spec g "#") as [->|]; [done|].
        destruct (String.eqb_spec g "+") as [->|]; [done|].
        destruct (decide (f = g)) as [->|Hne].
        -- rewrite lookup_insert_eq. simpl. rewrite IH, decide_False; congruence.
        -- by rewrite lookup_insert_ne.
Qed.

Lemma subs_at_unsubscribe alive s fs : forall node gs,
  subs_at gs (TopicTree.unsubscribe_at alive s fs node) =
    if decide (gs = fs) then TopicTree.remove_subscriber alive s (subs_at fs node)
    else subs_at gs node.
Proof.
  induction fs as [|f fs IH]; intros node [|g gs]; cbn [TopicTree.unsubscribe_at].
  - done.
  - case_decide; [done|]. by rewrite !subs_at_cons.
  - case_decide; [done|]. unfold subs_at. simpl.
    repeat case_match; simpl; done.
  - case_decide as Heq.
    + injection Heq as -> ->. rewrite !subs_at_cons.
      destruct (String.eqb f "#"); [|destruct (String.eqb f "+")].
      * destruct (multi_wild node) as [m|] eqn:E; simpl.
        -- rewrite IH. by rewrite decide_True.
        -- rewrite ?E; simpl. by rewrite !subs_at_new.
      * destruct (single_wild node) as [m|] eqn:E; simpl.
        -- rewrite IH. by rewrite decide_True.
        -- rewrite ?E; simpl. by rewrite !subs_at_new.
      * destruct (children node !! f) as [m|] eqn:E; simpl.
        -- rewrite lookup_insert_eq. simpl. rewrite IH. by rewrite decide_True.
        -- rewrite ?E; simpl. by rewrite !subs_at_new.
    + rewrite !subs_at_cons.
      destruct (String.eqb_spec f "#") as [->|Hf1]; [|destruct (String.eqb_spec f "+") as [->|Hf2]].
      * destruct (multi_wild node) as [m|] eqn:E; simpl; [|by rewrite ?E].
        destruct (String.eqb_spec g "#") as [->|]; [|done].
        rewrite IH, ?E. simpl. rewrite decide_False; congruence.
      * destruct (single_wild node) as [m|] eqn:E; simpl; [|by rewrite ?E].
        destruct (String.eqb_spec g "#") as [->|]; [done|].
        destruct (String.eqb_spec g "+") as [->|]; [|done].
        rewrite IH, ?E. simpl. rewrite decide_False; congruence.
      * destruct (children node !! f) as [m|] eqn:E; simpl; [|done].
        destruct (String.eqb_spec g "#") as [->|]; [done|].
        destruct (String.eqb_spec g "+") as [->|]; [done|].
        destruct (decide (f = g)) as [->|Hne].
        -- rewrite lookup_insert_eq. simpl. rewrite IH, ?E. simpl. rewrite decide_False; congruence.
        -- by rewrite lookup_insert_ne.
Qed.

(** ** Correctness of subscribing and looking up *)

Lemma topic_segments_plain segs : forallb topic.topic_segment_ok segs = true ->
  Forall (fun s => s <> ""%string /\ plain s) segs.
Proof.
  induction segs as [|seg segs IH]; simpl; [constructor|].
  intros [Hseg Hsegs]%andb_prop. constructor; [|auto].
  unfold topic.topic_segment_ok in Hseg. unfold plain.
  destruct (String.eqb_spec seg ""), (String.eqb_spec seg "+"), (String.eqb_spec seg "#"); done.
Qed.

Lemma valid_topic_segments cfg t :
  topic.is_valid_topic cfg t = true ->
  Forall (fun s => s <> ""%string /\ plain s) (topic.split t) /\ topic.split t <> [].
Proof.
  unfold topic.is_valid_topic. destruct (String.eqb_spec t "") as [|Hne]; [done|].
  destruct (_ <? _); [done|]. destruct (_ <? _); [done|]. intros H. split.
  - by apply topic_segments_plain.
  - destruct t as [|c t]; [done|]. destruct (Ascii.eqb_spec c "/") as [->|Hc].
    + by rewrite split_slash.
    + rewrite split_char by done. by destruct (topic.split t).
Qed.

Lemma valid_topic_plain cfg t : topic.is_valid_topic cfg t = true -> Forall plain (topic.split t).
Proof. intros [H _]%valid_topic_segments. eapply Forall_impl; [exact H|]. by intros s [_ ?]. Qed.

(** [C13] [lookup] terminates (the stack never outgrows the counted frames) and returns,
    for a valid topic, the entries stored under each filter the topic is looked
    up under, filter by filter; these filters are pairwise distinct, and among
    well-formed filters they are exactly those that match the topic.  So a
    stored subscription is returned exactly once if its filter matches and not
    at all otherwise. *)
Theorem tree_lookup_correct cfg t tr :
  topic.is_valid_topic cfg t = true ->
  TopicTree.lookup t tr =
    flat_map (fun fs => subs_at fs (root_ tr)) (candidates (topic.split t)) /\
  NoDup (candidates (topic.split t)) /\
  forall fs, filter_shape fs -> fs ∈ candidates (topic.split t) <-> tree_matches (topic.split t) fs.
Proof.
  intros Hv%valid_topic_plain. split.
  - rewrite lookup_lookup_rec. by apply lookup_rec_candidates.
  - split; [by apply candidates_NoDup|]. intros fs. apply candidates_matches.
Qed.

Lemma tree_lookup_correct_witness :
  TopicTree.lookup "home/room"
    (TopicTree.subscribe (fun _ => true) "home/#" (mkEntry (Some 7%nat) 1) TopicTree.init) =
  flat_map (fun fs => subs_at fs (root_
    (TopicTree.subscribe (fun _ => true) "home/#" (mkEntry (Some 7%nat) 1) TopicTree.init)))
    (candidates ["home"; "room"]%string).
Proof. apply (tree_lookup_correct default_config "home/room"). vm_compute. reflexivity. Defined.

Lemma same_session_spec alive s e :
  TopicTree.same_session alive (Some s) e = true <-> TopicTree.lock alive (entry_session e) = Some s.
Proof.
  unfold TopicTree.same_session. destruct (TopicTree.lock alive (entry_session e)) as [b|]; [|done].
  rewrite Nat.eqb_eq. naive_solver.
Qed.

(** Two entries lock to the same session. *)
Definition same_owner (alive : session_id -> bool) (e x : SubscriberEntry) : Prop :=
  exists b, TopicTree.lock alive (entry_session e) = Some b /\ TopicTree.lock alive (entry_session x) = Some b.

Lemma same_session_owner alive e x :
  TopicTree.same_session alive (TopicTree.lock alive (entry_session e)) x = true <-> same_owner alive e x.
Proof.
  unfold same_owner. destruct (TopicTree.lock alive (entry_session e)) as [b|].
  - rewrite same_session_spec. naive_solver.
  - split; [done|by intros (b & ? & _)].
Qed.

Lemma add_subscriber_new alive e l :
  Forall (fun x => ~ same_owner alive e x) l -> TopicTree.add_subscriber alive e l = l ++ [e].
Proof.
  induction 1 as [|x l Hx _ IH]; [done|]. cbn [TopicTree.add_subscriber app].
  destruct (TopicTree.same_session alive _ x) eqn:Es; [by apply same_session_owner in Es|]. by rewrite IH.
Qed.

Lemma add_subscriber_old alive e l1 x l2 :
  Forall (fun y => ~ same_owner alive e y) l1 -> same_owner alive e x ->
  TopicTree.add_subscriber alive e (l1 ++ x :: l2) = l1 ++ mkEntry (entry_session x) (entry_qos e) :: l2.
Proof.
  intros Hn Hx. induction Hn as [|y l1 Hy _ IH]; cbn [TopicTree.add_subscriber app].
  - by rewrite (proj2 (same_session_owner alive e x) Hx).
  - destruct (TopicTree.same_session alive _ y) eqn:Es; [by apply same_session_owner in Es|]. by rewrite IH.
Qed.

(** [C26] The tree refines a map from filters to entry lists: [subscribe] and
    [unsubscribe] leave the list of every other filter alone.  In the list of its
    filter [subscribe] appends the entry when none of the same session is there,
    and otherwise gives the first one the new QoS, in place; [unsubscribe] keeps
    exactly the entries whose pointer does not lock to the session, in their
    order. *)
Theorem tree_refines_filter_map alive f e s tr :
  let list_of gs t := subs_at gs (root_ t) in
  let l := list_of (topic.split f) tr in
  (forall gs, gs <> topic.split f ->
     list_of gs (TopicTree.subscribe alive f e tr) = list_of gs tr /\
     list_of gs (TopicTree.unsubscribe alive f s tr) = list_of gs tr) /\
  (Forall (fun x => ~ same_owner alive e x) l ->
     list_of (topic.split f) (TopicTree.subscribe alive f e tr) = l ++ [e]) /\
  (forall l1 x l2, l = l1 ++ x :: l2 -> same_owner alive e x -> Forall (fun y => ~ same_owner alive e y) l1 ->
     list_of (topic.split f) (TopicTree.subscribe alive f e tr) =
       l1 ++ mkEntry (entry_session x) (entry_qos e) :: l2) /\
  list_of (topic.split f) (TopicTree.unsubscribe alive f s tr) =
    filter (fun x => TopicTree.lock alive (entry_session x) <> s) l.
Proof.
  cbv zeta. unfold TopicTree.subscribe, TopicTree.unsubscribe; simpl. split; [|split; [|split]].
  - intros gs Hg. by rewrite subs_at_subscribe, subs_at_unsubscribe, !decide_False.
  - intros Hn. rewrite subs_at_subscribe, decide_True by done. by apply add_subscriber_new.
  - intros l1 x l2 Hl Hx Hn. rewrite subs_at_subscribe, decide_True, Hl by done. by apply add_subscriber_old.
  - by rewrite subs_at_unsubscribe, decide_True.
Qed.

(** The sessions the entries of a list still lock to. *)
Definition live_sessions (alive : session_id -> bool) (l : list SubscriberEntry) : list session_id :=
  omap (fun e => TopicTree.lock alive (entry_session e)) l.

Lemma live_sessions_cons alive e l :
  live_sessions alive (e :: l) =
    match TopicTree.lock alive (entry_session e) with
    | Some b => b :: live_sessions alive l
    | None => live_sessions alive l
    end.
Proof. done. Qed.

Lemma live_sessions_remove alive s l :
  live_sessions alive (TopicTree.remove_subscriber alive s l) `sublist_of` live_sessions alive l.
Proof.
  induction l as [|e l IH]; [done|]. unfold TopicTree.remove_subscriber in *.
  rewrite filter_cons, live_sessions_cons. case_decide.
  - rewrite live_sessions_cons. destruct (TopicTree.lock _ _); [by apply sublist_skip | done].
  - destruct (TopicTree.lock _ _); [by apply sublist_cons | done].
Qed.

Lemma live_sessions_add alive s q l :
  alive s = true ->
  live_sessions alive (TopicTree.add_subscriber alive (mkEntry (Some s) q) l) =
    if decide (s ∈ live_sessions alive l) then live_sessions alive l
    else live_sessions alive l ++ [s].
Proof.
  intros Hs. assert (Hl : TopicTree.lock alive (Some s) = Some s) by (simpl; by rewrite Hs).
  induction l as [|e l IH].
  - cbn [TopicTree.add_subscriber]. rewrite live_sessions_cons. simpl. by rewrite Hs.
  - cbn [TopicTree.add_subscriber entry_session]. rewrite Hl.
    destruct (TopicTree.same_session alive (Some s) e) eqn:E.
    + apply same_session_spec in E. rewrite !live_sessions_cons. cbn [entry_session].
      rewrite E. rewrite decide_True; [done | set_solver].
    + assert (Hne : TopicTree.lock alive (entry_session e) <> Some s)
        by (intros H%same_session_spec; congruence).
      rewrite !live_sessions_cons, IH.
      destruct (TopicTree.lock alive (entry_session e)) as [b|]; [|done].
      repeat case_decide; set_solver.
Qed.

(** At most one entry per session: when under every filter the live sessions are
    pairwise distinct, they still are after any [subscribe] of a live session
    and after any [unsubscribe], so subscribing again replaces the QoS instead
    of duplicating deliveries. *)
Theorem subscribe_at_most_once alive f s s' q tr :
  alive s = true ->
  (forall gs, NoDup (live_sessions alive (subs_at gs (root_ tr)))) ->
  forall gs,
    NoDup (live_sessions alive (subs_at gs (root_
      (TopicTree.subscribe alive f (mkEntry (Some s) q) tr)))) /\
    NoDup (live_sessions alive (subs_at gs (root_ (TopicTree.unsubscribe alive f s' tr)))).
Proof.
  intros Hs Hinv gs. simpl. rewrite subs_at_subscribe, subs_at_unsubscribe. split.
  - case_decide; [|done]. subst gs. rewrite live_sessions_add by done.
    case_decide; [done|]. apply NoDup_app. split; [done|]. split; [set_solver|].
    apply NoDup_singleton.
  - case_decide; [|done]. subst gs. unfold TopicTree.remove_subscriber.
    eapply sublist_NoDup; [apply Hinv | apply live_sessions_remove].
Qed.

Definition demo_tree : TopicTree :=
  TopicTree.subscribe (fun _ => true) "a/+" (mkEntry (Some 5%nat) 0)
    (TopicTree.subscribe (fun _ => true) "a/+" (mkEntry (Some 3%nat) 2) TopicTree.init).

(** Subscribing again, with another QoS, and unsubscribing. *)
Lemma tree_refines_filter_map_witness :
  subs_at ["a"; "+"]%string (root_ (TopicTree.subscribe (fun _ => true) "a/+" (mkEntry (Some 5%nat) 1) demo_tree)) =
    [mkEntry (Some 3%nat) 2; mkEntry (Some 5%nat) 1] /\
  subs_at ["a"; "+"]%string (root_ (TopicTree.unsubscribe (fun _ => true) "a/+" (Some 3%nat) demo_tree)) =
    [mkEntry (Some 5%nat) 0].
Proof.
  destruct (tree_refines_filter_map (fun _ => true) "a/+"%string (mkEntry (Some 5%nat) 1) (Some 3%nat) demo_tree)
    as (_ & _ & Hs & Hu).
  assert (Hf : topic.split "a/+"%string = ["a"; "+"]%string) by reflexivity. rewrite Hf in Hs, Hu.
  split; [|rewrite Hu; vm_compute; reflexivity].
  apply (Hs [mkEntry (Some 3%nat) 2] (mkEntry (Some 5%nat) 0) []).
  - vm_compute. reflexivity.
  - exists 5%nat. split; reflexivity.
  - constructor; [|constructor]. intros (b & Hb & Hc). vm_compute in Hb, Hc. congruence.
Defined.

Lemma subscribe_at_most_once_witness :
  NoDup (live_sessions (fun _ => true) (subs_at ["a"]%string (root_
    (TopicTree.subscribe (fun _ => true) "a" (mkEntry (Some 3%nat) 2) TopicTree.init)))).
Proof.
  apply (subscribe_at_most_once (fun _ => true) "a" 3%nat None 2 TopicTree.init); [reflexivity|].
  intros gs. unfold TopicTree.init; simpl. rewrite subs_at_new. constructor.
Defined.

(** The two matchers of the broker disagree on exactly one case: for a valid topic
    and a well-formed filter, the tree delivers a publication iff
    [topic::matches] accepts, or the filter is [F/#] and [topic::matches] accepts
    its parent level [F].  Live publications use the first, retained messages and
    ACLs the second. *)
Theorem matchers_disagree_on_parent_level ts fs :
  Forall plain ts -> filter_shape fs ->
  tree_matches ts fs <->
    topic.match_segments ts fs = true \/
    exists fs', fs = fs' ++ ["#"%string] /\ topic.match_segments ts fs' = true.
Proof.
  intros Hp Hs. setoid_rewrite match_segments_spec. split.
  - induction 1 as [| |t ts|t ts fs _ IH|t ts fs _ IH].
    + left. constructor.
    + right. exists []. split; [done | constructor].
    + left. constructor.
    + apply List.Forall_cons_iff in Hp as [_ Hp]. inversion Hs; subst; try done.
      all: destruct IH as [IH|(fs' & -> & IH)]; try done; [left; by constructor|].
      all: right; exists ("+"%string :: fs'); split; [done | by constructor].
    + apply List.Forall_cons_iff in Hp as [[H1 H2] Hp].
      assert (Hs' : filter_shape fs) by (inversion Hs; subst; try done; constructor).
      destruct (IH Hp Hs') as [IH'|(fs' & -> & IH')]; [left; by constructor|].
      right. exists (t :: fs'). split; [done | by constructor].
  - intros [H|(fs' & -> & H)].
    + induction H as [|t ts fs|t ts fs _ IH|t ts fs H1 H2 _ IH].
      * constructor.
      * inversion Hs; subst; [constructor | done].
      * apply List.Forall_cons_iff in Hp as [_ Hp]. constructor. apply IH; [done|].
        inversion Hs; subst; done.
      * apply List.Forall_cons_iff in Hp as [_ Hp]. apply tm_exact. apply IH; [done|].
        inversion Hs; subst; done.
    + induction H as [|t ts fs|t ts fs _ IH|t ts fs H1 H2 _ IH].
      * constructor.
      * inversion Hs as [|E|E|seg fs0 _ _ Hh]; subst; [by destruct fs | done].
      * apply List.Forall_cons_iff in Hp as [_ Hp]. cbn [app] in *. constructor. apply IH; [done|].
        inversion Hs; subst; done.
      * apply List.Forall_cons_iff in Hp as [_ Hp]. cbn [app] in *. apply tm_exact. apply IH; [done|].
        inversion Hs; subst; done.
Qed.

Lemma matchers_disagree_on_parent_level_witness :
  tree_matches ["home"]%string ["home"; "#"]%string /\ topic.matches "home" "home/#" = false.
Proof.
  split; [|reflexivity].
  apply (matchers_disagree_on_parent_level ["home"]%string ["home"; "#"]%string).
  - repeat constructor; discriminate.
  - apply fs_plain; [discriminate | reflexivity | reflexivity | constructor].
  - right. exists ["home"]%string. split; reflexivity.
Defined.
