(* ===== verification/Retained.v ===== *)
(** * Retained messages of the topic tree ([src/topic/topic_tree.cpp])

    The retained-message operations of [TopicTree] ([set_retained],
    [get_retained], [get_all_retained]) refine a finite map from topics (as
    segment lists) to messages with a bounded number of non-empty entries. *)

From Stdlib Require Import Strings.String Strings.Ascii ZArith Lia.
From stdpp Require Import base list strings numbers option gmap fin_maps sets.
From S2P Require Import Prelude Config Buffer Filter TopicTree.

Open Scope Z_scope.

(** The messages stored below a node, with the segments of the path
    [get_all_retained] reports for them. *)
Inductive retained_in : Node -> list string -> RetainedMessage -> Prop :=
| ri_here n r : retained n = Some r -> retained_in n [] r
| ri_child n seg c segs r :
    children n !! seg = Some c -> retained_in c segs r -> retained_in n (seg :: segs) r
| ri_single n w segs r :
    single_wild n = Some w -> retained_in w segs r -> retained_in n ("+"%string :: segs) r.

(** A topic segment list that passed [is_valid_topic]. *)
Definition topic_segs (segs : list string) : Prop :=
  Forall (fun s => s <> ""%string /\ plain s) segs /\ segs <> [].

Definition nonempty (r : RetainedMessage) : bool := negb (Buffer.empty (retained_payload r)).

(** The tree [t] stores exactly the messages of the map [m]. *)
Record retained_refines (t : TopicTree) (m : gmap (list string) RetainedMessage) : Prop := {
  rr_map : forall segs r, retained_in (root_ t) segs r <-> m !! segs = Some r;
  rr_dom : forall segs r, m !! segs = Some r -> topic_segs segs;
  rr_count : retained_count_ t = Z.of_nat (size (filter (fun p => nonempty p.2 = true) m))
}.

(** The abstract operation: [set_retained] on the map. *)
Definition map_set_retained (cfg : Config) (segs : list string) (msg : RetainedMessage)
    (m : gmap (list string) RetainedMessage) : bool * gmap (list string) RetainedMessage :=
  let was_empty := TopicTree.retained_empty (m !! segs) in
  if nonempty msg && was_empty &&
     (max_retained_messages cfg <=? Z.of_nat (size (filter (fun p => nonempty p.2 = true) m)))
  then (false, m)
  else (true, <[segs := msg]> m).

(** ** Paths *)

Lemma retained_in_nil n r : retained_in n [] r <-> retained n = Some r.
Proof. split; [by inversion 1 | by constructor]. Qed.

Lemma retained_in_cons n seg segs r :
  retained_in n (seg :: segs) r <->
    (exists c, children n !! seg = Some c /\ retained_in c segs r) \/
    (seg = "+"%string /\ exists w, single_wild n = Some w /\ retained_in w segs r).
Proof.
  split.
  - inversion 1; subst; eauto 10.
  - intros [(c & Hc & H)|(-> & w & Hw & H)]; [by eapply ri_child | by eapply ri_single].
Qed.

Lemma retained_in_new segs r : ~ retained_in new_node segs r.
Proof.
  destruct segs; [by rewrite retained_in_nil|]. rewrite retained_in_cons.
  intros [(c & Hc & _)|(_ & w & Hw & _)]; [|done]. simpl in Hc. by rewrite lookup_empty in Hc.
Qed.

(** Along plain segments the enumeration and [get_retained]'s walk agree. *)
Lemma find_path_retained segs : forall n r,
  Forall plain segs -> (TopicTree.find_path segs n ≫= retained) = Some r <-> retained_in n segs r.
Proof.
  induction segs as [|seg segs IH]; intros n r Hp; simpl.
  - by rewrite retained_in_nil.
  - apply List.Forall_cons_iff in Hp as [[Hplus _] Hp]. rewrite retained_in_cons.
    destruct (children n !! seg) as [c|]; simpl.
    + rewrite IH by done. naive_solver.
    + naive_solver.
Qed.

(** Subscribing and unsubscribing touch no message. *)
Lemma retained_in_default o segs r :
  retained_in (default new_node o) segs r <-> exists c, o = Some c /\ retained_in c segs r.
Proof.
  destruct o; simpl; [naive_solver|]. split; [|naive_solver].
  intros H. by apply retained_in_new in H.
Qed.

Lemma retained_in_subscribe alive e fs : forall n segs r,
  retained_in (TopicTree.subscribe_at alive e fs n) segs r <-> retained_in n segs r.
Proof.
  induction fs as [|f fs IH]; intros n segs r; cbn [TopicTree.subscribe_at].
  - destruct segs; by rewrite ?retained_in_nil, ?retained_in_cons.
  - destruct segs as [|seg segs].
    { rewrite !retained_in_nil. by destruct (String.eqb f "#"), (String.eqb f "+"). }
    rewrite !retained_in_cons.
    destruct (String.eqb f "#"); [done|]. destruct (String.eqb f "+"); simpl.
    + f_equiv. f_equiv. split.
      * intros (w & [= <-] & H). apply IH, retained_in_default in H. done.
      * intros H. eexists. split; [done|]. apply IH. by apply retained_in_default.
    + f_equiv. destruct (decide (f = seg)) as [->|Hne].
      * rewrite lookup_insert_eq. split.
        -- intros (c & [= <-] & H). apply IH, retained_in_default in H. done.
        -- intros H. eexists. split; [done|]. apply IH. by apply retained_in_default.
      * by rewrite lookup_insert_ne.
Qed.

Lemma retained_in_unsubscribe alive s fs : forall n segs r,
  retained_in (TopicTree.unsubscribe_at alive s fs n) segs r <-> retained_in n segs r.
Proof.
  induction fs as [|f fs IH]; intros n segs r; cbn [TopicTree.unsubscribe_at].
  - destruct segs; by rewrite ?retained_in_nil, ?retained_in_cons.
  - destruct segs as [|seg segs].
    { rewrite !retained_in_nil. by repeat case_match. }
    rewrite !retained_in_cons.
    destruct (String.eqb f "#"); [by case_match|]. destruct (String.eqb f "+").
    + destruct (single_wild n) as [w|] eqn:E; simpl; [|by rewrite ?E].
      f_equiv. f_equiv.
      split; intros (w' & [= <-] & H); eexists; (split; [done|]); by apply IH.
    + destruct (children n !! f) as [c|] eqn:E; simpl; [|done].
      f_equiv. destruct (decide (f = seg)) as [->|Hne].
      * rewrite lookup_insert_eq, E.
        split; intros (w' & [= <-] & H); eexists; (split; [done|]); by apply IH.
      * by rewrite lookup_insert_ne.
Qed.

Lemma retained_in_ensure_path ts : forall n segs r,
  retained_in (TopicTree.ensure_path ts n) segs r <-> retained_in n segs r.
Proof.
  induction ts as [|t ts IH]; intros n segs r; cbn [TopicTree.ensure_path]; [done|].
  destruct segs as [|seg segs]; [by rewrite !retained_in_nil|]. rewrite !retained_in_cons. simpl.
  f_equiv. destruct (decide (t = seg)) as [->|Hne]; [|by rewrite lookup_insert_ne].
  rewrite lookup_insert_eq. split.
  - intros (c & [= <-] & H). by apply IH, retained_in_default in H.
  - intros H. eexists. split; [done|]. apply IH. by apply retained_in_default.
Qed.

Lemma retained_in_store_path msg ts : forall n segs r,
  Forall plain ts ->
  retained_in (TopicTree.store_path msg ts n) segs r <->
    if decide (segs = ts) then r = msg else retained_in n segs r.
Proof.
  induction ts as [|t ts IH]; intros n [|seg segs] r Hp; cbn [TopicTree.store_path].
  - rewrite decide_True, retained_in_nil by done. simpl. naive_solver.
  - rewrite decide_False by done. by rewrite !retained_in_cons.
  - rewrite decide_False by done. by rewrite !retained_in_nil.
  - apply List.Forall_cons_iff in Hp as [[Hplus _] Hp]. rewrite !retained_in_cons. simpl.
    destruct (decide (t = seg)) as [->|Hne].
    + rewrite lookup_insert_eq. split.
      * intros [(c & [= <-] & H)|(? & _)]; [|done]. apply IH in H; [|done].
        repeat case_decide; try congruence. apply retained_in_cons. left.
        by apply retained_in_default.
      * intros H. left. eexists. split; [done|]. apply IH; [done|].
        repeat case_decide; try congruence. apply retained_in_default.
        apply retained_in_cons in H as [H|[? _]]; done.
    + rewrite lookup_insert_ne by done. rewrite decide_False by congruence.
      by rewrite retained_in_cons.
Qed.

(** ** Enumeration *)

Lemma elem_of_map_fold_app {A} (f : string -> Node -> list A) (m : gmap string Node) x :
  x ∈ map_fold (fun k c acc => f k c ++ acc) [] m <-> exists k c, m !! k = Some c /\ x ∈ f k c.
Proof.
  rewrite map_fold_foldr. setoid_rewrite <- elem_of_map_to_list.
  induction (map_to_list m) as [|[k c] l IH]; simpl; [set_solver|].
  rewrite elem_of_app, IH. set_solver.
Qed.

(** The number of nodes: the induction measure of the recursive enumeration. *)
Fixpoint node_size (n : Node) : nat :=
  S (map_fold (fun _ c acc => node_size c + acc)%nat 0%nat (children n) +
     match single_wild n with Some w => node_size w | None => 0 end +
     match multi_wild n with Some w => node_size w | None => 0 end).

Lemma node_size_child n seg c : children n !! seg = Some c -> (node_size c < node_size n)%nat.
Proof.
  destruct n as [ch sw mw sb rt]; simpl. intros Hc%elem_of_map_to_list.
  rewrite map_fold_foldr.
  assert (H : (node_size c <= foldr (uncurry (fun _ c acc => node_size c + acc)) 0 (map_to_list ch))%nat).
  { induction (map_to_list ch) as [|[k d] l IH]; [by apply elem_of_nil in Hc|].
    simpl. apply elem_of_cons in Hc as [[= <- <-]|Hc]; [lia|]. apply IH in Hc. lia. }
  lia.
Qed.

Lemma node_size_single n w : single_wild n = Some w -> (node_size w < node_size n)%nat.
Proof. destruct n as [ch sw mw sb rt]; simpl. intros ->. lia. Qed.

Lemma get_all_retained_at_eq n path :
  TopicTree.get_all_retained_at n path =
    (match retained n with Some r => [(path, r)] | None => [] end) ++
    map_fold (fun seg c acc => TopicTree.get_all_retained_at c (TopicTree.extend_path path seg) ++ acc)
             [] (children n) ++
    match single_wild n with
    | Some w => TopicTree.get_all_retained_at w (TopicTree.extend_path path "+")
    | None => []
    end.
Proof. by destruct n. Qed.

Lemma get_all_retained_at_spec n : forall path p r,
  (p, r) ∈ TopicTree.get_all_retained_at n path <->
    exists segs, retained_in n segs r /\ p = foldl TopicTree.extend_path path segs.
Proof.
  remember (node_size n) as k eqn:Hk. revert n Hk.
  induction k as [k IH] using lt_wf_ind. intros n -> path p r.
  rewrite get_all_retained_at_eq, !elem_of_app, elem_of_map_fold_app. split.
  - intros [H|[(seg & c & Hc & H)|H]].
    + destruct (retained n) as [r'|] eqn:E; [|by apply elem_of_nil in H].
      apply list_elem_of_singleton in H. injection H as -> ->.
      exists []. split; [by constructor | done].
    + apply (IH _ (node_size_child _ _ _ Hc) c eq_refl) in H as (segs & H & ->).
      exists (seg :: segs). split; [by eapply ri_child | done].
    + destruct (single_wild n) as [w|] eqn:E; [|by apply elem_of_nil in H].
      apply (IH _ (node_size_single _ _ E) w eq_refl) in H as (segs & H & ->).
      exists ("+"%string :: segs). split; [by eapply ri_single | done].
  - intros ([|seg segs] & H & ->).
    + apply retained_in_nil in H as ->. left. by apply list_elem_of_singleton.
    + apply retained_in_cons in H as [(c & Hc & H)|(-> & w & Hw & H)].
      * right; left. exists seg, c. split; [done|].
        apply (IH _ (node_size_child _ _ _ Hc) c eq_refl). eauto.
      * right; right. rewrite Hw. apply (IH _ (node_size_single _ _ Hw) w eq_refl). eauto.
Qed.

Lemma foldl_extend_path segs : forall path,
  path <> ""%string -> Forall (fun s => s <> ""%string) segs ->
  foldl TopicTree.extend_path path segs =
    match segs with [] => path | _ => (path ++ "/" ++ join segs)%string end.
Proof.
  induction segs as [|seg segs IH]; intros path Hp Hs; [done|].
  apply List.Forall_cons_iff in Hs as [Hseg Hs]. simpl foldl. unfold TopicTree.extend_path at 2.
  rewrite (proj2 (String.eqb_neq path "") Hp). rewrite IH; [|by destruct path|done].
  rewrite (concat_cons seg segs). destruct segs as [|s' segs]; [done|].
  rewrite !string_app_assoc. done.
Qed.

Lemma foldl_extend_path_join segs :
  Forall (fun s => s <> ""%string) segs -> foldl TopicTree.extend_path "" segs = join segs.
Proof.
  destruct segs as [|seg segs]; [done|]. intros [Hseg Hs]%List.Forall_cons_iff. simpl.
  change (TopicTree.extend_path "" seg) with seg.
  rewrite foldl_extend_path, concat_cons by done. by destruct segs.
Qed.

(** ** The counter *)

Abbreviation nonempty_part m := (filter (fun p => nonempty p.2 = true) m).

Lemma nonempty_retained_empty (o : option RetainedMessage) :
  TopicTree.retained_empty o = match o with Some r => negb (nonempty r) | None => true end.
Proof. destruct o; [|done]. unfold nonempty. by rewrite negb_involutive. Qed.

Lemma size_nonempty_insert (m : gmap (list string) RetainedMessage) segs msg :
  Z.of_nat (size (nonempty_part (<[segs := msg]> m))) =
    Z.of_nat (size (nonempty_part m)) +
    (if nonempty msg then 1 else 0) - (if TopicTree.retained_empty (m !! segs) then 0 else 1).
Proof.
  assert (Hm : nonempty_part m !! segs =
    match m !! segs with Some r => if nonempty r then Some r else None | None => None end).
  { rewrite map_lookup_filter. destruct (m !! segs) as [r|]; simpl; [|done].
    destruct (nonempty r) eqn:E; [by rewrite option_guard_True | by rewrite option_guard_False; simpl; congruence]. }
  rewrite nonempty_retained_empty, map_filter_insert. case_decide as Hmsg; simpl in Hmsg.
  - rewrite Hmsg. destruct (m !! segs) as [r|] eqn:E.
    + destruct (nonempty r); simpl.
      * rewrite map_size_insert_Some by by rewrite Hm. lia.
      * rewrite map_size_insert_None by done. lia.
    + rewrite map_size_insert_None by done. lia.
  - destruct (nonempty msg); [done|]. rewrite map_filter_delete.
    destruct (m !! segs) as [r|] eqn:E.
    + destruct (nonempty r); simpl.
      * rewrite map_size_delete_Some by by rewrite Hm.
        assert (size (nonempty_part m) <> 0%nat); [|lia].
        intros Hz%map_size_empty_inv. by rewrite Hz, lookup_empty in Hm.
      * rewrite delete_id by done. lia.
    + rewrite delete_id by done. lia.
Qed.

Lemma retained_empty_nonempty msg :
  Buffer.empty (retained_payload msg) = negb (nonempty msg).
Proof. unfold nonempty. by rewrite negb_involutive. Qed.

Lemma find_path_ensured segs : forall n, is_Some (TopicTree.find_path segs (TopicTree.ensure_path segs n)).
Proof.
  induction segs as [|seg segs IH]; intros n; simpl; [done|]. by rewrite lookup_insert_eq.
Qed.

(** ** Refinement *)

Section Refinement.

Context (t : TopicTree) (m : gmap (list string) RetainedMessage) (Hr : retained_refines t m).

Lemma refines_lookup segs n :
  topic_segs segs -> (forall s r, retained_in n s r <-> retained_in (root_ t) s r) ->
  TopicTree.find_path segs n ≫= retained = m !! segs.
Proof using Hr.
  intros [Hs _] Hn.
  assert (Hp : Forall plain segs) by (eapply Forall_impl; [exact Hs|]; by intros s [_ ?]).
  apply option_eq. intros r. rewrite find_path_retained by done.
  rewrite Hn. apply (rr_map _ _ Hr).
Qed.

Lemma refines_same_root n :
  (forall s r, retained_in n s r <-> retained_in (root_ t) s r) ->
  retained_refines (mkTree n (retained_count_ t)) m.
Proof using Hr.
  intros Hn. constructor.
  - intros segs r. simpl. rewrite Hn. apply (rr_map _ _ Hr).
  - apply (rr_dom _ _ Hr).
  - apply (rr_count _ _ Hr).
Qed.

Lemma refines_store segs msg n c :
  topic_segs segs -> (forall s r, retained_in n s r <-> retained_in (root_ t) s r) ->
  c = retained_count_ t + (if nonempty msg then 1 else 0) -
      (if TopicTree.retained_empty (m !! segs) then 0 else 1) ->
  retained_refines (mkTree (TopicTree.store_path msg segs n) c) (<[segs := msg]> m).
Proof using Hr.
  intros Hs Hn ->. destruct Hs as [Hs Hne].
  assert (Hp : Forall plain segs) by (eapply Forall_impl; [exact Hs|]; by intros s [_ ?]).
  constructor; simpl.
  - intros s r. rewrite retained_in_store_path by done. case_decide as E.
    + subst. rewrite lookup_insert_eq. naive_solver.
    + rewrite lookup_insert_ne by done. rewrite Hn. apply (rr_map _ _ Hr).
  - intros s r. destruct (decide (segs = s)) as [<-|E]; [done|].
    rewrite lookup_insert_ne by done. apply (rr_dom _ _ Hr).
  - rewrite size_nonempty_insert, (rr_count _ _ Hr). done.
Qed.

Lemma set_retained_simulates cfg top msg :
  topic_segs (topic.split top) ->
  (TopicTree.set_retained cfg top msg t).1 = (map_set_retained cfg (topic.split top) msg m).1 /\
  retained_refines (TopicTree.set_retained cfg top msg t).2
    (map_set_retained cfg (topic.split top) msg m).2.
Proof using Hr.
  intros Hs. unfold TopicTree.set_retained, map_set_retained.
  set (segs := topic.split top) in *.
  assert (Hn := retained_in_ensure_path segs (root_ t)).
  rewrite (refines_lookup segs _ Hs Hn), retained_empty_nonempty, negb_involutive.
  rewrite <- (rr_count _ _ Hr).
  destruct (nonempty msg) eqn:Hm, (TopicTree.retained_empty (m !! segs)) eqn:He; simpl;
    try (case_if; simpl); (split; [done|]).
  all: first [by apply refines_same_root | apply refines_store; [done..|rewrite Hm, He; lia]].
Qed.

Lemma get_all_retained_simulates p r :
  (p, r) ∈ TopicTree.get_all_retained t <-> exists segs, m !! segs = Some r /\ p = join segs.
Proof using Hr.
  unfold TopicTree.get_all_retained. rewrite get_all_retained_at_spec.
  split; intros (segs & H & ->).
  - apply (rr_map _ _ Hr) in H. exists segs. split; [done|]. apply foldl_extend_path_join.
    apply (rr_dom _ _ Hr) in H as [H _]. eapply Forall_impl; [exact H|]. by intros s [? _].
  - exists segs. split; [by apply (rr_map _ _ Hr)|]. symmetry. apply foldl_extend_path_join.
    apply (rr_dom _ _ Hr) in H as [H _]. eapply Forall_impl; [exact H|]. by intros s [? _].
Qed.

End Refinement.

Lemma retained_refines_init : retained_refines TopicTree.init ∅.
Proof.
  constructor; simpl.
  - intros segs r. rewrite lookup_empty. split; [|done]. intros H. by apply retained_in_new in H.
  - intros segs r. by rewrite lookup_empty.
  - by rewrite map_filter_empty, map_size_empty.
Qed.

(** The trees the broker builds: subscriptions come and go under any filter,
    retained messages are stored under valid topics. *)
Inductive tree_reachable (cfg : Config) : TopicTree -> gmap (list string) RetainedMessage -> Prop :=
| tr_init : tree_reachable cfg TopicTree.init ∅
| tr_subscribe alive f e t m :
    tree_reachable cfg t m -> tree_reachable cfg (TopicTree.subscribe alive f e t) m
| tr_unsubscribe alive f s t m :
    tree_reachable cfg t m -> tree_reachable cfg (TopicTree.unsubscribe alive f s t) m
| tr_set_retained top msg t m :
    topic.is_valid_topic cfg top = true -> tree_reachable cfg t m ->
    tree_reachable cfg (TopicTree.set_retained cfg top msg t).2
      (map_set_retained cfg (topic.split top) msg m).2.

Lemma tree_reachable_refines cfg t m : tree_reachable cfg t m -> retained_refines t m.
Proof.
  induction 1 as [|alive f e t m _ IH|alive f s t m _ IH|top msg t m Hv _ IH].
  - apply retained_refines_init.
  - apply refines_same_root; [done|]. apply retained_in_subscribe.
  - apply refines_same_root; [done|]. apply retained_in_unsubscribe.
  - apply set_retained_simulates; [done|]. by apply valid_topic_segments in Hv.
Qed.

Lemma tree_reachable_bounded cfg t m :
  tree_reachable cfg t m -> 0 <= retained_count_ t <= Z.max 0 (max_retained_messages cfg).
Proof.
  induction 1 as [|alive f e t m Hr IH|alive f s t m Hr IH|top msg t m Hv Hr IH]; simpl; try lia.
  apply tree_reachable_refines in Hr.
  destruct (set_retained_simulates t m Hr cfg top msg) as [_ Hn];
    [by apply valid_topic_segments in Hv|].
  apply rr_count in Hn. split; [lia|]. clear Hn.
  unfold TopicTree.set_retained.
  repeat case_if; simpl; tests_to_props; lia.
Qed.

(** [C15] Retained messages refine a finite map from topics to messages: on
    every tree the broker can build, [set_retained] under a valid topic
    answers as the map operation does and leads to the updated map,
    [get_retained] is its lookup, and [get_all_retained] enumerates exactly
    its entries under the topic each was stored with, whatever subscriptions
    came and went meanwhile. *)
Theorem retained_refines_map cfg t m top msg :
  tree_reachable cfg t m -> topic.is_valid_topic cfg top = true ->
  let '(ok, t') := TopicTree.set_retained cfg top msg t in
  let '(ok', m') := map_set_retained cfg (topic.split top) msg m in
  ok = ok' /\ tree_reachable cfg t' m' /\
  TopicTree.get_retained top t' = m' !! topic.split top /\
  (forall p r, (p, r) ∈ TopicTree.get_all_retained t' <->
               exists segs, m' !! segs = Some r /\ p = join segs).
Proof.
  intros Hr Hv. assert (Hs : topic_segs (topic.split top)) by (by apply valid_topic_segments in Hv).
  pose proof (tr_set_retained cfg top msg t m Hv Hr) as Hr'.
  pose proof (set_retained_simulates t m (tree_reachable_refines _ _ _ Hr) cfg top msg Hs) as [Hok Hn].
  destruct (TopicTree.set_retained cfg top msg t) as [ok t'],
    (map_set_retained cfg (topic.split top) msg m) as [ok' m']. simpl in *.
  split; [done|]. split; [done|]. split.
  - by apply (refines_lookup t' m').
  - by apply get_all_retained_simulates.
Qed.

Lemma retained_refines_map_witness :
  TopicTree.get_retained "a/b"
    (TopicTree.set_retained default_config "a/b" (mkRetained (Buffer.of_bytes [Byte.x2a]) 1)
       TopicTree.init).2 = Some (mkRetained (Buffer.of_bytes [Byte.x2a]) 1).
Proof.
  pose proof (retained_refines_map default_config TopicTree.init ∅ "a/b"
    (mkRetained (Buffer.of_bytes [Byte.x2a]) 1) (tr_init _) eq_refl) as H.
  destruct (TopicTree.set_retained _ _ _ _) as [ok t'] eqn:E.
  destruct (map_set_retained _ _ _ _) as [ok' m'] eqn:E'.
  destruct H as (_ & _ & H & _). simpl. rewrite H.
  vm_compute in E'. injection E' as <- <-. vm_compute. reflexivity.
Defined.

(** The retained-message counter is the number of non-empty stored
    messages and never exceeds the configured maximum, on every tree the
    broker can build. *)
Theorem retained_count_exact_bounded cfg t m :
  tree_reachable cfg t m ->
  TopicTree.retained_count t = Z.of_nat (size (nonempty_part m)) /\
  TopicTree.retained_count t <= Z.max 0 (max_retained_messages cfg).
Proof.
  intros H. split.
  - by apply rr_count, (tree_reachable_refines cfg).
  - apply tree_reachable_bounded in H. unfold TopicTree.retained_count. lia.
Qed.

Lemma retained_count_exact_bounded_witness :
  TopicTree.retained_count
    (TopicTree.set_retained default_config "a/b" (mkRetained (Buffer.of_bytes [Byte.x2a]) 1)
       TopicTree.init).2 <= Z.max 0 (max_retained_messages default_config).
Proof.
  eapply (retained_count_exact_bounded default_config).
  apply tr_set_retained; [reflexivity | constructor].
Defined.

(** Clearing a retained message keeps an entry: after a publication with
    an empty payload the topic still has a (empty) retained message, which
    [get_all_retained] goes on returning. *)
Theorem cleared_retained_stays cfg t m top msg :
  tree_reachable cfg t m -> topic.is_valid_topic cfg top = true ->
  Buffer.empty (retained_payload msg) = true ->
  (TopicTree.set_retained cfg top msg t).1 = true /\
  TopicTree.get_retained top (TopicTree.set_retained cfg top msg t).2 = Some msg /\
  (join (topic.split top), msg) ∈
    TopicTree.get_all_retained (TopicTree.set_retained cfg top msg t).2.
Proof.
  intros Hr Hv He. assert (Hs : topic_segs (topic.split top)) by (by apply valid_topic_segments in Hv).
  pose proof (set_retained_simulates t m (tree_reachable_refines _ _ _ Hr) cfg top msg Hs) as [Hok Hn].
  unfold map_set_retained in Hok, Hn.
  assert (nonempty msg = false) as Hne by (unfold nonempty; by rewrite He).
  rewrite Hne in Hok, Hn. simpl in Hok, Hn. split; [done|].
  split.
  - unfold TopicTree.get_retained. rewrite (refines_lookup _ _ Hn) by done. apply lookup_insert_eq.
  - apply (get_all_retained_simulates _ _ Hn). exists (topic.split top). by rewrite lookup_insert_eq.
Qed.

Lemma cleared_retained_stays_witness :
  TopicTree.get_retained "a" (TopicTree.set_retained default_config "a"
    (mkRetained Buffer.init 0) TopicTree.init).2 = Some (mkRetained Buffer.init 0).
Proof.
  eapply (cleared_retained_stays default_config); [constructor | reflexivity | reflexivity].
Defined.
