(* ===== verification/Subscription.v ===== *)
(** * Persistent subscriptions ([src/subscription.h], [src/subscription.cpp])

    [SubscriptionManager] keeps, per client id, the vector of subscriptions
    that survive a reconnection.  It is specified against a two-level finite
    map client -> filter -> QoS. *)

From Stdlib Require Import Strings.String ZArith Lia.
From stdpp Require Import base list strings numbers option gmap fin_maps.
From S2P Require Import Prelude.

Open Scope Z_scope.

Record Subscription : Type := mkSub {
  topic_filter : string;
  sub_qos : Z
}.

#[export] Instance Subscription_eq_dec : EqDecision Subscription.
Proof. solve_decision. Defined.

Record SubscriptionManager : Type := mkSubs {
  subs_ : gmap string (list Subscription)
}.

Module SubscriptionManager.

Definition init : SubscriptionManager := mkSubs ∅.

(** [find_if] on the filter: set its QoS, or [push_back]. *)
Fixpoint add_to (filter : string) (qos : Z) (subs : list Subscription) : list Subscription :=
  match subs with
  | [] => [mkSub filter qos]
  | s :: subs =>
      if String.eqb (topic_filter s) filter
      then mkSub (topic_filter s) qos :: subs
      else s :: add_to filter qos subs
  end.

Definition add (client_id filter : string) (qos : Z) (m : SubscriptionManager)
  : SubscriptionManager :=
  mkSubs (<[client_id := add_to filter qos (default [] (subs_ m !! client_id))]> (subs_ m)).

Definition remove (client_id filter : string) (m : SubscriptionManager) : SubscriptionManager :=
  match subs_ m !! client_id with
  | None => m
  | Some subs =>
      let subs := base.filter (fun s => topic_filter s <> filter) subs in
      match subs with
      | [] => mkSubs (delete client_id (subs_ m))
      | _ => mkSubs (<[client_id := subs]> (subs_ m))
      end
  end.

Definition remove_client (client_id : string) (m : SubscriptionManager) : SubscriptionManager :=
  mkSubs (delete client_id (subs_ m)).

Definition get_client_subs (client_id : string) (m : SubscriptionManager) : list Subscription :=
  default [] (subs_ m !! client_id).

End SubscriptionManager.

(** ** Specification *)

(** The QoS a client has stored for a filter. *)
Definition stored_qos (client filter : string) (m : SubscriptionManager) : option Z :=
  sub_qos <$> list_find (fun s => topic_filter s = filter)
                (SubscriptionManager.get_client_subs client m) ≫= (fun p => Some p.2).

(** Every client has at most one subscription per filter, and a client with
    none has no entry. *)
Definition subs_wf (m : SubscriptionManager) : Prop :=
  forall c l, subs_ m !! c = Some l -> l <> [] /\ NoDup (topic_filter <$> l).

(** The operations, as messages to the component. *)
Inductive sub_op : Type :=
| Add (client_id filter : string) (qos : Z)
| Remove (client_id filter : string)
| RemoveClient (client_id : string).

Definition sub_step (o : sub_op) (m : SubscriptionManager) : SubscriptionManager :=
  match o with
  | Add c f q => SubscriptionManager.add c f q m
  | Remove c f => SubscriptionManager.remove c f m
  | RemoveClient c => SubscriptionManager.remove_client c m
  end.

Definition sub_run (ops : list sub_op) : SubscriptionManager :=
  foldl (fun m o => sub_step o m) SubscriptionManager.init ops.

(** The abstract operation on the two-level map. *)
Definition spec_step (o : sub_op) (q : string -> string -> option Z) (c f : string) : option Z :=
  match o with
  | Add c' f' qos => if decide (c' = c /\ f' = f) then Some qos else q c f
  | Remove c' f' => if decide (c' = c /\ f' = f) then None else q c f
  | RemoveClient c' => if decide (c' = c) then None else q c f
  end.

Definition spec_run (ops : list sub_op) : string -> string -> option Z :=
  foldl (fun q o => spec_step o q) (fun _ _ => None) ops.

(** ** Lemmas *)

Fixpoint find_qos (f : string) (l : list Subscription) : option Z :=
  match l with
  | [] => None
  | s :: l => if decide (topic_filter s = f) then Some (sub_qos s) else find_qos f l
  end.

Lemma stored_qos_find c f m :
  stored_qos c f m = find_qos f (SubscriptionManager.get_client_subs c m).
Proof.
  unfold stored_qos. induction (SubscriptionManager.get_client_subs c m) as [|s l IH]; [done|].
  cbn [list_find find_qos]. case_decide; [done|]. rewrite <- IH. by destruct (list_find _ l).
Qed.

Lemma find_qos_add_to f f' q l :
  find_qos f (SubscriptionManager.add_to f' q l) = if decide (f' = f) then Some q else find_qos f l.
Proof.
  induction l as [|s l IH]; cbn [SubscriptionManager.add_to find_qos]; simpl; [done|].
  destruct (String.eqb_spec (topic_filter s) f') as [E|E]; cbn [find_qos]; simpl.
  - subst. by case_decide.
  - rewrite IH. repeat case_decide; congruence.
Qed.

Lemma find_qos_filter f f' l :
  find_qos f (base.filter (fun s => topic_filter s <> f') l) =
    if decide (f' = f) then None else find_qos f l.
Proof.
  induction l as [|s l IH]; [by case_decide|].
  rewrite filter_cons. cbn [find_qos].
  destruct (decide (topic_filter s <> f')); cbn [find_qos]; rewrite IH; repeat case_decide; naive_solver.
Qed.

Lemma get_client_subs_remove c c' f m :
  SubscriptionManager.get_client_subs c (SubscriptionManager.remove c' f m) =
    if decide (c' = c)
    then base.filter (fun s => topic_filter s <> f) (SubscriptionManager.get_client_subs c m)
    else SubscriptionManager.get_client_subs c m.
Proof.
  unfold SubscriptionManager.get_client_subs, SubscriptionManager.remove.
  destruct (subs_ m !! c') as [l|] eqn:E.
  - destruct (base.filter _ l) as [|s l'] eqn:F; simpl; case_decide; subst.
    + rewrite lookup_delete_eq, E. simpl. by rewrite F.
    + by rewrite lookup_delete_ne.
    + rewrite lookup_insert_eq, E. simpl. by rewrite F.
    + by rewrite lookup_insert_ne.
  - case_decide; [|done]. subst. by rewrite E.
Qed.

Lemma stored_qos_step o m c f :
  stored_qos c f (sub_step o m) = spec_step o (fun c f => stored_qos c f m) c f.
Proof.
  destruct o as [c' f' q|c' f'|c']; cbn [sub_step spec_step]; rewrite !stored_qos_find.
  - unfold SubscriptionManager.get_client_subs at 1, SubscriptionManager.add. simpl.
    destruct (decide (c' = c)) as [->|Hc].
    + rewrite lookup_insert_eq. simpl. rewrite find_qos_add_to. repeat case_decide; naive_solver.
    + rewrite lookup_insert_ne by done. case_decide; naive_solver.
  - rewrite get_client_subs_remove. destruct (decide (c' = c)) as [->|Hc].
    + rewrite find_qos_filter. repeat case_decide; naive_solver.
    + case_decide; naive_solver.
  - unfold SubscriptionManager.get_client_subs, SubscriptionManager.remove_client. simpl.
    case_decide; subst; [by rewrite lookup_delete_eq | by rewrite lookup_delete_ne].
Qed.

Lemma spec_step_ext o q q' :
  (forall c f, q c f = q' c f) -> forall c f, spec_step o q c f = spec_step o q' c f.
Proof. intros H c f. destruct o; simpl; by rewrite H. Qed.

Lemma add_to_elem f f' q l :
  f ∈ topic_filter <$> SubscriptionManager.add_to f' q l <-> f = f' \/ f ∈ topic_filter <$> l.
Proof.
  induction l as [|s l IH]; cbn [SubscriptionManager.add_to]; [set_solver|].
  destruct (String.eqb_spec (topic_filter s) f') as [<-|E]; rewrite !fmap_cons, !elem_of_cons; simpl.
  - naive_solver.
  - rewrite IH. naive_solver.
Qed.

Lemma add_to_NoDup f q l :
  NoDup (topic_filter <$> l) -> NoDup (topic_filter <$> SubscriptionManager.add_to f q l).
Proof.
  induction l as [|s l IH]; cbn [SubscriptionManager.add_to].
  - intros _. apply NoDup_singleton.
  - rewrite fmap_cons, NoDup_cons. intros [Hs Hl].
    destruct (String.eqb_spec (topic_filter s) f) as [E|E]; rewrite fmap_cons, NoDup_cons.
    + done.
    + split; [|auto]. rewrite add_to_elem. naive_solver.
Qed.

Lemma subs_wf_step o m : subs_wf m -> subs_wf (sub_step o m).
Proof.
  intros Hwf c l. destruct o as [c' f' q|c' f'|c']; cbn [sub_step].
  - unfold SubscriptionManager.add. simpl. destruct (decide (c' = c)) as [->|Hc].
    + rewrite lookup_insert_eq. intros [= <-]. split.
      * destruct (default [] _); simpl; [done|]. by case_if.
      * apply add_to_NoDup. destruct (subs_ m !! c) eqn:E; simpl; [by eapply Hwf|].
        apply NoDup_nil_2.
    + rewrite lookup_insert_ne by done. apply Hwf.
  - unfold SubscriptionManager.remove. destruct (subs_ m !! c') as [l'|] eqn:E; [|apply Hwf].
    apply Hwf in E as [_ E].
    assert (NoDup (topic_filter <$> base.filter (fun s => topic_filter s <> f') l')).
    { eapply sublist_NoDup; [exact E|]. apply fmap_sublist, sublist_filter. }
    destruct (base.filter _ l') as [|s k] eqn:F; simpl.
    + intros H'. destruct (decide (c' = c)) as [->|Hc].
      * by rewrite lookup_delete_eq in H'.
      * rewrite lookup_delete_ne in H' by done. by apply (Hwf c).
    + destruct (decide (c' = c)) as [->|Hc].
      * rewrite lookup_insert_eq. by intros [= <-].
      * rewrite lookup_insert_ne by done. apply Hwf.
  - unfold SubscriptionManager.remove_client. simpl.
    intros H'. destruct (decide (c' = c)) as [->|Hc].
    + by rewrite lookup_delete_eq in H'.
    + rewrite lookup_delete_ne in H' by done. by apply (Hwf c).
Qed.

(** Induction over a run, from its last operation. *)
Lemma sub_run_snoc ops o : sub_run (ops ++ [o]) = sub_step o (sub_run ops).
Proof. unfold sub_run. by rewrite foldl_app. Qed.

Lemma spec_run_snoc ops o : spec_run (ops ++ [o]) = spec_step o (spec_run ops).
Proof. unfold spec_run. by rewrite foldl_app. Qed.

(** After any sequence of [add], [remove] and [remove_client] calls the
    stored subscriptions are those of the map client -> filter -> QoS the
    sequence describes, every client has at most one entry per filter, and no
    client keeps an empty entry. *)
Theorem subscription_manager_refines_map ops :
  (forall c f, stored_qos c f (sub_run ops) = spec_run ops c f) /\ subs_wf (sub_run ops).
Proof.
  induction ops as [|o ops [IHq IHw]] using rev_ind.
  - split; [done|]. intros c l. simpl. by rewrite lookup_empty.
  - rewrite sub_run_snoc, spec_run_snoc. split.
    + intros c f. rewrite stored_qos_step. by apply spec_step_ext.
    + by apply subs_wf_step.
Qed.
