(* ===== verification/Auth.v ===== *)
(** * Authentication and access control ([src/auth/])

    The abstract class [Authenticator] is a type class over the state of the
    implementation; its two implementations, [AllowAllAuthenticator] and
    [PgAuthenticator], are instances.  PostgreSQL, SHA-256 and the clock are
    not code of the repository: one call of an operation sees them through
    the answers collected in a [PgEnv]. *)

From Stdlib Require Import Strings.String Strings.Ascii ZArith Lia.
From stdpp Require Import base list strings numbers option gmap fin_maps.
From S2P Require Import Prelude Packet Filter.

Open Scope Z_scope.

(** ** [authenticator.h] *)

(** [enum class Access : uint8_t]: an octet, with four names. *)
Abbreviation Access := Z.

Module Access.
Definition NONE : Access := 0.
Definition READ : Access := 1.
Definition WRITE : Access := 2.
Definition READWRITE : Access := 3.
End Access.

Record AuthResult : Type := mkAuthResult {
  success : bool;
  reason : ConnackCode
}.

(** The virtual methods; [E] is what an implementation reads of the world
    outside the broker during a call. *)
Class Authenticator (E A : Type) : Type := {
  authenticate : E -> string -> string -> string -> M A AuthResult;
  check_acl : E -> string -> string -> Access -> M A Access
}.

(** ** [allow_all_authenticator.h] *)

Module AllowAllAuthenticator.

Definition authenticate {E} (_ : E) (client_id username password : string) : M unit AuthResult :=
  mret (mkAuthResult true ACCEPTED).

Definition check_acl {E} (_ : E) (username topic : string) (required : Access) : M unit Access :=
  mret Access.READWRITE.

End AllowAllAuthenticator.

#[export] Instance AllowAll_Authenticator E : Authenticator E unit := {
  authenticate := AllowAllAuthenticator.authenticate;
  check_acl := AllowAllAuthenticator.check_acl
}.

(** ** [pg_authenticator.h], [pg_authenticator.cpp] *)

(** What one call sees of libpqxx, OpenSSL and the steady clock.  [None] for a
    query is an exception; a row whose conversion ([as<...>()]) throws is a
    [None] in the result. *)
Record PgEnv : Type := mkPgEnv {
  pg_is_open : nat -> bool;
  (** the connection handle that [make_unique<pqxx::connection>] returns *)
  pg_connect : option nat;
  pg_select_client : string -> option (list (option (string * string)));
  pg_select_acls : string -> option (list (option (string * Z)));
  pg_commit : bool;
  pg_sha256 : list byte -> list byte;
  (** [steady_clock::now()], in nanoseconds, in [check_acl] and in [load_acl_rules] *)
  pg_now : Z;
  pg_now_load : Z
}.

Record PooledConnection : Type := mkPooled {
  conn : nat;
  in_use : bool
}.

Record AclCacheEntry : Type := mkAclCache {
  rules : list (string * Access);
  expiry : Z
}.

Record PgAuthenticator : Type := mkPg {
  pool_ : list PooledConnection;
  cache_ttl_ : Z;
  acl_cache_ : gmap string AclCacheEntry
}.

Definition set_pool (p : list PooledConnection) (a : PgAuthenticator) : PgAuthenticator :=
  mkPg p (cache_ttl_ a) (acl_cache_ a).

Definition set_acl_cache (c : gmap string AclCacheEntry) (a : PgAuthenticator) : PgAuthenticator :=
  mkPg (pool_ a) (cache_ttl_ a) c.

Module PgAuthenticator.

Section Calls.

Context (env : PgEnv).

(** The scan of [acquire]: the index of the first free connection and the
    pool with it marked; reconnecting a closed one may throw ([None]). *)
Fixpoint acquire_scan (pool : list PooledConnection)
  : option (option (nat * list PooledConnection)) :=
  match pool with
  | [] => Some None
  | pc :: pool =>
      if negb (in_use pc) then
        if negb (pg_is_open env (conn pc)) then
          match pg_connect env with
          | None => None
          | Some c => Some (Some (0%nat, mkPooled c true :: pool))
          end
        else Some (Some (0%nat, mkPooled (conn pc) true :: pool))
      else
        match acquire_scan pool with
        | None => None
        | Some None => Some None
        | Some (Some (i, pool)) => Some (Some (S i, pc :: pool))
        end
  end.

(** A [PooledConnection*] is an index into [pool_]; [None] is [nullptr]. *)
Definition acquire : M PgAuthenticator (option nat) := fun a =>
  match acquire_scan (pool_ a) with
  | None => (Throw broken_connection, a)
  | Some None => (Ret None, a)
  | Some (Some (i, pool)) => (Ret (Some i), set_pool pool a)
  end.

Definition release (pc : nat) : M PgAuthenticator unit :=
  modify (fun a => set_pool (alter (fun p => mkPooled (conn p) false) pc (pool_ a)) a).

Definition hex_digit (z : Z) : ascii :=
  ascii_of_nat (Z.to_nat (if z <? 10 then 48 + z else 87 + z)).

(** [std::hex << std::setw(2) << std::setfill('0')]. *)
Definition hex_byte (b : byte) : string :=
  let z := Z_of_byte b in
  String (hex_digit (Z.shiftr z 4)) (String (hex_digit (Z.land z 0x0F)) "").

Definition hash_password (password salt : string) : string :=
  let salted := (salt ++ password)%string in
  String.concat "" (map hex_byte (pg_sha256 env (string_bytes salted))).

(** [txn.commit()]. *)
Definition commit {S} : M S unit :=
  if pg_commit env then mret tt else throw broken_connection.

Definition refused : AuthResult := mkAuthResult false REFUSED_NOT_AUTHORIZED.

(** The body of the [try] block; [result] is assigned before the last commit,
    so the handler may find it assigned: the exceptional outcome carries it. *)
Definition authenticate_try (client_id password : string) : AuthResult * bool :=
  match pg_select_client env client_id with
  | None => (refused, false)
  | Some [] => (refused, pg_commit env)
  | Some (None :: _) => (refused, false)
  | Some (Some (stored_hash, salt) :: _) =>
      let computed_hash := hash_password password salt in
      let result :=
        if String.eqb computed_hash stored_hash then mkAuthResult true ACCEPTED else refused in
      (result, pg_commit env)
  end.

(** Both normal exits release the connection; the [catch] block returns
    without releasing it. *)
Definition authenticate (client_id username password : string)
  : M PgAuthenticator AuthResult :=
  pc ← acquire;
  match pc with
  | None => mret refused
  | Some pc =>
      let '(result, completed) := authenticate_try client_id password in
      if completed : bool then release pc;; mret result else mret result
  end.

(** The row loop of [load_acl_rules]: the rules before the first row whose
    conversion throws, and whether all rows were read. *)
Fixpoint collect_rules (rows : list (option (string * Z))) : list (string * Access) * bool :=
  match rows with
  | [] => ([], true)
  | None :: _ => ([], false)
  | Some (topic_filter, access_level) :: rows =>
      let '(rs, ok) := collect_rules rows in ((topic_filter, u8 access_level) :: rs, ok)
  end.

Definition load_acl_rules (username : string) : M PgAuthenticator AclCacheEntry :=
  pc ← acquire;
  match pc with
  | None => mret (mkAclCache [] 0)
  | Some pc =>
      let '(rs, ok) :=
        match pg_select_acls env username with
        | None => ([], false)
        | Some rows => let '(rs, ok) := collect_rules rows in (rs, ok && pg_commit env)
        end in
      release pc;;
      if negb ok then mret (mkAclCache rs 0)
      else
        ttl ← gets cache_ttl_;
        mret (mkAclCache rs (if 0 <? ttl then pg_now_load env + ttl * 10 ^ 9 else 0))
  end.

(** The loop over the rules: the greatest access level of a matching rule. *)
Definition rule_access (topic : string) (rs : list (string * Access)) : Access :=
  foldl (fun result '(topic_filter, acc) =>
           if topic.matches topic topic_filter then if result <? acc then acc else result
           else result) Access.NONE rs.

Definition current_rules (username : string) : M PgAuthenticator AclCacheEntry :=
  ttl ← gets cache_ttl_;
  if 0 <? ttl then
    cache ← gets acl_cache_;
    match cache !! username with
    | Some entry =>
        if pg_now env <? expiry entry then mret entry
        else
          entry ← load_acl_rules username;
          modify (fun a => set_acl_cache (<[username := entry]> (acl_cache_ a)) a);;
          mret entry
    | None =>
        entry ← load_acl_rules username;
        modify (fun a => set_acl_cache (<[username := entry]> (acl_cache_ a)) a);;
        mret entry
    end
  else load_acl_rules username.

Definition check_acl (username topic : string) (required : Access) : M PgAuthenticator Access :=
  entry ← current_rules username;
  let result := rule_access topic (rules entry) in
  if required <=? result then mret result else mret Access.NONE.

End Calls.

(** The constructor opens [pool_size] connections; any of them may throw. *)
Definition init (env : nat -> PgEnv) (pool_size cache_ttl : Z) : outcome PgAuthenticator :=
  match mapM (fun i => c ← pg_connect (env i); Some (mkPooled c false))
             (seq 0 (Z.to_nat pool_size)) with
  | Some pool => Ret (mkPg pool cache_ttl ∅)
  | None => Throw broken_connection
  end.

End PgAuthenticator.

#[export] Instance Pg_Authenticator : Authenticator PgEnv PgAuthenticator := {
  authenticate := PgAuthenticator.authenticate;
  check_acl := PgAuthenticator.check_acl
}.

(** ** Rules *)

Definition access_step (top : string) (result : Access) (r : string * Access) : Access :=
  if topic.matches top r.1 then if result <? r.2 then r.2 else result else result.

Lemma rule_access_ge top rs : forall r0 req,
  req <= foldl (access_step top) r0 rs <->
    req <= r0 \/ exists f acc, (f, acc) ∈ rs /\ topic.matches top f = true /\ req <= acc.
Proof.
  induction rs as [|[f acc] rs IH]; intros r0 req; simpl.
  - split; [by left|]. intros [H|(f & acc & H & _)]; [done|]. by apply elem_of_nil in H.
  - rewrite IH. setoid_rewrite elem_of_cons.
    assert (Hs : req <= access_step top r0 (f, acc) <->
                 req <= r0 \/ (topic.matches top f = true /\ req <= acc)).
    { unfold access_step. simpl. destruct (topic.matches top f); [|naive_solver].
      destruct (Z.ltb_spec r0 acc); split; try lia; intros [?|[_ ?]]; lia. }
    rewrite Hs. clear. naive_solver.
Qed.

Lemma rule_access_eq top rs :
  PgAuthenticator.rule_access top rs = foldl (access_step top) Access.NONE rs.
Proof.
  unfold PgAuthenticator.rule_access. generalize Access.NONE.
  induction rs as [|[f acc] rs IH]; intros r0; simpl; [done|]. by rewrite IH.
Qed.

(** A rule in force that lets the user at level [req] on the topic. *)
Definition granted (top : string) (req : Access) (rs : list (string * Access)) : Prop :=
  exists f acc, (f, acc) ∈ rs /\ topic.matches top f = true /\ req <= acc.

Lemma rule_access_granted top req rs :
  1 <= req -> req <= PgAuthenticator.rule_access top rs <-> granted top req rs.
Proof.
  intros Hr. rewrite rule_access_eq, rule_access_ge. unfold granted, Access.NONE.
  split; [intros [H|H]; [lia|done] | by right].
Qed.

(** ** The connection pool *)

Definition free_count (a : PgAuthenticator) : nat :=
  length (filter (fun p => in_use p = false) (pool_ a)).

Lemma acquire_scan_some env pool i pool' :
  PgAuthenticator.acquire_scan env pool = Some (Some (i, pool')) ->
  exists pc c, pool !! i = Some pc /\ in_use pc = false /\ pool' = <[i := mkPooled c true]> pool.
Proof.
  revert i pool'. induction pool as [|pc pool IH]; intros i pool'; simpl; [done|].
  destruct (in_use pc) eqn:Hu; simpl.
  - destruct (PgAuthenticator.acquire_scan env pool) as [[[j pool1]|]|]; [|done..].
    intros [= <- <-]. destruct (IH j pool1 eq_refl) as (pc' & c & Hj & Hf & ->).
    exists pc', c. done.
  - destruct (pg_is_open env (conn pc)); simpl.
    + intros [= <- <-]. exists pc, (conn pc). done.
    + destruct (pg_connect env) as [c|]; [|done]. intros [= <- <-]. exists pc, c. done.
Qed.

Lemma acquire_scan_none env pool :
  PgAuthenticator.acquire_scan env pool = Some None <-> filter (fun p => in_use p = false) pool = [].
Proof.
  induction pool as [|pc pool IH]; [done|]. cbn [PgAuthenticator.acquire_scan].
  destruct (in_use pc) eqn:Hu; cbn [negb].
  - rewrite filter_cons_False by congruence. rewrite <- IH.
    destruct (PgAuthenticator.acquire_scan env pool) as [[[j pool1]|]|]; naive_solver.
  - rewrite filter_cons_True by done.
    destruct (pg_is_open env (conn pc)); cbn [negb]; [naive_solver|].
    destruct (pg_connect env); naive_solver.
Qed.

Definition flags (a : PgAuthenticator) : list bool := in_use <$> pool_ a.

Lemma release_flags i a a' pc c :
  pool_ a !! i = Some pc -> in_use pc = false ->
  a' = set_pool (<[i := mkPooled c true]> (pool_ a)) a ->
  flags (PgAuthenticator.release i a').2 = flags a.
Proof.
  intros Hi Hf ->. unfold flags. simpl.
  assert (Hl : (i < length (pool_ a))%nat) by (by eapply lookup_lt_Some).
  apply list_eq. intros j. rewrite !list_lookup_fmap.
  destruct (decide (i = j)) as [<-|Hj].
  - rewrite list_lookup_alter_eq, list_lookup_insert_eq, Hi by done. simpl. by rewrite Hf.
  - by rewrite list_lookup_alter_ne, list_lookup_insert_ne.
Qed.

(** The three ways [acquire] ends. *)
Inductive acquired (a : PgAuthenticator) : outcome (option nat) * PgAuthenticator -> Prop :=
| acquired_some i pc c :
    pool_ a !! i = Some pc -> in_use pc = false ->
    acquired a (Ret (Some i), set_pool (<[i := mkPooled c true]> (pool_ a)) a)
| acquired_none : filter (fun p => in_use p = false) (pool_ a) = [] -> acquired a (Ret None, a)
| acquired_throw : acquired a (Throw broken_connection, a).

Lemma acquire_cases env a : acquired a (PgAuthenticator.acquire env a).
Proof.
  unfold PgAuthenticator.acquire.
  destruct (PgAuthenticator.acquire_scan env (pool_ a)) as [[[i pool]|]|] eqn:E.
  - apply acquire_scan_some in E as (pc & c & Hi & Hf & ->). by econstructor.
  - constructor. by apply (acquire_scan_none env).
  - constructor.
Qed.

Lemma load_acl_rules_flags env u a : flags (PgAuthenticator.load_acl_rules env u a).2 = flags a.
Proof.
  unfold PgAuthenticator.load_acl_rules, mbind, M_bind.
  destruct (acquire_cases env a) as [i pc c Hi Hf| |]; [|done..].
  destruct (match pg_select_acls env u with None => _ | Some _ => _ end) as [rs ok].
  pose proof (release_flags i a _ pc c Hi Hf eq_refl) as Hrel.
  destruct (PgAuthenticator.release i _) as [[[]| | |] a'] eqn:E; simpl in Hrel |- *; try done.
  by destruct ok.
Qed.

(** Both branches of [check_acl] that load the rules also cache them. *)
Lemma current_rules_cases env u a :
  (exists e, PgAuthenticator.current_rules env u a = (Ret e, a) /\ 0 < cache_ttl_ a /\
             acl_cache_ a !! u = Some e /\ pg_now env < expiry e) \/
  (PgAuthenticator.current_rules env u a).1 = (PgAuthenticator.load_acl_rules env u a).1 /\
  flags (PgAuthenticator.current_rules env u a).2 =
    flags (PgAuthenticator.load_acl_rules env u a).2.
Proof.
  unfold PgAuthenticator.current_rules, gets, modify, mbind, M_bind.
  destruct (Z.ltb_spec 0 (cache_ttl_ a)) as [Ht|]; [|by right].
  destruct (acl_cache_ a !! u) as [e|].
  - destruct (Z.ltb_spec (pg_now env) (expiry e)); [left; by eauto|]. right.
    by destruct (PgAuthenticator.load_acl_rules env u a) as [[e'| | |] a'].
  - right. by destruct (PgAuthenticator.load_acl_rules env u a) as [[e'| | |] a'].
Qed.

Lemma check_acl_bind env u top req a :
  PgAuthenticator.check_acl env u top req a =
    match PgAuthenticator.current_rules env u a with
    | (Ret e, a') =>
        (Ret (if req <=? PgAuthenticator.rule_access top (rules e)
              then PgAuthenticator.rule_access top (rules e) else Access.NONE), a')
    | (Throw e, a') => (Throw e, a')
    | (Deadlock, a') => (Deadlock, a')
    | (Undefined, a') => (Undefined, a')
    end.
Proof.
  unfold PgAuthenticator.check_acl, mbind, M_bind.
  destruct (PgAuthenticator.current_rules env u a) as [[e| | |] a']; try done. by case_if.
Qed.

Lemma check_acl_flags env u top req a :
  flags (PgAuthenticator.check_acl env u top req a).2 = flags a.
Proof.
  rewrite check_acl_bind. pose proof (load_acl_rules_flags env u a) as Hl.
  destruct (current_rules_cases env u a) as [(e & -> & _)|[_ Hf]]; [done|].
  rewrite Hl in Hf. by destruct (PgAuthenticator.current_rules env u a) as [[e| | |] a'].
Qed.

Lemma authenticate_flags env c u p a :
  (PgAuthenticator.authenticate_try env c p).2 = true ->
  flags (PgAuthenticator.authenticate env c u p a).2 = flags a.
Proof.
  unfold PgAuthenticator.authenticate, mbind, M_bind.
  destruct (PgAuthenticator.authenticate_try env c p) as [r ok]. simpl. intros ->.
  destruct (acquire_cases env a) as [i pc ci Hi Hf| |]; [|done..].
  by apply (release_flags i a _ pc ci).
Qed.

Lemma free_count_insert (pool : list PooledConnection) i pc c :
  pool !! i = Some pc -> in_use pc = false ->
  S (length (filter (fun p => in_use p = false) (<[i := mkPooled c true]> pool))) =
    length (filter (fun p => in_use p = false) pool).
Proof.
  revert i. induction pool as [|p pool IH]; intros [|i] Hi Hf; simplify_eq/=.
  - change (<[0%nat := mkPooled c true]> (pc :: pool)) with (mkPooled c true :: pool).
    rewrite filter_cons_False, filter_cons_True by done. done.
  - change (<[S i := mkPooled c true]> (p :: pool)) with (p :: <[i := mkPooled c true]> pool).
    destruct (decide (in_use p = false)) as [Hp|Hp];
      [rewrite !filter_cons_True by done | rewrite !filter_cons_False by done]; simpl;
      rewrite <- (IH i) by done; done.
Qed.

Lemma authenticate_exhausted env c u p a :
  free_count a = 0%nat ->
  PgAuthenticator.authenticate env c u p a = (Ret PgAuthenticator.refused, a).
Proof.
  intros H%length_zero_iff_nil. unfold PgAuthenticator.authenticate, PgAuthenticator.acquire.
  unfold mbind, M_bind. by rewrite (proj2 (acquire_scan_none env (pool_ a)) H).
Qed.

(** ** Calls with the database up *)

(** Some pooled connection is free, and every connection is open. *)
Definition ready (env : PgEnv) (a : PgAuthenticator) : Prop :=
  (forall c, pg_is_open env c = true) /\ (0 < free_count a)%nat.

Lemma acquire_ready env a :
  ready env a -> exists i pc,
    pool_ a !! i = Some pc /\ in_use pc = false /\
    PgAuthenticator.acquire env a =
      (Ret (Some i), set_pool (<[i := mkPooled (conn pc) true]> (pool_ a)) a).
Proof.
  intros [Ho Hf]. unfold PgAuthenticator.acquire, free_count in *.
  assert (H : exists i pc, pool_ a !! i = Some pc /\ in_use pc = false /\
    PgAuthenticator.acquire_scan env (pool_ a) =
      Some (Some (i, <[i := mkPooled (conn pc) true]> (pool_ a)))).
  { induction (pool_ a) as [|pc pool IH]; [simpl in Hf; lia|]. simpl.
    destruct (in_use pc) eqn:Hu; simpl.
    - rewrite filter_cons_False in Hf by congruence. destruct (IH Hf) as (i & pc' & Hi & Hpc & ->).
      by exists (S i), pc'.
    - rewrite Ho. simpl. by exists 0%nat, pc. }
  destruct H as (i & pc & Hi & Hpc & ->). by exists i, pc.
Qed.

Lemma collect_rules_complete rows :
  PgAuthenticator.collect_rules (Some <$> rows) = ((fun r => (r.1, u8 r.2)) <$> rows, true).
Proof.
  induction rows as [|[f acc] rows IH]; [done|].
  change (Some <$> (f, acc) :: rows) with (Some (f, acc) :: (Some <$> rows)). simpl. by rewrite IH.
Qed.

(** What the database holds for a user, as the rules in force. *)
Definition db_rules (rows : list (string * Z)) : list (string * Access) :=
  (fun r => (r.1, u8 r.2)) <$> rows.

Lemma load_acl_rules_ready env u a rows :
  ready env a -> pg_select_acls env u = Some (Some <$> rows) -> pg_commit env = true ->
  exists a', PgAuthenticator.load_acl_rules env u a =
    (Ret (mkAclCache (db_rules rows)
            (if 0 <? cache_ttl_ a then pg_now_load env + cache_ttl_ a * 10 ^ 9 else 0)), a') /\
    cache_ttl_ a' = cache_ttl_ a /\ acl_cache_ a' = acl_cache_ a.
Proof.
  intros Hr Hs Hc. destruct (acquire_ready env a Hr) as (i & pc & Hi & Hf & Ha).
  unfold PgAuthenticator.load_acl_rules, mbind, M_bind. rewrite Ha, Hs, collect_rules_complete, Hc.
  simpl. eexists. split; [done|]. done.
Qed.

(** The cached entry of the user is still in force. *)
Definition cache_fresh (env : PgEnv) (u : string) (a : PgAuthenticator) : Prop :=
  exists e, acl_cache_ a !! u = Some e /\ pg_now env < expiry e.

Lemma current_rules_ready env u a rows :
  ready env a -> pg_select_acls env u = Some (Some <$> rows) -> pg_commit env = true ->
  ~ cache_fresh env u a ->
  exists a', PgAuthenticator.current_rules env u a =
    (Ret (mkAclCache (db_rules rows)
            (if 0 <? cache_ttl_ a then pg_now_load env + cache_ttl_ a * 10 ^ 9 else 0)), a') /\
    cache_ttl_ a' = cache_ttl_ a /\
    (0 < cache_ttl_ a ->
     acl_cache_ a' !! u =
       Some (mkAclCache (db_rules rows) (pg_now_load env + cache_ttl_ a * 10 ^ 9))).
Proof.
  intros Hr Hs Hc Hn. destruct (load_acl_rules_ready env u a rows Hr Hs Hc) as (a' & Hl & Ht & _).
  unfold PgAuthenticator.current_rules, gets, modify, mbind, M_bind.
  destruct (Z.ltb_spec 0 (cache_ttl_ a)) as [Hp|Hp].
  - destruct (acl_cache_ a !! u) as [e|] eqn:E.
    + destruct (Z.ltb_spec (pg_now env) (expiry e)) as [Hx|Hx]; [by exfalso; apply Hn; exists e|].
      rewrite Hl. eexists. split; [done|]. split; [done|]. intros _. apply lookup_insert_eq.
    + rewrite Hl. eexists. split; [done|]. split; [done|]. intros _. apply lookup_insert_eq.
  - rewrite Hl. exists a'. split; [done|]. split; [done|]. lia.
Qed.

Lemma check_result_granted top req rs :
  1 <= req ->
  (if req <=? PgAuthenticator.rule_access top rs
   then PgAuthenticator.rule_access top rs else Access.NONE) <> Access.NONE <-> granted top req rs.
Proof.
  intros Hr. rewrite <- rule_access_granted by done. unfold Access.NONE.
  destruct (Z.leb_spec req (PgAuthenticator.rule_access top rs)); lia.
Qed.

(** ** Properties *)

(** [C25] With the database up and no cached entry in force, [check_acl]
    grants access exactly when some row of the user's ACL matches the topic
    with at least the required level, so that a WRITE row also grants READ; for the cache's lifetime every further
    check of that user, whatever the database then holds or whether it is
    reachable at all, decides by the same rows. *)
Theorem acl_decision env u a rows top req :
  1 <= req -> ready env a ->
  pg_select_acls env u = Some (Some <$> rows) -> pg_commit env = true ->
  ~ cache_fresh env u a ->
  exists r a', PgAuthenticator.check_acl env u top req a = (Ret r, a') /\
    (r <> Access.NONE <-> granted top req (db_rules rows)) /\
    (forall env' top' req',
       0 < cache_ttl_ a -> pg_now env' < pg_now_load env + cache_ttl_ a * 10 ^ 9 -> 1 <= req' ->
       exists r', PgAuthenticator.check_acl env' u top' req' a' = (Ret r', a') /\
         (r' <> Access.NONE <-> granted top' req' (db_rules rows))).
Proof.
  intros Hq Hr Hs Hc Hn.
  destruct (current_rules_ready env u a rows Hr Hs Hc Hn) as (a' & Hcur & Ht & Hcache).
  rewrite check_acl_bind, Hcur. eexists _, a'. split; [done|].
  split; [by apply check_result_granted|].
  intros env' top' req' Hpos Hnow Hq'. rewrite check_acl_bind.
  unfold PgAuthenticator.current_rules, gets, mbind, M_bind.
  rewrite Ht, (proj2 (Z.ltb_lt _ _) Hpos), (Hcache Hpos). simpl.
  rewrite (proj2 (Z.ltb_lt _ _) Hnow). eexists. split; [done|]. by apply check_result_granted.
Qed.

(** A database with one client and one ACL row, for the witnesses. *)
Definition demo_env (commit_ok : bool) : PgEnv :=
  mkPgEnv (fun _ => true) (Some 0%nat)
    (fun c => if String.eqb c "dev" then Some [Some ("ab", "")%string] else Some [])
    (fun u => if String.eqb u "joe" then Some [Some ("home/+"%string, 2)] else Some [])
    commit_ok (fun _ => [Byte.xab]) 5 5.

Definition demo_pg : PgAuthenticator := mkPg [mkPooled 0 false] 60 ∅.

Lemma acl_decision_witness :
  exists r a', PgAuthenticator.check_acl (demo_env true) "joe" "home/x" Access.WRITE demo_pg = (Ret r, a') /\
    (r <> Access.NONE <-> granted "home/x" Access.WRITE (db_rules [("home/+"%string, 2)])).
Proof.
  destruct (acl_decision (demo_env true) "joe" demo_pg [("home/+"%string, 2)] "home/x" Access.WRITE)
    as (r & a' & H & Hg & _).
  - unfold Access.WRITE. lia.
  - split; [done|]. vm_compute. lia.
  - reflexivity.
  - reflexivity.
  - intros (e & He & _). vm_compute in He. discriminate.
  - exists r, a'. split; [exact H | exact Hg].
Defined.

(** A write-only rule grants reading: levels are compared as numbers
    ([WRITE = 2 >= READ = 1]), so whoever may publish to a topic may
    subscribe to it. *)
Theorem write_rule_grants_read env u top a r a' :
  PgAuthenticator.check_acl env u top Access.WRITE a = (Ret r, a') -> r <> Access.NONE ->
  PgAuthenticator.check_acl env u top Access.READ a = (Ret r, a').
Proof.
  rewrite !check_acl_bind. destruct (PgAuthenticator.current_rules env u a) as [[e| | |] b]; try done.
  intros [= <- <-] Hn. unfold Access.READ, Access.WRITE, Access.NONE in *.
  destruct (Z.leb_spec 2 (PgAuthenticator.rule_access top (rules e))); [|done].
  by rewrite_test (1 <=? PgAuthenticator.rule_access top (rules e)) true.
Qed.

Lemma write_rule_grants_read_witness :
  exists a', PgAuthenticator.check_acl (demo_env true) "joe" "home/x" Access.READ demo_pg =
    (Ret Access.WRITE, a').
Proof.
  eexists. apply (write_rule_grants_read (demo_env true) "joe" "home/x"); [vm_compute; reflexivity|].
  unfold Access.WRITE, Access.NONE. lia.
Defined.

(** [C36] With a connection available, the query answered and the commit done, [authenticate]
    accepts exactly the clients whose stored hash is the hex SHA-256 of salt
    and password, refuses all others with the same code, and gives the
    connection back; the user name plays no role. *)
Theorem authenticate_decision env c u p a rows :
  ready env a -> pg_select_client env c = Some (Some <$> rows) -> pg_commit env = true ->
  exists r a', PgAuthenticator.authenticate env c u p a = (Ret r, a') /\
    flags a' = flags a /\
    (success r = true <->
       exists h salt, head rows = Some (h, salt) /\ PgAuthenticator.hash_password env p salt = h) /\
    reason r = (if success r then ACCEPTED else REFUSED_NOT_AUTHORIZED) /\
    (forall u', PgAuthenticator.authenticate env c u' p a = (Ret r, a')).
Proof.
  intros Hr Hs Hc.
  assert (Ht : (PgAuthenticator.authenticate_try env c p).2 = true).
  { unfold PgAuthenticator.authenticate_try. rewrite Hs. destruct rows as [|[h salt] rows]; done. }
  pose proof (authenticate_flags env c u p a Ht) as Hf. revert Hf.
  destruct (acquire_ready env a Hr) as (i & pc & Hi & Hp & Ha).
  unfold PgAuthenticator.authenticate, mbind, M_bind. rewrite Ha.
  destruct (PgAuthenticator.authenticate_try env c p) as [r ok] eqn:E. simpl in Ht. subst ok.
  simpl. intros Hf. eexists r, _. split; [done|]. split; [exact Hf|]. clear Hf.
  unfold PgAuthenticator.authenticate_try in E. rewrite Hs, Hc in E.
  destruct rows as [|[h salt] rows]; simpl in E; injection E as <-; simpl.
  - split; [|done]. split; [done|]. by intros (h & salt & H & _).
  - destruct (String.eqb_spec (PgAuthenticator.hash_password env p salt) h) as [Hh|Hh]; simpl;
      (split; [|done]); split; try done.
    + intros _. by exists h, salt.
    + intros (h' & salt' & [= <- <-] & H). done.
Qed.

Lemma authenticate_decision_witness :
  exists r a', PgAuthenticator.authenticate (demo_env true) "dev" "joe" "secret" demo_pg = (Ret r, a') /\
    success r = true.
Proof.
  destruct (authenticate_decision (demo_env true) "dev" "joe" "secret" demo_pg [("ab", "")%string])
    as (r & a' & H & _ & Hs & _).
  - split; [done|]. vm_compute. lia.
  - reflexivity.
  - reflexivity.
  - exists r, a'. split; [exact H|]. apply Hs. exists "ab"%string, ""%string. split; reflexivity.
Defined.

(** Connections leak: [check_acl] and every [authenticate] whose
    transaction completes leave the pool's flags unchanged, but one whose
    query or commit throws keeps its connection marked in use for ever, so
    that after as many such calls as there are free connections every client
    is refused, whatever the database then answers. *)
Theorem pool_leak a :
  (forall env u top req, flags (PgAuthenticator.check_acl env u top req a).2 = flags a) /\
  (forall env c u p, (PgAuthenticator.authenticate_try env c p).2 = true ->
     flags (PgAuthenticator.authenticate env c u p a).2 = flags a) /\
  (forall env c u p, ready env a -> (PgAuthenticator.authenticate_try env c p).2 = false ->
     S (free_count (PgAuthenticator.authenticate env c u p a).2) = free_count a) /\
  (free_count a = 0%nat -> forall env c u p,
     PgAuthenticator.authenticate env c u p a = (Ret PgAuthenticator.refused, a)).
Proof.
  split; [intros; apply check_acl_flags|]. split; [intros; by apply authenticate_flags|]. split.
  - intros env c u p Hr Ht. destruct (acquire_ready env a Hr) as (i & pc & Hi & Hp & Ha).
    unfold PgAuthenticator.authenticate, mbind, M_bind. rewrite Ha.
    destruct (PgAuthenticator.authenticate_try env c p) as [r ok]. simpl in Ht. subst ok. simpl.
    unfold free_count. simpl. by eapply free_count_insert.
  - intros. by apply authenticate_exhausted.
Qed.

Lemma pool_leak_witness :
  PgAuthenticator.authenticate (demo_env true) "dev" "joe" "secret"
    (PgAuthenticator.authenticate (demo_env false) "dev" "joe" "secret" demo_pg).2 =
  (Ret PgAuthenticator.refused,
   (PgAuthenticator.authenticate (demo_env false) "dev" "joe" "secret" demo_pg).2).
Proof. apply pool_leak. vm_compute. reflexivity. Defined.
