(* ===== verification/Timer.v ===== *)
(** * One-shot timers ([src/utils/timer.h], [src/utils/timer.cpp])

    [Timer] wraps a [boost::asio::steady_timer].  Of asio the model keeps the
    outstanding [async_wait] handlers: one that waits, one whose time has come
    and which is queued to run without error, one that was cancelled and is
    queued to run with [operation_aborted].  As documented for
    [basic_waitable_timer], [cancel] and [expires_after] abort the waiting
    handlers and cannot recall the queued ones. *)

From Stdlib Require Import ZArith Lia.
From stdpp Require Import base list numbers option.
From S2P Require Import Prelude.

Open Scope Z_scope.

Inductive wait : Type := Waiting | Expired | Aborted.

#[export] Instance wait_eq_dec : EqDecision wait.
Proof. solve_decision. Defined.

(** The type of callbacks is [C]. *)
Record Timer (C : Type) : Type := mkTimer {
  callback_ : option C;
  duration_ : Z;
  active_ : bool;
  waits : list wait
}.
Arguments mkTimer {C}.
Arguments callback_ {C}.
Arguments duration_ {C}.
Arguments active_ {C}.
Arguments waits {C}.

(** [steady_timer::cancel] on the outstanding handlers. *)
Definition abort_wait (w : wait) : wait := match w with Waiting => Aborted | _ => w end.
Definition abort_waits (l : list wait) : list wait := abort_wait <$> l.

Module Timer.

Section Operations.

Context {C : Type}.
Implicit Types t : Timer C.

Definition init : Timer C := mkTimer None 0 false [].

Definition cancel t : Timer C :=
  mkTimer (callback_ t) (duration_ t) false (abort_waits (waits t)).

(** [expires_after] and [async_wait]. *)
Definition rearm t : Timer C :=
  mkTimer (callback_ t) (duration_ t) (active_ t) (abort_waits (waits t) ++ [Waiting]).

Definition start (duration : Z) (callback : C) t : Timer C :=
  let t := cancel t in
  rearm (mkTimer (Some callback) duration true (waits t)).

Definition reset t : Timer C :=
  if active_ t && (0 <? duration_ t) then rearm t else t.

Definition expired t : bool := negb (active_ t).

(** [on_tick]: the callback it calls, if any. *)
Definition on_tick (ec : wait) t : option C * Timer C :=
  if bool_decide (ec = Aborted) || negb (active_ t) then (None, t)
  else (callback_ t, mkTimer (callback_ t) (duration_ t) false (waits t)).

End Operations.

End Timer.

(** ** Runs

    What can happen to a timer: the member functions, the passing of time for
    a waiting handler, and the execution of a queued handler. *)
Inductive timer_event (C : Type) : Type :=
| EStart (duration : Z) (callback : C)
| ECancel
| EReset
| EExpire (i : nat)
| ERun (i : nat).
Arguments EStart {C}.
Arguments ECancel {C}.
Arguments EReset {C}.
Arguments EExpire {C}.
Arguments ERun {C}.

Section Runs.

Context {C : Type}.

Definition set_waits (l : list wait) (t : Timer C) : Timer C :=
  mkTimer (callback_ t) (duration_ t) (active_ t) l.

Definition timer_step (e : timer_event C) (t : Timer C) : option C * Timer C :=
  match e with
  | EStart d cb => (None, Timer.start d cb t)
  | ECancel => (None, Timer.cancel t)
  | EReset => (None, Timer.reset t)
  | EExpire i =>
      if decide (waits t !! i = Some Waiting)
      then (None, set_waits (<[i := Expired]> (waits t)) t) else (None, t)
  | ERun i =>
      match waits t !! i with
      | Some Waiting | None => (None, t)
      | Some ec => Timer.on_tick ec (set_waits (delete i (waits t)) t)
      end
  end.

(** The callbacks a sequence of events runs, and the timer it leaves. *)
Fixpoint timer_run (es : list (timer_event C)) (t : Timer C) : list C * Timer C :=
  match es with
  | [] => ([], t)
  | e :: es =>
      let '(fired, t) := timer_step e t in
      let '(rest, t) := timer_run es t in (option_list fired ++ rest, t)
  end.

Definition is_start (e : timer_event C) : bool := match e with EStart _ _ => true | _ => false end.

Definition starts (es : list (timer_event C)) : nat := length (filter is_start es).

Definition armed (t : Timer C) : nat := if active_ t then 1 else 0.

(** Every step pays for a callback with the flag a [start] has set. *)
Lemma timer_step_budget e t :
  (length (option_list (timer_step e t).1) + armed (timer_step e t).2 <=
   armed t + if is_start e then 1 else 0)%nat.
Proof.
  unfold armed. destruct e as [d cb| | |i|i]; simpl.
  - lia.
  - lia.
  - unfold Timer.reset. destruct (active_ t && (0 <? duration_ t)); simpl; lia.
  - case_decide; simpl; lia.
  - destruct (waits t !! i) as [[]|]; simpl; try lia; unfold Timer.on_tick; simpl active_;
      destruct (active_ t) eqn:Ha; rewrite ?orb_true_r; simpl; rewrite ?Ha; try lia;
      destruct (callback_ t); simpl; lia.
Qed.

Lemma timer_run_budget es : forall t,
  (length (timer_run es t).1 + armed (timer_run es t).2 <= armed t + starts es)%nat.
Proof.
  induction es as [|e es IH]; intros t; [unfold starts; simpl; lia|].
  cbn [timer_run]. pose proof (timer_step_budget e t) as Hs.
  destruct (timer_step e t) as [fired t']. specialize (IH t').
  destruct (timer_run es t') as [rest t'']. simpl in *. rewrite length_app.
  assert (starts (e :: es) = (if is_start e then 1 else 0) + starts es)%nat as ->; [|lia].
  unfold starts. destruct (is_start e) eqn:E.
  - rewrite filter_cons_True; [simpl; lia|]. rewrite E. first [exact I | intros [] | discriminate | done].
  - rewrite filter_cons_False; [simpl; lia|]. rewrite E. first [exact I | intros [] | discriminate | done].
Qed.

(** [C37] A timer runs its callback at most once per [start], and not at all
    once cancelled: in any interleaving of member calls, expiries and queued
    handlers the callbacks run are at most the [start]s (plus one when the
    timer was already active), so a cancelled timer that is not started again
    stays silent although handlers may still be queued. *)
Theorem timer_fires_at_most_once (es : list (timer_event C)) (t : Timer C) :
  (length (timer_run es t).1 <= starts es + if active_ t then 1 else 0)%nat /\
  (starts es = 0%nat -> (timer_run es (Timer.cancel t)).1 = []).
Proof.
  split.
  - pose proof (timer_run_budget es t). unfold armed in *. lia.
  - intros Hs. pose proof (timer_run_budget es (Timer.cancel t)) as H. rewrite Hs in H.
    unfold armed at 2 in H. simpl in H. destruct (timer_run es (Timer.cancel t)).1; [done|simpl in H; lia].
Qed.

(** A handler that waits on an active timer. *)
Lemma lookup_rearmed (l : list wait) : (abort_waits l ++ [Waiting]) !! length l = Some Waiting.
Proof.
  rewrite lookup_app_r by (unfold abort_waits; rewrite length_fmap; lia).
  unfold abort_waits. rewrite length_fmap, Nat.sub_diag. done.
Qed.

(** The execution of an expired handler of an active timer. *)
Lemma run_expired (t : Timer C) i :
  active_ t = true -> waits t !! i = Some Expired -> (timer_step (ERun i) t).1 = callback_ t.
Proof. intros Ha Hi. cbn [timer_step]. rewrite Hi. unfold Timer.on_tick. simpl. by rewrite Ha. Qed.

Lemma reset_expired (t : Timer C) i :
  waits t !! i = Some Expired -> waits (Timer.reset t) !! i = Some Expired.
Proof.
  intros Hi. unfold Timer.reset. destruct (active_ t && (0 <? duration_ t)); [|done]. simpl.
  rewrite lookup_app_l.
  - unfold abort_waits. by rewrite list_lookup_fmap, Hi.
  - unfold abort_waits. rewrite length_fmap. by eapply lookup_lt_Some.
Qed.

Lemma reset_fields (t : Timer C) :
  active_ (Timer.reset t) = active_ t /\ callback_ (Timer.reset t) = callback_ t.
Proof. unfold Timer.reset. by destruct (active_ t && (0 <? duration_ t)). Qed.

(** Liveness and the reset race: after [start] the expiry of its handler
    and its execution run the callback; a handler that has already expired
    runs it even when [reset] comes first, so [reset] prolongs only a timer
    that has not run out. *)
Theorem timer_fires (d : Z) (cb : C) (t : Timer C) :
  let i := length (waits t) in
  (timer_run [EExpire i; ERun i] (Timer.start d cb t)).1 = [cb] /\
  (timer_run [EExpire i; EReset; ERun i] (Timer.start d cb t)).1 = [cb].
Proof.
  intros i. set (s := Timer.start d cb t).
  assert (Hw : waits s !! i = Some Waiting).
  { unfold i. rewrite <- (length_fmap abort_wait (waits t)). apply lookup_rearmed. }
  set (x := set_waits (<[i := Expired]> (waits s)) s).
  assert (Hx : waits x !! i = Some Expired)
    by (apply list_lookup_insert_eq; by eapply lookup_lt_Some).
  assert (He : timer_step (EExpire i) s = (None, x)) by (cbn [timer_step]; by rewrite decide_True).
  split; cbn [timer_run]; rewrite He.
  - pose proof (run_expired x i eq_refl Hx) as H. destruct (timer_step (ERun i) x) as [o t']; simpl in *.
    by rewrite H.
  - change (timer_step EReset x) with (@None C, Timer.reset x).
    destruct (reset_fields x) as [Ha Hc].
    pose proof (run_expired (Timer.reset x) i Ha (reset_expired x i Hx)) as H.
    destruct (timer_step (ERun i) (Timer.reset x)) as [o t']; simpl in *.
    by rewrite H, Hc.
Qed.

End Runs.

Lemma timer_fires_at_most_once_witness :
  (timer_run [EExpire 0; ERun 0; EReset; ERun 0] (Timer.cancel (Timer.start 5 tt Timer.init))).1 = [].
Proof. apply (timer_fires_at_most_once _ (Timer.start 5 tt Timer.init)). reflexivity. Defined.
