(* ===== verification/Qos.v ===== *)
(** * Common parts of the QoS handlers ([src/qos/])

    What the handlers see of the sessions, the packets they hand to
    [Session::deliver], and the allocation of packet identifiers, which
    [qos1.cpp] and [qos2.cpp] implement with the same code. *)

From Stdlib Require Import Strings.String ZArith Lia.
From stdpp Require Import base list strings numbers option gmap fin_maps sets.
From S2P Require Import Prelude Config Buffer Packet Filter TopicTree.

Open Scope Z_scope.

(** What a handler reads of the [Session] objects: whether a [weak_ptr] to
    one still locks, its client id, and its [connected] flag. *)
Record SessionView : Type := mkView {
  view_alive : session_id -> bool;
  view_client_id : session_id -> string;
  view_connected : session_id -> bool
}.

(** [session->deliver(packet)], in order.  [deliver] changes neither the
    handler nor what the handler reads afterwards, so the calls are collected
    and carried out by the session layer. *)
Abbreviation delivery := (session_id * Buffer)%type.

(** A handler operation: the new handler state and the packets it sends. *)
Definition sender (H : Type) : Type := H -> H * list delivery.

Fixpoint send_each {H E} (l : list E) (f : E -> sender H) : sender H := fun h =>
  match l with
  | [] => (h, [])
  | x :: l =>
      let '(h, out) := f x h in
      let '(h, outs) := send_each l f h in (h, out ++ outs)
  end.

(** The subscribers whose session still exists, in order. *)
Definition live (v : SessionView) (l : list SubscriberEntry) : list session_id :=
  omap (fun e => TopicTree.lock (view_alive v) (entry_session e)) l.

(** ** Packet identifiers *)

(** [next_packet_id++; if (next_packet_id == 0) next_packet_id = 1;]. *)
Definition next_id (n : Z) : Z := let n := u16 (n + 1) in if n =? 0 then 1 else n.

(** The [while] loop: the first free identifier from [next] on, or [None]
    when it is back at [start]. *)
Fixpoint allocate_loop (fuel : nat) (start next : Z) (in_use : gset Z) : option Z :=
  match fuel with
  | O => None
  | S fuel =>
      if decide (next ∈ in_use) then
        let next := next_id next in
        if next =? start then None else allocate_loop fuel start next in_use
      else Some next
  end.

(** There are 65535 identifiers: the loop is back at its start after as many rounds. *)
Definition id_fuel : nat := Z.to_nat 65535.

(** [allocate_packet_id]: the identifier (0 when exhausted), the next value of
    [next_packet_id] and of [in_use]. *)
Definition allocate (next : Z) (in_use : gset Z) : Z * Z * gset Z :=
  match allocate_loop id_fuel next next in_use with
  | None => (0, next, in_use)
  | Some pid => (pid, next_id pid, {[pid]} ∪ in_use)
  end.

Definition valid_id (n : Z) : Prop := 1 <= n <= 65535.

(** The identifiers in use are valid, and so is the next candidate. *)
Definition ids_wf (next : Z) (in_use : gset Z) : Prop :=
  valid_id next /\ set_Forall valid_id in_use.

Lemma next_id_valid n : valid_id n -> next_id n = if n =? 65535 then 1 else n + 1.
Proof.
  unfold valid_id, next_id. intros H. destruct (Z.eqb_spec n 65535) as [->|]; [done|].
  rewrite u16_small by lia. by rewrite_test (n + 1 =? 0) false.
Qed.

Lemma next_id_range n : valid_id n -> valid_id (next_id n).
Proof. intros H. rewrite next_id_valid by done. unfold valid_id in *. case_if; tests_to_props; lia. Qed.

(** The candidate [k] rounds after [n]. *)
Definition candidate (n : Z) (k : Z) : Z := (n - 1 + k) mod 65535 + 1.

Lemma candidate_0 n : valid_id n -> candidate n 0 = n.
Proof. unfold valid_id, candidate. intros H. rewrite Z.mod_small; lia. Qed.

Lemma next_id_candidate n k : valid_id n -> 0 <= k -> next_id (candidate n k) = candidate n (k + 1).
Proof.
  intros Hn Hk. assert (Hv : valid_id (candidate n k)).
  { unfold candidate, valid_id in *. pose proof (Z.mod_pos_bound (n - 1 + k) 65535 ltac:(lia)). lia. }
  rewrite next_id_valid by done. unfold candidate, valid_id in *.
  pose proof (Z.div_mod (n - 1 + k) 65535 ltac:(lia)) as E.
  set (q := (n - 1 + k) / 65535) in *. set (r := (n - 1 + k) mod 65535) in *.
  destruct (Z.eqb_spec (r + 1) 65535).
  - replace (n - 1 + (k + 1)) with ((q + 1) * 65535) by lia. rewrite Z.mod_mul; lia.
  - replace (n - 1 + (k + 1)) with (r + 1 + q * 65535) by lia.
    rewrite Z.mod_add, Z.mod_small by lia. lia.
Qed.

Lemma candidate_surj n m : valid_id n -> valid_id m -> exists k, 0 <= k < 65535 /\ candidate n k = m.
Proof.
  unfold valid_id, candidate. intros Hn Hm. exists ((m - n) mod 65535).
  pose proof (Z.mod_pos_bound (m - n) 65535 ltac:(lia)). split; [done|].
  rewrite Zplus_mod_idemp_r. replace (n - 1 + (m - n)) with (m - 1) by lia.
  rewrite Z.mod_small; lia.
Qed.

Lemma candidate_back n k : valid_id n -> 0 < k <= 65535 -> candidate n k = n <-> k = 65535.
Proof.
  unfold valid_id, candidate. intros Hn Hk. split; [|intros ->].
  - intros E. assert (Hm : (n - 1 + k) mod 65535 = n - 1) by lia.
    pose proof (Z.div_mod (n - 1 + k) 65535 ltac:(lia)) as D. rewrite Hm in D. nia.
  - replace (n - 1 + 65535) with (n - 1 + 1 * 65535) by lia. rewrite Z.mod_add, Z.mod_small; lia.
Qed.

(** The loop from round [k], all earlier candidates being in use. *)
Lemma allocate_loop_spec n used fuel : forall k,
  valid_id n -> 0 <= k < 65535 -> 65535 - k <= Z.of_nat fuel ->
  (forall j, 0 <= j < k -> candidate n j ∈ used) ->
  match allocate_loop fuel n (candidate n k) used with
  | Some pid => valid_id pid /\ pid ∉ used
  | None => forall pid, valid_id pid -> pid ∈ used
  end.
Proof.
  induction fuel as [|fuel IH]; intros k Hn Hk Hf Hu; [simpl in Hf; lia|]. cbn [allocate_loop].
  case_decide as Hin.
  - rewrite next_id_candidate by (done || lia).
    assert (Hu' : forall j, 0 <= j < k + 1 -> candidate n j ∈ used).
    { intros j Hj. destruct (Z.eq_dec j k) as [->|]; [done|]. apply Hu. lia. }
    destruct (Z.eqb_spec (candidate n (k + 1)) n) as [E|E].
    + apply candidate_back in E; [|done|lia]. intros pid Hp.
      destruct (candidate_surj n pid Hn Hp) as (j & Hj & <-). apply Hu'. lia.
    + assert (k + 1 <> 65535) by (intros C; apply E, candidate_back; [done|lia|done]).
      apply IH; [done|lia|lia|done].
  - split; [|done]. unfold candidate, valid_id.
    pose proof (Z.mod_pos_bound (n - 1 + k) 65535 ltac:(lia)). lia.
Qed.

Lemma allocate_spec next used :
  ids_wf next used ->
  match allocate next used with
  | (pid, next', used') =>
      ids_wf next' used' /\
      ((valid_id pid /\ pid ∉ used /\ used' = {[pid]} ∪ used) \/
       (pid = 0 /\ used' = used /\ forall q, valid_id q -> q ∈ used))
  end.
Proof.
  intros [Hn Hu]. unfold allocate.
  pose proof (allocate_loop_spec next used id_fuel 0 Hn) as H.
  rewrite candidate_0 in H by done.
  destruct (allocate_loop id_fuel next next used) as [pid|].
  - destruct H as [Hp Hf]; [lia | unfold id_fuel; lia | lia |]. split; [|by left].
    split; [by apply next_id_range|].
    apply set_Forall_union; [by apply set_Forall_singleton | done].
  - split; [done|]. right. split; [done|]. split; [done|].
    apply H; [lia | unfold id_fuel; lia | lia].
Qed.

(** The set of all identifiers. *)
Lemma ids_bound (used : gset Z) : set_Forall valid_id used -> (size used <= id_fuel)%nat.
Proof.
  intros H. unfold id_fuel. rewrite <- (length_seqZ 1 65535).
  rewrite <- (size_list_to_set (C := gset Z) (seqZ 1 65535)) by apply NoDup_seqZ.
  apply subseteq_size. intros x Hx. apply elem_of_list_to_set, elem_of_seqZ.
  apply H in Hx. unfold valid_id in Hx. lia.
Qed.

Lemma ids_exhausted (used : gset Z) :
  (forall q, valid_id q -> q ∈ used) -> (id_fuel <= size used)%nat.
Proof.
  intros H. unfold id_fuel. rewrite <- (length_seqZ 1 65535).
  rewrite <- (size_list_to_set (C := gset Z) (seqZ 1 65535)) by apply NoDup_seqZ.
  apply subseteq_size. intros x Hx. apply H.
  apply elem_of_list_to_set, elem_of_seqZ in Hx. unfold valid_id. lia.
Qed.

#[global] Opaque id_fuel.

(** [C24] Packet identifiers: the search terminates and returns an identifier
    in 1..65535 that is not in flight, recording it, or 0 exactly when all
    65535 are in flight; the wrap-around of the 16-bit counter never yields 0. *)
Theorem allocate_fresh next used :
  ids_wf next used ->
  let '(pid, next', used') := allocate next used in
  ids_wf next' used' /\
  (pid <> 0 -> valid_id pid /\ pid ∉ used /\ used' = {[pid]} ∪ used) /\
  (pid = 0 <-> forall q, valid_id q -> q ∈ used).
Proof.
  intros H. pose proof (allocate_spec next used H) as Ha.
  destruct (allocate next used) as [[pid next'] used'].
  destruct Ha as [Hw [(Hv & Hf & ->)|(-> & -> & Hall)]]; (split; [done|]); split.
  - done.
  - split; [intros ->; unfold valid_id in Hv; lia|]. intros Hq. by specialize (Hq pid Hv).
  - done.
  - done.
Qed.

Lemma allocate_fresh_witness :
  exists next' used', allocate 65535 {[65535]} = (1, next', used') /\ ids_wf next' used'.
Proof.
  pose proof (allocate_fresh 65535 {[65535]}) as H.
  destruct (allocate 65535 {[65535]}) as [[pid next'] used'] eqn:E.
  destruct H as [Hw _].
  - split; [unfold valid_id; lia|]. apply set_Forall_singleton. unfold valid_id. lia.
  - exists next', used'. split; [|exact Hw].
    assert (Hp : (allocate 65535 {[65535]}).1.1 = 1) by (vm_compute; reflexivity).
    rewrite E in Hp. simpl in Hp. by rewrite Hp.
Defined.

(** ** [Qos0Handler] ([src/qos/qos0.cpp]) *)

Module Qos0Handler.

Definition deliver (v : SessionView) (tree : TopicTree) (pub : PublishPacket) : list delivery :=
  let subscribers := TopicTree.lookup (topic pub) tree in
  let packet :=
    PacketBuilder.build_publish (topic pub) (contents (payload pub)) 0 false false 0 in
  flat_map (fun e => match TopicTree.lock (view_alive v) (entry_session e) with
                     | Some session => [(session, packet)]
                     | None => []
                     end) subscribers.

End Qos0Handler.

Lemma qos0_deliver_live v tree pub :
  Qos0Handler.deliver v tree pub =
    (fun s => (s, PacketBuilder.build_publish (topic pub) (contents (payload pub)) 0 false false 0))
      <$> live v (TopicTree.lookup (topic pub) tree).
Proof.
  unfold Qos0Handler.deliver, live. induction (TopicTree.lookup (topic pub) tree) as [|e l IH]; [done|].
  cbn [flat_map omap list_omap]. rewrite IH.
  by destruct (TopicTree.lock (view_alive v) (entry_session e)).
Qed.
