(* ===== verification/Inflight.v ===== *)
(** * In-flight message tables ([ClientPending], [ClientOutgoing])

    [Qos1Handler] and [Qos2Handler] keep the same structure: per client id, the
    unacknowledged messages by packet identifier, the identifiers in use and
    the next candidate.  The operations both perform on it are defined once,
    for any message type. *)

From Stdlib Require Import Strings.String ZArith Lia.
From stdpp Require Import base list strings numbers option gmap fin_maps sets fin_map_dom.
From S2P Require Import Prelude Qos.

Open Scope Z_scope.

Record ClientTable (Msg : Type) : Type := mkClient {
  messages : gmap Z Msg;
  next_packet_id : Z;
  in_use : gset Z
}.
Arguments mkClient {Msg}.
Arguments messages {Msg}.
Arguments next_packet_id {Msg}.
Arguments in_use {Msg}.

Section Table.

Context {Msg : Type}.

Abbreviation table := (gmap string (ClientTable Msg)).

(** [pending_[client_id]] creates the client with its default members. *)
Definition client_of (cid : string) (t : table) : ClientTable Msg :=
  default (mkClient ∅ 1 ∅) (t !! cid).

(** [allocate_packet_id(client)], and [client.messages[pid] = mk(pid)] when it
    returned an identifier. *)
Definition alloc_message (cid : string) (mk : Z -> Msg) (t : table) : option Z * table :=
  let client := client_of cid t in
  let '(pid, next, used) := allocate (next_packet_id client) (in_use client) in
  if pid =? 0
  then (None, <[cid := mkClient (messages client) next used]> t)
  else (Some pid, <[cid := mkClient (<[pid := mk pid]> (messages client)) next used]> t).

(** The two [find]s that open every handler. *)
Definition find_message (cid : string) (pid : Z) (t : table) : option Msg :=
  client ← t !! cid; messages client !! pid.

(** Assignment through the reference [msg_it->second]. *)
Definition set_message (cid : string) (pid : Z) (m : Msg) (t : table) : table :=
  alter (fun c => mkClient (<[pid := m]> (messages c)) (next_packet_id c) (in_use c)) cid t.

(** [in_use.erase; messages.erase; if (messages.empty()) erase(client_it)]. *)
Definition erase_message (cid : string) (pid : Z) (t : table) : table :=
  match t !! cid with
  | None => t
  | Some c =>
      let c := mkClient (delete pid (messages c)) (next_packet_id c) (in_use c ∖ {[pid]}) in
      if decide (messages c = ∅) then delete cid t else <[cid := c]> t
  end.

Definition used_ids (cid : string) (t : table) : gset Z := in_use (client_of cid t).

(** ** Invariant *)

(** The identifiers in use are exactly those of the stored messages, they and
    the next candidate are valid, and a client without messages is absent. *)
Record client_wf (c : ClientTable Msg) : Prop := {
  cw_ids : ids_wf (next_packet_id c) (in_use c);
  cw_dom : dom (messages c) = in_use c;
  cw_some : messages c <> ∅
}.

Definition table_wf (t : table) : Prop := map_Forall (fun _ => client_wf) t.

Lemma table_wf_empty : table_wf ∅.
Proof. apply map_Forall_empty. Qed.

Lemma client_of_ids cid (t : table) :
  table_wf t -> ids_wf (next_packet_id (client_of cid t)) (in_use (client_of cid t)) /\
                dom (messages (client_of cid t)) = in_use (client_of cid t).
Proof.
  intros H. unfold client_of. destruct (t !! cid) as [c|] eqn:E; simpl.
  - apply H in E as []. done.
  - split; [|by rewrite dom_empty_L]. split; [unfold valid_id; lia|]. apply set_Forall_empty.
Qed.

Lemma find_used cid pid (t : table) :
  table_wf t -> is_Some (find_message cid pid t) <-> pid ∈ used_ids cid t.
Proof.
  intros H. destruct (client_of_ids cid t H) as [_ Hd]. unfold used_ids. rewrite <- Hd, elem_of_dom.
  unfold find_message, client_of. destruct (t !! cid) as [c|]; simpl; [done|].
  rewrite lookup_empty. by split.
Qed.

(** The two outcomes of an allocation. *)
Lemma alloc_message_spec cid mk (t : table) :
  table_wf t ->
  table_wf (alloc_message cid mk t).2 /\
  match (alloc_message cid mk t).1 with
  | Some pid =>
      valid_id pid /\ find_message cid pid t = None /\
      (forall c p, find_message c p (alloc_message cid mk t).2 =
         if decide (c = cid /\ p = pid) then Some (mk pid) else find_message c p t) /\
      used_ids cid (alloc_message cid mk t).2 = {[pid]} ∪ used_ids cid t
  | None =>
      (id_fuel <= size (used_ids cid t))%nat /\
      (forall c p, find_message c p (alloc_message cid mk t).2 = find_message c p t)
  end.
Proof.
  intros H. destruct (client_of_ids cid t H) as [Hi Hd].
  pose proof (allocate_spec _ _ Hi) as Ha. unfold alloc_message, used_ids.
  destruct (allocate _ _) as [[pid next] used].
  destruct Ha as [Hw [(Hv & Hf & ->)|(-> & -> & Hall)]].
  - pose proof Hv as Hr. unfold valid_id in Hr. rewrite_test (pid =? 0) false. simpl. split.
    { apply map_Forall_insert_2; [|done]. constructor; simpl; [done| |apply insert_non_empty].
      rewrite dom_insert_L. congruence. }
    split; [done|]. split; [|split].
    + destruct (find_message cid pid t) eqn:E; [|done]. exfalso. apply Hf.
      apply (find_used cid pid t H). by rewrite E.
    + intros c p. unfold find_message, client_of. destruct (decide (c = cid)) as [->|Hc].
      * rewrite lookup_insert_eq. simpl. destruct (decide (p = pid)) as [->|Hp].
        -- by rewrite lookup_insert_eq, decide_True.
        -- rewrite lookup_insert_ne, decide_False by naive_solver.
           destruct (t !! cid); simpl; [done|]. by rewrite lookup_empty.
      * rewrite lookup_insert_ne, decide_False by naive_solver. done.
    + unfold client_of at 1. by rewrite lookup_insert_eq.
  - simpl. pose proof (ids_exhausted _ Hall) as Hx. split; [|split; [done|]].
    + apply map_Forall_insert_2; [|done]. constructor; simpl; [done|done|].
      intros C. rewrite C, dom_empty_L in Hd.
      specialize (Hall 1 ltac:(unfold valid_id; lia)). rewrite <- Hd in Hall. set_solver.
    + intros c p. unfold find_message, client_of. destruct (decide (c = cid)) as [->|Hc].
      * rewrite lookup_insert_eq. destruct (t !! cid); simpl; [done|]. by rewrite lookup_empty.
      * by rewrite lookup_insert_ne.
Qed.

Lemma find_set_message cid pid m (t : table) :
  is_Some (find_message cid pid t) -> forall c p,
  find_message c p (set_message cid pid m t) =
    if decide (c = cid /\ p = pid) then Some m else find_message c p t.
Proof.
  intros [m0 Hm] c p. unfold find_message, set_message in *.
  destruct (decide (c = cid)) as [->|Hc].
  - rewrite lookup_alter_eq. destruct (t !! cid) as [x|]; simpl in *; [|done].
    destruct (decide (p = pid)) as [->|Hp].
    + by rewrite lookup_insert_eq, decide_True.
    + by rewrite lookup_insert_ne, decide_False by naive_solver.
  - rewrite lookup_alter_ne, decide_False by naive_solver. done.
Qed.

Lemma set_message_wf cid pid m (t : table) :
  table_wf t -> is_Some (find_message cid pid t) -> table_wf (set_message cid pid m t).
Proof.
  intros H [m0 Hm] c x. unfold set_message. destruct (decide (c = cid)) as [->|Hc].
  - rewrite lookup_alter_eq. unfold find_message in Hm.
    destruct (t !! cid) as [y|] eqn:E; simpl in *; [|done]. intros [= <-].
    apply H in E as [Hi Hd Hs]. constructor; simpl; [done| |apply insert_non_empty].
    rewrite dom_insert_L, <- Hd. apply elem_of_dom_2 in Hm. set_solver.
  - rewrite lookup_alter_ne by done. apply H.
Qed.

Lemma used_set_message c cid pid m (t : table) : used_ids c (set_message cid pid m t) = used_ids c t.
Proof.
  unfold used_ids, client_of, set_message. destruct (decide (c = cid)) as [->|Hc].
  - rewrite lookup_alter_eq. by destruct (t !! cid).
  - by rewrite lookup_alter_ne.
Qed.

Lemma find_erase_message cid pid (t : table) c p :
  find_message c p (erase_message cid pid t) =
    if decide (c = cid /\ p = pid) then None else find_message c p t.
Proof.
  unfold find_message, erase_message. destruct (t !! cid) as [x|] eqn:E.
  - destruct (decide (messages _ = ∅)) as [He|He]; cbn [messages] in He;
      destruct (decide (c = cid)) as [->|Hc].
    + rewrite lookup_delete_eq. simpl. case_decide as D; [done|]. rewrite E. simpl.
      assert (Hn : delete pid (messages x) !! p = None) by (by rewrite He, lookup_empty).
      rewrite lookup_delete_ne in Hn by naive_solver. done.
    + rewrite lookup_delete_ne, decide_False by naive_solver. done.
    + rewrite lookup_insert_eq. simpl. rewrite E. simpl. destruct (decide (p = pid)) as [->|Hp].
      * by rewrite lookup_delete_eq, decide_True.
      * by rewrite lookup_delete_ne, decide_False by naive_solver.
    + rewrite lookup_insert_ne, decide_False by naive_solver. done.
  - case_decide as D; [|done]. destruct D as [-> ->]. by rewrite E.
Qed.

Lemma erase_message_wf cid pid (t : table) : table_wf t -> table_wf (erase_message cid pid t).
Proof.
  intros H. unfold erase_message. destruct (t !! cid) as [x|] eqn:E; [|done].
  apply H in E as [[Hn Hu] Hd Hs]. case_decide as He.
  - by apply map_Forall_delete.
  - apply map_Forall_insert_2; [|done]. constructor; simpl in *; [|by rewrite dom_delete_L, Hd|done].
    split; [done|]. intros q Hq. apply Hu. set_solver.
Qed.

Lemma used_erase_message c cid pid (t : table) :
  table_wf t ->
  used_ids c (erase_message cid pid t) =
    if decide (c = cid) then used_ids cid t ∖ {[pid]} else used_ids c t.
Proof.
  intros H. apply set_eq. intros q. pose proof (erase_message_wf cid pid t H) as H'.
  rewrite <- (find_used c q _ H'), find_erase_message.
  destruct (decide (c = cid)) as [->|Hc].
  - rewrite elem_of_difference, elem_of_singleton, <- (find_used cid q t H).
    destruct (decide (q = pid)) as [->|Hq].
    + rewrite decide_True by done. split; [by intros [? ?] | naive_solver].
    + rewrite decide_False by naive_solver. naive_solver.
  - rewrite decide_False by naive_solver. apply find_used, H.
Qed.

End Table.

Create HintDb inflight discriminated.
#[export] Hint Resolve table_wf_empty erase_message_wf set_message_wf : inflight.
