(* ===== verification/Qos1.v ===== *)
(** * QoS 1 delivery ([src/qos/qos1.h], [src/qos/qos1.cpp])

    At-least-once delivery: every matching subscriber is sent a PUBLISH with a
    fresh packet identifier, which is kept and sent again by a timer until a
    PUBACK arrives or the retries are used up. *)

From Stdlib Require Import Strings.String ZArith Lia.
From stdpp Require Import base list strings numbers option gmap fin_maps sets.
From S2P Require Import Prelude Config Buffer Packet Filter TopicTree Timer Qos Inflight.

Open Scope Z_scope.

Record PendingMessage : Type := mkPending {
  pm_session : option session_id;
  publish_packet : Buffer;
  retry_timer : Timer (string * Z);
  retry_count : Z
}.

Record Qos1Handler : Type := mkQos1 {
  pending_ : gmap string (ClientTable PendingMessage)
}.

Module Qos1Handler.

Definition init : Qos1Handler := mkQos1 ∅.

Section Calls.

Context (cfg : Config) (v : SessionView).

(** [std::chrono::seconds(retry_interval_seconds)], in milliseconds. *)
Definition interval : Z := retry_interval_seconds cfg * 1000.

Definition publication (pub : PublishPacket) (pid : Z) : Buffer :=
  PacketBuilder.build_publish (topic pub) (contents (payload pub)) 1 (retain pub) false pid.

(** The body of the [for] loop of [deliver]. *)
Definition deliver_entry (pub : PublishPacket) (entry : SubscriberEntry) : sender Qos1Handler :=
  fun h =>
  match TopicTree.lock (view_alive v) (entry_session entry) with
  | None => (h, [])
  | Some session =>
      let client_id := view_client_id v session in
      let mk pid := mkPending (Some session) (publication pub pid)
                      (Timer.start interval (client_id, pid) Timer.init) 0 in
      match alloc_message client_id mk (pending_ h) with
      | (None, t) => (mkQos1 t, [])
      | (Some pid, t) => (mkQos1 t, [(session, publication pub pid)])
      end
  end.

Definition deliver (tree : TopicTree) (pub : PublishPacket) : sender Qos1Handler :=
  send_each (TopicTree.lookup (topic pub) tree) (deliver_entry pub).

Definition handle_puback (client_id : string) (packet_id : Z) (h : Qos1Handler) : Qos1Handler :=
  match find_message client_id packet_id (pending_ h) with
  | None => h
  | Some _ => mkQos1 (erase_message client_id packet_id (pending_ h))
  end.

(** [pm.session && pm.session->connected()], then [deliver]. *)
Definition send_connected (session : option session_id) (packet : Buffer) : list delivery :=
  match session with
  | Some s => if view_connected v s then [(s, packet)] else []
  | None => []
  end.

Definition retry_message (client_id : string) (packet_id : Z) : sender Qos1Handler := fun h =>
  match find_message client_id packet_id (pending_ h) with
  | None => (h, [])
  | Some pm =>
      if max_retry_count cfg <=? retry_count pm
      then (mkQos1 (erase_message client_id packet_id (pending_ h)), [])
      else
        let pm' := mkPending (pm_session pm) (publish_packet pm)
                     (Timer.start interval (client_id, packet_id) (retry_timer pm))
                     (retry_count pm + 1) in
        (mkQos1 (set_message client_id packet_id pm' (pending_ h)),
         send_connected (pm_session pm) (publish_packet pm))
  end.

End Calls.

End Qos1Handler.

(** ** Steps *)

(** The handler's operations, with the packets each sends. *)
Inductive qos1_step (cfg : Config) : Qos1Handler -> list delivery -> Qos1Handler -> Prop :=
| q1_deliver v tree pub h h' out :
    Qos1Handler.deliver cfg v tree pub h = (h', out) -> qos1_step cfg h out h'
| q1_puback c p h : qos1_step cfg h [] (Qos1Handler.handle_puback c p h)
| q1_retry v c p h h' out :
    Qos1Handler.retry_message cfg v c p h = (h', out) -> qos1_step cfg h out h'.

Inductive qos1_reachable (cfg : Config) : Qos1Handler -> Prop :=
| q1_init : qos1_reachable cfg Qos1Handler.init
| q1_next h out h' : qos1_reachable cfg h -> qos1_step cfg h out h' -> qos1_reachable cfg h'.

(** What a stored message promises: it is a QoS 1 publication that carries its
    own identifier, its retry timer is armed for it, and its retries are within
    the limit. *)
Definition pending_ok (cfg : Config) (c : string) (p : Z) (pm : PendingMessage) : Prop :=
  (exists pub, publish_packet pm = Qos1Handler.publication pub p) /\
  active_ (retry_timer pm) = true /\ callback_ (retry_timer pm) = Some (c, p) /\
  0 <= retry_count pm <= Z.max 0 (max_retry_count cfg).

Definition qos1_wf (cfg : Config) (h : Qos1Handler) : Prop :=
  table_wf (pending_ h) /\
  forall c p pm, find_message c p (pending_ h) = Some pm -> pending_ok cfg c p pm.

Section Handler.

Context (cfg : Config) (v : SessionView).

Lemma qos1_deliver_entry_spec pub e h :
  qos1_wf cfg h ->
  let '(h', out) := Qos1Handler.deliver_entry cfg v pub e h in
  qos1_wf cfg h' /\
  match TopicTree.lock (view_alive v) (entry_session e) with
  | None => h' = h /\ out = []
  | Some s =>
      let c := view_client_id v s in
      (out = [] /\ (id_fuel <= size (used_ids c (pending_ h)))%nat /\
       forall c' p', find_message c' p' (pending_ h') = find_message c' p' (pending_ h)) \/
      exists pid pm, valid_id pid /\ out = [(s, Qos1Handler.publication pub pid)] /\
        pm_session pm = Some s /\ publish_packet pm = Qos1Handler.publication pub pid /\
        retry_count pm = 0 /\
        find_message c pid (pending_ h) = None /\
        (forall c' p', find_message c' p' (pending_ h') =
           if decide (c' = c /\ p' = pid) then Some pm else find_message c' p' (pending_ h)) /\
        used_ids c (pending_ h') = {[pid]} ∪ used_ids c (pending_ h)
  end.
Proof.
  intros [Hw Hm]. unfold Qos1Handler.deliver_entry.
  destruct (TopicTree.lock (view_alive v) (entry_session e)) as [s|]; [|done].
  set (mk pid := mkPending (Some s) _ _ 0).
  pose proof (alloc_message_spec (view_client_id v s) mk (pending_ h) Hw) as [Hw' Ha].
  destruct (alloc_message _ mk (pending_ h)) as [[pid|] t]; simpl in *.
  - destruct Ha as (Hv & Hn & Hf & Hu). split; [split; [done|]|].
    + simpl. intros c p pm. rewrite Hf. case_decide as D; [|apply Hm].
      destruct D as [-> ->]. intros [= <-]. split; [by eexists|]. simpl. repeat split; lia.
    + right. exists pid, (mk pid). done.
  - destruct Ha as [Hx Hf]. split; [split; [done|]|by left].
    simpl. intros c p pm. rewrite Hf. apply Hm.
Qed.

Lemma send_each_wf pub l : forall h,
  qos1_wf cfg h -> qos1_wf cfg (send_each l (Qos1Handler.deliver_entry cfg v pub) h).1.
Proof.
  induction l as [|e l IH]; intros h H; [done|]. cbn [send_each].
  pose proof (qos1_deliver_entry_spec pub e h H) as Hs.
  destruct (Qos1Handler.deliver_entry cfg v pub e h) as [h1 out]. destruct Hs as [H1 _].
  specialize (IH h1 H1). by destruct (send_each l _ h1).
Qed.

Lemma handle_puback_wf c p h : qos1_wf cfg h -> qos1_wf cfg (Qos1Handler.handle_puback c p h).
Proof.
  intros [Hw Hm]. unfold Qos1Handler.handle_puback.
  destruct (find_message c p (pending_ h)) as [pm|]; [|done].
  split; simpl; [by apply erase_message_wf|]. intros c' p' pm'. rewrite find_erase_message.
  case_decide; [done|]. apply Hm.
Qed.

Lemma retry_message_wf c p h :
  qos1_wf cfg h -> qos1_wf cfg (Qos1Handler.retry_message cfg v c p h).1.
Proof.
  intros [Hw Hm]. unfold Qos1Handler.retry_message.
  destruct (find_message c p (pending_ h)) as [pm|] eqn:E; [|done].
  destruct (Z.leb_spec (max_retry_count cfg) (retry_count pm)) as [Hr|Hr]; split; simpl.
  - by apply erase_message_wf.
  - intros c' p' pm'. rewrite find_erase_message. case_decide; [done|]. apply Hm.
  - apply set_message_wf; [done|]. by rewrite E.
  - intros c' p' pm'. rewrite find_set_message by (by rewrite E). case_decide as D; [|apply Hm].
    destruct D as [-> ->]. intros [= <-]. apply Hm in E as (Hp & _ & _ & Hc).
    split; [done|]. simpl. repeat split; lia.
Qed.

End Handler.

Lemma qos1_step_wf cfg h out h' : qos1_wf cfg h -> qos1_step cfg h out h' -> qos1_wf cfg h'.
Proof.
  intros H Hs. destruct Hs as [v tree pub h h' out E|c p h|v c p h h' out E].
  - pose proof (send_each_wf cfg v pub (TopicTree.lookup (topic pub) tree) h H) as Hd.
    unfold Qos1Handler.deliver in E. by rewrite E in Hd.
  - by apply handle_puback_wf.
  - pose proof (retry_message_wf cfg v c p h H) as Hd. by rewrite E in Hd.
Qed.

Lemma qos1_init_wf cfg : qos1_wf cfg Qos1Handler.init.
Proof. split; [apply table_wf_empty|]. intros c p pm H. by vm_compute in H. Qed.

(** Invariant of the QoS 1 handler: in every reachable state the
    identifiers in use are those of the stored messages, all in 1..65535; every
    stored message is a QoS 1 publication under its own identifier with an
    armed retry timer and no more retries than configured; no client without
    messages is kept. *)
Theorem qos1_invariant cfg h : qos1_reachable cfg h -> qos1_wf cfg h.
Proof. induction 1 as [|h out h' _ IH Hs]; [apply qos1_init_wf | by eapply qos1_step_wf]. Qed.

Definition demo_view : SessionView := mkView (fun _ => true) (fun _ => "c"%string) (fun _ => true).
Definition demo_tree : TopicTree :=
  TopicTree.subscribe (fun _ => true) "a/+" (mkEntry (Some 7%nat) 1) TopicTree.init.
Definition demo_pub (q : Z) : PublishPacket :=
  mkPublishPacket "a/b" (Buffer.of_bytes [Byte.x2a]) q false false 9.

Lemma qos1_invariant_witness :
  qos1_wf default_config
    (Qos1Handler.deliver default_config demo_view demo_tree (demo_pub 1) Qos1Handler.init).1.
Proof.
  apply qos1_invariant. eapply q1_next; [apply q1_init|].
  eapply (q1_deliver _ demo_view demo_tree (demo_pub 1)). apply surjective_pairing.
Defined.

(** ** Delivery and retries *)

Section Delivery.

Context (cfg : Config) (v : SessionView) (pub : PublishPacket).

(** A PUBLISH was handed to [s] and is kept for retransmission. *)
Definition stored (h h' : Qos1Handler) (s : session_id) (packet : Buffer) : Prop :=
  exists pid pm, valid_id pid /\ packet = Qos1Handler.publication pub pid /\
    find_message (view_client_id v s) pid (pending_ h) = None /\
    find_message (view_client_id v s) pid (pending_ h') = Some pm /\
    pm_session pm = Some s /\ publish_packet pm = packet /\ retry_count pm = 0.

(** Adding messages keeps the ones already stored. *)
Definition keeps (h h' : Qos1Handler) : Prop :=
  forall c p m, find_message c p (pending_ h) = Some m -> find_message c p (pending_ h') = Some m.

Lemma used_grows (t t' : gmap string (ClientTable PendingMessage)) c pid m :
  table_wf t -> table_wf t' ->
  (forall c' p', find_message c' p' t' =
     if decide (c' = c /\ p' = pid) then Some m else find_message c' p' t) ->
  forall c', (size (used_ids c' t') <= S (size (used_ids c' t)))%nat.
Proof.
  intros H H' Hf c'. transitivity (size ({[pid]} ∪ used_ids c' t)).
  - apply subseteq_size. intros q. rewrite <- (find_used c' q t' H'), Hf.
    rewrite elem_of_union, elem_of_singleton, <- (find_used c' q t H).
    case_decide; naive_solver.
  - rewrite size_union_alt, size_singleton.
    pose proof (subseteq_size (used_ids c' t ∖ {[pid]}) (used_ids c' t) ltac:(set_solver)). lia.
Qed.

Lemma send_each_complete l : forall h,
  qos1_wf cfg h ->
  (forall s, s ∈ live v l ->
     (size (used_ids (view_client_id v s) (pending_ h)) + length l <= id_fuel)%nat) ->
  let '(h', out) := send_each l (Qos1Handler.deliver_entry cfg v pub) h in
  out.*1 = live v l /\ keeps h h' /\ (forall s packet, (s, packet) ∈ out -> stored h h' s packet).
Proof.
  induction l as [|e l IH]; intros h Hw Hroom; cbn [send_each].
  { split; [done|]. split; [by intros c p m|]. intros s packet H. by apply elem_of_nil in H. }
  pose proof (qos1_deliver_entry_spec cfg v pub e h Hw) as Hs.
  destruct (Qos1Handler.deliver_entry cfg v pub e h) as [h1 out1]. destruct Hs as [Hw1 Hs].
  unfold live in *. cbn [omap list_omap] in *.
  destruct (TopicTree.lock (view_alive v) (entry_session e)) as [s|].
  - destruct Hs as [(_ & Hx & _)|(pid & pm & Hv & -> & Hses & Hpkt & Hrc & Hnew & Hf & _)].
    { specialize (Hroom s ltac:(constructor)). simpl in Hroom. lia. }
    specialize (IH h1 Hw1).
    destruct (send_each l _ h1) as [h2 out2]. destruct IH as (Ho & Hk & Hst).
    { intros s' Hin. pose proof (used_grows _ _ _ _ _ (proj1 Hw) (proj1 Hw1) Hf (view_client_id v s')).
      specialize (Hroom s' ltac:(by constructor)). simpl in Hroom. lia. }
    assert (Hk1 : keeps h h1).
    { intros c p m Hm. rewrite Hf. case_decide as D; [|done]. destruct D as [-> ->]. congruence. }
    split; [by rewrite fmap_app, Ho|]. split; [by intros c p m Hm; apply Hk, Hk1|].
    intros s' packet [Heq|Hin]%elem_of_cons.
    + injection Heq as -> ->. exists pid, pm. split; [done|]. split; [done|]. split; [done|].
      split; [|done]. apply Hk. by rewrite Hf, decide_True.
    + destruct (Hst s' packet Hin) as (q & pm' & Hq & Hp & Hn & Hsm & Hrest).
      exists q, pm'. split; [done|]. split; [done|]. split; [|done].
      destruct (find_message _ q (pending_ h)) eqn:E; [|done].
      apply Hk1 in E. congruence.
  - destruct Hs as [-> ->]. specialize (IH h Hw).
    destruct (send_each l _ h) as [h2 out2]. apply IH.
    intros s' Hin. specialize (Hroom s' Hin). simpl in Hroom. lia.
Qed.

(** [C23] At-least-once, first half: unless a subscriber's identifier space is
    nearly full, publishing hands every live matching subscriber exactly one
    QoS 1 PUBLISH, in the order of the lookup, under an identifier that was
    free, and keeps that very packet for retransmission; nothing in flight is
    lost. *)
Theorem qos1_deliver_complete tree h :
  qos1_wf cfg h ->
  (forall s, s ∈ live v (TopicTree.lookup (topic pub) tree) ->
     (size (used_ids (view_client_id v s) (pending_ h)) +
      length (TopicTree.lookup (topic pub) tree) <= id_fuel)%nat) ->
  let '(h', out) := Qos1Handler.deliver cfg v tree pub h in
  out.*1 = live v (TopicTree.lookup (topic pub) tree) /\ keeps h h' /\
  (forall s packet, (s, packet) ∈ out -> stored h h' s packet).
Proof. apply send_each_complete. Qed.

End Delivery.

Lemma id_fuel_large n : Z.of_nat n <= 65535 -> (n <= id_fuel)%nat.
Proof. intros H. transitivity (Z.to_nat 65535); [lia|]. reflexivity. Qed.

Lemma qos1_deliver_complete_witness :
  (Qos1Handler.deliver default_config demo_view demo_tree (demo_pub 1) Qos1Handler.init).2.*1 = [7%nat].
Proof.
  pose proof (qos1_deliver_complete default_config demo_view (demo_pub 1) demo_tree Qos1Handler.init) as H.
  destruct (Qos1Handler.deliver _ _ _ _ _) as [h' out]. destruct H as [H _].
  - apply qos1_init_wf.
  - intros s _. apply id_fuel_large. vm_compute. discriminate.
  - etransitivity; [exact H|]. vm_compute. reflexivity.
Defined.

Section Retries.

Context (cfg : Config) (v : SessionView) (c : string) (p : Z).

(** [n] expiries of the retry timer of one message. *)
Definition retries (n : nat) : sender Qos1Handler :=
  send_each (replicate n tt) (fun _ => Qos1Handler.retry_message cfg v c p).

Lemma retries_absent n h :
  find_message c p (pending_ h) = None -> retries n h = (h, []).
Proof.
  intros H. unfold retries. induction n as [|n IH]; [done|]. cbn [replicate send_each].
  unfold Qos1Handler.retry_message at 1. rewrite H. by rewrite IH.
Qed.

Lemma retries_spec n : forall h pm s,
  find_message c p (pending_ h) = Some pm -> pm_session pm = Some s ->
  let left := Z.to_nat (max_retry_count cfg - retry_count pm) in
  (retries n h).2 =
    (if view_connected v s then replicate (n `min` left) (s, publish_packet pm) else []) /\
  ((n <= left)%nat -> exists pm', find_message c p (pending_ (retries n h).1) = Some pm' /\
     pm_session pm' = Some s /\ publish_packet pm' = publish_packet pm /\
     retry_count pm' = retry_count pm + Z.of_nat n) /\
  ((left < n)%nat -> find_message c p (pending_ (retries n h).1) = None).
Proof.
  induction n as [|n IH]; intros h pm s Hm Hs left.
  { split; [by destruct (view_connected v s)|]. split; [|lia]. intros _. exists pm.
    split; [done|]. split; [done|]. split; [done|]. lia. }
  unfold retries. cbn [replicate send_each]. unfold Qos1Handler.retry_message at 1 3 5.
  rewrite Hm. destruct (Z.leb_spec (max_retry_count cfg) (retry_count pm)) as [Hr|Hr].
  - assert (left = 0%nat) as -> by (unfold left; lia).
    set (h1 := mkQos1 (erase_message c p (pending_ h))).
    assert (Hn : find_message c p (pending_ h1) = None)
      by (simpl; by rewrite find_erase_message, decide_True).
    fold (retries n). rewrite (retries_absent n h1 Hn). rewrite Nat.min_0_r. simpl.
    split; [by destruct (view_connected v s)|]. split; [lia|]. intros _. exact Hn.
  - set (pm1 := mkPending (pm_session pm) _ _ _).
    set (h1 := mkQos1 (set_message c p pm1 (pending_ h))).
    assert (Hf : find_message c p (pending_ h1) = Some pm1)
      by (simpl; rewrite find_set_message by (by rewrite Hm); by rewrite decide_True).
    specialize (IH h1 pm1 s Hf Hs). fold (retries n). destruct (retries n h1) as [h2 out2].
    simpl in IH |- *. destruct IH as (Ho & Hle & Hgt).
    assert (Hl : left = S (Z.to_nat (max_retry_count cfg - (retry_count pm + 1))))
      by (unfold left; lia).
    rewrite Hl. split; [|split].
    + rewrite Ho. unfold Qos1Handler.send_connected. rewrite Hs. by destruct (view_connected v s).
    + intros Hn. destruct Hle as (pm' & ? & ? & ? & ?); [lia|]. exists pm'.
      split; [done|]. split; [done|]. split; [done|]. lia.
    + intros Hn. apply Hgt. lia.
Qed.

Lemma retries_wf n : forall h, qos1_wf cfg h -> qos1_wf cfg (retries n h).1.
Proof.
  unfold retries. induction n as [|n IH]; intros h Hw; [done|]. cbn [replicate send_each].
  pose proof (retry_message_wf cfg v c p h Hw) as H1.
  destruct (Qos1Handler.retry_message cfg v c p h) as [h1 out]. specialize (IH h1 H1).
  by destruct (send_each _ _ h1).
Qed.

(** [C31] At-least-once, second half: while no PUBACK arrives, the expiries of
    a message's timer send the stored packet again, at most
    [max_retry_count] times; until then the packet and its identifier stay in use,
    and the next expiry gives the message up and frees its identifier; to a
    disconnected session nothing is sent. *)
Theorem qos1_retry_bounded n h pm s :
  qos1_wf cfg h ->
  find_message c p (pending_ h) = Some pm -> pm_session pm = Some s -> retry_count pm = 0 ->
  let max := Z.to_nat (max_retry_count cfg) in
  (retries n h).2 =
    (if view_connected v s then replicate (n `min` max) (s, publish_packet pm) else []) /\
  if (n <=? max)%nat then
    p ∈ used_ids c (pending_ (retries n h).1) /\
    exists pm', find_message c p (pending_ (retries n h).1) = Some pm' /\ pm_session pm' = Some s /\
      publish_packet pm' = publish_packet pm /\ retry_count pm' = Z.of_nat n
  else
    p ∉ used_ids c (pending_ (retries n h).1) /\ find_message c p (pending_ (retries n h).1) = None.
Proof.
  intros Hw Hm Hs Hr max. destruct (retries_spec n h pm s Hm Hs) as (Ho & Hle & Hgt).
  pose proof (find_used c p _ (proj1 (retries_wf n h Hw))) as Hu.
  rewrite Hr, Z.sub_0_r in *. split; [exact Ho|]. destruct (Nat.leb_spec n max) as [Hn|Hn].
  - destruct (Hle Hn) as (pm' & Hf & ? & ? & ?). split; [apply Hu; by rewrite Hf|by exists pm'].
  - specialize (Hgt Hn). split; [|done]. rewrite <- Hu, Hgt. by intros [? ?].
Qed.

End Retries.

Lemma qos1_retry_bounded_witness :
  let h := (Qos1Handler.deliver default_config demo_view demo_tree (demo_pub 1) Qos1Handler.init).1 in
  (retries default_config demo_view "c" 1 6 h).2 =
    replicate (Z.to_nat (max_retry_count default_config)) (7%nat, Qos1Handler.publication (demo_pub 1) 1) /\
  1 ∉ used_ids "c" (pending_ (retries default_config demo_view "c" 1 6 h).1).
Proof.
  intros h. destruct (find_message "c" 1 (pending_ h)) as [pm|] eqn:E; [|vm_compute in E; discriminate].
  assert (Hp : (fun q => (pm_session q, retry_count q, publish_packet q)) <$> find_message "c" 1 (pending_ h) =
               Some (Some 7%nat, 0, Qos1Handler.publication (demo_pub 1) 1)) by (vm_compute; reflexivity).
  rewrite E in Hp. apply (inj Some), pair_equal_spec in Hp as [[Hs Hr]%pair_equal_spec Hk].
  destruct (qos1_retry_bounded default_config demo_view "c" 1 6 h pm 7%nat) as [Ho [Hu _]];
    [apply (send_each_wf default_config demo_view (demo_pub 1)), qos1_init_wf|exact E|exact Hs|exact Hr|].
  split; [|exact Hu]. rewrite Ho, Hk. reflexivity.
Defined.

(** A PUBACK for a message in flight removes it and frees its identifier,
    and nothing else; any other PUBACK changes nothing. *)
Theorem qos1_puback_exact cfg c p h :
  qos1_wf cfg h ->
  find_message c p (pending_ (Qos1Handler.handle_puback c p h)) = None /\
  p ∉ used_ids c (pending_ (Qos1Handler.handle_puback c p h)) /\
  (forall c' p', (c', p') <> (c, p) ->
     find_message c' p' (pending_ (Qos1Handler.handle_puback c p h)) =
       find_message c' p' (pending_ h)) /\
  (find_message c p (pending_ h) = None -> Qos1Handler.handle_puback c p h = h).
Proof.
  intros Hw. assert (Hn : find_message c p (pending_ (Qos1Handler.handle_puback c p h)) = None).
  { unfold Qos1Handler.handle_puback. destruct (find_message c p (pending_ h)) eqn:E; [|done].
    simpl. by rewrite find_erase_message, decide_True. }
  split; [done|]. split; [|split].
  - intros Hin. apply find_used in Hin; [|by apply (handle_puback_wf cfg)]. rewrite Hn in Hin.
    by destruct Hin.
  - intros c' p' Hne. unfold Qos1Handler.handle_puback.
    destruct (find_message c p (pending_ h)); [|done]. simpl.
    rewrite find_erase_message, decide_False by naive_solver. done.
  - intros E. unfold Qos1Handler.handle_puback. by rewrite E.
Qed.

Lemma qos1_puback_exact_witness :
  find_message "c" 1 (pending_ (Qos1Handler.handle_puback "c" 1
    (Qos1Handler.deliver default_config demo_view demo_tree (demo_pub 1) Qos1Handler.init).1)) = None.
Proof.
  apply (qos1_puback_exact default_config).
  apply (send_each_wf default_config demo_view (demo_pub 1)), qos1_init_wf.
Defined.

(** The granted QoS is ignored: a subscriber that was granted QoS 0 is
    sent QoS 1 publications like any other, and no retransmission ever sets
    the DUP flag, since the packet kept for the retries is the first one. *)
Theorem qos1_ignores_granted_qos cfg v pub e q h :
  Qos1Handler.deliver_entry cfg v pub (mkEntry (entry_session e) q) h =
  Qos1Handler.deliver_entry cfg v pub e h /\
  (forall h1 out s packet c p, qos1_reachable cfg h1 ->
     Qos1Handler.retry_message cfg v c p h1 = (h, out) -> (s, packet) ∈ out ->
     exists pub', packet =
       PacketBuilder.build_publish (topic pub') (contents (payload pub')) 1 (retain pub') false p).
Proof.
  split; [done|]. intros h1 out s packet c p Hr E Hin.
  assert (Hw : qos1_wf cfg h1) by (clear -Hr; induction Hr as [|x o y _ IH Hs];
    [apply qos1_init_wf | by eapply qos1_step_wf]).
  unfold Qos1Handler.retry_message in E.
  destruct (find_message c p (pending_ h1)) as [pm|] eqn:Em; [|by simplify_eq; set_solver].
  destruct (max_retry_count cfg <=? retry_count pm); injection E as <- <-; [set_solver|].
  unfold Qos1Handler.send_connected in Hin.
  destruct (pm_session pm) as [s'|]; [|set_solver].
  destruct (view_connected v s'); [|set_solver].
  apply list_elem_of_singleton in Hin. injection Hin as -> ->.
  apply (proj2 Hw) in Em as [[pub' ->] _]. by exists pub'.
Qed.

Lemma qos1_ignores_granted_qos_witness :
  exists pub' packet, packet =
    PacketBuilder.build_publish (topic pub') (contents (payload pub')) 1 (retain pub') false 1 /\
    (Qos1Handler.retry_message default_config demo_view "c" 1
       (Qos1Handler.deliver default_config demo_view demo_tree (demo_pub 1) Qos1Handler.init).1).2 =
      [(7%nat, packet)].
Proof.
  set (h1 := (Qos1Handler.deliver default_config demo_view demo_tree (demo_pub 1) Qos1Handler.init).1).
  set (packet := Qos1Handler.publication (demo_pub 1) 1).
  assert (E : (Qos1Handler.retry_message default_config demo_view "c" 1 h1).2 = [(7%nat, packet)])
    by (vm_compute; reflexivity).
  destruct (proj2 (qos1_ignores_granted_qos default_config demo_view (demo_pub 1)
              (mkEntry (Some 7%nat) 0) 0
              (Qos1Handler.retry_message default_config demo_view "c" 1 h1).1)
            h1 [(7%nat, packet)] 7%nat packet "c"%string 1) as [pub' Hp].
  - eapply q1_next; [apply q1_init|].
    eapply (q1_deliver _ demo_view demo_tree (demo_pub 1)). apply surjective_pairing.
  - rewrite <- E. apply surjective_pairing.
  - by apply list_elem_of_singleton.
  - exists pub', packet. split; [exact Hp | exact E].
Defined.
