(* ===== verification/Qos2.v ===== *)
(** * QoS 2 delivery ([src/qos/qos2.h], [src/qos/qos2.cpp])

    The sender's half of the four-way handshake: a message is [PUBLISH_SENT]
    until PUBREC arrives and [PUBREC_RECEIVED] until PUBCOMP does; a timer
    repeats the PUBLISH in the first state and the PUBREL in the second. *)

From Stdlib Require Import Strings.String ZArith Lia.
From stdpp Require Import base list strings numbers option gmap fin_maps sets.
From S2P Require Import Prelude Config Buffer Packet Filter TopicTree Timer Qos Inflight.

Open Scope Z_scope.

Inductive OutgoingState : Type := PUBLISH_SENT | PUBREC_RECEIVED.

#[export] Instance OutgoingState_eq_dec : EqDecision OutgoingState.
Proof. solve_decision. Defined.

Record OutgoingMessage : Type := mkOutgoing {
  om_session : option session_id;
  om_topic : string;
  om_payload : Buffer;
  om_state : OutgoingState;
  om_timer : Timer (string * Z);
  om_retry_count : Z
}.

Record Qos2Handler : Type := mkQos2 {
  outgoing_ : gmap string (ClientTable OutgoingMessage)
}.

Module Qos2Handler.

Definition init : Qos2Handler := mkQos2 ∅.

Section Calls.

Context (cfg : Config) (v : SessionView).

Definition interval : Z := retry_interval_seconds cfg * 1000.

Definition publication (topic : string) (payload : Buffer) (dup : bool) (pid : Z) : Buffer :=
  PacketBuilder.build_publish topic (contents payload) 2 false dup pid.

(** The body of the [for] loop of [deliver]. *)
Definition deliver_entry (pub : PublishPacket) (entry : SubscriberEntry) : sender Qos2Handler :=
  fun h =>
  match TopicTree.lock (view_alive v) (entry_session entry) with
  | None => (h, [])
  | Some session =>
      let granted_qos := Z.min (entry_qos entry) (qos pub) in
      if granted_qos <? 2 then
        (h, [(session, PacketBuilder.build_publish (topic pub) (contents (payload pub))
                         granted_qos false false 0)])
      else
        let client_id := view_client_id v session in
        let mk pid := mkOutgoing (Some session) (topic pub)
                        (Buffer.of_bytes (contents (payload pub))) PUBLISH_SENT
                        (Timer.start interval (client_id, pid) Timer.init) 0 in
        match alloc_message client_id mk (outgoing_ h) with
        | (None, t) => (mkQos2 t, [])
        | (Some pid, t) => (mkQos2 t, [(session, publication (topic pub) (payload pub) false pid)])
        end
  end.

Definition deliver (tree : TopicTree) (pub : PublishPacket) : sender Qos2Handler :=
  send_each (TopicTree.lookup (topic pub) tree) (deliver_entry pub).

Definition send_connected (session : option session_id) (packet : Buffer) : list delivery :=
  match session with
  | Some s => if view_connected v s then [(s, packet)] else []
  | None => []
  end.

Definition handle_pubrec (client_id : string) (packet_id : Z) : sender Qos2Handler := fun h =>
  match find_message client_id packet_id (outgoing_ h) with
  | None => (h, [])
  | Some m =>
      let m' := mkOutgoing (om_session m) (om_topic m) (om_payload m) PUBREC_RECEIVED
                  (om_timer m) 0 in
      (mkQos2 (set_message client_id packet_id m' (outgoing_ h)),
       send_connected (om_session m) (PacketBuilder.build_pubrel packet_id))
  end.

(** [handle_pubrel] and [handle_pubcomp] have the same body. *)
Definition handle_pubrel (client_id : string) (packet_id : Z) (h : Qos2Handler) : Qos2Handler :=
  match find_message client_id packet_id (outgoing_ h) with
  | None => h
  | Some _ => mkQos2 (erase_message client_id packet_id (outgoing_ h))
  end.

Definition handle_pubcomp (client_id : string) (packet_id : Z) (h : Qos2Handler) : Qos2Handler :=
  match find_message client_id packet_id (outgoing_ h) with
  | None => h
  | Some _ => mkQos2 (erase_message client_id packet_id (outgoing_ h))
  end.

(** What a retry sends in each state. *)
Definition retry_packet (m : OutgoingMessage) (packet_id : Z) : Buffer :=
  match om_state m with
  | PUBLISH_SENT => publication (om_topic m) (om_payload m) true packet_id
  | PUBREC_RECEIVED => PacketBuilder.build_pubrel packet_id
  end.

Definition retry_message (client_id : string) (packet_id : Z) : sender Qos2Handler := fun h =>
  match find_message client_id packet_id (outgoing_ h) with
  | None => (h, [])
  | Some m =>
      if max_retry_count cfg <=? om_retry_count m
      then (mkQos2 (erase_message client_id packet_id (outgoing_ h)), [])
      else
        let m' := mkOutgoing (om_session m) (om_topic m) (om_payload m) (om_state m)
                    (Timer.start interval (client_id, packet_id) (om_timer m))
                    (om_retry_count m + 1) in
        (mkQos2 (set_message client_id packet_id m' (outgoing_ h)),
         send_connected (om_session m) (retry_packet m packet_id))
  end.

End Calls.

End Qos2Handler.

(** ** Steps *)

(** The events of the handler; each names the message it concerns, except a
    publication, which concerns all subscribers. *)
Inductive qos2_event : Type :=
| Publish (tree : TopicTree) (pub : PublishPacket)
| Pubrec (client_id : string) (packet_id : Z)
| Pubrel (client_id : string) (packet_id : Z)
| Pubcomp (client_id : string) (packet_id : Z)
| Retry (client_id : string) (packet_id : Z).

Definition qos2_exec (cfg : Config) (v : SessionView) (e : qos2_event) : sender Qos2Handler := fun h =>
  match e with
  | Publish tree pub => Qos2Handler.deliver cfg v tree pub h
  | Pubrec c p => Qos2Handler.handle_pubrec v c p h
  | Pubrel c p => (Qos2Handler.handle_pubrel c p h, [])
  | Pubcomp c p => (Qos2Handler.handle_pubcomp c p h, [])
  | Retry c p => Qos2Handler.retry_message cfg v c p h
  end.

(** Sessions connect and disconnect between events: each has its own view. *)
Definition qos2_run (cfg : Config) (es : list (SessionView * qos2_event)) : sender Qos2Handler :=
  send_each es (fun '(v, e) => qos2_exec cfg v e).

Definition outgoing_ok (cfg : Config) (c : string) (p : Z) (m : OutgoingMessage) : Prop :=
  active_ (om_timer m) = true /\ callback_ (om_timer m) = Some (c, p) /\
  0 <= om_retry_count m <= Z.max 0 (max_retry_count cfg).

Definition qos2_wf (cfg : Config) (h : Qos2Handler) : Prop :=
  table_wf (outgoing_ h) /\
  forall c p m, find_message c p (outgoing_ h) = Some m -> outgoing_ok cfg c p m.

Section Handler.

Context (cfg : Config) (v : SessionView).

(** A slot of the table after publications: as before, or newly filled. *)
Definition grown (o o' : option OutgoingMessage) : Prop :=
  o' = o \/ (o = None /\ exists m, o' = Some m /\ om_state m = PUBLISH_SENT /\ om_retry_count m = 0).

Lemma grown_trans o1 o2 o3 : grown o1 o2 -> grown o2 o3 -> grown o1 o3.
Proof.
  intros [->|(-> & m & -> & Hm)] [->|(H & m' & -> & Hm')];
    [by left | right; by eauto | right; by eauto | done].
Qed.

(** A publication to one subscriber: below QoS 2 it is sent and forgotten;
    otherwise it is stored under a fresh identifier, or dropped when there is
    none.  Stored messages stay. *)
Lemma qos2_deliver_entry_spec pub e h :
  qos2_wf cfg h ->
  let '(h', out) := Qos2Handler.deliver_entry cfg v pub e h in
  qos2_wf cfg h' /\
  (forall c p, grown (find_message c p (outgoing_ h)) (find_message c p (outgoing_ h'))).
Proof.
  intros [Hw Hm]. unfold Qos2Handler.deliver_entry.
  destruct (TopicTree.lock (view_alive v) (entry_session e)) as [s|]; [|split; [done|by left]].
  destruct (Z.min (entry_qos e) (qos pub) <? 2); [split; [done|by left]|].
  set (mk pid := mkOutgoing (Some s) _ _ _ _ 0).
  pose proof (alloc_message_spec (view_client_id v s) mk (outgoing_ h) Hw) as [Hw' Ha].
  destruct (alloc_message _ mk (outgoing_ h)) as [[pid|] t]; simpl in *.
  - destruct Ha as (Hv & Hn & Hf & Hu). split; [split; [done|]|].
    + simpl. intros c p m. rewrite Hf. case_decide as D; [|apply Hm].
      destruct D as [-> ->]. intros [= <-]. repeat split; simpl; lia.
    + intros c p. rewrite Hf. case_decide as D; [|by left]. destruct D as [-> ->].
      right. split; [done|]. by exists (mk pid).
  - destruct Ha as [Hx Hf]. split; [split; [done|]|].
    + simpl. intros c p m. rewrite Hf. apply Hm.
    + intros c p. rewrite Hf. by left.
Qed.

Lemma deliver_spec pub l : forall h,
  qos2_wf cfg h ->
  qos2_wf cfg (send_each l (Qos2Handler.deliver_entry cfg v pub) h).1 /\
  (forall c p, grown (find_message c p (outgoing_ h))
     (find_message c p (outgoing_ (send_each l (Qos2Handler.deliver_entry cfg v pub) h).1))).
Proof.
  induction l as [|e l IH]; intros h H; [split; [done|by left]|]. cbn [send_each].
  pose proof (qos2_deliver_entry_spec pub e h H) as Hs.
  destruct (Qos2Handler.deliver_entry cfg v pub e h) as [h1 out]. destruct Hs as [H1 Hk].
  specialize (IH h1 H1). destruct (send_each l _ h1) as [h2 out2]. simpl in *.
  destruct IH as [IHw IHk]. split; [done|]. intros c p. by eapply grown_trans.
Qed.

Lemma erase_wf c p h : qos2_wf cfg h -> qos2_wf cfg (mkQos2 (erase_message c p (outgoing_ h))).
Proof.
  intros [Hw Hm]. split; simpl; [by apply erase_message_wf|].
  intros c' p' m. rewrite find_erase_message. case_decide; [done|]. apply Hm.
Qed.

Lemma set_wf c p m h :
  qos2_wf cfg h -> is_Some (find_message c p (outgoing_ h)) -> outgoing_ok cfg c p m ->
  qos2_wf cfg (mkQos2 (set_message c p m (outgoing_ h))).
Proof.
  intros [Hw Hm] Hs Ho. split; simpl; [by apply set_message_wf|].
  intros c' p' m'. rewrite find_set_message by done. case_decide as D; [|apply Hm].
  destruct D as [-> ->]. by intros [= <-].
Qed.

Lemma qos2_exec_wf e h : qos2_wf cfg h -> qos2_wf cfg (qos2_exec cfg v e h).1.
Proof.
  intros Hw. destruct e as [tree pub|c p|c p|c p|c p]; cbn [qos2_exec].
  - by apply deliver_spec.
  - unfold Qos2Handler.handle_pubrec. destruct (find_message c p (outgoing_ h)) as [m|] eqn:E; [|done].
    apply set_wf; [done|by rewrite E|]. apply (proj2 Hw) in E as (? & ? & ?).
    repeat split; simpl; try done; lia.
  - simpl. unfold Qos2Handler.handle_pubrel.
    destruct (find_message c p (outgoing_ h)); [by apply erase_wf | done].
  - simpl. unfold Qos2Handler.handle_pubcomp.
    destruct (find_message c p (outgoing_ h)); [by apply erase_wf | done].
  - unfold Qos2Handler.retry_message. destruct (find_message c p (outgoing_ h)) as [m|] eqn:E; [|done].
    destruct (Z.leb_spec (max_retry_count cfg) (om_retry_count m)); simpl; [by apply erase_wf|].
    apply set_wf; [done|by rewrite E|]. apply (proj2 Hw) in E as (? & ? & ?).
    repeat split; simpl; lia.
Qed.

(** The life of one message: what a step makes of it. *)
Inductive msg_step : option OutgoingMessage -> option OutgoingMessage -> Prop :=
| ms_stay m : msg_step m m
| ms_publish m : om_state m = PUBLISH_SENT -> om_retry_count m = 0 -> msg_step None (Some m)
| ms_pubrec m m' :
    om_state m' = PUBREC_RECEIVED -> om_retry_count m' = 0 ->
    om_session m' = om_session m -> om_topic m' = om_topic m -> om_payload m' = om_payload m ->
    msg_step (Some m) (Some m')
| ms_retry m m' :
    om_state m' = om_state m -> om_retry_count m' = om_retry_count m + 1 ->
    om_retry_count m < max_retry_count cfg ->
    om_session m' = om_session m -> om_topic m' = om_topic m -> om_payload m' = om_payload m ->
    msg_step (Some m) (Some m')
| ms_done m : msg_step (Some m) None.

Lemma erase_msg_step c p (t : gmap string (ClientTable OutgoingMessage)) c' p' :
  msg_step (find_message c' p' t) (find_message c' p' (erase_message c p t)).
Proof.
  rewrite find_erase_message. case_decide; [|constructor]. destruct (find_message c' p' t); constructor.
Qed.

Lemma set_msg_step c p m' m (t : gmap string (ClientTable OutgoingMessage)) c' p' :
  find_message c p t = Some m -> msg_step (Some m) (Some m') ->
  msg_step (find_message c' p' t) (find_message c' p' (set_message c p m' t)).
Proof.
  intros E Hs. rewrite find_set_message by (by rewrite E). case_decide as D; [|constructor].
  destruct D as [-> ->]. by rewrite E.
Qed.

Lemma qos2_exec_msg_step e h c p :
  qos2_wf cfg h ->
  msg_step (find_message c p (outgoing_ h)) (find_message c p (outgoing_ (qos2_exec cfg v e h).1)).
Proof.
  intros Hw. destruct e as [tree pub|c' p'|c' p'|c' p'|c' p']; cbn [qos2_exec].
  - destruct (deliver_spec pub (TopicTree.lookup (topic pub) tree) h Hw) as [_ Hg].
    destruct (Hg c p) as [E|(E & m & Em & ? & ?)]; unfold Qos2Handler.deliver.
    + rewrite E. constructor.
    + rewrite E, Em. by constructor.
  - unfold Qos2Handler.handle_pubrec.
    destruct (find_message c' p' (outgoing_ h)) as [m|] eqn:E; [|constructor].
    eapply set_msg_step; [done|]. by apply ms_pubrec.
  - simpl. unfold Qos2Handler.handle_pubrel.
    destruct (find_message c' p' (outgoing_ h)); [apply erase_msg_step | constructor].
  - simpl. unfold Qos2Handler.handle_pubcomp.
    destruct (find_message c' p' (outgoing_ h)); [apply erase_msg_step | constructor].
  - unfold Qos2Handler.retry_message.
    destruct (find_message c' p' (outgoing_ h)) as [m|] eqn:E; [|constructor].
    destruct (Z.leb_spec (max_retry_count cfg) (om_retry_count m)); [apply erase_msg_step|].
    eapply set_msg_step; [done|]. by apply ms_retry.
Qed.

Lemma send_connected_packet o packet s k :
  (s, k) ∈ Qos2Handler.send_connected v o packet -> k = packet.
Proof.
  unfold Qos2Handler.send_connected. destruct o as [s'|]; [|set_solver].
  destruct (view_connected v s'); set_solver.
Qed.

End Handler.

Lemma qos2_init_wf cfg : qos2_wf cfg Qos2Handler.init.
Proof. split; [apply table_wf_empty|]. intros c p m H. by vm_compute in H. Qed.

Lemma qos2_run_wf cfg es : forall h, qos2_wf cfg h -> qos2_wf cfg (qos2_run cfg es h).1.
Proof.
  unfold qos2_run. induction es as [|[v e] es IH]; intros h Hw; [done|]. cbn [send_each].
  pose proof (qos2_exec_wf cfg v e h Hw) as H1. destruct (qos2_exec cfg v e h) as [h1 out].
  specialize (IH h1 H1). by destruct (send_each es _ h1).
Qed.

(** Invariant of the QoS 2 handler: after any sequence of publications,
    acknowledgements and timer expiries, with sessions coming and going, the
    identifiers in use are exactly those of the stored messages, all in
    1..65535, each with an armed timer for itself and no more retries than
    configured. *)
Theorem qos2_invariant cfg es : qos2_wf cfg (qos2_run cfg es Qos2Handler.init).1.
Proof. apply qos2_run_wf, qos2_init_wf. Qed.

(** Every event leaves a message alone, creates it as [PUBLISH_SENT], moves it to
    [PUBREC_RECEIVED], counts a retry below the limit, or removes it. *)
Theorem qos2_message_steps cfg v e h c p :
  qos2_wf cfg h ->
  msg_step cfg (find_message c p (outgoing_ h)) (find_message c p (outgoing_ (qos2_exec cfg v e h).1)).
Proof. apply qos2_exec_msg_step. Qed.

(** The message stays in flight through the events. *)
Fixpoint stays (cfg : Config) (c : string) (p : Z) (es : list (SessionView * qos2_event)) (h : Qos2Handler) : Prop :=
  match es with
  | [] => True
  | (v, e) :: es =>
      let h' := (qos2_exec cfg v e h).1 in
      is_Some (find_message c p (outgoing_ h')) /\ stays cfg c p es h'
  end.

(** A message whose receipt was confirmed. *)
Definition confirmed (m m' : OutgoingMessage) : Prop :=
  om_state m' = PUBREC_RECEIVED /\ om_session m' = om_session m /\ om_topic m' = om_topic m /\
  om_payload m' = om_payload m.

Lemma confirmed_step cfg m m1 m2 : msg_step cfg (Some m1) (Some m2) -> confirmed m m1 -> confirmed m m2.
Proof. intros Hs (? & ? & ? & ?). inversion Hs; subst; unfold confirmed; repeat split; congruence. Qed.

Lemma confirmed_run cfg c p m es : forall h m1,
  qos2_wf cfg h -> find_message c p (outgoing_ h) = Some m1 -> confirmed m m1 -> stays cfg c p es h ->
  exists m2, find_message c p (outgoing_ (qos2_run cfg es h).1) = Some m2 /\ confirmed m m2.
Proof.
  unfold qos2_run. induction es as [|[v e] es IH]; intros h m1 Hw Hm Hc Hs; [by exists m1|]. cbn [send_each stays] in *.
  destruct Hs as [[m2 Hm2] Hs]. pose proof (qos2_exec_wf cfg v e h Hw) as Hw1.
  pose proof (qos2_exec_msg_step cfg v e h c p Hw) as Hst. rewrite Hm, Hm2 in Hst.
  destruct (IH _ m2 Hw1 Hm2 (confirmed_step _ _ _ _ Hst Hc) Hs) as (m3 & Hm3 & Hc3). exists m3.
  destruct (qos2_exec cfg v e h) as [h1 out]. simpl in Hm3. by destruct (send_each es _ h1).
Qed.

Lemma no_message_zero cfg c h m : qos2_wf cfg h -> find_message c 0 (outgoing_ h) = Some m -> False.
Proof.
  intros [Hw _] Hm. destruct (client_of_ids c (outgoing_ h) Hw) as [[_ Hi] _].
  assert (Hu : 0 ∈ used_ids c (outgoing_ h)) by (apply find_used; [done|by rewrite Hm]).
  specialize (Hi 0 Hu). unfold valid_id in Hi. lia.
Qed.

(** A publication never reuses the identifier of a message in flight. *)
Lemma publication_fresh cfg v pub c p l : forall h m s packet,
  qos2_wf cfg h -> find_message c p (outgoing_ h) = Some m ->
  (s, packet) ∈ (send_each l (Qos2Handler.deliver_entry cfg v pub) h).2 -> view_client_id v s = c ->
  exists q pid, packet = PacketBuilder.build_publish (topic pub) (contents (payload pub)) q false false pid /\ pid <> p.
Proof.
  induction l as [|e l IH]; intros h m s packet Hw Hm Hin Hv; [by apply elem_of_nil in Hin|].
  cbn [send_each] in Hin. pose proof (qos2_deliver_entry_spec cfg v pub e h Hw) as Hsp.
  destruct (Qos2Handler.deliver_entry cfg v pub e h) as [h1 out] eqn:Ed. destruct Hsp as [Hw1 Hg].
  assert (Hm1 : find_message c p (outgoing_ h1) = Some m) by (destruct (Hg c p) as [->|[Hn _]]; congruence).
  specialize (IH h1 m s packet Hw1 Hm1). destruct (send_each l _ h1) as [h2 out2]. simpl in *.
  apply elem_of_app in Hin as [Hin|Hin]; [|by apply IH]. clear IH Hg.
  unfold Qos2Handler.deliver_entry in Ed.
  destruct (TopicTree.lock (view_alive v) (entry_session e)) as [s'|]; [|injection Ed as <- <-; by apply elem_of_nil in Hin].
  destruct (Z.min (entry_qos e) (qos pub) <? 2).
  { injection Ed as <- <-. apply list_elem_of_singleton in Hin. injection Hin as -> ->. eexists _, 0. split; [reflexivity|].
    intros <-. by apply (no_message_zero cfg c h m Hw). }
  set (mk := fun pid => mkOutgoing _ _ _ _ _ _) in Ed.
  destruct (alloc_message_spec (view_client_id v s') mk (outgoing_ h) (proj1 Hw)) as [_ Ha].
  destruct (alloc_message (view_client_id v s') mk (outgoing_ h)) as [[pid|] tb]; injection Ed as <- <-;
    [|by apply elem_of_nil in Hin].
  apply list_elem_of_singleton in Hin. injection Hin as -> ->. eexists 2, pid. split; [reflexivity|].
  simpl in Ha. destruct Ha as (_ & Hn & _). rewrite Hv in Hn. congruence.
Qed.

(** [C14] Exactly-once delivery.  A PUBREC for a message in flight is answered
    with PUBREL (while its session is connected) and confirms the message.
    Then, whatever publications, acknowledgements, retries, connections and
    losses follow, as long as the message is in flight it stays confirmed, with its
    session, topic and payload, and its PUBLISH is never sent again: its own
    retries and repeated PUBRECs send PUBREL or nothing, a publication to the
    same client uses another identifier, and only PUBREL, PUBCOMP and the retry
    at the limit end it, without sending anything. *)
Theorem qos2_exactly_once cfg c p v0 h m es v e :
  qos2_wf cfg h -> find_message c p (outgoing_ h) = Some m ->
  let '(h1, out1) := qos2_exec cfg v0 (Pubrec c p) h in
  stays cfg c p es h1 ->
  let h2 := (qos2_run cfg es h1).1 in
  let '(h3, out) := qos2_exec cfg v e h2 in
  out1 = Qos2Handler.send_connected v0 (om_session m) (PacketBuilder.build_pubrel p) /\
  exists m2, find_message c p (outgoing_ h2) = Some m2 /\ confirmed m m2 /\
    match e with
    | Publish tree pub =>
        find_message c p (outgoing_ h3) = Some m2 /\
        forall s packet, (s, packet) ∈ out -> view_client_id v s = c ->
          exists q pid, pid <> p /\
            packet = PacketBuilder.build_publish (topic pub) (contents (payload pub)) q false false pid
    | Pubrec c' p' =>
        (c', p') = (c, p) -> out = Qos2Handler.send_connected v (om_session m) (PacketBuilder.build_pubrel p)
    | Retry c' p' =>
        (c', p') = (c, p) ->
        if max_retry_count cfg <=? om_retry_count m2
        then out = [] /\ find_message c p (outgoing_ h3) = None
        else out = Qos2Handler.send_connected v (om_session m) (PacketBuilder.build_pubrel p) /\
             exists m3, find_message c p (outgoing_ h3) = Some m3 /\ confirmed m m3 /\
               om_retry_count m3 = om_retry_count m2 + 1
    | Pubrel c' p' | Pubcomp c' p' =>
        out = [] /\ ((c', p') = (c, p) -> find_message c p (outgoing_ h3) = None)
    end.
Proof.
  intros Hw Hm. cbn [qos2_exec]. unfold Qos2Handler.handle_pubrec at 1. rewrite Hm.
  set (m1 := mkOutgoing _ _ _ PUBREC_RECEIVED _ _). set (h1 := mkQos2 _). intros Hst. set (h2 := (qos2_run cfg es h1).1).
  assert (Hw1 : qos2_wf cfg h1).
  { pose proof (qos2_exec_wf cfg v0 (Pubrec c p) h Hw) as Hx. cbn [qos2_exec] in Hx.
    unfold Qos2Handler.handle_pubrec in Hx. by rewrite Hm in Hx. }
  assert (Hm1 : find_message c p (outgoing_ h1) = Some m1)
    by (simpl; rewrite find_set_message by (by rewrite Hm); by rewrite decide_True).
  destruct (confirmed_run cfg c p m es h1 m1 Hw1 Hm1) as (m2 & Hm2 & Hc2); [by repeat split|done|]. fold h2 in Hm2.
  pose proof (qos2_run_wf cfg es h1 Hw1) as Hw2. fold h2 in Hw2.
  destruct (qos2_exec cfg v e h2) as [h3 out] eqn:Ex. split; [done|]. exists m2. split; [done|]. split; [done|].
  destruct Hc2 as (Hs2 & He2 & Ht2 & Hp2).
  destruct e as [tree pub|c' p'|c' p'|c' p'|c' p']; cbn [qos2_exec] in Ex.
  - destruct (deliver_spec cfg v pub (TopicTree.lookup (topic pub) tree) h2 Hw2) as [_ Hg].
    unfold Qos2Handler.deliver in Ex. rewrite Ex in Hg. split.
    + destruct (Hg c p) as [Hx|[Hx _]]; simpl in Hx; congruence.
    + intros s packet Hin Hv.
      destruct (publication_fresh cfg v pub c p (TopicTree.lookup (topic pub) tree) h2 m2 s packet Hw2 Hm2)
        as (q & pid & Hq & Hne); [by rewrite Ex|done|]. by exists q, pid.
  - intros [= -> ->]. unfold Qos2Handler.handle_pubrec in Ex. rewrite Hm2, He2 in Ex. by injection Ex as _ <-.
  - injection Ex as <- <-. split; [done|]. intros [= -> ->]. unfold Qos2Handler.handle_pubrel. rewrite Hm2. simpl.
    by rewrite find_erase_message, decide_True.
  - injection Ex as <- <-. split; [done|]. intros [= -> ->]. unfold Qos2Handler.handle_pubcomp. rewrite Hm2. simpl.
    by rewrite find_erase_message, decide_True.
  - intros [= -> ->]. unfold Qos2Handler.retry_message, Qos2Handler.retry_packet in Ex. rewrite Hm2, Hs2, He2 in Ex.
    destruct (max_retry_count cfg <=? om_retry_count m2); injection Ex as <- <-.
    + split; [done|]. simpl. by rewrite find_erase_message, decide_True.
    + split; [done|]. eexists. simpl. rewrite find_set_message by (by rewrite Hm2). rewrite decide_True by done.
      split; [reflexivity|]. by repeat split.
Qed.

Definition demo2_view : SessionView := mkView (fun _ => true) (fun _ => "c"%string) (fun _ => true).
Definition demo2_tree : TopicTree :=
  TopicTree.subscribe (fun _ => true) "a/+" (mkEntry (Some 7%nat) 2) TopicTree.init.
Definition demo2_pub : PublishPacket :=
  mkPublishPacket "a/b" (Buffer.of_bytes [Byte.x2a]) 2 false false 9.

(** PUBREC, then two retries: PUBREL twice, and no PUBLISH. *)
Lemma qos2_exactly_once_witness :
  let h := (qos2_run default_config [(demo2_view, Publish demo2_tree demo2_pub)] Qos2Handler.init).1 in
  let h1 := (qos2_exec default_config demo2_view (Pubrec "c" 1) h).1 in
  (qos2_exec default_config demo2_view (Retry "c" 1) h).2 =
    [(7%nat, PacketBuilder.build_publish "a/b" [Byte.x2a] 2 false true 1)] /\
  (qos2_exec default_config demo2_view (Retry "c" 1) (qos2_run default_config [(demo2_view, Retry "c" 1)] h1).1).2 =
    [(7%nat, PacketBuilder.build_pubrel 1)].
Proof.
  intros h h1. split; [vm_compute; reflexivity|].
  destruct (find_message "c" 1 (outgoing_ h)) as [m|] eqn:Hm; [|vm_compute in Hm; discriminate Hm].
  assert (Hs : om_session m = Some 7%nat).
  { assert (Hx : om_session <$> find_message "c" 1 (outgoing_ h) = Some (Some 7%nat)) by (vm_compute; reflexivity).
    rewrite Hm in Hx. exact (inj Some _ _ Hx). }
  pose proof (qos2_exactly_once default_config "c" 1 demo2_view h m [(demo2_view, Retry "c" 1)] demo2_view (Retry "c" 1)
    (qos2_run_wf _ _ _ (qos2_init_wf _)) Hm) as H.
  unfold h1. destruct (qos2_exec default_config demo2_view (Pubrec "c" 1) h) as [h1' out1] eqn:E1.
  assert (Hh : h1' = (qos2_exec default_config demo2_view (Pubrec "c" 1) h).1) by (rewrite E1; reflexivity).
  cbn [fst].
  assert (Hst : stays default_config "c" 1 [(demo2_view, Retry "c" 1)] h1').
  { split; [|exact I]. rewrite Hh. assert (Hx : bool_decide (is_Some (find_message "c" 1 (outgoing_
      (qos2_exec default_config demo2_view (Retry "c" 1) (qos2_exec default_config demo2_view (Pubrec "c" 1) h).1).1)))
      = true) by (vm_compute; reflexivity). apply bool_decide_eq_true in Hx. exact Hx. }
  specialize (H Hst). cbv zeta in H.
  destruct (qos2_exec default_config demo2_view (Retry "c" 1) (qos2_run _ _ h1').1) as [h3 out] eqn:E3.
  destruct H as (_ & m2 & Hm2 & _ & Hr). specialize (Hr eq_refl).
  assert (Hc : om_retry_count m2 = 1).
  { assert (Hx : om_retry_count <$> find_message "c" 1 (outgoing_ (qos2_run default_config [(demo2_view, Retry "c" 1)]
      (qos2_exec default_config demo2_view (Pubrec "c" 1) h).1).1) = Some 1) by (vm_compute; reflexivity).
    rewrite <- Hh, Hm2 in Hx. exact (inj Some _ _ Hx). }
  rewrite Hc in Hr. change (max_retry_count default_config <=? 1) with false in Hr. destruct Hr as [Hr _].
  cbn [snd]. rewrite Hr, Hs. reflexivity.
Defined.

(** The complete exchange: publishing at QoS 2 to one connected QoS 2
    subscriber whose identifiers are not used up, followed by the subscriber's
    PUBREC and PUBCOMP, sends exactly one PUBLISH and one PUBREL under the same
    identifier and leaves the handler without that message. *)
Theorem qos2_exchange cfg v tree pub h s :
  qos2_wf cfg h -> qos pub = 2 ->
  TopicTree.lookup (topic pub) tree = [mkEntry (Some s) 2] ->
  view_alive v s = true -> view_connected v s = true ->
  (size (used_ids (view_client_id v s) (outgoing_ h)) < id_fuel)%nat ->
  exists pid, valid_id pid /\
    let c := view_client_id v s in
    let '(h', out) := qos2_run cfg
      [(v, Publish tree pub); (v, Pubrec c pid); (v, Pubcomp c pid)] h in
    out = [(s, Qos2Handler.publication (topic pub) (payload pub) false pid);
           (s, PacketBuilder.build_pubrel pid)] /\
    find_message c pid (outgoing_ h') = None.
Proof.
  intros [Hw Hm] Hq Hl Ha Hc Hroom. set (c := view_client_id v s) in *.
  set (mk pid := mkOutgoing (Some s) (topic pub) (Buffer.of_bytes (contents (payload pub)))
                   PUBLISH_SENT (Timer.start (Qos2Handler.interval cfg) (c, pid) Timer.init) 0).
  pose proof (alloc_message_spec c mk (outgoing_ h) Hw) as [_ Hs].
  destruct (alloc_message c mk (outgoing_ h)) as [[pid|] t] eqn:E; simpl in Hs; [|lia].
  destruct Hs as (Hv & _ & Hf & _). exists pid. split; [done|]. simpl.
  unfold qos2_run. cbn [send_each qos2_exec].
  assert (Hd : Qos2Handler.deliver cfg v tree pub h =
    (mkQos2 t, [(s, Qos2Handler.publication (topic pub) (payload pub) false pid)])).
  { unfold Qos2Handler.deliver. rewrite Hl. cbn [send_each]. unfold Qos2Handler.deliver_entry. simpl.
    rewrite Ha, Hq. change (Z.min 2 2 <? 2) with false. fold c. cbv iota. fold mk. by rewrite E. }
  rewrite Hd. unfold Qos2Handler.handle_pubrec. simpl outgoing_.
  rewrite (Hf c pid), decide_True by done. unfold Qos2Handler.handle_pubcomp. simpl outgoing_.
  set (m' := mkOutgoing _ _ _ PUBREC_RECEIVED _ _).
  assert (Hfm : find_message c pid (set_message c pid m' t) = Some m').
  { rewrite find_set_message by (by rewrite Hf, decide_True). by rewrite decide_True. }
  rewrite Hfm. simpl. rewrite Hc. simpl. split; [done|]. by rewrite find_erase_message, decide_True.
Qed.

Lemma qos2_exchange_witness :
  exists pid, valid_id pid /\
    find_message "c" pid (outgoing_ (qos2_run default_config
      [(demo2_view, Publish demo2_tree demo2_pub); (demo2_view, Pubrec "c" pid);
       (demo2_view, Pubcomp "c" pid)] Qos2Handler.init).1) = None.
Proof.
  destruct (qos2_exchange default_config demo2_view demo2_tree demo2_pub Qos2Handler.init 7%nat)
    as (pid & Hv & H).
  - apply qos2_init_wf.
  - reflexivity.
  - vm_compute. reflexivity.
  - reflexivity.
  - reflexivity.
  - apply Nat.ltb_lt. vm_compute. reflexivity.
  - exists pid. split; [exact Hv|]. simpl in H.
    destruct (qos2_run _ _ _) as [h' out]. apply H.
Defined.

(** A QoS 2 publication to a subscriber that was granted QoS 1 is sent as
    a QoS 1 PUBLISH with packet identifier 0, an identifier MQTT reserves, and
    is not kept for retransmission. *)
Theorem qos2_downgrade_id_zero cfg v pub e s h :
  TopicTree.lock (view_alive v) (entry_session e) = Some s -> entry_qos e = 1 -> qos pub = 2 ->
  Qos2Handler.deliver_entry cfg v pub e h =
    (h, [(s, PacketBuilder.build_publish (topic pub) (contents (payload pub)) 1 false false 0)]).
Proof. intros Hs He Hq. unfold Qos2Handler.deliver_entry. by rewrite Hs, He, Hq. Qed.

Lemma qos2_downgrade_id_zero_witness :
  Qos2Handler.deliver_entry default_config demo2_view demo2_pub (mkEntry (Some 7%nat) 1)
    Qos2Handler.init =
  (Qos2Handler.init, [(7%nat, PacketBuilder.build_publish "a/b" [Byte.x2a] 1 false false 0)]).
Proof. apply (qos2_downgrade_id_zero _ demo2_view demo2_pub); reflexivity. Defined.
