(* ===== verification/Delivery.v ===== *)
(** * The delivery engine ([src/core/delivery_engine.h], [.cpp])

    Dispatches publications to the QoS handlers and keeps, per client, the
    QoS 2 publications received from it until its PUBREL releases them. *)

From Stdlib Require Import Strings.String ZArith Lia.
From stdpp Require Import base list strings numbers option gmap fin_maps sets.
From S2P Require Import Prelude Config Buffer Packet Filter TopicTree Timer Qos Inflight Qos1 Qos2.

Open Scope Z_scope.

Record IncomingMessage : Type := mkIncoming {
  im_topic : string;
  im_payload : Buffer;
  im_qos : Z
}.

Record DeliveryEngine : Type := mkEngine {
  qos1_ : Qos1Handler;
  qos2_ : Qos2Handler;
  incoming_qos2_ : gmap string (gmap Z IncomingMessage)
}.

Definition set_qos1 (h : Qos1Handler) (d : DeliveryEngine) : DeliveryEngine :=
  mkEngine h (qos2_ d) (incoming_qos2_ d).
Definition set_qos2 (h : Qos2Handler) (d : DeliveryEngine) : DeliveryEngine :=
  mkEngine (qos1_ d) h (incoming_qos2_ d).
Definition set_incoming (m : gmap string (gmap Z IncomingMessage)) (d : DeliveryEngine)
  : DeliveryEngine := mkEngine (qos1_ d) (qos2_ d) m.

(** The looked-up message of a client. *)
Definition incoming (cid : string) (pid : Z) (d : DeliveryEngine) : option IncomingMessage :=
  client ← incoming_qos2_ d !! cid; client !! pid.

Module DeliveryEngine.

Definition init : DeliveryEngine := mkEngine Qos1Handler.init Qos2Handler.init ∅.

Section Calls.

Context (cfg : Config) (v : SessionView).

(** [switch (pub.qos)] without a default case. *)
Definition publish_from_client (tree : TopicTree) (pub : PublishPacket) : sender DeliveryEngine :=
  fun d =>
  match qos pub with
  | 0 => (d, Qos0Handler.deliver v tree pub)
  | 1 => let '(h, out) := Qos1Handler.deliver cfg v tree pub (qos1_ d) in (set_qos1 h d, out)
  | 2 => let '(h, out) := Qos2Handler.deliver cfg v tree pub (qos2_ d) in (set_qos2 h d, out)
  | _ => (d, [])
  end.

Definition handle_puback (client_id : string) (packet_id : Z) (d : DeliveryEngine)
  : DeliveryEngine :=
  set_qos1 (Qos1Handler.handle_puback client_id packet_id (qos1_ d)) d.

Definition handle_pubrec (client_id : string) (packet_id : Z) : sender DeliveryEngine := fun d =>
  let '(h, out) := Qos2Handler.handle_pubrec v client_id packet_id (qos2_ d) in (set_qos2 h d, out).

Definition handle_pubrel (client_id : string) (packet_id : Z) (d : DeliveryEngine)
  : DeliveryEngine :=
  set_qos2 (Qos2Handler.handle_pubrel client_id packet_id (qos2_ d)) d.

Definition handle_pubcomp (client_id : string) (packet_id : Z) (d : DeliveryEngine)
  : DeliveryEngine :=
  set_qos2 (Qos2Handler.handle_pubcomp client_id packet_id (qos2_ d)) d.

Definition store_incoming_qos2 (client_id : string) (pub : PublishPacket) (d : DeliveryEngine)
  : DeliveryEngine :=
  let msg := mkIncoming (topic pub) (Buffer.of_bytes (contents (payload pub))) (qos pub) in
  let client := default ∅ (incoming_qos2_ d !! client_id) in
  set_incoming (<[client_id := <[packet_id pub := msg]> client]> (incoming_qos2_ d)) d.

(** The publication rebuilt from a stored message; the other members keep
    their defaults. *)
Definition released (msg : IncomingMessage) : PublishPacket :=
  mkPublishPacket (im_topic msg) (Buffer.of_bytes (contents (im_payload msg))) (im_qos msg)
    false false 0.

Definition complete_incoming_qos2 (client_id : string) (packet_id : Z) (tree : TopicTree)
    (d : DeliveryEngine) : bool * DeliveryEngine * list delivery :=
  match incoming_qos2_ d !! client_id with
  | None => (false, d, [])
  | Some client =>
      match client !! packet_id with
      | None => (false, d, [])
      | Some msg =>
          let client := delete packet_id client in
          let d := set_incoming (if decide (client = ∅) then delete client_id (incoming_qos2_ d)
                                 else <[client_id := client]> (incoming_qos2_ d)) d in
          let '(h, out) := Qos2Handler.deliver cfg v tree (released msg) (qos2_ d) in
          (true, set_qos2 h d, out)
      end
  end.

Definition clear_client_incoming (client_id : string) (d : DeliveryEngine) : DeliveryEngine :=
  set_incoming (delete client_id (incoming_qos2_ d)) d.

End Calls.

End DeliveryEngine.

(** ** The receiver's half of QoS 2 *)

Lemma incoming_store cid pub d c p :
  incoming c p (DeliveryEngine.store_incoming_qos2 cid pub d) =
    if decide (c = cid /\ p = packet_id pub)
    then Some (mkIncoming (topic pub) (Buffer.of_bytes (contents (payload pub))) (qos pub))
    else incoming c p d.
Proof.
  unfold incoming, DeliveryEngine.store_incoming_qos2. simpl.
  destruct (decide (c = cid)) as [->|Hc].
  - rewrite lookup_insert_eq. simpl. destruct (decide (p = packet_id pub)) as [->|Hp].
    + by rewrite lookup_insert_eq, decide_True.
    + rewrite lookup_insert_ne, decide_False by naive_solver.
      destruct (incoming_qos2_ d !! cid); simpl; [done | by rewrite lookup_empty].
  - by rewrite lookup_insert_ne, decide_False by naive_solver.
Qed.

Lemma incoming_clear cid d c p :
  incoming c p (DeliveryEngine.clear_client_incoming cid d) =
    if decide (c = cid) then None else incoming c p d.
Proof.
  unfold incoming, DeliveryEngine.clear_client_incoming. simpl. case_decide as D.
  - subst. by rewrite lookup_delete_eq.
  - by rewrite lookup_delete_ne.
Qed.

Lemma complete_spec cfg v cid pid tree d :
  match incoming cid pid d with
  | None => DeliveryEngine.complete_incoming_qos2 cfg v cid pid tree d = (false, d, [])
  | Some msg => exists d',
      DeliveryEngine.complete_incoming_qos2 cfg v cid pid tree d =
        (true, d', (Qos2Handler.deliver cfg v tree (DeliveryEngine.released msg) (qos2_ d)).2) /\
      qos1_ d' = qos1_ d /\
      qos2_ d' = (Qos2Handler.deliver cfg v tree (DeliveryEngine.released msg) (qos2_ d)).1 /\
      (forall c p, incoming c p d' = if decide (c = cid /\ p = pid) then None else incoming c p d)
  end.
Proof.
  unfold incoming at 1, DeliveryEngine.complete_incoming_qos2.
  destruct (incoming_qos2_ d !! cid) as [client|] eqn:Ec; simpl; [|done].
  destruct (client !! pid) as [msg|] eqn:Em; [|done].
  set (rest := if decide (delete pid client = ∅) then _ else _).
  assert (Hrest : forall c p, (rest !! c ≫= lookup p) =
    if decide (c = cid /\ p = pid) then None else incoming c p d).
  { intros c p. unfold incoming, rest. destruct (decide (c = cid)) as [->|Hc].
    - rewrite Ec. simpl.
      assert (Hl : forall p', delete pid client !! p' = if decide (cid = cid /\ p' = pid) then None else client !! p').
      { intros p'. destruct (decide (cid = cid /\ p' = pid)) as [[_ ->]|D]; [apply lookup_delete_eq|].
        apply lookup_delete_ne. intros ->. tauto. }
      destruct (decide (delete pid client = ∅)) as [He|He].
      + rewrite lookup_delete_eq. simpl. by rewrite <- Hl, He, lookup_empty.
      + rewrite lookup_insert_eq. simpl. apply Hl.
    - rewrite (decide_False (P := c = cid /\ p = pid)) by tauto.
      destruct (decide (delete pid client = ∅)); [by rewrite lookup_delete_ne | by rewrite lookup_insert_ne]. }
  simpl. destruct (Qos2Handler.deliver cfg v tree (DeliveryEngine.released msg) (qos2_ d)) as [h out].
  eexists. split; [done|]. split; [done|]. split; [done|]. exact Hrest.
Qed.

(** What a client's packets and the closing of its session do to the engine's
    incoming messages. *)
Inductive incoming_event : Type :=
| Received (client_id : string) (pub : PublishPacket)
| Released (client_id : string) (packet_id : Z) (v : SessionView) (tree : TopicTree)
| Cleared (client_id : string).

(** The engine after an event, whether it completed a message, and the
    packets sent to subscribers. *)
Definition incoming_exec (cfg : Config) (e : incoming_event) (d : DeliveryEngine)
  : bool * DeliveryEngine * list delivery :=
  match e with
  | Received c pub => (false, DeliveryEngine.store_incoming_qos2 c pub d, [])
  | Released c p v tree => DeliveryEngine.complete_incoming_qos2 cfg v c p tree d
  | Cleared c => (false, DeliveryEngine.clear_client_incoming c d, [])
  end.

Section Counting.

Context (cfg : Config) (c : string) (p : Z).

(** The PUBLISHes received, and the messages passed on, under [(c, p)]. *)
Definition receipt (e : incoming_event) : nat :=
  match e with
  | Received c' pub => if decide (c' = c /\ packet_id pub = p) then 1 else 0
  | _ => 0
  end.

Definition completion (e : incoming_event) (done : bool) : nat :=
  match e with
  | Released c' p' _ _ => if decide (c' = c /\ p' = p) then if done then 1 else 0 else 0
  | _ => 0
  end.

(** Completions along a run, and the engine it leaves. *)
Fixpoint completions (es : list incoming_event) (d : DeliveryEngine) : nat * DeliveryEngine :=
  match es with
  | [] => (0%nat, d)
  | e :: es =>
      let '(ok, d, _) := incoming_exec cfg e d in
      let '(n, d) := completions es d in ((completion e ok + n)%nat, d)
  end.

Definition waiting (d : DeliveryEngine) : nat :=
  match incoming c p d with Some _ => 1 | None => 0 end.

Lemma incoming_exec_budget e d :
  let '(ok, d', _) := incoming_exec cfg e d in
  (completion e ok + waiting d' <= waiting d + receipt e)%nat.
Proof.
  unfold waiting. destruct e as [c' pub|c' p' v tree|c']; cbn [incoming_exec completion receipt].
  - rewrite incoming_store. repeat case_decide; destruct (incoming c p d); naive_solver lia.
  - pose proof (complete_spec cfg v c' p' tree d) as H.
    destruct (incoming c' p' d) as [msg|] eqn:E.
    + destruct H as (d' & -> & _ & _ & Hi). rewrite Hi.
      destruct (decide (c' = c /\ p' = p)) as [[-> ->]|D].
      * rewrite decide_True by done. rewrite E. lia.
      * rewrite decide_False by naive_solver. lia.
    + rewrite H. case_decide; lia.
  - rewrite incoming_clear. case_decide; destruct (incoming c p d); lia.
Qed.

Lemma completions_budget es : forall d,
  ((completions es d).1 + waiting (completions es d).2 <=
   waiting d + list_sum (receipt <$> es))%nat.
Proof.
  induction es as [|e es IH]; intros d; [simpl; lia|]. cbn [completions].
  pose proof (incoming_exec_budget e d) as He.
  destruct (incoming_exec cfg e d) as [[ok d1] out]. specialize (IH d1).
  destruct (completions es d1) as [n d2]. cbn [fst snd] in *. rewrite fmap_cons.
  change (list_sum (receipt e :: ?l)) with (receipt e + list_sum l)%nat. lia.
Qed.

End Counting.

(** [C22] Exactly once on the receiving side: in any run of PUBLISH, PUBREL
    and session-closing events, the messages passed on to subscribers under a
    client's packet identifier are at most the one waiting plus the PUBLISHes
    received under it, and at most one between two such PUBLISHes, however
    often PUBREL is repeated. *)
Theorem incoming_at_most_once cfg c p es d :
  ((completions cfg c p es d).1 <= waiting c p d + list_sum (receipt c p <$> es))%nat /\
  (list_sum (receipt c p <$> es) = 0%nat -> (completions cfg c p es d).1 <= 1)%nat.
Proof.
  pose proof (completions_budget cfg c p es d) as H. split; [lia|].
  intros Hz. rewrite Hz in H. unfold waiting in H. destruct (incoming c p d); lia.
Qed.

Lemma incoming_at_most_once_witness :
  let d := DeliveryEngine.store_incoming_qos2 "c" (mkPublishPacket "a" Buffer.init 2 false false 9)
             DeliveryEngine.init in
  let rel := Released "c" 9 (mkView (fun _ => true) (fun _ => ""%string) (fun _ => true)) TopicTree.init in
  ((completions default_config "c" 9 [rel; rel; rel] d).1 <= 1)%nat.
Proof. intros d rel. apply incoming_at_most_once. reflexivity. Defined.

(** Release: whatever duplicates of a QoS 2 PUBLISH came before, the
    PUBREL that follows the last one hands exactly that publication, with
    topic, payload and QoS as received, to the QoS 2 handler, and the next
    PUBREL for it finds nothing and sends nothing. *)
Theorem incoming_release cfg v c pubs pub tree d :
  qos pub = 2 -> Forall (fun q => packet_id q = packet_id pub) pubs ->
  let d1 := foldl (fun d q => DeliveryEngine.store_incoming_qos2 c q d) d (pubs ++ [pub]) in
  exists d2,
    DeliveryEngine.complete_incoming_qos2 cfg v c (packet_id pub) tree d1 =
      (true, d2, (Qos2Handler.deliver cfg v tree
                    (mkPublishPacket (topic pub) (Buffer.of_bytes (contents (payload pub))) 2
                       false false 0) (qos2_ d)).2) /\
    DeliveryEngine.complete_incoming_qos2 cfg v c (packet_id pub) tree d2 = (false, d2, []) /\
    (forall c' p', (c', p') <> (c, packet_id pub) -> incoming c' p' d2 = incoming c' p' d).
Proof.
  intros Hq Hp d1.
  assert (Hd : qos2_ d1 = qos2_ d /\
    (forall c' p', (c', p') <> (c, packet_id pub) -> incoming c' p' d1 = incoming c' p' d)).
  { unfold d1. assert (Hall : Forall (fun q => packet_id q = packet_id pub) (pubs ++ [pub]))
      by (apply List.Forall_app; split; [done | by constructor]).
    clear Hp d1 Hq. revert d. induction Hall as [|q l Hq _ IH]; intros d; [done|]. cbn [foldl].
    destruct (IH (DeliveryEngine.store_incoming_qos2 c q d)) as [IH1 IH2].
    split; [done|]. intros c' p' Hne. rewrite IH2, incoming_store, Hq by done.
    rewrite decide_False by naive_solver. done. }
  destruct Hd as [Hd Hother].
  assert (Hi : incoming c (packet_id pub) d1 =
    Some (mkIncoming (topic pub) (Buffer.of_bytes (contents (payload pub))) 2)).
  { unfold d1. rewrite foldl_app. cbn [foldl]. by rewrite incoming_store, decide_True, Hq. }
  pose proof (complete_spec cfg v c (packet_id pub) tree d1) as Hc. rewrite Hi in Hc.
  destruct Hc as (d2 & -> & _ & _ & Hi2). exists d2.
  unfold DeliveryEngine.released. simpl. rewrite contents_of_bytes, Hd. split; [done|]. split.
  - pose proof (complete_spec cfg v c (packet_id pub) tree d2) as Hc.
    by rewrite Hi2, decide_True in Hc by done.
  - intros c' p' Hne. rewrite Hi2, decide_False by naive_solver. by apply Hother.
Qed.

Lemma incoming_release_witness :
  exists d2 out,
    DeliveryEngine.complete_incoming_qos2 default_config demo2_view "c" 9 demo2_tree
      (DeliveryEngine.store_incoming_qos2 "c" demo2_pub DeliveryEngine.init) = (true, d2, out) /\
    DeliveryEngine.complete_incoming_qos2 default_config demo2_view "c" 9 demo2_tree d2 =
      (false, d2, []).
Proof.
  destruct (incoming_release default_config demo2_view "c" [] demo2_pub demo2_tree DeliveryEngine.init)
    as (d2 & H1 & H2 & _); [reflexivity | constructor |].
  eexists d2, _. split; [exact H1 | exact H2].
Defined.
