(* ===== verification/World.v ===== *)
(** * The broker's state ([src/core/context.h], [src/session.h], [src/server.h])

    The state of the whole broker as a session sees it through its
    [BrokerContext], and the member functions of [Session] as computations on
    it.  A [Session*] is its key in the heap [sessions]; a [weak_ptr] locks
    while the key is present.

    Of asio the model keeps, per session, whether the socket is open, whether
    a read is outstanding, and the packets handed to [async_write]; each
    completion handler is an event of its own.  [deliver] runs its body at
    once, as [dispatch] does on an idle strand.  The lock of [server_state] is
    explicit: taking it twice in one call never returns.  The pointers of
    [BrokerContext] are those [Broker::update_context] installs, none null but
    [ssl_ctx], which decides whether a session starts with a TLS handshake; the
    encryption of what is then read and written is not represented. *)

From Stdlib Require Import Strings.String ZArith QArith.QArith_base Lia.
From stdpp Require Import base list strings numbers option gmap fin_maps sets.
From S2P Require Import Prelude Config Buffer Packet Parser Filter TopicTree Subscription Auth Timer Qos Inflight Qos1 Qos2 Delivery.

Open Scope Z_scope.

(** ** State *)

Record ServerState : Type := mkServerState {
  mutex : bool;
  active_clients : gmap string session_id;
  auth_failures : gmap string Z;
  auth_ban_until : gmap string Z;
  connections_per_ip : gmap string Z
}.

Record MessageCounters : Type := mkCounters {
  received : Z;
  published : Z;
  dropped : Z;
  subscribed : Z
}.

Record Session : Type := mkSession {
  parser_ : PacketParser;
  read_buf_ : Buffer;
  write_queue_ : list Buffer;
  writing_ : bool;
  client_id_ : string;
  username_ : string;
  remote_ip_ : string;
  clean_session_ : bool;
  connected_ : bool;
  keepalive_ : Z;
  keepalive_timer_ : option (Timer unit);
  (** the socket, an outstanding [async_read_some], and what was handed to
      [async_write] so far *)
  socket_open : bool;
  reading : bool;
  sent : list Buffer;
  (** [ssl_stream_] is set, and its handshake is outstanding *)
  tls_ : bool;
  handshaking : bool
}.

(** The members of [Server] ([src/server.h]), whether an accept is outstanding,
    and the number of sessions created so far: the identity of the next one,
    so that a [weak_ptr] to a session that is gone never locks again. *)
Record Server : Type := mkServer {
  active_connections_ : Z;
  max_connections_ : Z;
  accepting : bool;
  created : nat
}.

(** The objects a [BrokerContext] refers to, the sessions and the server. *)
Record World (A : Type) : Type := mkWorld {
  sessions : gmap session_id Session;
  topic_tree : TopicTree;
  sub_manager : SubscriptionManager;
  auth : A;
  delivery_engine : DeliveryEngine;
  server_state : ServerState;
  counters : MessageCounters;
  server : Server;
  (** [ctx.ssl_ctx] is set *)
  ssl_ctx : bool
}.
Arguments mkWorld {A}.
Arguments sessions {A}.
Arguments topic_tree {A}.
Arguments sub_manager {A}.
Arguments auth {A}.
Arguments delivery_engine {A}.
Arguments server_state {A}.
Arguments counters {A}.
Arguments server {A}.
Arguments ssl_ctx {A}.

Definition set_parser (x : PacketParser) (s : Session) : Session :=
  mkSession x (read_buf_ s) (write_queue_ s) (writing_ s) (client_id_ s) (username_ s)
    (remote_ip_ s) (clean_session_ s) (connected_ s) (keepalive_ s) (keepalive_timer_ s)
    (socket_open s) (reading s) (sent s) (tls_ s) (handshaking s).
Definition set_read_buf (x : Buffer) (s : Session) : Session :=
  mkSession (parser_ s) x (write_queue_ s) (writing_ s) (client_id_ s) (username_ s)
    (remote_ip_ s) (clean_session_ s) (connected_ s) (keepalive_ s) (keepalive_timer_ s)
    (socket_open s) (reading s) (sent s) (tls_ s) (handshaking s).
Definition set_write_queue (x : list Buffer) (s : Session) : Session :=
  mkSession (parser_ s) (read_buf_ s) x (writing_ s) (client_id_ s) (username_ s) (remote_ip_ s)
    (clean_session_ s) (connected_ s) (keepalive_ s) (keepalive_timer_ s) (socket_open s)
    (reading s) (sent s) (tls_ s) (handshaking s).
Definition set_writing (x : bool) (s : Session) : Session :=
  mkSession (parser_ s) (read_buf_ s) (write_queue_ s) x (client_id_ s) (username_ s)
    (remote_ip_ s) (clean_session_ s) (connected_ s) (keepalive_ s) (keepalive_timer_ s)
    (socket_open s) (reading s) (sent s) (tls_ s) (handshaking s).
Definition set_client_id (x : string) (s : Session) : Session :=
  mkSession (parser_ s) (read_buf_ s) (write_queue_ s) (writing_ s) x (username_ s)
    (remote_ip_ s) (clean_session_ s) (connected_ s) (keepalive_ s) (keepalive_timer_ s)
    (socket_open s) (reading s) (sent s) (tls_ s) (handshaking s).
Definition set_username (x : string) (s : Session) : Session :=
  mkSession (parser_ s) (read_buf_ s) (write_queue_ s) (writing_ s) (client_id_ s) x
    (remote_ip_ s) (clean_session_ s) (connected_ s) (keepalive_ s) (keepalive_timer_ s)
    (socket_open s) (reading s) (sent s) (tls_ s) (handshaking s).
Definition set_remote_ip (x : string) (s : Session) : Session :=
  mkSession (parser_ s) (read_buf_ s) (write_queue_ s) (writing_ s) (client_id_ s) (username_ s)
    x (clean_session_ s) (connected_ s) (keepalive_ s) (keepalive_timer_ s) (socket_open s)
    (reading s) (sent s) (tls_ s) (handshaking s).
Definition set_clean_session (x : bool) (s : Session) : Session :=
  mkSession (parser_ s) (read_buf_ s) (write_queue_ s) (writing_ s) (client_id_ s) (username_ s)
    (remote_ip_ s) x (connected_ s) (keepalive_ s) (keepalive_timer_ s) (socket_open s)
    (reading s) (sent s) (tls_ s) (handshaking s).
Definition set_connected (x : bool) (s : Session) : Session :=
  mkSession (parser_ s) (read_buf_ s) (write_queue_ s) (writing_ s) (client_id_ s) (username_ s)
    (remote_ip_ s) (clean_session_ s) x (keepalive_ s) (keepalive_timer_ s) (socket_open s)
    (reading s) (sent s) (tls_ s) (handshaking s).
Definition set_keepalive (x : Z) (s : Session) : Session :=
  mkSession (parser_ s) (read_buf_ s) (write_queue_ s) (writing_ s) (client_id_ s) (username_ s)
    (remote_ip_ s) (clean_session_ s) (connected_ s) x (keepalive_timer_ s) (socket_open s)
    (reading s) (sent s) (tls_ s) (handshaking s).
Definition set_keepalive_timer (x : option (Timer unit)) (s : Session) : Session :=
  mkSession (parser_ s) (read_buf_ s) (write_queue_ s) (writing_ s) (client_id_ s) (username_ s)
    (remote_ip_ s) (clean_session_ s) (connected_ s) (keepalive_ s) x (socket_open s)
    (reading s) (sent s) (tls_ s) (handshaking s).
Definition set_socket_open (x : bool) (s : Session) : Session :=
  mkSession (parser_ s) (read_buf_ s) (write_queue_ s) (writing_ s) (client_id_ s) (username_ s)
    (remote_ip_ s) (clean_session_ s) (connected_ s) (keepalive_ s) (keepalive_timer_ s) x
    (reading s) (sent s) (tls_ s) (handshaking s).
Definition set_reading (x : bool) (s : Session) : Session :=
  mkSession (parser_ s) (read_buf_ s) (write_queue_ s) (writing_ s) (client_id_ s) (username_ s)
    (remote_ip_ s) (clean_session_ s) (connected_ s) (keepalive_ s) (keepalive_timer_ s)
    (socket_open s) x (sent s) (tls_ s) (handshaking s).
Definition set_sent (x : list Buffer) (s : Session) : Session :=
  mkSession (parser_ s) (read_buf_ s) (write_queue_ s) (writing_ s) (client_id_ s) (username_ s)
    (remote_ip_ s) (clean_session_ s) (connected_ s) (keepalive_ s) (keepalive_timer_ s)
    (socket_open s) (reading s) x (tls_ s) (handshaking s).
Definition set_handshaking (x : bool) (s : Session) : Session :=
  mkSession (parser_ s) (read_buf_ s) (write_queue_ s) (writing_ s) (client_id_ s) (username_ s)
    (remote_ip_ s) (clean_session_ s) (connected_ s) (keepalive_ s) (keepalive_timer_ s)
    (socket_open s) (reading s) (sent s) (tls_ s) x.

Definition set_mutex (x : bool) (s : ServerState) : ServerState :=
  mkServerState x (active_clients s) (auth_failures s) (auth_ban_until s) (connections_per_ip s).
Definition set_active_clients (x : gmap string session_id) (s : ServerState) : ServerState :=
  mkServerState (mutex s) x (auth_failures s) (auth_ban_until s) (connections_per_ip s).
Definition set_auth_failures (x : gmap string Z) (s : ServerState) : ServerState :=
  mkServerState (mutex s) (active_clients s) x (auth_ban_until s) (connections_per_ip s).
Definition set_auth_ban_until (x : gmap string Z) (s : ServerState) : ServerState :=
  mkServerState (mutex s) (active_clients s) (auth_failures s) x (connections_per_ip s).
Definition set_connections_per_ip (x : gmap string Z) (s : ServerState) : ServerState :=
  mkServerState (mutex s) (active_clients s) (auth_failures s) (auth_ban_until s) x.

Section Setters.

Context {A : Type}.

Definition put_sessions (x : gmap session_id Session) (w : World A) : World A :=
  mkWorld x (topic_tree w) (sub_manager w) (auth w) (delivery_engine w) (server_state w)
    (counters w) (server w) (ssl_ctx w).
Definition put_topic_tree (x : TopicTree) (w : World A) : World A :=
  mkWorld (sessions w) x (sub_manager w) (auth w) (delivery_engine w) (server_state w)
    (counters w) (server w) (ssl_ctx w).
Definition put_sub_manager (x : SubscriptionManager) (w : World A) : World A :=
  mkWorld (sessions w) (topic_tree w) x (auth w) (delivery_engine w) (server_state w)
    (counters w) (server w) (ssl_ctx w).
Definition put_auth (x : A) (w : World A) : World A :=
  mkWorld (sessions w) (topic_tree w) (sub_manager w) x (delivery_engine w) (server_state w)
    (counters w) (server w) (ssl_ctx w).
Definition put_delivery_engine (x : DeliveryEngine) (w : World A) : World A :=
  mkWorld (sessions w) (topic_tree w) (sub_manager w) (auth w) x (server_state w) (counters w)
    (server w) (ssl_ctx w).
Definition put_server_state (x : ServerState) (w : World A) : World A :=
  mkWorld (sessions w) (topic_tree w) (sub_manager w) (auth w) (delivery_engine w) x
    (counters w) (server w) (ssl_ctx w).
Definition put_counters (x : MessageCounters) (w : World A) : World A :=
  mkWorld (sessions w) (topic_tree w) (sub_manager w) (auth w) (delivery_engine w)
    (server_state w) x (server w) (ssl_ctx w).
Definition put_server (x : Server) (w : World A) : World A :=
  mkWorld (sessions w) (topic_tree w) (sub_manager w) (auth w) (delivery_engine w)
    (server_state w) (counters w) x (ssl_ctx w).

End Setters.
