(* ===== verification/Session.v ===== *)
(** * Sessions ([src/session.cpp])

    The member functions of [Session] as computations on the broker's state.
    [E] is what the authenticator sees of the outside world during a call and
    [now] the system clock in seconds. *)

From Stdlib Require Import Strings.String ZArith QArith.QArith_base Lia.
From stdpp Require Import base list strings numbers option gmap fin_maps sets.
From S2P Require Import Prelude Config Buffer Packet Parser Filter TopicTree Subscription Auth Timer Qos Inflight Qos1 Qos2 Delivery World.

Open Scope Z_scope.

(** ** Access to the state *)

Section Access.

Context {A : Type}.
Abbreviation W := (World A).

(** [*this]: a session that is gone may not be used. *)
Definition this (sid : session_id) : M W Session := fun w =>
  match sessions w !! sid with Some s => (Ret s, w) | None => (Undefined, w) end.

Definition update (sid : session_id) (f : Session -> Session) : M W unit :=
  this sid;; modify (fun w => put_sessions (alter f sid (sessions w)) w).

(** [std::lock_guard<std::mutex> lock(ctx_.server_state->mutex)] around [m]:
    released on return and on an exception; locking twice never returns. *)
Definition with_lock {X} (m : M W X) : M W X := fun w =>
  if mutex (server_state w) then (Deadlock, w)
  else
    match m (put_server_state (set_mutex true (server_state w)) w) with
    | (Deadlock, w) => (Deadlock, w)
    | (o, w) => (o, put_server_state (set_mutex false (server_state w)) w)
    end.

Definition state (f : ServerState -> ServerState) : M W unit :=
  modify (fun w => put_server_state (f (server_state w)) w).

Definition count (f : MessageCounters -> MessageCounters) : M W unit :=
  modify (fun w => put_counters (f (counters w)) w).

Definition tree (f : TopicTree -> TopicTree) : M W unit :=
  modify (fun w => put_topic_tree (f (topic_tree w)) w).

Definition subs (f : SubscriptionManager -> SubscriptionManager) : M W unit :=
  modify (fun w => put_sub_manager (f (sub_manager w)) w).

Definition engine (f : DeliveryEngine -> DeliveryEngine) : M W unit :=
  modify (fun w => put_delivery_engine (f (delivery_engine w)) w).

(** [weak_ptr<Session>::lock()]. *)
Definition alive (w : W) (s : session_id) : bool := bool_decide (is_Some (sessions w !! s)).

(** What the delivery engine reads of the sessions. *)
Definition view_of (w : W) : SessionView :=
  mkView (alive w)
    (fun s => match sessions w !! s with Some x => client_id_ x | None => ""%string end)
    (fun s => match sessions w !! s with Some x => connected_ x | None => false end).

(** [try { ... parse(packet) } catch (const std::exception&)]: [None] when it
    throws. *)
Definition try_parse {X} (m : M Buffer X) (packet : Buffer) : M W (option X) := fun w =>
  match (m packet).1 with
  | Ret x => (Ret (Some x), w)
  | Throw _ => (Ret None, w)
  | Deadlock => (Deadlock, w)
  | Undefined => (Undefined, w)
  end.

(** A call of the authenticator. *)
Definition auth_call {X} (m : M A X) : M W X := fun w =>
  match m (auth w) with
  | (Ret x, a) => (Ret x, put_auth a w)
  | (Throw e, a) => (Throw e, put_auth a w)
  | (Deadlock, a) => (Deadlock, put_auth a w)
  | (Undefined, a) => (Undefined, put_auth a w)
  end.

End Access.

(** ** [Session] *)

Module Session.

(** The members a constructor leaves. *)
Definition init (tls : bool) (remote_ip : string) : Session :=
  mkSession PacketParser.init Buffer.init [] false "" "" remote_ip true false 0 None true false []
    tls false.

Section Handlers.

Context {E A : Type} `{Authenticator E A} (cfg : Config) (env : E) (now : Z).
Abbreviation W := (World A).

(** [do_read]: the read is outstanding until its handler runs. *)
Definition do_read (sid : session_id) : M W unit :=
  update sid (fun s =>
    set_reading true (set_read_buf (Buffer.ensure_writable 4096 (Buffer.clear (read_buf_ s))) s)).

(** [do_ssl_handshake]: the handshake is outstanding until its handler runs. *)
Definition do_ssl_handshake (sid : session_id) : M W unit := update sid (set_handshaking true).

Definition start (sid : session_id) : M W unit :=
  s ← this sid;
  if tls_ s then do_ssl_handshake sid else do_read sid.

Definition stop (sid : session_id) : M W unit :=
  update sid (fun s =>
    set_socket_open false
      (set_keepalive_timer (Timer.cancel <$> keepalive_timer_ s) (set_connected false s))).

(** [if (--it->second <= 0) erase(it)]. *)
Definition drop_ip (ip : string) (m : gmap string Z) : gmap string Z :=
  match m !! ip with
  | None => m
  | Some n => if n - 1 <=? 0 then delete ip m else <[ip := n - 1]> m
  end.

(** [existing.get() == this] on the locked entry. *)
Definition drop_active (w : W) (cid : string) (sid : session_id) (m : gmap string session_id)
  : gmap string session_id :=
  match m !! cid with
  | Some s => if alive w s && (s =? sid)%nat then delete cid m else m
  | None => m
  end.

Definition close (sid : session_id) : M W unit :=
  s ← this sid;
  if negb (connected_ s) then mret tt else
  update sid (set_connected false);;
  with_lock (
    state (fun st => set_connections_per_ip (drop_ip (remote_ip_ s) (connections_per_ip st)) st);;
    if negb (String.eqb (client_id_ s) "") then
      w ← get;
      state (fun st => set_active_clients (drop_active w (client_id_ s) sid (active_clients st)) st)
    else mret tt);;
  (if negb (String.eqb (client_id_ s) "")
   then engine (DeliveryEngine.clear_client_incoming (client_id_ s)) else mret tt);;
  (if negb (clean_session_ s) && negb (String.eqb (client_id_ s) "") then mret tt
   else if negb (String.eqb (client_id_ s) "") then
     w ← get;
     for_each (SubscriptionManager.get_client_subs (client_id_ s) (sub_manager w)) (fun sub =>
       tree (TopicTree.unsubscribe (alive w) (Subscription.topic_filter sub) (Some sid)));;
     subs (SubscriptionManager.remove_client (client_id_ s))
   else mret tt);;
  update sid (set_socket_open false).

(** The completion handler of [async_handshake]. *)
Definition on_handshake (sid : session_id) (ec : bool) : M W unit :=
  update sid (set_handshaking false);;
  if ec then close sid else do_read sid.

(** [do_write]: [async_write] of the queue's front. *)
Definition do_write (sid : session_id) : M W unit :=
  update sid (fun s =>
    match write_queue_ s with
    | packet :: _ =>
        if connected_ s then set_sent (sent s ++ [packet]) (set_writing true s)
        else set_writing false s
    | [] => set_writing false s
    end).

Definition deliver (sid : session_id) (packet : Buffer) : M W unit :=
  s ← this sid;
  if negb (connected_ s) then mret tt
  else if max_write_queue_size cfg <=? i32 (Z.of_nat (length (write_queue_ s))) then close sid
  else
    let was_empty := match write_queue_ s with [] => true | _ => false end in
    update sid (set_write_queue (write_queue_ s ++ [packet]));;
    if was_empty then do_write sid else mret tt.

(** The completion handler of [async_write]; [pop_front] needs an element. *)
Definition on_write (sid : session_id) (ec : bool) : M W unit :=
  if ec then close sid
  else
    s ← this sid;
    match write_queue_ s with
    | [] => undefined
    | _ :: queue => update sid (set_write_queue queue);; do_write sid
    end.

(** The packets a call of the delivery engine sends. *)
Definition send_all (out : list delivery) : M W unit :=
  for_each out (fun d => deliver d.1 d.2).

Definition engine_call (f : SessionView -> sender DeliveryEngine) : M W unit :=
  w ← get;
  let '(d, out) := f (view_of w) (delivery_engine w) in
  engine (fun _ => d);; send_all out.

Definition check_auth_rate_limit (sid : session_id) : M W bool :=
  s ← this sid;
  with_lock (
    w ← get;
    match auth_ban_until (server_state w) !! remote_ip_ s with
    | Some until =>
        if now <? until then mret false
        else
          state (fun st =>
            set_auth_failures (delete (remote_ip_ s) (auth_failures st))
              (set_auth_ban_until (delete (remote_ip_ s) (auth_ban_until st)) st));;
          mret true
    | None => mret true
    end).

(** [keepalive_ * multiplier], truncated towards zero, in seconds. *)
Definition keepalive_seconds (k : Z) : Z :=
  Z.quot (k * Qnum (keepalive_multiplier cfg)) (Zpos (Qden (keepalive_multiplier cfg))).

(** [std::chrono::seconds(static_cast<int>(keepalive_ * multiplier))], in
    milliseconds: converting a value an [int] does not hold is undefined. *)
Definition keepalive_duration (k : Z) : M W Z :=
  if int_fits (keepalive_seconds k) then mret (keepalive_seconds k * 1000) else undefined.

Definition start_keepalive (sid : session_id) : M W unit :=
  s ← this sid;
  if keepalive_ s =? 0 then mret tt else
  duration ← keepalive_duration (keepalive_ s);
  update sid (set_keepalive_timer (Some (Timer.start duration tt Timer.init))).

Definition on_keepalive_timeout (sid : session_id) : M W unit := close sid.

(** [deliver(build_connack(false, code)); close(); return;]. *)
Definition refuse (sid : session_id) (code : ConnackCode) : M W unit :=
  deliver sid (PacketBuilder.build_connack false code);; close sid.

(** The effective keepalive of a connection. *)
Definition clamp_keepalive (k : Z) : Z :=
  if k =? 0 then u16 (max_keepalive cfg)
  else if max_keepalive cfg <? k then u16 (max_keepalive cfg) else k.

(** One failed attempt: count it in an [int], which may not overflow, and ban
    the address at the limit.  [now], a count of seconds a nanosecond clock
    returned, plus an [int] is far within its [int64_t]. *)
Definition record_auth_failure (ip : string) : M W unit :=
  with_lock (
    w ← get;
    let fails := default 0 (auth_failures (server_state w) !! ip) + 1 in
    if negb (int_fits fails) then undefined else
    state (fun st => set_auth_failures (<[ip := fails]> (auth_failures st)) st);;
    if max_auth_attempts cfg <=? fails
    then state (fun st =>
           set_auth_ban_until (<[ip := now + auth_ban_seconds cfg]> (auth_ban_until st)) st)
    else mret tt).

(** The authentication block: whether the connection may go on. *)
Definition authenticated (sid : session_id) (ip : string) (conn : ConnectPacket) : M W bool :=
  if negb (String.eqb (username conn) "") || negb (String.eqb (password conn) "") then
    r ← auth_call (authenticate env (client_id conn) (username conn) (password conn));
    if negb (success r) then
      record_auth_failure ip;; refuse sid (reason r);; mret false
    else mret true
  else mret true.

(** Under the lock: clear the failures, close an older session of the same
    client id, and register this one. *)
Definition register_client (sid : session_id) (ip cid : string) : M W unit :=
  with_lock (
    state (fun st =>
      set_auth_ban_until (delete ip (auth_ban_until st))
        (set_auth_failures (delete ip (auth_failures st)) st));;
    w ← get;
    (match active_clients (server_state w) !! cid with
     | Some old => if alive w old && negb (old =? sid)%nat then close old else mret tt
     | None => mret tt
     end);;
    state (fun st => set_active_clients (<[cid := sid]> (active_clients st)) st)).

(** Restore the stored subscriptions, or forget them; [session_present]. *)
Definition restore_subscriptions (sid : session_id) (cid : string) (clean : bool) : M W bool :=
  if negb clean then
    w ← get;
    let existing := SubscriptionManager.get_client_subs cid (sub_manager w) in
    for_each existing (fun sub =>
      tree (TopicTree.subscribe (alive w) (Subscription.topic_filter sub)
              (mkEntry (Some sid) (sub_qos sub))));;
    mret (match existing with [] => false | _ => true end)
  else subs (SubscriptionManager.remove_client cid);; mret false.

Definition accept_connection (sid : session_id) (conn : ConnectPacket) : M W unit :=
  update sid (fun s =>
    set_connected true (set_keepalive (clamp_keepalive (keepalive conn))
      (set_clean_session (clean_session conn)
        (set_username (username conn) (set_client_id (client_id conn) s)))));;
  session_present ← restore_subscriptions sid (client_id conn) (clean_session conn);
  deliver sid (PacketBuilder.build_connack session_present ACCEPTED);;
  start_keepalive sid.

Definition handle_connect (sid : session_id) (packet : Buffer) : M W unit :=
  s ← this sid;
  if connected_ s then close sid else
  parsed ← try_parse parse_connect packet;
  match parsed with
  | None => close sid
  | Some conn =>
      if negb (String.eqb (protocol_name conn) MQTT_PROTOCOL_NAME) ||
         negb (protocol_level conn =? MQTT_PROTOCOL_LEVEL)
      then refuse sid REFUSED_PROTOCOL
      else if String.eqb (client_id conn) "" && negb (clean_session conn)
      then refuse sid REFUSED_ID_REJECTED
      else
        allowed ← check_auth_rate_limit sid;
        if negb allowed then refuse sid REFUSED_SERVER_UNAVAIL
        else
          ok ← authenticated sid (remote_ip_ s) conn;
          if negb ok then mret tt
          else
            register_client sid (remote_ip_ s) (client_id conn);;
            accept_connection sid conn
  end.

Definition count_received : M W unit :=
  count (fun c => mkCounters (received c + 1) (published c) (dropped c) (subscribed c)).
Definition count_published : M W unit :=
  count (fun c => mkCounters (received c) (published c + 1) (dropped c) (subscribed c)).
Definition count_dropped : M W unit :=
  count (fun c => mkCounters (received c) (published c) (dropped c + 1) (subscribed c)).
Definition count_subscribed : M W unit :=
  count (fun c => mkCounters (received c) (published c) (dropped c) (subscribed c + 1)).

(** The retained message a publication leaves: empty for an empty payload. *)
Definition retained_of (pub : PublishPacket) : RetainedMessage :=
  if negb (Buffer.empty (payload pub))
  then mkRetained (Buffer.of_bytes (contents (payload pub))) (qos pub)
  else mkRetained Buffer.init 0.

(** [ctx_.delivery->publish_from_client( *ctx_.topic_tree, pub)]. *)
Definition publish_from_client (pub : PublishPacket) : M W unit :=
  w ← get;
  engine_call (fun v => DeliveryEngine.publish_from_client cfg v (topic_tree w) pub).

(** [switch (pub.qos)] of [handle_publish]; there is no default case. *)
Definition publish_by_qos (sid : session_id) (cid : string) (pub : PublishPacket) : M W unit :=
  match qos pub with
  | 0 => publish_from_client pub;; count_published
  | 1 =>
      deliver sid (PacketBuilder.build_puback (packet_id pub));;
      publish_from_client pub;; count_published
  | 2 =>
      deliver sid (PacketBuilder.build_pubrec (packet_id pub));;
      engine (DeliveryEngine.store_incoming_qos2 cid pub)
  | _ => mret tt
  end.

(** [set_retained]; a refusal is only logged. *)
Definition retain_publication (pub : PublishPacket) : M W unit :=
  if retain pub
  then tree (fun t => (TopicTree.set_retained cfg (topic pub) (retained_of pub) t).2)
  else mret tt.

Definition handle_publish (sid : session_id) (packet : Buffer) (hdr : FixedHeader) : M W unit :=
  s ← this sid;
  if negb (connected_ s) then mret tt else
  parsed ← try_parse (parse_publish hdr) packet;
  match parsed with
  | None => close sid
  | Some pub =>
      access ← auth_call (check_acl env (username_ s) (topic pub) Access.WRITE);
      if access =? Access.NONE then count_dropped
      else if negb (topic.is_valid_topic cfg (topic pub)) then count_dropped
      else
        count_received;;
        retain_publication pub;;
        publish_by_qos sid (client_id_ s) pub
  end.

(** The retained messages that match a new subscription. *)
Definition deliver_retained (sid : session_id) (filter : string) : M W unit :=
  w ← get;
  for_each (TopicTree.get_all_retained (topic_tree w)) (fun '(t, msg) =>
    if topic.matches t filter
    then deliver sid (PacketBuilder.build_publish t (contents (retained_payload msg))
                        (retained_qos msg) true false 0)
    else mret tt).

(** The body of the loop of [handle_subscribe]: the return code it pushes. *)
Definition subscribe_filter (sid : session_id) (s : Session) (f : SubscribeFilter)
  : M W SubackCode :=
  if negb (topic.is_valid_filter cfg (Packet.topic_filter f)) then mret FAILURE else
  access ← auth_call (check_acl env (username_ s) (Packet.topic_filter f) Access.READ);
  if access =? Access.NONE then mret FAILURE else
  w ← get;
  if negb (clean_session_ s) &&
     (max_subscriptions_per_client cfg <=?
        i32 (Z.of_nat (length (SubscriptionManager.get_client_subs (client_id_ s) (sub_manager w)))))
  then mret FAILURE
  else
    tree (TopicTree.subscribe (alive w) (Packet.topic_filter f) (mkEntry (Some sid) (requested_qos f)));;
    (if negb (clean_session_ s)
     then subs (SubscriptionManager.add (client_id_ s) (Packet.topic_filter f) (requested_qos f))
     else mret tt);;
    count_subscribed;;
    deliver_retained sid (Packet.topic_filter f);;
    mret (suback_code_of (requested_qos f)).

Fixpoint subscribe_filters (sid : session_id) (s : Session) (fs : list SubscribeFilter)
  : M W (list SubackCode) :=
  match fs with
  | [] => mret []
  | f :: fs =>
      code ← subscribe_filter sid s f;
      codes ← subscribe_filters sid s fs;
      mret (code :: codes)
  end.

Definition handle_subscribe (sid : session_id) (packet : Buffer) : M W unit :=
  s ← this sid;
  if negb (connected_ s) then mret tt else
  parsed ← try_parse parse_subscribe packet;
  match parsed with
  | None => close sid
  | Some sub =>
      return_codes ← subscribe_filters sid s (filters sub);
      deliver sid (PacketBuilder.build_suback (sub_packet_id sub) return_codes)
  end.

Definition handle_unsubscribe (sid : session_id) (packet : Buffer) : M W unit :=
  s ← this sid;
  if negb (connected_ s) then mret tt else
  parsed ← try_parse parse_unsubscribe packet;
  match parsed with
  | None => close sid
  | Some unsub =>
      for_each (topic_filters unsub) (fun f =>
        w ← get;
        tree (TopicTree.unsubscribe (alive w) f (Some sid));;
        if negb (clean_session_ s) then subs (SubscriptionManager.remove (client_id_ s) f)
        else mret tt);;
      deliver sid (PacketBuilder.build_unsuback (unsub_packet_id unsub))
  end.

Definition handle_pingreq (sid : session_id) : M W unit :=
  s ← this sid;
  if negb (connected_ s) then mret tt else deliver sid PacketBuilder.build_pingresp.

Definition handle_disconnect (sid : session_id) : M W unit :=
  update sid (set_connected false);; close sid.

(** The four acknowledgement handlers share their frame: parse, act, close on
    an exception. *)
Definition handle_ack (sid : session_id) (parse : M Buffer Z) (packet : Buffer)
    (act : string -> Z -> M W unit) : M W unit :=
  s ← this sid;
  if negb (connected_ s) then mret tt else
  parsed ← try_parse parse packet;
  match parsed with
  | None => close sid
  | Some pid => try_catch (act (client_id_ s) pid) (fun _ => close sid)
  end.

Definition handle_puback (sid : session_id) (packet : Buffer) : M W unit :=
  handle_ack sid parse_puback packet (fun cid pid => engine (DeliveryEngine.handle_puback cid pid)).

Definition handle_pubrec (sid : session_id) (packet : Buffer) : M W unit :=
  handle_ack sid parse_pubrec packet (fun cid pid =>
    engine_call (fun v => DeliveryEngine.handle_pubrec v cid pid)).

(** [complete_incoming_qos2] and the packets it sends. *)
Definition complete_incoming (cid : string) (pid : Z) : M W bool :=
  w ← get;
  let '(ok, d, out) :=
    DeliveryEngine.complete_incoming_qos2 cfg (view_of w) cid pid (topic_tree w) (delivery_engine w) in
  engine (fun _ => d);; send_all out;; mret ok.

Definition handle_pubrel (sid : session_id) (packet : Buffer) : M W unit :=
  handle_ack sid parse_pubrel packet (fun cid pid =>
    ok ← complete_incoming cid pid;
    if ok : bool then count_published;; deliver sid (PacketBuilder.build_pubcomp pid)
    else engine (DeliveryEngine.handle_pubrel cid pid)).

Definition handle_pubcomp (sid : session_id) (packet : Buffer) : M W unit :=
  handle_ack sid parse_pubcomp packet (fun cid pid => engine (DeliveryEngine.handle_pubcomp cid pid)).

(** [switch (type)]; other types are only logged. *)
Definition dispatch (sid : session_id) (hdr : FixedHeader) (packet : Buffer) : M W unit :=
  match packet_type_of (hdr_type hdr) with
  | Some CONNECT => handle_connect sid packet
  | Some PUBLISH => handle_publish sid packet hdr
  | Some PUBACK => handle_puback sid packet
  | Some PUBREC => handle_pubrec sid packet
  | Some PUBREL => handle_pubrel sid packet
  | Some PUBCOMP => handle_pubcomp sid packet
  | Some SUBSCRIBE => handle_subscribe sid packet
  | Some UNSUBSCRIBE => handle_unsubscribe sid packet
  | Some PINGREQ => handle_pingreq sid
  | Some DISCONNECT => handle_disconnect sid
  | _ => mret tt
  end.

Definition handle_packet (sid : session_id) (packet : Buffer) : M W unit :=
  if Buffer.empty packet then mret tt
  else if (Buffer.readable packet <? 1)%nat then mret tt
  else fun w =>
    match read_header packet with
    | (Ret hdr, packet) => dispatch sid hdr packet w
    | (Throw e, _) => (Throw e, w)
    | (Deadlock, _) => (Deadlock, w)
    | (Undefined, _) => (Undefined, w)
    end.

(** [while (parser_.try_extract(packet)) ...]; the result says whether the
    loop ended without an exception.  Every extraction shortens the parser's
    buffer, which the handlers do not touch, so [extract_all] gives the loop
    enough rounds; running out of them would be [Undefined]. *)
Fixpoint read_loop (fuel : nat) (sid : session_id) : M W bool :=
  match fuel with
  | O => undefined
  | S fuel =>
      s ← this sid;
      let '(out, p) := PacketParser.try_extract cfg (parser_ s) in
      update sid (set_parser p);;
      match out with
      | None => mret true
      | Some packet =>
          if (Buffer.readable packet =? 0)%nat then read_loop fuel sid
          else
            ok ← try_catch (handle_packet sid packet;; mret true)
                           (fun _ => close sid;; mret false);
            if ok : bool then read_loop fuel sid else mret false
      end
  end.

Definition extract_all (sid : session_id) : M W bool :=
  s ← this sid; read_loop (S (Buffer.size (buffer_ (parser_ s)))) sid.

(** [on_read] after a successful read of [bs] into [read_buf_]. *)
Definition on_read (sid : session_id) (ec : bool) (bytes_transferred : nat) : M W unit :=
  if ec then close sid else
  s ← this sid;
  update sid (set_parser (PacketParser.feed cfg (take bytes_transferred (data_ (read_buf_ s)))
                            (parser_ s)));;
  ok ← extract_all sid;
  if negb ok then mret tt else
  s ← this sid;
  if PacketParser.has_error (parser_ s) then close sid
  else
    update sid (fun s =>
      if connected_ s then set_keepalive_timer (Timer.reset <$> keepalive_timer_ s) s else s);;
    s ← this sid;
    if connected_ s then do_read sid else mret tt.

(** [read_buf_.advance_write(bytes); on_read(ec, bytes)]: asio has stored [bs]
    at [write_head()], within the capacity it was given. *)
Definition receive (sid : session_id) (bs : list byte) : M W unit :=
  s ← this sid;
  let b := read_buf_ s in
  let b := mkBuffer (list_inserts (write_pos_ b) bs (data_ b)) (read_pos_ b) (write_pos_ b) in
  match Buffer.advance_write (length bs) b with
  | (Ret _, b) => update sid (set_read_buf b);; on_read sid false (length bs)
  | (Throw e, _) => throw e
  | _ => undefined
  end.

(** The completion handler of [async_read_some]. *)
Definition read_handler (sid : session_id) (ec : bool) (bs : list byte) : M W unit :=
  update sid (set_reading false);;
  if ec then on_read sid true 0 else receive sid bs.

End Handlers.

End Session.
