(* ===== verification/Closing.v ===== *)
(** * Closing a session ([Session::close], [Session::deliver])

    [close] on a connected session while the server lock is free, as one state
    transformation, and what [deliver] does to a session. *)

From Stdlib Require Import Strings.String ZArith Lia.
From stdpp Require Import base list strings numbers option gmap fin_maps sets.
From S2P Require Import Prelude Config Buffer Packet Parser Filter TopicTree Subscription Auth Timer Qos Inflight Qos1 Qos2 Delivery World Session.

Open Scope Z_scope.

(** Altering a present key inserts. *)
Lemma alter_as_insert {V} (m : gmap session_id V) f i x :
  m !! i = Some x -> alter f i m = <[i := f x]> m.
Proof.
  intros Hx. apply map_eq. intros j. destruct (decide (j = i)) as [->|Hne].
  - by rewrite lookup_insert_eq, lookup_alter_eq, Hx.
  - by rewrite lookup_insert_ne, lookup_alter_ne.
Qed.

Section Close.

Context {A : Type}.
Abbreviation W := (World A).
Implicit Types (w : W) (s : Session) (sid : session_id).

(** [connected_ = false], the first assignment. *)
Definition disconnected w sid : W := put_sessions (alter (set_connected false) sid (sessions w)) w.

(** The server state after a session is closed. *)
Definition closed_state w sid s : ServerState :=
  let st := server_state w in
  mkServerState false
    (if String.eqb (client_id_ s) "" then active_clients st
     else Session.drop_active (disconnected w sid) (client_id_ s) sid (active_clients st))
    (auth_failures st) (auth_ban_until st)
    (Session.drop_ip (remote_ip_ s) (connections_per_ip st)).

(** The subscriptions [close] withdraws from the tree: those the subscription
    manager holds for a clean session's client id. *)
Definition withdrawn w s : list Subscription :=
  if clean_session_ s && negb (String.eqb (client_id_ s) "")
  then SubscriptionManager.get_client_subs (client_id_ s) (sub_manager w) else [].

Definition closed w sid s : W :=
  mkWorld
    (alter (set_socket_open false) sid (alter (set_connected false) sid (sessions w)))
    (foldl (fun t sub => TopicTree.unsubscribe (alive (disconnected w sid))
                           (Subscription.topic_filter sub) (Some sid) t)
       (topic_tree w) (withdrawn w s))
    (if clean_session_ s && negb (String.eqb (client_id_ s) "")
     then SubscriptionManager.remove_client (client_id_ s) (sub_manager w) else sub_manager w)
    (auth w)
    (if String.eqb (client_id_ s) "" then delivery_engine w
     else DeliveryEngine.clear_client_incoming (client_id_ s) (delivery_engine w))
    (closed_state w sid s)
    (counters w) (server w) (ssl_ctx w).

(** Member functions on a session that exists. *)
Lemma this_bind_eq {X} w sid s (k : Session -> M W X) :
  sessions w !! sid = Some s -> (this sid ≫= k) w = k s w.
Proof. intros Hs. unfold this, mbind, M_bind. by rewrite Hs. Qed.

Lemma update_eq w sid s g :
  sessions w !! sid = Some s ->
  update sid g w = (Ret tt, put_sessions (alter g sid (sessions w)) w).
Proof. intros Hs. unfold update. by rewrite (this_bind_eq w sid s). Qed.

Lemma update_then w sid s g {X} (k : unit -> M W X) :
  sessions w !! sid = Some s ->
  (update sid g ≫= k) w = k tt (put_sessions (alter g sid (sessions w)) w).
Proof. intros Hs. unfold mbind at 1, M_bind at 1. by rewrite (update_eq w sid s). Qed.

Lemma updated w sid s g :
  sessions w !! sid = Some s ->
  sessions (put_sessions (alter g sid (sessions w)) w) !! sid = Some (g s).
Proof. intros Hs. simpl. by rewrite lookup_alter_eq, Hs. Qed.

Lemma for_each_tree {X} (l : list X) (g : X -> TopicTree -> TopicTree) w :
  for_each l (fun x => tree (g x)) w =
    (Ret tt, put_topic_tree (foldl (fun t x => g x t) (topic_tree w) l) w).
Proof.
  revert w. induction l as [|x l IH]; intros w; [by destruct w|].
  cbn [for_each foldl]. unfold mbind, M_bind, tree at 1, modify. by rewrite IH.
Qed.

(** Closing a session that is not connected does nothing. *)
Lemma close_disconnected w sid s :
  sessions w !! sid = Some s -> connected_ s = false -> Session.close sid w = (Ret tt, w).
Proof.
  intros Hs Hc. unfold Session.close, this, mbind, M_bind. by rewrite Hs, Hc.
Qed.

(** Closing a connected one under the server lock never returns. *)
Lemma close_deadlock w sid s :
  sessions w !! sid = Some s -> connected_ s = true -> mutex (server_state w) = true ->
  Session.close sid w = (Deadlock, disconnected w sid).
Proof.
  intros Hs Hc Hm. unfold Session.close. rewrite (this_bind_eq w sid s) by done. rewrite Hc. simpl.
  rewrite (update_then w sid s) by done. unfold with_lock, mbind, M_bind. simpl. by rewrite Hm.
Qed.

Lemma close_connected w sid s :
  sessions w !! sid = Some s -> connected_ s = true -> mutex (server_state w) = false ->
  Session.close sid w = (Ret tt, closed w sid s).
Proof.
  intros Hs Hc Hm. unfold closed, closed_state, withdrawn, Session.close.
  rewrite (this_bind_eq w sid s) by done. rewrite Hc. simpl. rewrite (update_then w sid s) by done.
  pose proof (updated w sid s (set_connected false) Hs) as Hs'.
  unfold with_lock, state, engine, subs, get, modify, mbind, M_bind, mret, M_ret.
  destruct w as [ses tr sm au de [mu ac af ab ci] co se]. simpl in *. subst mu.
  destruct (String.eqb (client_id_ s) "") eqn:He; simpl; rewrite ?andb_false_r, ?andb_true_r.
  - by rewrite (update_eq _ sid (set_connected false s)).
  - destruct (clean_session_ s); simpl; [rewrite for_each_tree; simpl|];
      by rewrite (update_eq _ sid (set_connected false s)).
Qed.

(** ** [deliver] *)

(** What [do_write] does to a session. *)
Definition pump s : Session :=
  match write_queue_ s with
  | packet :: _ =>
      if connected_ s then set_sent (sent s ++ [packet]) (set_writing true s)
      else set_writing false s
  | [] => set_writing false s
  end.

(** Queue a packet on a connected session, and start writing when idle. *)
Definition enqueue (packet : Buffer) s : Session :=
  let s' := set_write_queue (write_queue_ s ++ [packet]) s in
  match write_queue_ s with [] => pump s' | _ => s' end.

(** The queue has room ([static_cast<int>] of its size). *)
Definition has_room (cfg : Config) s : bool :=
  i32 (Z.of_nat (length (write_queue_ s))) <? max_write_queue_size cfg.

Lemma deliver_cases cfg sid packet w s :
  sessions w !! sid = Some s ->
  Session.deliver cfg sid packet w =
    if negb (connected_ s) then (Ret tt, w)
    else if has_room cfg s then (Ret tt, put_sessions (alter (enqueue packet) sid (sessions w)) w)
    else Session.close sid w.
Proof.
  intros Hs. unfold Session.deliver. rewrite (this_bind_eq w sid s) by done.
  destruct (connected_ s); [|done]. simpl. unfold has_room. rewrite Z.ltb_antisym.
  destruct (max_write_queue_size cfg <=? _); [done|]. simpl.
  rewrite (update_then w sid s) by done. unfold Session.do_write.
  assert (Ha : forall g, (forall x, sessions w !! sid = Some x ->
      g (set_write_queue (write_queue_ s ++ [packet]) x) = enqueue packet x) ->
    alter g sid (alter (set_write_queue (write_queue_ s ++ [packet])) sid (sessions w)) =
    alter (enqueue packet) sid (sessions w)).
  { intros g Hg. rewrite alter_alter_eq. apply alter_ext. intros x Hx. by apply Hg. }
  destruct (write_queue_ s) as [|p q] eqn:Eq; unfold mret, M_ret.
  - rewrite (update_eq _ sid _ _ (updated w sid s _ Hs)). simpl.
    apply (f_equal (fun m => (Ret tt, put_sessions m w))), Ha. intros x Hx. rewrite Hs in Hx. injection Hx as <-.
    unfold enqueue. by rewrite Eq.
  - apply (f_equal (fun m => (Ret tt, put_sessions m w))), alter_ext. intros x Hx. rewrite Hs in Hx. injection Hx as <-.
    unfold enqueue. by rewrite Eq.
Qed.

(** A completed write: the packet leaves the queue and the next one goes out. *)
Definition written s : Session := pump (set_write_queue (tail (write_queue_ s)) s).

Lemma on_write_eq w sid s :
  sessions w !! sid = Some s -> write_queue_ s <> [] ->
  Session.on_write sid false w = (Ret tt, put_sessions (alter written sid (sessions w)) w).
Proof.
  intros Hs Hq. unfold Session.on_write. rewrite (this_bind_eq w sid s) by done.
  destruct (write_queue_ s) as [|p q] eqn:Eq; [done|].
  rewrite (update_then w sid s) by done. unfold Session.do_write.
  rewrite (update_eq _ sid _ _ (updated w sid s _ Hs)). simpl. rewrite alter_alter_eq.
  apply (f_equal (fun m => (Ret tt, put_sessions m w))), alter_ext. intros x Hx.
  rewrite Hs in Hx. injection Hx as <-. unfold written. by rewrite Eq.
Qed.

End Close.
