(* ===== verification/Steady.v ===== *)
(** * Packet handlers leave the parsers alone

    The loop of [Session::on_read] extracts packets from the session's parser
    and runs a handler after each.  It ends because every extraction shortens
    the parser's buffer and no handler of [src/session.cpp] touches it: a
    computation that leaves the parser of every session as it was is [steady],
    and [handle_packet] is. *)

From Stdlib Require Import Strings.String ZArith Lia.
From stdpp Require Import base list strings numbers gmap option.
From S2P Require Import Prelude Config Buffer Packet Parser Filter TopicTree Subscription Auth Timer Qos Inflight Qos1 Qos2 Delivery World Session Closing.

Open Scope Z_scope.

Section Steady.

Context {A : Type}.
Abbreviation W := (World A).
Implicit Types (w : W).

(** Whatever its outcome, the computation changes no session's parser. *)
Definition steady {X} (m : M W X) : Prop :=
  forall w sid, parser_ <$> sessions (m w).2 !! sid = parser_ <$> sessions w !! sid.

Lemma steady_ret {X} (x : X) : steady (mret x).
Proof. by intros w sid. Qed.

Lemma steady_undefined {X} : steady (undefined : M W X).
Proof. by intros w sid. Qed.

Lemma steady_get : steady (get : M W W).
Proof. by intros w sid. Qed.

Lemma steady_this sid : steady (this (A := A) sid).
Proof. intros w x. unfold this. by destruct (sessions w !! sid). Qed.

Lemma steady_bind {X Y} (m : M W X) (k : X -> M W Y) :
  steady m -> (forall x, steady (k x)) -> steady (m ≫= k).
Proof.
  intros Hm Hk w sid. specialize (Hm w sid). unfold mbind, M_bind.
  destruct (m w) as [[x|e| |] w1]; simpl in *; try done. by rewrite Hk.
Qed.

Lemma steady_for_each {X} (l : list X) (f : X -> M W unit) :
  (forall x, steady (f x)) -> steady (for_each l f).
Proof.
  intros Hf. induction l as [|x l IH]; [apply steady_ret|]. by apply steady_bind.
Qed.

Lemma steady_try_catch {X} (m : M W X) h :
  steady m -> (forall e, steady (h e)) -> steady (try_catch m h).
Proof.
  intros Hm Hh w sid. specialize (Hm w sid). unfold try_catch.
  destruct (m w) as [[x|e| |] w1]; simpl in *; try done. by rewrite Hh.
Qed.

Lemma steady_modify g : (forall w, sessions (g w) = sessions w) -> steady (modify g).
Proof. intros Hg w sid. simpl. by rewrite Hg. Qed.

Lemma steady_update sid g : (forall s, parser_ (g s) = parser_ s) -> steady (update (A := A) sid g).
Proof.
  intros Hg. apply steady_bind; [apply steady_this|]. intros _ w x. simpl.
  destruct (decide (x = sid)) as [->|Hne].
  - rewrite lookup_alter_eq. destruct (sessions w !! sid); simpl; [|done]. by rewrite Hg.
  - by rewrite lookup_alter_ne.
Qed.

Lemma steady_with_lock {X} (m : M W X) : steady m -> steady (with_lock m).
Proof.
  intros Hm w sid. unfold with_lock. destruct (mutex _); [done|].
  specialize (Hm (put_server_state (set_mutex true (server_state w)) w) sid).
  destruct (m _) as [[x|e| |] w1]; done.
Qed.

Lemma steady_try_parse {X} (m : M Buffer X) packet : steady (try_parse (A := A) m packet).
Proof. intros w sid. unfold try_parse. by destruct (m packet).1. Qed.

Lemma steady_auth_call {X} (m : M A X) : steady (auth_call m).
Proof. intros w sid. unfold auth_call. by destruct (m (auth w)) as [[x|e| |] a]. Qed.

End Steady.

(** Case analysis on the tests and matches of a handler, its calls by hints. *)
Ltac steady_cases :=
  repeat match goal with
  | |- steady (if ?b then _ else _) => destruct b
  | |- steady (match ?x with _ => _ end) => destruct x
  | |- steady (let '_ := ?x in _) => destruct x
  | |- steady (_ ≫= _) => apply steady_bind; [|intros ?]
  | |- steady (with_lock _) => apply steady_with_lock
  | |- steady (try_catch _ _) => apply steady_try_catch; [|intros ?]
  | |- steady (for_each _ _) => apply steady_for_each; intros ?
  | |- _ => by auto with steadiness
  | |- steady (update _ _) => apply steady_update; intros ?; simpl; by repeat case_match
  end.

Create HintDb steadiness discriminated.
#[export] Hint Resolve steady_ret steady_undefined steady_get steady_this steady_try_parse
  steady_auth_call : steadiness.

Section Handlers.

Context {E A : Type} `{Authenticator E A} (cfg : Config) (env : E) (now : Z) (sid : session_id).
Abbreviation W := (World A).

Lemma steady_state g : steady (state (A := A) g).
Proof. by apply steady_modify. Qed.
Lemma steady_count g : steady (count (A := A) g).
Proof. by apply steady_modify. Qed.
Lemma steady_tree g : steady (tree (A := A) g).
Proof. by apply steady_modify. Qed.
Lemma steady_subs g : steady (subs (A := A) g).
Proof. by apply steady_modify. Qed.
Lemma steady_engine g : steady (engine (A := A) g).
Proof. by apply steady_modify. Qed.
#[local] Hint Resolve steady_state steady_count steady_tree steady_subs steady_engine : steadiness.

Lemma steady_close s : steady (Session.close (A := A) s).
Proof. unfold Session.close. steady_cases. Qed.
#[local] Hint Resolve steady_close : steadiness.

Lemma steady_deliver s packet : steady (Session.deliver (A := A) cfg s packet).
Proof. unfold Session.deliver, Session.do_write. steady_cases. Qed.
#[local] Hint Resolve steady_deliver : steadiness.

Lemma steady_engine_call f : steady (Session.engine_call (A := A) cfg f).
Proof. unfold Session.engine_call, Session.send_all. steady_cases. Qed.
#[local] Hint Resolve steady_engine_call : steadiness.

Lemma steady_handle_connect packet : steady (Session.handle_connect cfg env now sid packet).
Proof.
  unfold Session.handle_connect, Session.refuse, Session.check_auth_rate_limit,
    Session.authenticated, Session.record_auth_failure, Session.register_client,
    Session.accept_connection, Session.restore_subscriptions, Session.start_keepalive, Session.keepalive_duration,
    Session.refuse.
  steady_cases.
Qed.

Lemma steady_handle_publish packet hdr : steady (Session.handle_publish cfg env sid packet hdr).
Proof.
  unfold Session.handle_publish, Session.retain_publication, Session.publish_by_qos,
    Session.publish_from_client, Session.count_dropped, Session.count_received,
    Session.count_published.
  steady_cases.
Qed.

Lemma steady_subscribe_filters s fs : steady (Session.subscribe_filters cfg env sid s fs).
Proof.
  induction fs as [|f fs IH]; [apply steady_ret|]. cbn [Session.subscribe_filters].
  unfold Session.subscribe_filter, Session.deliver_retained, Session.count_subscribed.
  steady_cases; exact IH.
Qed.
#[local] Hint Resolve steady_subscribe_filters steady_handle_connect steady_handle_publish
  : steadiness.

Lemma steady_handle_ack parse packet act :
  (forall c p, steady (act c p)) -> steady (Session.handle_ack (A := A) sid parse packet act).
Proof. intros Ha. unfold Session.handle_ack. steady_cases. Qed.

Lemma steady_dispatch hdr packet : steady (Session.dispatch cfg env now sid hdr packet).
Proof.
  unfold Session.dispatch, Session.handle_subscribe, Session.handle_unsubscribe,
    Session.handle_pingreq, Session.handle_disconnect.
  steady_cases; (apply steady_handle_ack; intros c p);
    unfold Session.complete_incoming, Session.send_all, Session.count_published; steady_cases.
Qed.

Lemma steady_handle_packet packet : steady (Session.handle_packet cfg env now sid packet).
Proof.
  unfold Session.handle_packet. steady_cases.
  intros w x. destruct (read_header packet) as [[hdr|e| |] b]; [apply steady_dispatch|done..].
Qed.

End Handlers.
