(* ===== verification/Server.v ===== *)
(** * The acceptor and the event loop ([src/server.h], [src/server.cpp])

    [Server::on_accept], and the events that asio dispatches to the broker:
    every completion handler and every timer of [src/session.cpp],
    [src/server.cpp] and the QoS handlers, as steps of one state machine.  A
    handler runs to its end, its exception, or the lock it never gets. *)

From Stdlib Require Import Strings.String ZArith Lia.
From stdpp Require Import base list strings numbers option gmap fin_maps sets infinite.
From S2P Require Import Prelude Config Buffer Packet Parser Filter TopicTree Subscription Auth Timer Qos Inflight Qos1 Qos2 Delivery World Session.

Open Scope Z_scope.

Module Server.

Section Accept.

Context {A : Type} (cfg : Config).
Abbreviation W := (World A).

Definition set_accepting (b : bool) : M W unit :=
  modify (fun w => put_server (mkServer (active_connections_ (server w)) (max_connections_ (server w)) b
                                  (created (server w))) w).

Definition do_accept : M W unit := set_accepting true.

(** The per-address check under the lock: whether the connection is refused.
    The count is an [int]. *)
Definition count_ip (ip : string) : M W bool :=
  with_lock (
    w ← get;
    let ip_count := default 0 (connections_per_ip (server_state w) !! ip) + 1 in
    if negb (int_fits ip_count) then undefined else
    state (fun st => set_connections_per_ip (<[ip := ip_count]> (connections_per_ip st)) st);;
    if max_connections_per_ip cfg <? ip_count then
      state (fun st => set_connections_per_ip (<[ip := ip_count - 1]> (connections_per_ip st)) st);;
      mret true
    else mret false).

(** [std::make_shared<Session>]: a key that was never used. *)
Definition new_session (ip : string) : M W session_id :=
  w ← get;
  let sid := created (server w) in
  modify (put_sessions (<[sid := Session.init (ssl_ctx w) ip]> (sessions w)));;
  modify (fun w => put_server (mkServer (active_connections_ (server w)) (max_connections_ (server w))
                                 (accepting (server w)) (S sid)) w);;
  mret sid.

(** [remote] is the address [remote_endpoint()] returns; [None] when it throws
    because the peer is gone. *)
Definition on_accept (ec : bool) (remote : option string) : M W unit :=
  set_accepting false;;
  if ec then do_accept else
  match remote with
  | None => throw (runtime_error "remote_endpoint")
  | Some remote_ip =>
      srv ← gets server;
      if max_connections_ srv <=? active_connections_ srv then do_accept
      else
        rejected ← count_ip remote_ip;
        if rejected : bool then do_accept
        else
          sid ← new_session remote_ip;
          modify (fun w => put_server (mkServer (active_connections_ (server w) + 1)
                                         (max_connections_ (server w)) (accepting (server w))
                                         (created (server w))) w);;
          Session.start sid;;
          do_accept
  end.

End Accept.

End Server.

(** ** Events *)

Inductive event : Type :=
| Accepted (ec : bool) (remote : option string)
| Handshaken (sid : session_id) (ec : bool)
| Read (sid : session_id) (ec : bool) (bs : list byte)
| Written (sid : session_id) (ec : bool)
| KeepaliveTick (sid : session_id)
| Qos1Timer (client_id : string) (packet_id : Z)
| Qos2Timer (client_id : string) (packet_id : Z)
| Destroyed (sid : session_id).

Section Events.

Context {E A : Type} `{Authenticator E A} (cfg : Config).
Abbreviation W := (World A).

(** The start of the broker: empty components, the acceptor armed, with or
    without TLS. *)
Definition initial (tls : bool) (a : A) : W :=
  mkWorld ∅ TopicTree.init SubscriptionManager.init a DeliveryEngine.init
    (mkServerState false ∅ ∅ ∅ ∅) (mkCounters 0 0 0 0) (mkServer 0 (max_connections cfg) true 0) tls.

(** A timer runs its handler and calls its callback when it is active. *)
Definition keepalive_tick (sid : session_id) : M W unit :=
  s ← this sid;
  update sid (fun s =>
    set_keepalive_timer ((fun t => (Timer.on_tick Expired t).2) <$> keepalive_timer_ s) s);;
  match keepalive_timer_ s ≫= (fun t => (Timer.on_tick Expired t).1) with
  | Some _ => Session.on_keepalive_timeout sid
  | None => mret tt
  end.

(** The retry timers of the in-flight messages call [retry_message]. *)
Definition qos1_timer (cid : string) (pid : Z) : M W unit :=
  Session.engine_call cfg (fun v d =>
    let '(h, out) := Qos1Handler.retry_message cfg v cid pid (qos1_ d) in (set_qos1 h d, out)).

Definition qos2_timer (cid : string) (pid : Z) : M W unit :=
  Session.engine_call cfg (fun v d =>
    let '(h, out) := Qos2Handler.retry_message cfg v cid pid (qos2_ d) in (set_qos2 h d, out)).

(** [Session::~Session]: [stop()], and the object is gone. *)
Definition destroy (sid : session_id) : M W unit :=
  Session.stop sid;; modify (fun w => put_sessions (delete sid (sessions w)) w).

Definition exec (env : E) (now : Z) (e : event) : M W unit :=
  match e with
  | Accepted ec remote => Server.on_accept cfg ec remote
  | Handshaken sid ec => Session.on_handshake sid ec
  | Read sid ec bs => Session.read_handler cfg env now sid ec bs
  | Written sid ec => Session.on_write sid ec
  | KeepaliveTick sid => keepalive_tick sid
  | Qos1Timer cid pid => qos1_timer cid pid
  | Qos2Timer cid pid => qos2_timer cid pid
  | Destroyed sid => destroy sid
  end.

(** The shared pointers to a session that outlive a handler: an outstanding
    handshake, read or write, the callback its own keepalive timer stores, and the
    in-flight messages.  Those on the stack of a worker that blocks for ever are
    not counted: the model lets such a session die, or run other handlers of its
    own, where the program would not. *)
Definition owned (w : W) (sid : session_id) : Prop :=
  (exists s, sessions w !! sid = Some s /\
     (reading s = true \/ handshaking s = true \/ writing_ s = true \/
      exists t, keepalive_timer_ s = Some t /\ is_Some (callback_ t))) \/
  (exists c p pm, find_message c p (pending_ (qos1_ (delivery_engine w))) = Some pm /\
     pm_session pm = Some sid) \/
  (exists c p m, find_message c p (outgoing_ (qos2_ (delivery_engine w))) = Some m /\
     om_session m = Some sid).

(** When an event can happen: a handler runs for an operation that was
    started, asio fills at most the buffer it was given, and an object dies
    when nothing owns it. *)
Definition enabled (w : W) (e : event) : Prop :=
  match e with
  | Accepted _ _ => accepting (server w) = true
  | Handshaken sid _ => exists s, sessions w !! sid = Some s /\ handshaking s = true
  | Read sid ec bs =>
      exists s, sessions w !! sid = Some s /\ reading s = true /\
                (length bs <= Buffer.write_capacity (read_buf_ s))%nat
  | Written sid _ => exists s, sessions w !! sid = Some s /\ writing_ s = true
  | KeepaliveTick sid => is_Some (sessions w !! sid)
  | Qos1Timer c p => is_Some (find_message c p (pending_ (qos1_ (delivery_engine w))))
  | Qos2Timer c p => is_Some (find_message c p (outgoing_ (qos2_ (delivery_engine w))))
  | Destroyed sid => is_Some (sessions w !! sid) /\ ~ owned w sid
  end.

(** One step of the broker.  An exception leaves the handler, and the state as
    it is.  A handler that blocks for ever leaves the state as it was when it
    blocked, with the locks it holds, and the other workers go on from there.
    Only undefined behaviour has no successor. *)
Inductive step : W -> W -> Prop :=
| step_event env now e w o w' :
    enabled w e -> exec env now e w = (o, w') -> o <> Undefined -> step w w'.

Inductive reachable (a : A) : W -> Prop :=
| reach_start tls : reachable a (initial tls a)
| reach_step w w' : reachable a w -> step w w' -> reachable a w'.

(** Runs in which no handler has blocked so far. *)
Inductive serving (a : A) : W -> Prop :=
| serve_start tls : serving a (initial tls a)
| serve_step env now e w o w' :
    serving a w -> enabled w e -> exec env now e w = (o, w') ->
    o <> Deadlock -> o <> Undefined -> serving a w'.

Lemma serving_reachable a w : serving a w -> reachable a w.
Proof.
  induction 1 as [tls|env now e w o w' _ IH He Hx _ Hu]; [constructor|].
  eapply reach_step; [exact IH|]. by eapply step_event.
Qed.

End Events.
