(* ===== verification/Safety.v ===== *)
(** * The broker's invariant

    Every event keeps the state of the broker well formed, and runs into
    undefined behaviour only where a setting exceeds what the code can count.
    While the server lock is free, a handler blocks only where a CONNECT takes
    over the client id of a connected session; the lock then stays taken, and
    the states the other workers reach are covered too.  The proofs are
    compositional: [safe] is closed under the constructs the handlers are built
    from. *)

From Stdlib Require Import Strings.String ZArith QArith.QArith_base Lia.
From stdpp Require Import base list strings numbers option gmap fin_maps sets.
From S2P Require Import Prelude Config Buffer Packet Parser Filter TopicTree Retained Subscription Auth Timer Qos Inflight Qos1 Qos2 Delivery World Session Closing Steady Server.

Open Scope Z_scope.

(** What a session promises about the authenticator: its methods end. *)
Class AuthenticatorSafe E A `{Authenticator E A} : Prop := {
  authenticate_ends env c u p a :
    match (authenticate env c u p a).1 with Ret _ | Throw _ => True | _ => False end;
  check_acl_ends env u t r a :
    match (check_acl env u t r a).1 with Ret _ | Throw _ => True | _ => False end
}.

#[export] Instance AllowAll_safe E : AuthenticatorSafe E unit.
Proof. done. Qed.

#[export] Instance Pg_safe : AuthenticatorSafe PgEnv PgAuthenticator.
Proof.
  assert (Hl : forall env u a, match (PgAuthenticator.load_acl_rules env u a).1 with
                               | Ret _ | Throw _ => True | _ => False end).
  { intros env u a. unfold PgAuthenticator.load_acl_rules, mbind, M_bind.
    destruct (acquire_cases env a) as [i pc c Hi Hf| |]; [|done..].
    destruct (match pg_select_acls env u with None => _ | Some _ => _ end) as [rs ok].
    simpl. by destruct ok. }
  constructor.
  - intros env c u p a. simpl. unfold PgAuthenticator.authenticate, mbind, M_bind.
    destruct (acquire_cases env a) as [i pc ci Hi Hf| |]; [|done..].
    destruct (PgAuthenticator.authenticate_try env c p) as [r [|]]; done.
  - intros env u t r a. simpl. rewrite check_acl_bind. specialize (Hl env u a).
    destruct (current_rules_cases env u a) as [(e & -> & _)|[Hc _]]; [done|].
    rewrite <- Hc in Hl. by destruct (PgAuthenticator.current_rules env u a) as [[e| | |] a'].
Qed.

(** ** Well-formed states *)

Section Wf.

Context {A : Type} (cfg : Config).
Abbreviation W := (World A).
Implicit Types (w : W) (s : Session) (sid : session_id).

(** The server lock between two operations of a handler: free, held by that
    handler, or held by a worker that never returns. *)
Inductive lock_state : Type := Free | Held | Stuck.

Definition locked (l : lock_state) : bool := match l with Free => false | _ => true end.

(** A session: its parser within bounds, its read buffer consistent, its
    keepalive a 16-bit number, its write queue within the high-water mark and
    not empty while a write is outstanding.  [handling] marks the session whose
    read handler is running: it has no read outstanding, and its queue never
    waits without a write.  Any other session with an open socket and a waiting
    queue is being written, unless it is disconnected and no longer read.  Once
    a worker is stuck, sessions it has marked disconnected may still be read.
    An outstanding read fills the read buffer from its start, with room for
    4096 bytes. *)
Record session_wf (l : lock_state) (handling : bool) s : Prop := {
  sw_parser : parser_inv cfg (parser_ s);
  sw_read_buf : buffer_wf (read_buf_ s);
  sw_queue : Z.of_nat (length (write_queue_ s)) <= Z.max 0 (max_write_queue_size cfg);
  sw_writing : writing_ s = true -> write_queue_ s <> [];
  sw_handling : handling = true -> reading s = false;
  sw_flow : socket_open s = true -> write_queue_ s <> [] ->
            writing_ s = true \/
            (connected_ s = false /\ (l = Stuck \/ (handling = false /\ reading s = false)));
  sw_idle : l <> Stuck -> socket_open s = true -> write_queue_ s <> [] -> connected_ s = false ->
            reading s = false;
  sw_handshake : handshaking s = true ->
            handling = false /\ connected_ s = false /\ write_queue_ s = [] /\ reading s = false;
  sw_armed : reading s = true ->
            write_pos_ (read_buf_ s) = 0%nat /\ 4096 <= Z.of_nat (Buffer.write_capacity (read_buf_ s));
  sw_interval : 0 <= keepalive_ s < 65536
}.

(** The counters of the server state: an address has fewer failures than
    [max_auth_attempts] or is banned, and at most [max_connections_per_ip]
    connections. *)
Record counts_wf (st : ServerState) : Prop := {
  cw_auth : forall ip n, auth_failures st !! ip = Some n ->
            0 <= n /\ (n < max_auth_attempts cfg \/ is_Some (auth_ban_until st !! ip));
  cw_ips : forall ip n, connections_per_ip st !! ip = Some n ->
           0 <= n <= Z.max 0 (max_connections_per_ip cfg)
}.

(** The session [f] is being handled, if any; [l] is the state of the lock.
    Keys of sessions are not reused. *)
Record world_wf (f : option session_id) (l : lock_state) w : Prop := {
  ww_mutex : mutex (server_state w) = locked l;
  ww_sessions : forall sid s, sessions w !! sid = Some s -> session_wf l (bool_decide (f = Some sid)) s;
  ww_focus : forall sid, f = Some sid -> is_Some (sessions w !! sid);
  ww_qos1 : qos1_wf cfg (qos1_ (delivery_engine w));
  ww_qos2 : qos2_wf cfg (qos2_ (delivery_engine w));
  ww_tree : exists m, tree_reachable cfg (topic_tree w) m;
  ww_created : forall sid, sid ∈ dom (sessions w) -> (sid < created (server w))%nat;
  ww_counts : counts_wf (server_state w)
}.

(** The settings for which no [int] of the code overflows: the keepalive of a
    connection times the multiplier is an [int], and so are the counts of
    failures and of connections at their limits. *)
Record settings_ok : Prop := {
  so_keepalive : Z.abs (Qnum (keepalive_multiplier cfg)) * 65535 <
                 2 ^ 31 * Zpos (Qden (keepalive_multiplier cfg));
  so_attempts : max_auth_attempts cfg < 2 ^ 31;
  so_per_ip : max_connections_per_ip cfg < 2 ^ 31 - 1
}.

(** Once a worker is stuck, less is known of the sessions. *)
Lemma session_wf_lock l l' h s :
  (l = Stuck -> l' = Stuck) -> session_wf l h s -> session_wf l' h s.
Proof.
  intros Hl [? ? ? ? ? Hf Hi ? ? ?]. constructor; try done.
  - intros Ho Hq. destruct (Hf Ho Hq) as [|(? & [?|?])]; auto.
  - intros Hn. apply Hi. auto.
Qed.

Lemma world_wf_lock f l l' w w' :
  (l = Stuck -> l' = Stuck) -> world_wf f l w -> mutex (server_state w') = locked l' ->
  sessions w' = sessions w -> delivery_engine w' = delivery_engine w ->
  topic_tree w' = topic_tree w -> server w' = server w -> counts_wf (server_state w') ->
  world_wf f l' w'.
Proof.
  intros Hl [Hm Hs Hf H1 H2 Ht Hcr Hct] Hm' Es Ee Et Ev Hct'.
  constructor; rewrite ?Es, ?Ee, ?Et, ?Ev; try done.
  intros sid s Hx. eapply session_wf_lock; [exact Hl|by apply Hs].
Qed.

(** ** Safe computations *)

(** The keepalive timer of a session stores a callback, which holds a
    [shared_ptr] to the session. *)
Definition pinned s : Prop := exists t, keepalive_timer_ s = Some t /\ is_Some (callback_ t).

(** What no handler changes: sessions stay, the connection counter of the
    server stays, and a stored keepalive callback stays. *)
Record evolves w w' : Prop := {
  ev_dom : dom (sessions w) ⊆ dom (sessions w');
  ev_server : server w' = server w;
  ev_pinned : forall sid s, sessions w !! sid = Some s -> pinned s ->
              exists s', sessions w' !! sid = Some s' /\ pinned s'
}.

Lemma evolves_refl w : evolves w w.
Proof. constructor; [done|done|]. by eauto. Qed.

Lemma evolves_trans w1 w2 w3 : evolves w1 w2 -> evolves w2 w3 -> evolves w1 w3.
Proof.
  intros [Hd1 Hs1 Hp1] [Hd2 Hs2 Hp2]. constructor; [set_solver|congruence|].
  intros sid s Hs Hp. destruct (Hp1 sid s Hs Hp) as (s2 & H2 & Hq2). by eapply Hp2.
Qed.

#[local] Hint Resolve evolves_refl : core.

(** A change outside the sessions and the server. *)
Lemma evolves_same w w' : sessions w' = sessions w -> server w' = server w -> evolves w w'.
Proof. intros Hs Hv. constructor; [by rewrite Hs|done|]. rewrite Hs. by eauto. Qed.

Lemma evolves_alter w w' sid g :
  sessions w' = alter g sid (sessions w) -> server w' = server w ->
  (forall s, pinned s -> pinned (g s)) -> evolves w w'.
Proof.
  intros Hs Hv Hg. constructor; [by rewrite Hs, dom_alter_L|done|].
  intros x s Hx Hp. rewrite Hs. destruct (decide (x = sid)) as [->|Hne].
  - rewrite lookup_alter_eq, Hx. simpl. eauto.
  - rewrite lookup_alter_ne by done. eauto.
Qed.

(** What a computation from [w] comes to: it returns or throws in a well-formed
    state and destroys no session; it blocks only when [dl] allows it, in a
    well-formed state with the lock stuck; and it is undefined only for settings
    that are not [settings_ok]. *)
Definition ends {X} (dl : bool) f l w (r : outcome X * W) : Prop :=
  match r with
  | (Ret _, w') | (Throw _, w') => world_wf f l w' /\ evolves w w'
  | (Deadlock, w') => dl = true /\ world_wf f Stuck w' /\ evolves w w'
  | (Undefined, _) => ~ settings_ok
  end.

(** [ends] from every well-formed state in which the sessions of [D] exist. *)
Definition safe {X} (dl : bool) (D : gset session_id) f l (m : M W X) : Prop :=
  forall w, world_wf f l w -> D ⊆ dom (sessions w) -> ends dl f l w (m w).

Lemma ends_trans {X} dl f l w w1 (r : outcome X * W) :
  evolves w w1 -> ends dl f l w1 r -> ends dl f l w r.
Proof.
  intros He Hr. destruct r as [[x|e| |] w']; simpl in *; [| | |done].
  - destruct Hr. split; [done|by eapply evolves_trans].
  - destruct Hr. split; [done|by eapply evolves_trans].
  - destruct Hr as (? & ? & ?). split; [done|]. split; [done|by eapply evolves_trans].
Qed.

Context (dl : bool) (D : gset session_id) (f : option session_id) (b : lock_state).

Lemma run_safe_ret {X} (x : X) : safe dl D f b (mret x).
Proof. intros w Hw HD. by split. Qed.

Lemma run_safe_throw {X} e : safe dl D f b (throw e : M W X).
Proof. intros w Hw HD. by split. Qed.

Lemma ends_bind {X Y} (m : M W X) (k : X -> M W Y) w :
  ends dl f b w (m w) ->
  (forall x w1, m w = (Ret x, w1) -> world_wf f b w1 -> evolves w w1 -> ends dl f b w1 (k x w1)) ->
  ends dl f b w ((m ≫= k) w).
Proof.
  intros Hm Hk. unfold mbind, M_bind. destruct (m w) as [[x|e| |] w1]; try done.
  destruct Hm as [Hw1 He1]. eapply ends_trans; [exact He1|]. by apply Hk.
Qed.

Lemma run_safe_bind {X Y} (m : M W X) (k : X -> M W Y) :
  safe dl D f b m -> (forall x, safe dl D f b (k x)) -> safe dl D f b (m ≫= k).
Proof.
  intros Hm Hk w Hw HD. apply ends_bind; [by apply Hm|]. intros x w1 _ Hw1 He1.
  apply Hk; [done|]. exact (transitivity HD (ev_dom _ _ He1)).
Qed.

Lemma run_safe_if {X} (c : bool) (m1 m2 : M W X) :
  safe dl D f b m1 -> safe dl D f b m2 -> safe dl D f b (if c then m1 else m2).
Proof. by destruct c. Qed.

Lemma run_safe_get {X} (k : W -> M W X) :
  (forall w, world_wf f b w -> D ⊆ dom (sessions w) -> ends dl f b w (k w w)) ->
  safe dl D f b (get ≫= k).
Proof. intros Hk w Hw HD. apply Hk; done. Qed.

Lemma safe_for_each {X} (l : list X) (g : X -> M W unit) :
  (forall x, x ∈ l -> safe dl D f b (g x)) -> safe dl D f b (for_each l g).
Proof.
  induction l as [|x l IH]; intros Hg; [apply run_safe_ret|]. cbn [for_each].
  apply run_safe_bind; [apply Hg; by left|]. intros _. apply IH. intros y Hy. apply Hg. by right.
Qed.

Lemma safe_try_catch {X} (m : M W X) h :
  safe dl D f b m -> (forall e, safe dl D f b (h e)) -> safe dl D f b (try_catch m h).
Proof.
  intros Hm Hh w Hw HD. specialize (Hm w Hw HD). unfold try_catch.
  destruct (m w) as [[x|e| |] w1]; [done| |done..]. destruct Hm as [Hw1 Hd1].
  eapply ends_trans; [exact Hd1|]. apply Hh; [done|]. exact (transitivity HD (ev_dom _ _ Hd1)).
Qed.

Lemma safe_this sid : sid ∈ D -> safe dl D f b (this sid).
Proof.
  intros Hin w Hw HD. unfold this. destruct (sessions w !! sid) eqn:Es; [by split|].
  apply not_elem_of_dom in Es. set_solver.
Qed.

Lemma safe_update sid g :
  (forall s, session_wf b (bool_decide (f = Some sid)) s ->
             session_wf b (bool_decide (f = Some sid)) (g s)) ->
  (forall s, pinned s -> pinned (g s)) ->
  f = Some sid \/ sid ∈ D -> safe dl D f b (update sid g).
Proof.
  intros Hg Hpin Hin w [Hm Hs Hf H1 H2 Ht Hcr Hct] HD.
  assert (Hex : is_Some (sessions w !! sid)).
  { destruct Hin as [Hin|Hin]; [by apply Hf|]. apply elem_of_dom. by apply HD. }
  destruct Hex as [s0 Hs0]. rewrite (update_eq w sid s0) by done.
  split; [|by eapply evolves_alter].
  constructor; simpl; try done.
  - intros sid' s. destruct (decide (sid' = sid)) as [->|Hne].
    + rewrite lookup_alter_eq, Hs0. intros [= <-]. by apply Hg, Hs.
    + rewrite lookup_alter_ne by done. apply Hs.
  - intros x Hx. rewrite <- elem_of_dom, dom_alter_L, elem_of_dom. by apply Hf.
  - intros x. rewrite dom_alter_L. apply Hcr.
Qed.

Lemma safe_state g :
  (forall st, mutex (g st) = mutex st) -> (forall st, counts_wf st -> counts_wf (g st)) ->
  safe dl D f b (state g).
Proof.
  intros Hg Hc w [Hm Hs Hf H1 H2 Ht Hcr Hct] HD. split; [|by apply evolves_same].
  constructor; simpl; try done; [by rewrite Hg|by apply Hc].
Qed.

Lemma safe_count g : safe dl D f b (count g).
Proof. intros w [] HD. split; [|by apply evolves_same]. by constructor. Qed.

Lemma safe_subs g : safe dl D f b (subs g).
Proof. intros w [] HD. split; [|by apply evolves_same]. by constructor. Qed.

Lemma safe_tree g :
  (forall t m, tree_reachable cfg t m -> exists m', tree_reachable cfg (g t) m') ->
  safe dl D f b (tree g).
Proof.
  intros Hg w [Hm Hs Hf H1 H2 [m Ht] Hcr Hct] HD. split; [|by apply evolves_same]. constructor; simpl; try done. by eapply Hg.
Qed.

Lemma safe_engine g :
  (forall d, qos1_wf cfg (qos1_ d) -> qos2_wf cfg (qos2_ d) ->
             qos1_wf cfg (qos1_ (g d)) /\ qos2_wf cfg (qos2_ (g d))) ->
  safe dl D f b (engine g).
Proof.
  intros Hg w [Hm Hs Hf H1 H2 Ht Hcr Hct] HD. split; [|by apply evolves_same].
  destruct (Hg _ H1 H2). by constructor.
Qed.

Lemma safe_try_parse {X} (m : M Buffer X) packet :
  safe_at m packet -> safe dl D f b (try_parse m packet).
Proof.
  intros Hm w Hw HD. unfold try_parse, safe_at in *. by destruct (m packet) as [[x|e| |] p]; try split.
Qed.

Lemma safe_try_parse_bind {X Y} (m : M Buffer X) packet (k : option X -> M W Y) :
  safe_at m packet -> (forall x, (m packet).1 = Ret x -> safe dl D f b (k (Some x))) ->
  safe dl D f b (k None) -> safe dl D f b (try_parse m packet ≫= k).
Proof.
  intros Hm Hs Hn w Hw HD. unfold try_parse, safe_at, mbind, M_bind in *.
  destruct (m packet) as [[x|e| |] p]; [by apply Hs|by apply Hn|done..].
Qed.

Lemma safe_auth_call {X} (m : M A X) :
  (forall a, match (m a).1 with Ret _ | Throw _ => True | _ => False end) ->
  safe dl D f b (auth_call m).
Proof.
  intros Hm w Hw HD. unfold auth_call. specialize (Hm (auth w)).
  destruct (m (auth w)) as [[x|e| |] a]; simpl in Hm; try done; (split; [|by apply evolves_same]);
    destruct Hw; by constructor.
Qed.

End Wf.

(** Deadlocks may always be allowed, and fewer sessions be known. *)
Lemma safe_weaken {A} cfg {X} dl dl' D D' f b (m : M (World A) X) :
  safe cfg dl D f b m -> (dl = true -> dl' = true) -> D ⊆ D' -> safe cfg dl' D' f b m.
Proof.
  intros Hm Hd HD w Hw HD'. specialize (Hm w Hw ltac:(set_solver)).
  destruct (m w) as [[x|e| |] w']; simpl in *; try done. destruct Hm. auto.
Qed.

#[local] Hint Resolve evolves_refl : core.

Lemma counts_wf_mutex cfg b st : counts_wf cfg st -> counts_wf cfg (set_mutex b st).
Proof. intros [Ha Hi]. by constructor. Qed.

(** Outside a locked region the lock is free or stuck; taking it when it is
    stuck blocks, and a region that returns gives it back. *)
Lemma ends_with_lock {A} cfg {X} dl f l (m : M (World A) X) w :
  l <> Held -> (l = Stuck -> dl = true) -> world_wf cfg f l w ->
  (let w1 := put_server_state (set_mutex true (server_state w)) w in
   world_wf cfg f Held w1 -> ends cfg dl f Held w1 (m w1)) ->
  ends cfg dl f l w (with_lock m w).
Proof.
  intros Hh Hst Hw Hm. unfold with_lock. rewrite (ww_mutex _ _ _ _ Hw).
  destruct l; [|done|simpl; split_and!; [by apply Hst|done|done]]. simpl.
  assert (Hw1 : world_wf cfg f Held (put_server_state (set_mutex true (server_state w)) w))
    by (eapply world_wf_lock; [| exact Hw|..]; try done; apply counts_wf_mutex, Hw).
  specialize (Hm Hw1). set (w1 := put_server_state _ w) in *.
  assert (He1 : evolves w w1) by (by apply evolves_same).
  destruct (m w1) as [[x|e| |] w']; simpl in *; [| | |done].
  1,2: destruct Hm as [Hw' Hd]; split;
    [eapply world_wf_lock; [| exact Hw'|..]; try done; apply counts_wf_mutex, Hw'|];
    eapply evolves_trans; [exact He1|]; eapply evolves_trans; [exact Hd|]; by apply evolves_same.
  destruct Hm as (Hdl & Hw' & Hd). split_and!; [done|done|by eapply evolves_trans].
Qed.

Lemma safe_with_lock {A} cfg {X} dl D f l (m : M (World A) X) :
  l <> Held -> (l = Stuck -> dl = true) ->
  safe cfg dl D f Held m -> safe cfg dl D f l (with_lock m).
Proof.
  intros Hh Hst Hm w Hw HD. apply ends_with_lock; [done..|]. intros w1 Hw1. by apply Hm.
Qed.

(** A change of the server state alone. *)
Lemma ends_state {A} cfg {X} dl f (w : World A) l st (x : X) :
  counts_wf cfg st -> world_wf cfg f l w -> mutex st = mutex (server_state w) ->
  ends cfg dl f l w (Ret x, put_server_state st w).
Proof.
  intros Hc Hw Hm. split; [|by apply evolves_same].
  eapply world_wf_lock; [|exact Hw|..]; try done. simpl. rewrite Hm. apply Hw.
Qed.

(** ** Closing and delivering *)

Section Deliver.

Context {A : Type} (cfg : Config).
Abbreviation W := (World A).
Implicit Types (w : W) (sid : session_id).

Lemma closed_session_wf l h s :
  session_wf cfg l h s -> session_wf cfg l h (set_socket_open false (set_connected false s)).
Proof. intros [? ? ? ? ? ? ? Hs ? ?]. constructor; simpl; try done. intros Hh. by destruct (Hs Hh) as (? & _ & ? & ?). Qed.

(** A session that a worker has marked disconnected before it got stuck. *)
Lemma disconnected_session_wf l h s :
  session_wf cfg l h s -> session_wf cfg Stuck h (set_connected false s).
Proof.
  intros [? ? ? ? ? Hf ? Hs ? ?]. constructor; simpl; try done.
  - intros Ho Hq. destruct (Hf Ho Hq) as [|[? _]]; auto.
  - intros Hh. by destruct (Hs Hh) as (? & _ & ? & ?).
Qed.

Lemma disconnected_wf f l w sid :
  world_wf cfg f l w -> locked l = true -> world_wf cfg f Stuck (disconnected w sid).
Proof.
  intros [Hm Hs Hf H1 H2 Ht Hcr Hct] Hl. constructor; simpl; try done.
  - by rewrite Hm.
  - intros x y. destruct (decide (x = sid)) as [->|Hne].
    + rewrite lookup_alter_eq. destruct (sessions w !! sid) eqn:E; [|done]. simpl.
      intros [= <-]. by eapply disconnected_session_wf, Hs.
    + rewrite lookup_alter_ne by done. intros Hx. by eapply session_wf_lock, Hs.
  - intros x Hx. rewrite <- elem_of_dom, dom_alter_L, elem_of_dom. by apply Hf.
  - intros x. rewrite dom_alter_L. apply Hcr.
Qed.

Lemma drop_ip_counts ip st :
  counts_wf cfg st -> counts_wf cfg (set_connections_per_ip (Session.drop_ip ip (connections_per_ip st)) st).
Proof.
  intros [Ha Hi]. constructor; simpl; [done|]. intros x n. unfold Session.drop_ip.
  destruct (connections_per_ip st !! ip) as [c|] eqn:E; [|apply Hi].
  destruct (Z.leb_spec (c - 1) 0).
  - intros [_ Hx]%lookup_delete_Some. by eapply Hi.
  - intros [[-> <-]|[_ Hx]]%lookup_insert_Some; [|by eapply Hi]. apply Hi in E. lia.
Qed.

Lemma unsubscribe_all_reachable al (o : option session_id) l : forall t m,
  tree_reachable cfg t m ->
  tree_reachable cfg
    (foldl (fun t sub => TopicTree.unsubscribe al (Subscription.topic_filter sub) o t) t l) m.
Proof. induction l as [|x l IH]; intros t m Ht; [done|]. simpl. by apply IH, tr_unsubscribe. Qed.

Lemma closed_wf f w sid s :
  world_wf cfg f Free w -> world_wf cfg f Free (closed w sid s).
Proof.
  intros [Hm Hs Hf H1 H2 [m Ht] Hcr Hct]. constructor; simpl.
  - done.
  - intros x y. destruct (decide (x = sid)) as [->|Hne].
    + rewrite !lookup_alter_eq. destruct (sessions w !! sid) eqn:E; [|done]. simpl.
      intros [= <-]. by apply closed_session_wf, Hs.
    + rewrite !lookup_alter_ne by done. apply Hs.
  - intros x Hx. rewrite <- elem_of_dom, !dom_alter_L, elem_of_dom. by apply Hf.
  - by destruct (String.eqb (client_id_ s) "").
  - by destruct (String.eqb (client_id_ s) "").
  - exists m. by apply unsubscribe_all_reachable.
  - intros x. rewrite !dom_alter_L. apply Hcr.
  - destruct (drop_ip_counts (remote_ip_ s) _ Hct). by constructor.
Qed.

(** Closing a connected session blocks when the lock is taken. *)
Lemma safe_close_locked D f l sid :
  sid ∈ D -> locked l = true -> safe cfg true D f l (Session.close (A := A) sid).
Proof.
  intros Hin Hl w Hw HD. destruct (sessions w !! sid) as [s|] eqn:Es.
  - destruct (connected_ s) eqn:Hc.
    + rewrite (close_deadlock w sid s Es Hc) by (by rewrite (ww_mutex _ _ _ _ Hw)).
      split; [done|]. split; [by eapply disconnected_wf|]. by eapply evolves_alter.
    + rewrite (close_disconnected w sid s) by done. by split.
  - apply not_elem_of_dom in Es. set_solver.
Qed.

Lemma safe_close dl D f l sid :
  l <> Held -> (l = Stuck -> dl = true) -> sid ∈ D ->
  safe cfg dl D f l (Session.close (A := A) sid).
Proof.
  intros Hh Hst Hin. destruct l; [|done|].
  2:{ eapply safe_weaken; [by apply safe_close_locked|by auto|done]. }
  intros w Hw HD. destruct (sessions w !! sid) as [s|] eqn:Es.
  - destruct (connected_ s) eqn:Hc.
    + rewrite (close_connected w sid s) by (done || apply Hw). split; [by apply closed_wf|].
      apply (evolves_alter _ _ sid (fun s => set_socket_open false (set_connected false s)));
        [simpl; by rewrite alter_alter_eq|done|done].
    + rewrite (close_disconnected w sid s) by done. by split.
  - apply not_elem_of_dom in Es. set_solver.
Qed.

(** ** Calls of the delivery engine *)

Lemma view_alive_dom w s : view_alive (view_of w) s = true -> s ∈ dom (sessions w).
Proof. simpl. unfold alive. rewrite bool_decide_eq_true. apply elem_of_dom. Qed.

Lemma view_connected_dom w s : view_connected (view_of w) s = true -> s ∈ dom (sessions w).
Proof. simpl. intros H. apply elem_of_dom. by destruct (sessions w !! s). Qed.

(** A sender reaches only sessions it has locked or found connected. *)
Definition reaches {H} (v : SessionView) (m : sender H) : Prop :=
  forall h s p, (s, p) ∈ (m h).2 -> view_alive v s = true \/ view_connected v s = true.

Lemma reaches_send_each {H E} v (l : list E) (g : E -> sender H) :
  (forall x, reaches v (g x)) -> reaches v (send_each l g).
Proof.
  intros Hg h s p. revert h. induction l as [|x l IH]; intros h; cbn [send_each].
  { intros Hin. by apply elem_of_nil in Hin. }
  destruct (g x h) as [h1 o1] eqn:E1. specialize (IH h1).
  destruct (send_each l g h1) as [h2 o2]. simpl in *. intros [Hin|Hin]%elem_of_app; [|auto].
  apply (Hg x h s p). by rewrite E1.
Qed.

Lemma lock_alive v o s : TopicTree.lock (view_alive v) o = Some s -> view_alive v s = true.
Proof. destruct o as [x|]; simpl; [|done]. destruct (view_alive v x) eqn:E; naive_solver. Qed.

Lemma reaches_qos1_deliver v t pub : reaches v (Qos1Handler.deliver cfg v t pub).
Proof.
  apply reaches_send_each. intros e h s p. unfold Qos1Handler.deliver_entry.
  destruct (TopicTree.lock (view_alive v) (entry_session e)) as [x|] eqn:E; simpl; [|set_solver].
  destruct (alloc_message _ _ _) as [[pid|] tb]; simpl; [|set_solver].
  intros Hin%list_elem_of_singleton. injection Hin as -> ->. left. by eapply lock_alive.
Qed.

Lemma reaches_qos2_deliver v t pub : reaches v (Qos2Handler.deliver cfg v t pub).
Proof.
  apply reaches_send_each. intros e h s p. unfold Qos2Handler.deliver_entry.
  destruct (TopicTree.lock (view_alive v) (entry_session e)) as [x|] eqn:E; simpl; [|set_solver].
  destruct (_ <? 2); [|destruct (alloc_message _ _ _) as [[pid|] tb]; simpl; [|set_solver]];
    intros Hin%list_elem_of_singleton; injection Hin as -> ->; left; by eapply lock_alive.
Qed.

Lemma send_connected_dom v o packet s p :
  (s, p) ∈ Qos1Handler.send_connected v o packet -> view_connected v s = true.
Proof.
  unfold Qos1Handler.send_connected. destruct o as [x|]; [|set_solver].
  destruct (view_connected v x) eqn:E; [|set_solver].
  intros Hin%list_elem_of_singleton. by injection Hin as -> ->.
Qed.

(** An engine operation that keeps both tables and reaches only live sessions. *)
Definition engine_ok (v : SessionView) (m : sender DeliveryEngine) : Prop :=
  reaches v m /\
  forall d, qos1_wf cfg (qos1_ d) -> qos2_wf cfg (qos2_ d) ->
            qos1_wf cfg (qos1_ (m d).1) /\ qos2_wf cfg (qos2_ (m d).1).

Lemma engine_ok_qos1 v (m : sender Qos1Handler) :
  reaches v m -> (forall h, qos1_wf cfg h -> qos1_wf cfg (m h).1) ->
  engine_ok v (fun d => let '(h, out) := m (qos1_ d) in (set_qos1 h d, out)).
Proof.
  intros Hr Hw. split.
  - intros d s p. specialize (Hr (qos1_ d) s p). by destruct (m (qos1_ d)).
  - intros d H1 H2. specialize (Hw (qos1_ d) H1). by destruct (m (qos1_ d)).
Qed.

Lemma engine_ok_qos2 v (m : sender Qos2Handler) :
  reaches v m -> (forall h, qos2_wf cfg h -> qos2_wf cfg (m h).1) ->
  engine_ok v (fun d => let '(h, out) := m (qos2_ d) in (set_qos2 h d, out)).
Proof.
  intros Hr Hw. split.
  - intros d s p. specialize (Hr (qos2_ d) s p). by destruct (m (qos2_ d)).
  - intros d H1 H2. specialize (Hw (qos2_ d) H2). by destruct (m (qos2_ d)).
Qed.

Lemma engine_ok_publish v t pub : engine_ok v (DeliveryEngine.publish_from_client cfg v t pub).
Proof.
  assert (H1 := engine_ok_qos1 v _ (reaches_qos1_deliver v t pub) (fun h => send_each_wf cfg v pub _ h)).
  assert (H2 := engine_ok_qos2 v _ (reaches_qos2_deliver v t pub)
                  (fun h Hw => proj1 (Qos2.deliver_spec cfg v pub _ h Hw))).
  assert (Hn : forall o : list delivery, (forall s p, (s, p) ∈ o -> view_alive v s = true \/ view_connected v s = true) ->
    engine_ok v (fun d => (d, o))) by (intros o Ho; split; [intros d s p; apply Ho | done]).
  unfold DeliveryEngine.publish_from_client.
  destruct (qos pub) as [|[q|[q|q|]|]|q]; [|apply Hn; set_solver|apply Hn; set_solver
    |apply Hn; set_solver|exact H2|exact H1|apply Hn; set_solver].
  apply Hn. intros s p. rewrite qos0_deliver_live. unfold live.
  intros (x & Heq & Hin)%list_elem_of_fmap. injection Heq as -> ->.
  apply list_elem_of_omap in Hin as (e & _ & He). left. by eapply lock_alive.
Qed.

(** [max_write_queue_size()] returns an [int]. *)
Context (Hmax : max_write_queue_size cfg < 2 ^ 31).

Lemma has_room_length l h s :
  session_wf cfg l h s -> has_room cfg s = true ->
  Z.of_nat (length (write_queue_ s)) < max_write_queue_size cfg.
Proof using Hmax.
  intros Hs Hr. unfold has_room in Hr. apply Z.ltb_lt in Hr.
  rewrite i32_small in Hr; [done|]. pose proof (sw_queue _ _ _ _ Hs). lia.
Qed.

Lemma enqueue_wf l h s packet :
  session_wf cfg l h s -> connected_ s = true -> has_room cfg s = true ->
  session_wf cfg l h (enqueue packet s).
Proof using Hmax.
  intros Hs Hc Hr. pose proof (has_room_length l h s Hs Hr) as Hl. destruct Hs as [Hp Hb Hq Hw Hh Hfl Hi Hsh Har Hk].
  assert (Hns : handshaking s = true -> False) by (intros Hx; destruct (Hsh Hx) as (_ & ? & _); congruence).
  unfold enqueue. destruct (write_queue_ s) as [|x q] eqn:E.
  - unfold pump. simpl. rewrite Hc. constructor; simpl in *;
      first [done | lia | intros _ _; by left | congruence | intros Hx; by destruct (Hns Hx)].
  - constructor; simpl; try done; try (intros Hx; by destruct (Hns Hx)).
    + rewrite length_app. simpl in *. lia.
    + intros Ho _. by apply Hfl.
    + congruence.
Qed.

Lemma enqueue_pinned packet s : pinned s -> pinned (enqueue packet s).
Proof. unfold pinned, enqueue, pump. destruct (write_queue_ s); simpl; [by destruct (connected_ s)|done]. Qed.

(** What the lock may be when a handler delivers or closes. *)
Context (dl : bool) (l : lock_state) (Hh : l <> Held) (Hst : l = Stuck -> dl = true).

Lemma safe_deliver D f sid packet :
  sid ∈ D -> safe cfg dl D f l (Session.deliver (A := A) cfg sid packet).
Proof using Hmax Hh Hst.
  intros Hin w Hw HD. destruct (sessions w !! sid) as [s|] eqn:Es.
  2:{ apply not_elem_of_dom in Es. set_solver. }
  rewrite (deliver_cases cfg sid packet w s Es). destruct (connected_ s) eqn:Hc; simpl; [|by split].
  destruct (has_room cfg s) eqn:Hr; [|by apply (safe_close dl D f l sid)].
  destruct Hw as [Hm Hs Hf H1 H2 Ht Hcr Hct].
  split; [|eapply evolves_alter; [done|done|apply enqueue_pinned]].
  constructor; simpl; try done.
  - intros x y. destruct (decide (x = sid)) as [->|Hne].
    + rewrite lookup_alter_eq, Es. simpl. intros [= <-]. apply enqueue_wf; [by apply Hs|done|done].
    + rewrite lookup_alter_ne by done. apply Hs.
  - intros x Hx. rewrite <- elem_of_dom, dom_alter_L, elem_of_dom. by apply Hf.
  - intros x. rewrite dom_alter_L. apply Hcr.
Qed.

Lemma safe_send_all D f (out : list delivery) :
  (forall s p, (s, p) ∈ out -> s ∈ D) ->
  safe cfg dl D f l (Session.send_all (A := A) cfg out).
Proof using Hmax Hh Hst.
  intros Ho. apply safe_for_each. intros [s p] Hin. apply safe_deliver. by eapply Ho.
Qed.

Lemma safe_engine_call D f (g : SessionView -> sender DeliveryEngine) :
  (forall v, engine_ok v (g v)) ->
  safe cfg dl D f l (Session.engine_call (A := A) cfg g).
Proof using Hmax Hh Hst.
  intros Hg. apply run_safe_get. intros w Hw HD. destruct (Hg (view_of w)) as [Hr Hk].
  specialize (Hr (delivery_engine w)). specialize (Hk (delivery_engine w) (ww_qos1 _ _ _ _ Hw) (ww_qos2 _ _ _ _ Hw)).
  destruct (g (view_of w) (delivery_engine w)) as [d out]. simpl in *.
  apply (run_safe_bind cfg dl (dom (sessions w)) f l); [| |done|done].
  - by apply safe_engine.
  - intros _. apply safe_send_all. intros s p Hin.
    destruct (Hr s p Hin); [by apply view_alive_dom | by apply view_connected_dom].
Qed.

End Deliver.

(** ** Handlers *)

Lemma safe_this_bind {A} cfg {X} dl D f b sid (k : Session -> M (World A) X) :
  sid ∈ D -> (forall s, session_wf cfg b (bool_decide (f = Some sid)) s -> safe cfg dl D f b (k s)) ->
  safe cfg dl D f b (this sid ≫= k).
Proof.
  intros Hin Hk w Hw HD. unfold this, mbind, M_bind.
  destruct (sessions w !! sid) as [s|] eqn:Es.
  - apply Hk; [by apply (ww_sessions _ _ _ _ Hw)|done|done].
  - apply not_elem_of_dom in Es. set_solver.
Qed.

Lemma safe_get_bind {A} cfg {X} dl D f b (k : World A -> M (World A) X) :
  (forall w0, safe cfg dl D f b (k w0)) -> safe cfg dl D f b (get ≫= k).
Proof. intros Hk. apply run_safe_get. intros w Hw HD. by apply Hk. Qed.

(** The parts of a session its I/O depends on. *)
Definition same_io (s s' : Session) : Prop :=
  parser_ s' = parser_ s /\ read_buf_ s' = read_buf_ s /\ write_queue_ s' = write_queue_ s /\
  writing_ s' = writing_ s /\ reading s' = reading s /\ socket_open s' = socket_open s /\
  handshaking s' = handshaking s.

(** While a worker is stuck no session becomes connected. *)
Lemma session_wf_same_io cfg l s s' :
  same_io s s' -> (l = Stuck -> connected_ s' = true -> connected_ s = true) ->
  0 <= keepalive_ s' < 65536 -> session_wf cfg l true s -> session_wf cfg l true s'.
Proof.
  intros (Hp & Hb & Hq & Hw & Hr & Ho & Hk) Hc Hka [? ? ? ? Hh Hf Hi Hs Ha ?].
  constructor; rewrite ?Hp, ?Hb, ?Hq, ?Hw, ?Hr, ?Ho, ?Hk; try done; try by (intros; apply Hh).
  - intros H1 H2. destruct (Hf H1 H2) as [|[Hd [Hl|[? _]]]]; [by left| |done].
    right. split; [|by left]. destruct (connected_ s') eqn:E; [|done]. rewrite Hc in Hd; done.
  - intros Hx. by destruct (Hs Hx).
Qed.

Lemma safe_update_focus {A} cfg dl D b sid g :
  (forall s, same_io s (g s) /\ keepalive_ (g s) = keepalive_ s) ->
  (forall s, connected_ (g s) = true -> connected_ s = true) ->
  (forall s, pinned s -> pinned (g s)) -> safe cfg dl D (Some sid) b (update (A := A) sid g).
Proof.
  intros Hg Hc Hp. apply safe_update; [|done|by left]. rewrite bool_decide_true by done.
  intros s Hs. destruct (Hg s) as [Hi Hk]. apply (session_wf_same_io cfg b s); [done|by auto| |done].
  rewrite Hk. apply Hs.
Qed.

(** Clearing an address. *)
Lemma forget_counts cfg ip st :
  counts_wf cfg st ->
  counts_wf cfg (mkServerState (mutex st) (active_clients st) (delete ip (auth_failures st))
                   (delete ip (auth_ban_until st)) (connections_per_ip st)).
Proof.
  intros [Ha Hi]. constructor; simpl; [|done]. intros x n [Hne Hx]%lookup_delete_Some.
  rewrite lookup_delete_ne by done. by apply Ha.
Qed.

Create HintDb safety discriminated.
#[export] Hint Resolve run_safe_ret run_safe_throw safe_count safe_subs run_safe_if : safety.

(** Step through a handler: binds, branches and the basic effects. *)
Ltac safe_step :=
  match goal with
  | |- safe _ _ _ _ _ (mbind _ (this _)) => apply safe_this_bind; [by apply elem_of_singleton | intros ? ?]
  | |- safe _ _ _ _ _ (mbind _ get) => apply safe_get_bind; intros ?
  | |- safe _ _ _ _ _ (mbind _ _) => apply run_safe_bind; [|intros ?]
  | |- safe _ _ _ _ _ (if ?c then _ else _) => destruct c eqn:?
  | |- safe _ _ _ _ _ (mret _) => apply run_safe_ret
  | |- safe _ _ _ _ _ (count _) => apply safe_count
  | |- safe _ _ _ _ _ Session.count_received => apply safe_count
  | |- safe _ _ _ _ _ Session.count_published => apply safe_count
  | |- safe _ _ _ _ _ Session.count_dropped => apply safe_count
  | |- safe _ _ _ _ _ Session.count_subscribed => apply safe_count
  | |- safe _ _ _ _ _ (subs _) => apply safe_subs
  | |- safe _ _ _ _ _ (state _) =>
      apply safe_state; [by intros [] | first [apply forget_counts | intros ? []; by constructor]]
  | |- safe _ _ _ _ _ (with_lock _) => apply safe_with_lock; [done|done|]
  | |- safe _ _ _ _ _ (try_parse _ _) => apply safe_try_parse
  end.

Section Handlers.

Context {E A : Type} `{AuthenticatorSafe E A} (cfg : Config)
  (Hmax : max_write_queue_size cfg < 2 ^ 31) (env : E) (now : Z) (sid : session_id)
  (l : lock_state) (Hh : l <> Held).
Abbreviation W := (World A).
Abbreviation F := (Some sid).

Lemma handler_deliver p : safe cfg true {[sid]} F l (Session.deliver (A := A) cfg sid p).
Proof using Hmax Hh. apply safe_deliver; [done..|by apply elem_of_singleton]. Qed.

Lemma handler_close : safe cfg true {[sid]} F l (Session.close (A := A) sid).
Proof using Hh. apply safe_close; [done..|by apply elem_of_singleton]. Qed.

Lemma safe_refuse code : safe cfg true {[sid]} F l (Session.refuse (A := A) cfg sid code).
Proof using Hmax Hh.
  apply run_safe_bind; [apply handler_deliver|]. intros _. apply handler_close.
Qed.

Lemma safe_check_auth_rate_limit :
  safe cfg true {[sid]} F l (Session.check_auth_rate_limit (A := A) now sid).
Proof using Hh.
  unfold Session.check_auth_rate_limit. repeat safe_step.
  destruct (auth_ban_until _ !! _); repeat safe_step.
Qed.

(** An address that is let through is not banned. *)
Lemma check_allows (w : W) s w1 :
  sessions w !! sid = Some s -> Session.check_auth_rate_limit now sid w = (Ret true, w1) ->
  auth_ban_until (server_state w1) !! remote_ip_ s = None.
Proof.
  intros Hs. unfold Session.check_auth_rate_limit. rewrite (this_bind_eq w sid s) by done.
  unfold with_lock. destruct (mutex _); [done|]. unfold get, state, modify, mret, M_ret, mbind, M_bind. simpl.
  destruct (auth_ban_until _ !! _) as [u|] eqn:Ex; [destruct (now <? u)|];
    simpl; intros [= <-]; simpl; [apply lookup_delete_eq|done].
Qed.

Lemma failure_counts ip n st :
  counts_wf cfg st -> n = default 0 (auth_failures st !! ip) + 1 ->
  (max_auth_attempts cfg <=? n = false ->
   counts_wf cfg (set_auth_failures (<[ip := n]> (auth_failures st)) st)) /\
  forall u, counts_wf cfg (set_auth_ban_until (<[ip := u]> (auth_ban_until st))
                    (set_auth_failures (<[ip := n]> (auth_failures st)) st)).
Proof.
  intros [Ha Hi] Hn.
  assert (H1 : 0 <= n).
  { destruct (auth_failures st !! ip) as [c|] eqn:Ex; simpl in Hn; [apply Ha in Ex|]; lia. }
  split; [intros Hlt|intros u]; constructor; simpl; try done; intros x c Hx; apply lookup_insert_Some in Hx.
  - destruct Hx as [[-> <-]|[_ Hx]]; [|by apply Ha]. tests_to_props. split; [done|by left].
  - destruct Hx as [[-> <-]|[Hne Hx]].
    + split; [done|]. right. rewrite lookup_insert_eq. by eexists.
    + rewrite lookup_insert_ne by done. by apply Ha.
Qed.

(** A failure of an address that is not banned: the count is below the limit,
    so it does not overflow. *)
Lemma ends_record_auth_failure ip (w : W) :
  world_wf cfg F l w -> auth_ban_until (server_state w) !! ip = None ->
  ends cfg true F l w (Session.record_auth_failure cfg now ip w).
Proof using Hh.
  intros Hw Hb. apply ends_with_lock; [done|done|done|]. intros w1 Hw1.
  unfold get, state, modify, undefined, mret, M_ret, mbind, M_bind.
  set (n := default 0 _ + 1). pose proof (ww_counts _ _ _ _ Hw1) as Hct.
  destruct (failure_counts ip n _ Hct eq_refl) as [Hlt Hban].
  destruct (int_fits n) eqn:Hf; simpl.
  - destruct (max_auth_attempts cfg <=? n) eqn:Hm.
    + exact (ends_state cfg true F w1 Held _ tt (Hban (now + auth_ban_seconds cfg)) Hw1 eq_refl).
    + exact (ends_state cfg true F w1 Held _ tt (Hlt eq_refl) Hw1 eq_refl).
  - intros [_ Ho _]. unfold n in Hf. simpl in Hf, Hb.
    assert (Hr : - 2 ^ 31 <= default 0 (auth_failures (server_state w) !! ip) + 1 < 2 ^ 31).
    { destruct (auth_failures (server_state w) !! ip) as [c|] eqn:Ex; simpl; [|lia].
      destruct (cw_auth _ _ Hct ip c Ex) as [? [?|[? Hx]]]; [lia|]. simpl in Hx. congruence. }
    unfold int_fits in Hf. tests_to_props. lia.
Qed.

Lemma focus_dom (w : W) b : world_wf cfg F b w -> {[sid]} ⊆ dom (sessions w).
Proof. intros Hw. apply singleton_subseteq_l, elem_of_dom. by apply (ww_focus _ _ _ _ Hw). Qed.

Lemma ends_safe {X} b (m : M W X) (w : W) :
  safe cfg true {[sid]} F b m -> world_wf cfg F b w -> ends cfg true F b w (m w).
Proof. intros Hm Hw. apply Hm; [done|]. by eapply focus_dom. Qed.

Lemma ends_authenticated ip conn (w : W) :
  world_wf cfg F l w -> auth_ban_until (server_state w) !! ip = None ->
  ends cfg true F l w (Session.authenticated cfg env now sid ip conn w).
Proof using Hmax H0 Hh.
  intros Hw Hb. unfold Session.authenticated. destruct (_ || _); [|by apply ends_safe; [apply run_safe_ret|]].
  apply ends_bind.
  { apply ends_safe; [|done]. apply safe_auth_call. intros a. apply authenticate_ends. }
  intros r w1 Ea Hw1 _. destruct (negb (success r)); [|by apply ends_safe; [apply run_safe_ret|]].
  assert (Hb1 : auth_ban_until (server_state w1) !! ip = None).
  { unfold auth_call in Ea. destruct (authenticate _ _ _ _ _) as [[x|e| |] a]; by injection Ea as _ <-. }
  apply ends_bind; [by apply ends_record_auth_failure|]. intros _ w2 _ Hw2 _.
  apply ends_safe; [|done]. safe_step; [apply safe_refuse|apply run_safe_ret].
Qed.

(** Under the lock, closing another session either blocks or does nothing. *)
Lemma safe_register_client ip cid :
  safe cfg true {[sid]} F l (Session.register_client (A := A) sid ip cid).
Proof using Hh.
  unfold Session.register_client. apply safe_with_lock; [done|done|]. safe_step; [safe_step|].
  apply run_safe_get. intros w Hw HD.
  assert (Hc : safe cfg true (dom (sessions w)) F Held
    (match active_clients (server_state w) !! cid with
     | Some old => if alive w old && negb (old =? sid)%nat then Session.close old else mret tt
     | None => mret tt
     end : M W unit)).
  { destruct (active_clients (server_state w) !! cid) as [old|]; [|apply run_safe_ret].
    destruct (alive w old && negb (old =? sid)%nat) eqn:Ha; [|apply run_safe_ret].
    apply andb_prop in Ha as [Ha _]. apply view_alive_dom in Ha. by apply safe_close_locked. }
  refine (run_safe_bind cfg true (dom (sessions w)) F Held _ _ Hc _ w Hw (reflexivity _)).
  intros _. safe_step.
Qed.

Lemma safe_restore_subscriptions cid clean :
  safe cfg true {[sid]} F l (Session.restore_subscriptions (A := A) sid cid clean).
Proof.
  unfold Session.restore_subscriptions. repeat safe_step.
  apply safe_for_each. intros sub _. apply safe_tree. intros t m Ht. eexists. by apply tr_subscribe.
Qed.

(** The conversion of the keepalive is within [int] for every 16-bit one. *)
Lemma keepalive_fits k :
  settings_ok cfg -> 0 <= k < 65536 -> int_fits (Session.keepalive_seconds cfg k) = true.
Proof.
  intros [Hs _ _] Hk. unfold Session.keepalive_seconds, int_fits.
  set (n := Qnum _) in *. set (d := Zpos (Qden _)) in *. assert (Hd : 0 < d) by done.
  assert (Hb : Z.abs (Z.quot (k * n) d) < 2 ^ 31).
  { rewrite <- Z.quot_abs by lia. rewrite Z.abs_mul, (Z.abs_eq k), (Z.abs_eq d) by lia.
    pose proof (Z.mul_le_mono_nonneg_r k 65535 (Z.abs n) ltac:(lia) ltac:(lia)).
    apply Z.quot_lt_upper_bound; [apply Z.mul_nonneg_nonneg|..]; lia. }
  apply andb_true_intro. split; [apply Z.leb_le|apply Z.ltb_lt]; lia.
Qed.

Lemma safe_start_keepalive : safe cfg true {[sid]} F l (Session.start_keepalive (A := A) cfg sid).
Proof.
  unfold Session.start_keepalive, Session.keepalive_duration. safe_step. safe_step; [apply run_safe_ret|].
  destruct (int_fits _) eqn:Hf.
  - safe_step; [apply run_safe_ret|]. apply safe_update_focus; try done.
    intros s' _. eexists. split; [done|]. by eexists.
  - intros w Hw HD Hok. rewrite keepalive_fits in Hf; [done|done|].
    match goal with Hs : session_wf _ _ _ _ |- _ => apply Hs end.
Qed.

(** A connection is accepted only while no worker is stuck. *)
Lemma safe_accept_connection conn :
  l <> Stuck -> 0 <= keepalive conn < 65536 ->
  safe cfg true {[sid]} F l (Session.accept_connection (A := A) cfg sid conn).
Proof using Hmax Hh.
  intros Hl Hk. unfold Session.accept_connection. repeat safe_step.
  - apply safe_update; [|done|by left]. rewrite bool_decide_true by done. intros s Hs.
    apply (session_wf_same_io cfg l s); try done. simpl. unfold Session.clamp_keepalive.
    repeat case_match; try apply u16_range. done.
  - apply safe_restore_subscriptions.
  - apply handler_deliver.
  - apply safe_start_keepalive.
Qed.

Lemma safe_register_accept ip conn :
  0 <= keepalive conn < 65536 ->
  safe cfg true {[sid]} F l
    (Session.register_client (A := A) sid ip (client_id conn);; Session.accept_connection cfg sid conn).
Proof using Hmax Hh.
  intros Hk. assert (Hl : l <> Stuck \/ l = Stuck) by (destruct l; auto).
  destruct Hl as [Hl|Hl].
  - apply run_safe_bind; [apply safe_register_client|]. intros _. by apply safe_accept_connection.
  - intros w Hw HD. unfold Session.register_client, with_lock, mbind at 1, M_bind at 1.
    rewrite (ww_mutex _ _ _ _ Hw). rewrite Hl in Hw |- *. simpl. by split_and!.
Qed.

(** What follows the protocol checks of a CONNECT. *)
Lemma ends_admit conn s (w : W) :
  0 <= keepalive conn < 65536 -> world_wf cfg F l w -> sessions w !! sid = Some s ->
  ends cfg true F l w
    ((allowed ← Session.check_auth_rate_limit now sid;
      if negb allowed then Session.refuse cfg sid REFUSED_SERVER_UNAVAIL
      else
        ok ← Session.authenticated cfg env now sid (remote_ip_ s) conn;
        if negb ok then mret tt
        else
          Session.register_client sid (remote_ip_ s) (client_id conn);;
          Session.accept_connection cfg sid conn) w).
Proof using Hmax H0 Hh.
  intros Hk Hw Hs. apply ends_bind; [apply ends_safe; [apply safe_check_auth_rate_limit|done]|].
  intros ok w1 Ea Hw1 _. destruct ok; simpl; [|by apply ends_safe; [apply safe_refuse|]].
  apply ends_bind; [apply ends_authenticated; [done|by eapply check_allows]|].
  intros ok w2 _ Hw2 _. destruct ok; cbn [negb]; (apply ends_safe; [|done]); [|apply run_safe_ret].
  by apply safe_register_accept.
Qed.

Lemma safe_handle_connect packet :
  buffer_wf packet ->
  safe cfg true {[sid]} F l (Session.handle_connect cfg env now sid packet).
Proof using Hmax H0 Hh.
  intros Hp w Hw HD. destruct (ww_focus _ _ _ _ Hw sid eq_refl) as [s Hs].
  unfold Session.handle_connect. rewrite (this_bind_eq w sid s) by done.
  destruct (connected_ s); [by apply ends_safe; [apply handler_close|]|].
  pose proof (proj1 (parsers_safe packet Hp)) as Hsafe. unfold safe_at in Hsafe.
  unfold try_parse, mbind at 1, M_bind at 1.
  destruct (parse_connect packet) as [[conn|e| |] p] eqn:Ep; simpl; [|by apply ends_safe; [apply handler_close|]|done..].
  destruct (_ || _); [by apply ends_safe; [apply safe_refuse|]|].
  destruct (_ && _); [by apply ends_safe; [apply safe_refuse|]|].
  apply ends_admit; [by eapply parse_connect_keepalive|done|done].
Qed.

Lemma safe_publish_from_client pub :
  safe cfg true {[sid]} F l (Session.publish_from_client (A := A) cfg pub).
Proof using Hmax Hh.
  unfold Session.publish_from_client. safe_step. apply safe_engine_call; [done..|].
  intros v. apply engine_ok_publish.
Qed.

Lemma safe_publish_by_qos cid pub :
  safe cfg true {[sid]} F l (Session.publish_by_qos (A := A) cfg sid cid pub).
Proof using Hmax Hh.
  unfold Session.publish_by_qos.
  destruct (qos pub) as [|[q|[q|q|]|]|q]; repeat safe_step;
    first [apply safe_publish_from_client | apply handler_deliver | by apply safe_engine].
Qed.

Lemma safe_retain_publication pub :
  topic.is_valid_topic cfg (topic pub) = true ->
  safe cfg true {[sid]} F l (Session.retain_publication (A := A) cfg pub).
Proof.
  intros Hv. unfold Session.retain_publication. repeat safe_step.
  apply safe_tree. intros t m Ht. eexists. by apply tr_set_retained.
Qed.

Lemma safe_handle_publish packet hdr :
  safe_at (parse_publish hdr) packet ->
  safe cfg true {[sid]} F l (Session.handle_publish cfg env sid packet hdr).
Proof using Hmax H0 Hh.
  intros Hp. unfold Session.handle_publish. repeat safe_step; [done|].
  match goal with |- context [match ?o with Some _ => _ | None => _ end] => destruct o as [pub|] end.
  - repeat safe_step.
    + apply safe_auth_call. intros a. apply check_acl_ends.
    + apply safe_retain_publication. by tests_to_props.
    + apply safe_publish_by_qos.
  - apply handler_close.
Qed.

Lemma safe_deliver_retained flt :
  safe cfg true {[sid]} F l (Session.deliver_retained (A := A) cfg sid flt).
Proof using Hmax Hh.
  unfold Session.deliver_retained. safe_step. apply safe_for_each. intros [t msg] _.
  repeat safe_step. apply handler_deliver.
Qed.

Lemma safe_subscribe_filter s flt :
  safe cfg true {[sid]} F l (Session.subscribe_filter cfg env sid s flt).
Proof using Hmax H0 Hh.
  unfold Session.subscribe_filter. repeat safe_step.
  - apply safe_auth_call. intros a. apply check_acl_ends.
  - apply safe_tree. intros t m Ht. eexists. by apply tr_subscribe.
  - apply safe_deliver_retained.
Qed.

Lemma safe_subscribe_filters s fs :
  safe cfg true {[sid]} F l (Session.subscribe_filters cfg env sid s fs).
Proof using Hmax H0 Hh.
  induction fs as [|flt fs IH]; cbn [Session.subscribe_filters]; repeat safe_step; [|done].
  apply safe_subscribe_filter.
Qed.

Lemma safe_handle_subscribe packet :
  buffer_wf packet ->
  safe cfg true {[sid]} F l (Session.handle_subscribe cfg env sid packet).
Proof using Hmax H0 Hh.
  intros Hp. unfold Session.handle_subscribe. repeat safe_step; [by apply parsers_safe|].
  match goal with |- context [match ?o with Some _ => _ | None => _ end] => destruct o as [sub|] end.
  - repeat safe_step; [apply safe_subscribe_filters|].
    apply handler_deliver.
  - apply handler_close.
Qed.

Lemma safe_handle_unsubscribe packet :
  buffer_wf packet ->
  safe cfg true {[sid]} F l (Session.handle_unsubscribe (A := A) cfg sid packet).
Proof using Hmax Hh.
  intros Hp. unfold Session.handle_unsubscribe. repeat safe_step; [by apply parsers_safe|].
  match goal with |- context [match ?o with Some _ => _ | None => _ end] => destruct o as [un|] end.
  - repeat safe_step.
    + apply safe_for_each. intros flt _. repeat safe_step;
        apply safe_tree; intros t m Ht; eexists; by apply tr_unsubscribe.
    + apply handler_deliver.
  - apply handler_close.
Qed.

Lemma safe_handle_ack parse packet act :
  safe_at parse packet -> (forall cid pid, safe cfg true {[sid]} F l (act cid pid)) ->
  safe cfg true {[sid]} F l (Session.handle_ack (A := A) sid parse packet act).
Proof.
  intros Hp Ha. unfold Session.handle_ack. repeat safe_step; [done|].
  match goal with |- context [match ?o with Some _ => _ | None => _ end] => destruct o as [pid|] end.
  - apply safe_try_catch; [apply Ha|]. intros e. apply handler_close.
  - apply handler_close.
Qed.

Lemma safe_complete_incoming cid pid :
  safe cfg true {[sid]} F l (Session.complete_incoming (A := A) cfg cid pid).
Proof using Hmax Hh.
  apply run_safe_get. intros w Hw HD.
  pose proof (complete_spec cfg (view_of w) cid pid (topic_tree w) (delivery_engine w)) as Hc.
  destruct (incoming cid pid (delivery_engine w)) as [msg|].
  - destruct Hc as (d' & -> & H1 & H2 & _).
    pose proof (reaches_qos2_deliver cfg (view_of w) (topic_tree w) (DeliveryEngine.released msg)
                  (qos2_ (delivery_engine w))) as Hr.
    refine (run_safe_bind cfg true (dom (sessions w)) F l _ _ _ _ w Hw (reflexivity _)).
    + apply safe_engine. intros _ _ _. rewrite H1, H2. split; [apply Hw|].
      apply Qos2.deliver_spec, Hw.
    + intros _. apply run_safe_bind; [|intros _; apply run_safe_ret]. apply safe_send_all; [done..|].
      intros s p Hin. destruct (Hr s p Hin); [by apply view_alive_dom | by apply view_connected_dom].
  - rewrite Hc. simpl. split; [destruct Hw; by constructor|by apply evolves_same].
Qed.

Lemma safe_dispatch hdr packet :
  buffer_wf packet -> safe_at (parse_publish hdr) packet ->
  safe cfg true {[sid]} F l
    (Session.dispatch cfg env now sid hdr packet).
Proof using Hmax H0 Hh.
  intros Hp Hpub. destruct (parsers_safe packet Hp) as (_ & _ & _ & Ha & Hrec & Hrel & Hcomp).
  unfold Session.dispatch.
  destruct (packet_type_of (hdr_type hdr)) as [[]|]; try apply run_safe_ret.
  - by apply safe_handle_connect.
  - by apply safe_handle_publish.
  - apply safe_handle_ack; [done|]. intros cid pid. apply safe_engine. intros d H1 H2.
    split; [by apply handle_puback_wf | done].
  - apply safe_handle_ack; [done|]. intros cid pid. apply safe_engine_call; [done..|]. intros v.
    apply (engine_ok_qos2 cfg v (Qos2Handler.handle_pubrec v cid pid)).
    + intros h s p. unfold Qos2Handler.handle_pubrec.
      destruct (find_message cid pid (outgoing_ h)); simpl; [|set_solver].
      intros Hin. right. by eapply send_connected_dom.
    + intros h Hw. apply (qos2_exec_wf cfg v (Pubrec cid pid) h Hw).
  - apply safe_handle_ack; [done|]. intros cid pid. repeat safe_step; [apply safe_complete_incoming|apply handler_deliver|].
    apply safe_engine. intros d H1 H2. split; [done|].
    apply (qos2_exec_wf cfg (mkView (fun _ => true) (fun _ => ""%string) (fun _ => true)) (Pubrel cid pid) _ H2).
  - apply safe_handle_ack; [done|]. intros cid pid. apply safe_engine. intros d H1 H2. split; [done|].
    apply (qos2_exec_wf cfg (mkView (fun _ => true) (fun _ => ""%string) (fun _ => true)) (Pubcomp cid pid) _ H2).
  - by apply safe_handle_subscribe.
  - by apply safe_handle_unsubscribe.
  - unfold Session.handle_pingreq. repeat safe_step. apply handler_deliver.
  - unfold Session.handle_disconnect. safe_step; [by apply safe_update_focus|].
    apply handler_close.
Qed.

(** ** Reading *)

Lemma safe_handle_packet p out p' :
  parser_inv cfg p -> PacketParser.try_extract cfg p = (Some out, p') ->
  safe cfg true {[sid]} F l (Session.handle_packet cfg env now sid out).
Proof using Hmax H0 Hh.
  intros Hp He. destruct (extracted_packet cfg p out p' Hp He) as (hdr & out' & Hhd & _ & _ & _ & Hs & Hw).
  unfold Session.handle_packet. repeat safe_step. rewrite Hhd. by apply safe_dispatch.
Qed.

Lemma safe_set_parser dl D b p :
  parser_inv cfg p -> safe cfg dl D F b (update (A := A) sid (set_parser p)).
Proof. intros Hp. apply safe_update; [|done|by left]. intros s []. by constructor. Qed.

Lemma safe_handle_or_close q out p :
  parser_inv cfg q -> PacketParser.try_extract cfg q = (Some out, p) ->
  safe cfg true {[sid]} F l
    (try_catch (Session.handle_packet cfg env now sid out;; mret true)
               (fun _ => Session.close sid;; mret false)).
Proof using Hmax H0 Hh.
  intros Hq Hx. apply safe_try_catch.
  - safe_step; [|apply run_safe_ret]. by apply (safe_handle_packet q out p Hq).
  - intros e. safe_step; [|apply run_safe_ret].
    apply handler_close.
Qed.

Lemma steady_handle_or_close out :
  steady (try_catch (Session.handle_packet cfg env now sid out;; mret true)
                    (fun _ => Session.close sid;; mret false)).
Proof.
  apply steady_try_catch; [|intros e]; (apply steady_bind; [|intros ?; apply steady_ret]).
  - apply steady_handle_packet.
  - apply steady_close.
Qed.

(** The loop has a round for every byte of the parser, which is enough. *)
Lemma read_loop_safe fuel : forall w s,
  world_wf cfg F l w -> sessions w !! sid = Some s ->
  (Buffer.size (buffer_ (parser_ s)) < fuel)%nat ->
  ends cfg true F l w (Session.read_loop cfg env now fuel sid w).
Proof using Hmax H0 Hh.
  induction fuel as [|fuel IH]; intros w s Hw Hs Hf; [lia|]. cbn [Session.read_loop].
  pose proof (sw_parser _ _ _ _ (ww_sessions _ _ _ _ Hw sid s Hs)) as Hq.
  pose proof (parser_inv_extract cfg _ Hq) as Hp.
  rewrite (this_bind_eq w sid s) by done.
  destruct (PacketParser.try_extract cfg (parser_ s)) as [out p] eqn:Hx. simpl in Hp.
  apply ends_bind; [apply ends_safe; [by apply safe_set_parser|done]|].
  intros [] w1 E1 Hw1 _. rewrite (update_eq w sid s) in E1 by done. injection E1 as <-.
  pose proof (updated w sid s (set_parser p) Hs) as Hs1. set (w1 := put_sessions _ w) in *.
  destruct out as [packet|]; [|by split].
  pose proof (try_extract_shrinks cfg _ _ _ Hq Hx) as Hlt.
  assert (Hf1 : (Buffer.size (buffer_ (parser_ (set_parser p s))) < fuel)%nat) by (simpl; lia).
  destruct (_ =? 0)%nat; [by apply (IH w1 (set_parser p s))|].
  apply ends_bind; [apply ends_safe; [by apply (safe_handle_or_close (parser_ s) packet p)|done]|].
  intros ok w2 E2 Hw2 _. destruct ok; [|by split].
  destruct (ww_focus _ _ _ _ Hw2 sid eq_refl) as [s2 Hs2].
  pose proof (steady_handle_or_close packet w1 sid) as Hst. rewrite E2 in Hst. cbn [snd] in Hst.
  rewrite Hs1, Hs2 in Hst. injection Hst as Hst. apply (IH w2 s2 Hw2 Hs2). by rewrite Hst.
Qed.

Lemma safe_extract_all : safe cfg true {[sid]} F l (Session.extract_all cfg env now sid).
Proof using Hmax H0 Hh.
  intros w Hw HD. destruct (ww_focus _ _ _ _ Hw sid eq_refl) as [s Hs].
  unfold Session.extract_all. rewrite (this_bind_eq w sid s) by done.
  exact (read_loop_safe _ w s Hw Hs (Nat.lt_succ_diag_r _)).
Qed.

(** A computation that ends the handling of the session. *)
Definition exits {X} (m : M W X) : Prop :=
  forall w, world_wf cfg F l w ->
  match m w with
  | (Ret _, w') | (Throw _, w') => world_wf cfg None l w' /\ evolves w w'
  | (Deadlock, w') => world_wf cfg None Stuck w' /\ evolves w w'
  | (Undefined, _) => ~ settings_ok cfg
  end.

Lemma session_wf_release b s : session_wf cfg b true s -> session_wf cfg b false s.
Proof.
  intros [? ? ? ? ? Hf ? Hhs Ha ?]. constructor; try done.
  - intros H1 H2. destruct (Hf H1 H2) as [|[? [?|[? _]]]]; auto; done.
  - intros Hx. by destruct (Hhs Hx).
Qed.

Lemma world_wf_release b (w : W) : world_wf cfg F b w -> world_wf cfg None b w.
Proof.
  intros [Hm Hs Hf H1 H2 Ht Hcr Hct]. constructor; try done. intros x s Hx. apply Hs in Hx.
  rewrite bool_decide_false by done. destruct (bool_decide (F = Some x)); [by apply session_wf_release|done].
Qed.

Lemma exits_safe {X} (m : M W X) : safe cfg true {[sid]} F l m -> exits m.
Proof.
  intros Hm w Hw. pose proof (ends_safe l m w Hm Hw) as He. destruct (m w) as [[x|e| |] w']; simpl in He;
    [destruct He|destruct He|destruct He as (_ & ? & ?)|done]; (split; [by apply world_wf_release|done]).
Qed.

Lemma exits_bind {X Y} (m : M W X) (k : X -> M W Y) :
  safe cfg true {[sid]} F l m -> (forall x, exits (k x)) -> exits (m ≫= k).
Proof.
  intros Hm Hk w Hw. pose proof (exits_safe m Hm w Hw) as Hx. pose proof (ends_safe l m w Hm Hw) as He.
  unfold mbind, M_bind. destruct (m w) as [[x|e| |] w1]; try done. destruct He as [Hw1 Hd1].
  specialize (Hk x w1 Hw1). destruct (k x w1) as [[y|e| |] w2]; try done;
    destruct Hk as [Hw2 Hd2]; (split; [done|by eapply evolves_trans]).
Qed.

Lemma exits_rearm : exits (s ← this sid; if connected_ s then Session.do_read (A := A) sid else mret tt).
Proof.
  intros w Hw. destruct (ww_focus _ _ _ _ Hw sid eq_refl) as [s Hs].
  rewrite (this_bind_eq w sid s) by done. destruct (connected_ s) eqn:Hc.
  - unfold Session.do_read. rewrite (update_eq w sid s) by done. split; [|by eapply evolves_alter]. pose proof (ww_sessions _ _ _ _ Hw sid s Hs) as Hsw.
    rewrite bool_decide_true in Hsw by done. apply world_wf_release in Hw as [Hm Hss Hf H1 H2 Ht Hcr Hct].
    constructor; simpl; try done; [intros x y; destruct (decide (x = sid)) as [->|Hne]|].
    + rewrite lookup_alter_eq, Hs. simpl. intros [= <-]. destruct Hsw as [? ? ? ? ? Hfl ? Hsh Har ?].
      constructor; simpl; try done.
      * split; simpl; lia.
      * intros Ho Hq. left. destruct (Hfl Ho Hq) as [|[? _]]; congruence.
      * congruence.
      * intros Hx. by destruct (Hsh Hx).
    + rewrite lookup_alter_ne by done. apply Hss.
    + intros x. rewrite dom_alter_L. apply Hcr.
  - split; [by apply world_wf_release|done].
Qed.

Lemma exits_on_read ec n : exits (Session.on_read cfg env now sid ec n).
Proof using Hmax H0 Hh.
  pose proof handler_close as Hcl.
  assert (Hth : forall X (k : Session -> M W X), (forall s, session_wf cfg l true s -> exits (k s)) ->
    exits (this sid ≫= k)).
  { intros X k Hk w Hw. destruct (ww_focus _ _ _ _ Hw sid eq_refl) as [s Hs].
    pose proof (ww_sessions _ _ _ _ Hw sid s Hs) as Hsw. rewrite bool_decide_true in Hsw by done.
    unfold this, mbind, M_bind. rewrite Hs. by apply Hk. }
  unfold Session.on_read. destruct ec; [by apply exits_safe|].
  apply Hth. intros s Hs. apply exits_bind.
  { apply safe_set_parser, parser_inv_feed, Hs. }
  intros _. apply exits_bind; [apply safe_extract_all|].
  intros ok. destruct ok; [|apply exits_safe, run_safe_ret]. cbn [negb].
  apply Hth. intros s2 Hs2. destruct (PacketParser.has_error (parser_ s2)); [by apply exits_safe|].
  apply exits_bind; [|intros _; apply exits_rearm].
  apply safe_update_focus; intros s3; destruct (connected_ s3) eqn:Hc3; try done; [by rewrite Hc3|].
  intros (t & Ht & Hcb). exists (Timer.reset t). simpl. rewrite Ht. split; [done|].
  by rewrite (proj2 (reset_fields t)).
Qed.

(** The read handler takes the session from outside into its handling. *)
Lemma world_wf_handle (w : W) s :
  world_wf cfg None l w -> sessions w !! sid = Some s -> reading s = true ->
  world_wf cfg F l (put_sessions (alter (set_reading false) sid (sessions w)) w).
Proof.
  intros [Hm Hs Hf H1 H2 Ht Hcr Hct] Hsid Hr. constructor; simpl; try done.
  - intros x y. destruct (decide (x = sid)) as [->|Hne].
    + rewrite lookup_alter_eq, Hsid. simpl. intros [= <-]. apply Hs in Hsid.
      rewrite bool_decide_false in Hsid by done. rewrite bool_decide_true by done.
      destruct Hsid as [? ? ? ? ? Hfl ? Hsh Har ?]. constructor; simpl; try done.
      * intros Ho Hq. destruct (Hfl Ho Hq) as [|(? & [?|[_ ?]])]; auto; congruence.
      * intros Hx. destruct (Hsh Hx) as (_ & _ & _ & ?). congruence.
    + rewrite lookup_alter_ne by done. rewrite bool_decide_false by congruence.
      intros Hy. apply Hs in Hy. by rewrite bool_decide_false in Hy.
  - intros x [= <-]. rewrite lookup_alter_eq, Hsid. by eexists.
  - intros x. rewrite dom_alter_L. apply Hcr.
Qed.

Lemma exits_receive bs : exits (Session.receive cfg env now sid bs).
Proof using Hmax H0 Hh.
  intros w2 Hw2. destruct (ww_focus _ _ _ _ Hw2 sid eq_refl) as [s2 Hs2].
  pose proof (ww_sessions _ _ _ _ Hw2 sid s2 Hs2) as Hsw. rewrite bool_decide_true in Hsw by done.
  unfold Session.receive, this, mbind at 1, M_bind at 1. rewrite Hs2.
  unfold Buffer.advance_write. cbn [data_ write_pos_ read_pos_].
  destruct (_ <? _)%nat eqn:Hlen; [split; [by apply world_wf_release|done]|].
  apply Nat.ltb_ge in Hlen.
  apply exits_bind; [|intros _; apply exits_on_read|done].
  apply safe_update; [|done|by left]. rewrite bool_decide_true by done. intros s3 [? ? ? ? Hn ? ? ? ? ?].
  constructor; try done.
  - destruct Hsw as [_ [Hrb _] _ _ _ _ _ _ _ _]. split; simpl; lia.
  - simpl. intros Hx. specialize (Hn eq_refl). congruence.
Qed.

Lemma read_handler_wf (w : W) s ec bs :
  world_wf cfg None l w -> sessions w !! sid = Some s -> reading s = true ->
  match Session.read_handler cfg env now sid ec bs w with
  | (Ret _, w') | (Throw _, w') => world_wf cfg None l w' /\ evolves w w'
  | (Deadlock, w') => world_wf cfg None Stuck w' /\ evolves w w'
  | (Undefined, _) => ~ settings_ok cfg
  end.
Proof using Hmax H0 Hh.
  intros Hw Hsid Hr. pose proof (world_wf_handle w s Hw Hsid Hr) as Hw1.
  set (w1 := put_sessions _ w) in *.
  assert (He1 : evolves w w1) by (by eapply evolves_alter).
  assert (Hex : exits (if ec then Session.on_read cfg env now sid true 0
                       else Session.receive cfg env now sid bs))
    by (destruct ec; [apply exits_on_read | apply exits_receive]).
  specialize (Hex w1 Hw1).
  unfold Session.read_handler. rewrite (update_then w sid s) by done. fold w1.
  destruct ((if ec then Session.on_read cfg env now sid true 0
             else Session.receive cfg env now sid bs) w1) as [[x|e| |] w']; try done;
    destruct Hex as [Hw' He']; (split; [done|by eapply evolves_trans]).
Qed.

End Handlers.

(** ** Events *)

Section Broker.

Context {E A : Type} `{AuthenticatorSafe E A} (cfg : Config)
  (Hmax : max_write_queue_size cfg < 2 ^ 31).
Abbreviation W := (World A).
Implicit Types w : W.

(** What every event respects: the connection counter never goes down, counts
    the sessions created and stays within its limit, and a session whose
    keepalive timer stores a callback is never destroyed. *)
Record grows w w' : Prop := {
  gr_active : active_connections_ (server w) <= active_connections_ (server w');
  gr_max : max_connections_ (server w') = max_connections_ (server w);
  gr_created : active_connections_ (server w') - Z.of_nat (created (server w')) =
               active_connections_ (server w) - Z.of_nat (created (server w));
  gr_bound : active_connections_ (server w) <= Z.max 0 (max_connections_ (server w)) ->
             active_connections_ (server w') <= Z.max 0 (max_connections_ (server w'));
  gr_pinned : forall sid s, sessions w !! sid = Some s -> pinned s ->
              exists s', sessions w' !! sid = Some s' /\ pinned s'
}.

Lemma evolves_grows w w' : evolves w w' -> grows w w'.
Proof. intros [_ Hs Hp]. by constructor; rewrite ?Hs. Qed.

Lemma grows_trans w1 w2 w3 : grows w1 w2 -> grows w2 w3 -> grows w1 w3.
Proof.
  intros [Ha1 Hm1 Hc1 Hb1 Hp1] [Ha2 Hm2 Hc2 Hb2 Hp2]. constructor; [lia|congruence|lia|auto|].
  intros sid s Hs Hp. destruct (Hp1 sid s Hs Hp) as (s2 & H2 & Hq2). by eapply Hp2.
Qed.

(** A new session and the counter. *)
Lemma grows_insert w w' sid s :
  sessions w' = <[sid := s]> (sessions w) -> sid ∉ dom (sessions w) ->
  active_connections_ (server w) < max_connections_ (server w) ->
  server w' = mkServer (active_connections_ (server w) + 1) (max_connections_ (server w)) true
                (S (created (server w))) -> grows w w'.
Proof.
  intros Hs Hn Hlt Hv. constructor; rewrite ?Hv; simpl; try lia.
  intros x y Hx Hp. exists y. split; [|done].
  rewrite Hs, lookup_insert_ne; [done|]. intros <-. apply Hn, elem_of_dom. by exists y.
Qed.

Lemma grows_server w x :
  active_connections_ x = active_connections_ (server w) ->
  max_connections_ x = max_connections_ (server w) -> created x = created (server w) ->
  grows w (put_server x w).
Proof. intros Hx Hm Hc. constructor; simpl; rewrite ?Hx, ?Hm, ?Hc; try lia. by eauto. Qed.

Lemma initial_wf tls a : world_wf cfg None Free (initial cfg tls a : W).
Proof.
  constructor; simpl.
  - done.
  - intros sid s. by rewrite lookup_empty.
  - done.
  - apply qos1_init_wf.
  - apply qos2_init_wf.
  - exists ∅. constructor.
  - intros sid. rewrite dom_empty_L. set_solver.
  - constructor; simpl; intros ip n; by rewrite lookup_empty.
Qed.

Section Events.

(** The lock outside the handlers is free or stuck. *)
Context (l : lock_state) (Hh : l <> Held).

(** What an event comes to; it blocks when the lock is stuck, or as [dl] says. *)
Definition event_ends {X} (dl : bool) w (r : outcome X * W) : Prop :=
  match r with
  | (Ret _, w') | (Throw _, w') => world_wf cfg None l w' /\ grows w w'
  | (Deadlock, w') => (l = Stuck \/ dl = true) /\ world_wf cfg None Stuck w' /\ grows w w'
  | (Undefined, _) => ~ settings_ok cfg
  end.

Lemma ends_event {X} w (r : outcome X * W) :
  ends cfg (locked l) None l w r -> event_ends false w r.
Proof using Hh.
  destruct r as [[x|e| |] w']; simpl.
  1,2: by intros [? ?%evolves_grows].
  - intros (Hd & ? & ?%evolves_grows). split_and!; try done. left. by destruct l.
  - done.
Qed.

Lemma event_ends_trans {X} dl w w1 (r : outcome X * W) :
  grows w w1 -> event_ends dl w1 r -> event_ends dl w r.
Proof.
  intros Hg. destruct r as [[x|e| |] w']; simpl; [| | |done].
  1,2: intros [? ?]; split; [done|by eapply grows_trans].
  intros (? & ? & ?). split_and!; [done|done|by eapply grows_trans].
Qed.

(** A session that was started: its handshake or its first read is
    outstanding. *)
Definition reading_session (s : Session) : Session :=
  set_reading true (set_read_buf (Buffer.ensure_writable 4096 (Buffer.clear (read_buf_ s))) s).

Definition begun (s : Session) : Session :=
  if tls_ s then set_handshaking true s else reading_session s.

Lemma start_eq w sid s :
  sessions w !! sid = Some s ->
  Session.start sid w = (Ret tt, put_sessions (alter begun sid (sessions w)) w).
Proof.
  intros Hs. unfold Session.start. rewrite (this_bind_eq w sid s) by done.
  unfold Session.do_ssl_handshake, Session.do_read.
  destruct (tls_ s) eqn:Ht; rewrite (update_eq w sid s) by done;
    apply (f_equal (fun m => (Ret tt, put_sessions m w))), alter_ext; intros x Hx; simplify_eq;
    unfold begun; by rewrite Ht.
Qed.

Lemma begun_wf tls ip : session_wf cfg l false (begun (Session.init tls ip)).
Proof.
  unfold begun. destruct tls; constructor; simpl; first [done | apply parser_inv_init | lia | split; simpl; lia].
Qed.

Lemma wf_put_server w x :
  world_wf cfg None l w -> created x = created (server w) -> world_wf cfg None l (put_server x w).
Proof. intros [] Hx. constructor; try done. simpl. by rewrite Hx. Qed.

(** A session inserted under a key that was created. *)
Lemma wf_insert w sid s x :
  world_wf cfg None l w -> session_wf cfg l false s ->
  (sid < created x)%nat -> (created (server w) <= created x)%nat ->
  world_wf cfg None l (put_server x (put_sessions (<[sid := s]> (sessions w)) w)).
Proof.
  intros [Hm Hs Hf H1 H2 Ht Hcr Hct] Hn Hx Hle. constructor; simpl; try done.
  - intros y z. destruct (decide (y = sid)) as [->|Hne].
    + rewrite lookup_insert_eq. by intros [= <-].
    + rewrite lookup_insert_ne by done. apply Hs.
  - intros y. rewrite dom_insert_L. intros [->%elem_of_singleton|Hy%Hcr]%elem_of_union; lia.
Qed.

(** Counting a connection: the count before is within the limit. *)
Lemma counted_ip ip n st :
  counts_wf cfg st -> 0 <= n <= Z.max 0 (max_connections_per_ip cfg) ->
  counts_wf cfg (set_connections_per_ip (<[ip := n]> (connections_per_ip st)) st).
Proof.
  intros [Ha Hi] Hn. constructor; simpl; [done|].
  intros x c [[-> <-]|[_ Hx]]%lookup_insert_Some; [done|by eapply Hi].
Qed.

Lemma count_fits ip st :
  counts_wf cfg st -> max_connections_per_ip cfg < 2 ^ 31 - 1 ->
  int_fits (default 0 (connections_per_ip st !! ip) + 1) = true.
Proof.
  intros Hct Ho. assert (Hn : 0 <= default 0 (connections_per_ip st !! ip) <= Z.max 0 (max_connections_per_ip cfg)).
  { destruct (connections_per_ip st !! ip) as [c|] eqn:Ec; simpl; [by apply (cw_ips _ _ Hct) in Ec|lia]. }
  apply andb_true_intro. split; [apply Z.leb_le|apply Z.ltb_lt]; lia.
Qed.

Lemma ends_count_ip ip w :
  world_wf cfg None l w -> ends cfg (locked l) None l w (Server.count_ip cfg ip w).
Proof using Hh.
  intros Hw. apply ends_with_lock; [done|by intros ->|done|]. intros w1 Hw1.
  unfold get, state, modify, undefined, mret, M_ret, mbind, M_bind. set (n := default 0 _ + 1).
  pose proof (ww_counts _ _ _ _ Hw1) as Hct.
  assert (Hn : 1 <= n <= Z.max 0 (max_connections_per_ip cfg) + 1).
  { unfold n. destruct (connections_per_ip _ !! ip) as [c|] eqn:Ec; simpl; [apply (cw_ips _ _ Hct) in Ec|]; lia. }
  destruct (int_fits n) eqn:Hf; simpl.
  - destruct (Z.ltb_spec (max_connections_per_ip cfg) n).
    + pose proof (counted_ip ip (n - 1) _ Hct ltac:(lia)) as Hc. simpl. rewrite insert_insert_eq.
      exact (ends_state cfg (locked l) None w1 Held _ true Hc Hw1 eq_refl).
    + pose proof (counted_ip ip n _ Hct ltac:(lia)) as Hc.
      exact (ends_state cfg (locked l) None w1 Held _ false Hc Hw1 eq_refl).
  - intros [_ _ Ho]. unfold n in Hf. by rewrite count_fits in Hf.
Qed.

(** The session a connection gets, and the counter. *)
Lemma start_session_wf ip w :
  world_wf cfg None l w -> active_connections_ (server w) < max_connections_ (server w) ->
  event_ends false w
    ((sid ← Server.new_session ip;
      modify (fun w => put_server (mkServer (active_connections_ (server w) + 1)
                                     (max_connections_ (server w)) (accepting (server w))
                                     (created (server w))) w);;
      Session.start sid;; Server.do_accept) w).
Proof.
  intros Hw Hlt. unfold Server.new_session, Server.do_accept, Server.set_accepting, get, modify, mret, M_ret.
  unfold mbind, M_bind. cbv beta iota zeta.
  erewrite start_eq by apply lookup_insert_eq. simpl. rewrite alter_insert_eq.
  set (sid := created (server w)).
  assert (Hw3 := wf_insert w sid _ (mkServer (active_connections_ (server w) + 1)
    (max_connections_ (server w)) true (S sid)) Hw (begun_wf (ssl_ctx w) ip) (le_n _) (le_S _ _ (le_n _))).
  split; [exact Hw3|]. eapply grows_insert; [done| |done|done].
  intros Hin%(ww_created _ _ _ _ Hw). unfold sid in Hin. lia.
Qed.

Lemma accepting_wf w b :
  world_wf cfg None l w ->
  world_wf cfg None l (put_server (mkServer (active_connections_ (server w)) (max_connections_ (server w)) b
                                  (created (server w))) w) /\
  grows w (put_server (mkServer (active_connections_ (server w)) (max_connections_ (server w)) b
                                  (created (server w))) w).
Proof. intros Hw. split; [by apply wf_put_server|by apply grows_server]. Qed.

Lemma on_accept_wf ec remote w :
  world_wf cfg None l w -> event_ends false w (Server.on_accept cfg ec remote w).
Proof using Hh.
  intros Hw. unfold Server.on_accept. unfold mbind at 1, M_bind at 1, Server.set_accepting at 1, modify at 1.
  destruct (accepting_wf w false Hw) as [Hw1 Hg1]. set (w1 := put_server _ w) in *.
  assert (Hd : forall w2, world_wf cfg None l w2 -> event_ends false w2 (Server.do_accept w2))
    by (intros w2 Hw2; exact (accepting_wf w2 true Hw2)).
  eapply event_ends_trans; [exact Hg1|]. destruct ec; [by apply Hd|].
  destruct remote as [ip|]; [|split; [done|constructor; eauto; lia]].
  unfold gets, mbind at 1, M_bind at 1.
  destruct (Z.leb_spec (max_connections_ (server w1)) (active_connections_ (server w1))) as [|Hlt]; [by apply Hd|].
  pose proof (ends_count_ip ip w1 Hw1) as Hc. unfold mbind at 1, M_bind at 1.
  destruct (Server.count_ip cfg ip w1) as [[r|e| |] w2] eqn:Ec; try exact (ends_event w1 _ Hc).
  destruct Hc as [Hw2 He2]. eapply event_ends_trans; [by apply evolves_grows|].
  destruct r; [by apply Hd|]. apply start_session_wf; [done|]. by rewrite (ev_server _ _ He2).
Qed.

(** Changing one session. *)
Lemma wf_alter w sid s g :
  world_wf cfg None l w -> sessions w !! sid = Some s -> session_wf cfg l false (g s) ->
  world_wf cfg None l (put_sessions (alter g sid (sessions w)) w).
Proof.
  intros Hw Hs Hg. rewrite (alter_as_insert _ _ _ s) by done.
  assert (Hc : (sid < created (server w))%nat) by (apply (ww_created _ _ _ _ Hw), elem_of_dom; by exists s).
  pose proof (wf_insert w sid (g s) (server w) Hw Hg Hc (le_n _)) as Hn. by destruct w.
Qed.

Lemma written_session_wf s :
  session_wf cfg l false s -> writing_ s = true ->
  session_wf cfg l false (written s).
Proof.
  intros [Hp Hb Hq Hw Hn Hf Hi Hsh Har Hk] Hwr. specialize (Hw Hwr).
  destruct (write_queue_ s) as [|x q] eqn:Eq; [done|].
  assert (Hns : handshaking s = true -> False) by (intros Hx; by destruct (Hsh Hx) as (_ & _ & ? & _)).
  unfold written, pump. rewrite Eq. simpl in *.
  destruct q as [|y q]; [constructor; simpl; try (done || lia); intros Hx; by destruct (Hns Hx)|].
  assert (Hfl : socket_open s = true -> connected_ s = false ->
                l = Stuck \/ (false = false /\ reading s = false)).
  { intros Ho Hc. destruct l; [right; split; [done|by apply Hi]..|by left]. }
  destruct (connected_ s) eqn:Hc; constructor; simpl in *; try done; try lia; auto; try congruence;
    intros Hx; by destruct (Hns Hx).
Qed.

Lemma on_write_wf sid ec w s :
  world_wf cfg None l w -> sessions w !! sid = Some s -> writing_ s = true ->
  event_ends false w (Session.on_write sid ec w).
Proof using Hh.
  intros Hw Hs Hwr. destruct ec.
  - unfold Session.on_write.
    assert (HD : {[sid]} ⊆ dom (sessions w)) by (apply singleton_subseteq_l, elem_of_dom; by exists s).
    apply ends_event. apply (safe_close cfg (locked l) {[sid]}); [done|by intros ->|by apply elem_of_singleton|done|done].
  - pose proof (ww_sessions _ _ _ _ Hw sid s Hs) as Hsw.
    rewrite (on_write_eq w sid s Hs (sw_writing _ _ _ _ Hsw Hwr)).
    split.
    + apply (wf_alter w sid s); [done|done|]. apply written_session_wf; [|done].
      apply (ww_sessions _ _ _ _ Hw) in Hs. by rewrite bool_decide_false in Hs.
    + apply evolves_grows. eapply evolves_alter; [done|done|].
      unfold pinned, written, pump. simpl. intros s'. by destruct (tail (write_queue_ s')), (connected_ s').
Qed.

(** The handler of a handshake runs on a session without packets. *)
Lemma on_handshake_wf sid ec w s :
  world_wf cfg None l w -> sessions w !! sid = Some s -> handshaking s = true ->
  event_ends false w (Session.on_handshake sid ec w).
Proof.
  intros Hw Hs Hhs. pose proof (ww_sessions _ _ _ _ Hw sid s Hs) as Hsw. rewrite bool_decide_false in Hsw by done.
  destruct (sw_handshake _ _ _ _ Hsw Hhs) as (_ & Hc & Hq & Hr).
  assert (Hw1 : world_wf cfg None l (put_sessions (alter (set_handshaking false) sid (sessions w)) w)).
  { apply (wf_alter w sid s); [done|done|]. destruct Hsw. by constructor. }
  set (w1 := put_sessions _ w) in Hw1.
  assert (Hs1 : sessions w1 !! sid = Some (set_handshaking false s)) by apply (updated w sid s _ Hs).
  assert (Hg1 : grows w w1) by (by apply evolves_grows; eapply evolves_alter).
  unfold Session.on_handshake. rewrite (update_then w sid s) by done. fold w1. destruct ec.
  - rewrite (close_disconnected w1 sid _ Hs1) by done. by split.
  - unfold Session.do_read. rewrite (update_eq w1 sid _ _ Hs1). split.
    + apply (wf_alter w1 sid _ _ Hw1 Hs1). destruct Hsw. constructor; simpl; try done; first [split; simpl; lia|congruence].
    + eapply grows_trans; [exact Hg1|]. by apply evolves_grows; eapply evolves_alter.
Qed.

Lemma safe_keepalive_tick sid : safe cfg (locked l) {[sid]} None l (keepalive_tick (A := A) sid).
Proof using Hh.
  unfold keepalive_tick. apply safe_this_bind; [by apply elem_of_singleton|]. intros s Hs.
  apply run_safe_bind.
  - apply safe_update; [intros s' []; by constructor| |right; by apply elem_of_singleton]. intros s' (t & Ht & Hcb).
    eexists. simpl. rewrite Ht. split; [done|]. unfold Timer.on_tick. by destruct (_ || _).
  - intros _. destruct (keepalive_timer_ s ≫= _); [|apply run_safe_ret].
    apply safe_close; [done|by intros ->|by apply elem_of_singleton].
Qed.

Lemma safe_qos1_timer cid pid : safe cfg (locked l) ∅ None l (qos1_timer (A := A) cfg cid pid).
Proof using Hmax Hh.
  apply safe_engine_call; [done|done|by intros ->|]. intros v.
  apply (engine_ok_qos1 cfg v (Qos1Handler.retry_message cfg v cid pid)).
  - intros h s p. unfold Qos1Handler.retry_message.
    destruct (find_message cid pid (pending_ h)) as [pm|]; simpl; [|by intros Hin%elem_of_nil].
    destruct (_ <=? _); simpl; [by intros Hin%elem_of_nil|]. intros Hin. right. by eapply send_connected_dom.
  - intros h Hw. by apply retry_message_wf.
Qed.

Lemma safe_qos2_timer cid pid : safe cfg (locked l) ∅ None l (qos2_timer (A := A) cfg cid pid).
Proof using Hmax Hh.
  apply safe_engine_call; [done|done|by intros ->|]. intros v.
  apply (engine_ok_qos2 cfg v (Qos2Handler.retry_message cfg v cid pid)).
  - intros h s p. unfold Qos2Handler.retry_message.
    destruct (find_message cid pid (outgoing_ h)) as [m|]; simpl; [|by intros Hin%elem_of_nil].
    destruct (_ <=? _); simpl; [by intros Hin%elem_of_nil|]. intros Hin. right. by eapply send_connected_dom.
  - intros h Hw. apply (qos2_exec_wf cfg v (Retry cid pid) h Hw).
Qed.

Lemma destroy_wf sid w :
  world_wf cfg None l w -> is_Some (sessions w !! sid) -> ~ owned w sid ->
  event_ends false w (destroy sid w).
Proof.
  intros [Hm Hs Hf H1 H2 Ht Hcr Hct] [s0 Hs0] Ho. unfold destroy, Session.stop.
  rewrite (update_then w sid s0) by done. split.
  - constructor; simpl; try done.
    + intros x y. rewrite lookup_delete_Some. intros [Hne Hy]. rewrite lookup_alter_ne in Hy by done.
      exact (Hs x y Hy).
    + intros x. rewrite dom_delete_L, dom_alter_L. intros [Hx _]%elem_of_difference. by apply Hcr.
  - constructor; simpl; try done. intros x y Hx Hp. exists y. split; [|done].
    destruct (decide (x = sid)) as [->|Hne].
    + exfalso. apply Ho. left. exists y. split; [done|]. right; right; right. exact Hp.
    + by rewrite lookup_delete_ne, lookup_alter_ne.
Qed.

(** What an event that may happen does to a well-formed broker. *)
Lemma exec_wf (env : E) now e w :
  world_wf cfg None l w -> enabled w e ->
  event_ends (match e with Read _ _ _ => true | _ => false end) w (exec cfg env now e w).
Proof using Hmax H0 Hh.
  intros Hw He. destruct e as [ec remote|sid ec|sid ec bs|sid ec|sid|c p|c p|sid]; cbn [exec enabled] in *.
  - by apply on_accept_wf.
  - destruct He as (s & Hs & Hr). by apply (on_handshake_wf sid ec w s).
  - destruct He as (s & Hs & Hr & _).
    pose proof (read_handler_wf cfg Hmax env now sid l Hh w s ec bs Hw Hs Hr) as Ho.
    destruct (Session.read_handler cfg env now sid ec bs w) as [[x|x| |] w']; try done;
      destruct Ho as [Hw' Hg%evolves_grows]; simpl; auto.
  - destruct He as (s & Hs & Hr). by apply (on_write_wf sid ec w s).
  - apply ends_event, safe_keepalive_tick; [done|]. by apply singleton_subseteq_l, elem_of_dom.
  - by apply ends_event, safe_qos1_timer.
  - by apply ends_event, safe_qos2_timer.
  - destruct He as [Hex Ho]. by apply destroy_wf.
Qed.

End Events.

(** The lock between two events. *)
Definition lock_of w : lock_state := if mutex (server_state w) then Stuck else Free.

Lemma lock_of_wf l w : l <> Held -> world_wf cfg None l w -> lock_of w = l.
Proof. intros Hl Hw. unfold lock_of. rewrite (ww_mutex _ _ _ _ Hw). by destruct l. Qed.

Lemma lock_of_not_held w : lock_of w <> Held.
Proof. unfold lock_of. by destruct (mutex _). Qed.

(** An event that returns or throws leaves the lock as it was; one that blocks
    leaves it taken. *)
Lemma exec_ends (env : E) now e w o w' :
  world_wf cfg None (lock_of w) w -> enabled w e -> exec cfg env now e w = (o, w') -> o <> Undefined ->
  world_wf cfg None (lock_of w') w' /\ grows w w' /\
  mutex (server_state w') = (match o with Deadlock => true | _ => mutex (server_state w) end).
Proof using Hmax H0.
  intros Hw He Hx Hu. pose proof (exec_wf (lock_of w) (lock_of_not_held w) env now e w Hw He) as Ho.
  rewrite Hx in Ho. pose proof (ww_mutex _ _ _ _ Hw) as Hm. destruct o as [x|x| |]; simpl in Ho; [| | |done].
  1,2: destruct Ho as [Hw' Hg]; rewrite (lock_of_wf (lock_of w) w' (lock_of_not_held w) Hw');
    split_and!; [done|done|]; by rewrite (ww_mutex _ _ _ _ Hw').
  destruct Ho as (_ & Hw' & Hg). rewrite (lock_of_wf Stuck w') by done.
  split_and!; [done|done|]. by rewrite (ww_mutex _ _ _ _ Hw').
Qed.

Lemma step_wf w w' :
  world_wf cfg None (lock_of w) w -> step cfg w w' -> world_wf cfg None (lock_of w') w' /\ grows w w'.
Proof using Hmax H0.
  intros Hw Hs. destruct Hs as [env now e w o w' He Hx Hu].
  by destruct (exec_ends env now e w o w' Hw He Hx Hu) as (? & ? & _).
Qed.

Lemma reachable_wf a w : reachable cfg a w -> world_wf cfg None (lock_of w) w.
Proof using Hmax H0.
  induction 1 as [tls|w w' _ IH Hs]; [exact (initial_wf tls a)|]. by apply (step_wf w w').
Qed.

Lemma steps_grow w w' :
  world_wf cfg None (lock_of w) w -> rtc (step cfg) w w' ->
  world_wf cfg None (lock_of w') w' /\ grows w w'.
Proof using Hmax H0.
  intros Hw Hs. induction Hs as [w|w w1 w2 Hs _ IH].
  - split; [done|]. constructor; try done. by eauto.
  - destruct (step_wf w w1 Hw Hs) as [Hw1 Hg1]. destruct (IH Hw1) as [Hw2 Hg2].
    split; [done|]. by eapply grows_trans.
Qed.

(** The lock is free exactly as long as no handler has blocked. *)
Lemma free_serving a w : reachable cfg a w -> mutex (server_state w) = false -> serving cfg a w.
Proof using Hmax H0.
  induction 1 as [tls|w w' Hr IH Hs]; intros Hm; [constructor|].
  pose proof (reachable_wf a w Hr) as Hw. destruct Hs as [env now e w o w' He Hx Hu].
  destruct (exec_ends env now e w o w' Hw He Hx Hu) as (_ & _ & Hm'). rewrite Hm in Hm'.
  eapply serve_step; [|exact He|exact Hx| |done]; [apply IH|]; by destruct o.
Qed.

Lemma serving_wf a w : serving cfg a w -> world_wf cfg None Free w.
Proof using Hmax H0.
  induction 1 as [tls|env now e w o w' _ Hw He Hx Hd Hu]; [apply initial_wf|].
  assert (Hl : lock_of w = Free) by (by apply lock_of_wf).
  destruct (exec_ends env now e w o w') as (Hw' & _ & Hm); [by rewrite Hl|done..|].
  assert (Hl' : lock_of w' = Free) by (unfold lock_of; rewrite Hm, (ww_mutex _ _ _ _ Hw); by destruct o).
  by rewrite Hl' in Hw'.
Qed.


(** [C2] No undefined behaviour: under settings whose limits an [int] holds, in
    a reachable state every enabled event returns, throws or blocks; it never
    reads out of bounds, uses a destroyed session, converts a keepalive an
    [int] does not hold, or overflows one of the counters of failures and of
    connections of an address.  While the server lock is free only a read
    handler can block. *)
Theorem broker_defined a w (env : E) now e :
  settings_ok cfg -> reachable cfg a w -> enabled w e ->
  (exec cfg env now e w).1 <> Undefined /\
  (mutex (server_state w) = false -> (exec cfg env now e w).1 = Deadlock ->
   exists sid ec bs, e = Read sid ec bs).
Proof using Hmax H0.
  intros Hok Hr%reachable_wf He.
  pose proof (exec_wf (lock_of w) (lock_of_not_held w) env now e w Hr He) as Hx.
  destruct (exec cfg env now e w) as [[x|x| |] w']; simpl; split; try done.
  intros Hm _. destruct Hx as [[Hl|Hl] _].
  - unfold lock_of in Hl. by rewrite Hm in Hl.
  - destruct e; try done. by eauto.
Qed.

(** The multiplier of the keepalive is not checked: where the product leaves
    the range of [int] the conversion is undefined. *)
Lemma keepalive_conversion_undefined w sid s :
  sessions w !! sid = Some s -> keepalive_ s <> 0 ->
  int_fits (Session.keepalive_seconds cfg (keepalive_ s)) = false ->
  (Session.start_keepalive cfg sid w).1 = Undefined.
Proof.
  intros Hs Hk Hf. unfold Session.start_keepalive, Session.keepalive_duration.
  rewrite (this_bind_eq w sid s) by done. rewrite_test (keepalive_ s =? 0) false. by rewrite Hf.
Qed.

Lemma reachable_counted a w :
  reachable cfg a w ->
  active_connections_ (server w) = Z.of_nat (created (server w)) /\
  max_connections_ (server w) = max_connections cfg /\
  active_connections_ (server w) <= Z.max 0 (max_connections cfg).
Proof using Hmax H0.
  induction 1 as [tls|w w' Hr (Hc & Hm & Hb) Hs]; [simpl; lia|].
  destruct (step_wf w w' (reachable_wf a w Hr) Hs) as [_ [Ha Hm' Hc' Hb' _]].
  rewrite <- Hm in Hb |- *. specialize (Hb' Hb). rewrite Hm' in Hb' |- *. split; [lia|]. by split.
Qed.

(** [C16] The connection limit holds: in every reachable state the broker holds at
    most as many sessions as it has counted connections, and never more than
    [max_connections]. *)
Theorem connections_bounded a w :
  reachable cfg a w ->
  Z.of_nat (size (sessions w)) <= active_connections_ (server w) <= Z.max 0 (max_connections cfg).
Proof using Hmax H0.
  intros Hr. destruct (reachable_counted a w Hr) as (-> & _ & Hb). split; [|done].
  rewrite <- size_dom. apply Nat2Z.inj_le. rewrite <- (size_set_seq (C := gset nat) 0 (created (server w))).
  apply subseteq_size. intros x Hx. apply elem_of_set_seq.
  apply (ww_created _ _ _ _ (reachable_wf a w Hr)) in Hx. lia.
Qed.

(** Connections are never given back: the server's counter only grows, so
    once [max_connections] connections have been accepted the broker refuses
    every further one, whatever sessions are closed or destroyed meanwhile. *)
Theorem full_broker_stays_full a w w' (env : E) now ec remote :
  reachable cfg a w -> max_connections_ (server w) <= active_connections_ (server w) ->
  rtc (step cfg) w w' ->
  max_connections_ (server w') <= active_connections_ (server w') /\
  sessions (exec cfg env now (Accepted ec remote) w').2 = sessions w'.
Proof using Hmax H0.
  intros Hr%reachable_wf Hfull Hs. destruct (steps_grow w w' Hr Hs) as [_ [Ha Hm _ _ _]].
  assert (Hf : max_connections_ (server w') <= active_connections_ (server w')) by lia.
  split; [done|]. cbn [exec]. unfold Server.on_accept, Server.set_accepting, Server.do_accept, gets, modify.
  unfold mbind, M_bind. destruct ec; [done|]. destruct remote as [ip|]; [|done].
  simpl. by rewrite (proj2 (Z.leb_le _ _) Hf).
Qed.

(** Sessions leak: accepting a connection stores in the session's
    keepalive timer a callback that owns the session, nothing ever removes it,
    and so no later event destroys the session, although its client may be
    long gone. *)
Theorem connected_session_never_destroyed a w w' sid s :
  settings_ok cfg -> reachable cfg a w -> sessions w !! sid = Some s -> keepalive_ s <> 0 ->
  (exists s1, sessions (Session.start_keepalive cfg sid w).2 !! sid = Some s1 /\ pinned s1) /\
  (pinned s -> rtc (step cfg) w w' -> exists s', sessions w' !! sid = Some s' /\ pinned s').
Proof using Hmax H0.
  intros Hok Hr%reachable_wf Hs Hk. split.
  - unfold Session.start_keepalive, Session.keepalive_duration. rewrite (this_bind_eq w sid s) by done.
    rewrite_test (keepalive_ s =? 0) false.
    rewrite keepalive_fits by (done || apply (ww_sessions _ _ _ _ Hr sid s Hs)).
    unfold mbind, M_bind, mret, M_ret. rewrite (update_eq w sid s) by done. cbn [snd]. rewrite (updated w sid s _ Hs).
    eexists. split; [done|]. eexists. split; [done|]. by eexists.
  - intros Hp Hst. destruct (steps_grow w w' Hr Hst) as [_ Hg]. by eapply (gr_pinned _ _ Hg).
Qed.

End Broker.

(** ** A small run, for the witnesses *)

(** The CONNECT a client sends. *)
Definition connect_frame (cid : string) (flags keepalive : Z) : list byte :=
  frame 0x10 (string_field "MQTT" ++ [byte_of_Z 4; byte_of_Z flags] ++
              Buffer.uint16_bytes keepalive ++ string_field cid).

Definition demo_exec (cfg : Config) (e : event) (w : World unit) : outcome unit * World unit :=
  exec (E := unit) cfg tt 0 e w.

(** A broker that accepts one connection. *)
Definition tiny_config : Config :=
  mkConfig 1 100 3600 (keepalive_multiplier default_config) 262144 128 65536 1000 10000 10000 1048576 10 60 5 5.

Definition demo_start : World unit := initial tiny_config false tt.
Definition demo_accepted : World unit :=
  (demo_exec tiny_config (Accepted false (Some "10.0.0.1"%string)) demo_start).2.
Definition demo_connected : World unit :=
  (demo_exec tiny_config (Read 0 false (connect_frame "dev" 2 10)) demo_accepted).2.

Lemma demo_step e w :
  enabled w e -> match (demo_exec tiny_config e w).1 with Ret _ => True | _ => False end ->
  reachable (E := unit) tiny_config tt w -> reachable (E := unit) tiny_config tt (demo_exec tiny_config e w).2.
Proof.
  intros He Ho Hr. eapply reach_step; [exact Hr|].
  apply (step_event tiny_config tt 0 e w (demo_exec tiny_config e w).1); [done| |].
  - apply surjective_pairing.
  - by destruct (demo_exec tiny_config e w).1.
Qed.

(** A fact about a session of a concrete state. *)
Lemma demo_session {X} (w : World unit) sid (g : Session -> X) x :
  g <$> sessions w !! sid = Some x -> exists s, sessions w !! sid = Some s /\ g s = x.
Proof. intros H. destruct (sessions w !! sid) as [s|]; [|done]. injection H as <-. by exists s. Qed.

Lemma demo_accepted_reachable : reachable (E := unit) tiny_config tt demo_accepted.
Proof. apply demo_step; [done|by vm_compute|constructor]. Qed.

Lemma demo_connect_enabled : enabled demo_accepted (Read 0 false (connect_frame "dev" 2 10)).
Proof.
  destruct (demo_session demo_accepted 0%nat
              (fun s => (reading s, Z.of_nat (Buffer.write_capacity (read_buf_ s)))) (true, 4096))
    as (s & Hs & Hx); [by vm_compute|]. apply pair_equal_spec in Hx as [Hr Hc].
  exists s. split; [done|]. split; [done|].
  assert (Hl : length (connect_frame "dev" 2 10) = 17%nat) by (by vm_compute). lia.
Qed.

Lemma demo_connected_reachable : reachable (E := unit) tiny_config tt demo_connected.
Proof.
  apply demo_step; [apply demo_connect_enabled|by vm_compute|apply demo_accepted_reachable].
Qed.

Lemma demo_serve e w :
  enabled w e -> match (demo_exec tiny_config e w).1 with Ret _ => True | _ => False end ->
  serving (E := unit) tiny_config tt w -> serving (E := unit) tiny_config tt (demo_exec tiny_config e w).2.
Proof.
  intros He Ho Hr. eapply (serve_step tiny_config tt tt 0 e w (demo_exec tiny_config e w).1); [exact Hr|exact He| | |].
  - apply surjective_pairing.
  - by destruct (demo_exec tiny_config e w).1.
  - by destruct (demo_exec tiny_config e w).1.
Qed.

Lemma demo_connected_serving : serving (E := unit) tiny_config tt demo_connected.
Proof.
  apply demo_serve; [apply demo_connect_enabled|by vm_compute|].
  apply demo_serve; [done|by vm_compute|constructor].
Qed.

Lemma demo_connected_wf : world_wf tiny_config None Free demo_connected.
Proof.
  apply (serving_wf (E := unit) tiny_config ltac:(reflexivity) tt), demo_connected_serving.
Qed.

Lemma tiny_settings_ok : settings_ok tiny_config.
Proof. constructor; vm_compute; reflexivity. Qed.

(** A broker for two connections; the second takes over the client id of the
    first, and its worker blocks with the lock. *)
Definition two_config : Config :=
  mkConfig 2 100 3600 (keepalive_multiplier default_config) 262144 128 65536 1000 10000 10000 1048576 10 60 5 5.
Definition two_accepted : World unit :=
  (demo_exec two_config (Accepted false (Some "10.0.0.2"%string))
     (demo_exec two_config (Accepted false (Some "10.0.0.1"%string)) (initial two_config false tt)).2).2.
Definition two_connected : World unit :=
  (demo_exec two_config (Read 0 false (connect_frame "dev" 2 10)) two_accepted).2.
Definition two_stuck : World unit :=
  (demo_exec two_config (Read 1 false (connect_frame "dev" 2 10)) two_connected).2.

Lemma two_step e w :
  enabled w e -> (demo_exec two_config e w).1 <> Undefined ->
  reachable (E := unit) two_config tt w -> reachable (E := unit) two_config tt (demo_exec two_config e w).2.
Proof.
  intros He Ho Hr. eapply reach_step; [exact Hr|].
  eapply (step_event two_config tt 0 e w (demo_exec two_config e w).1); [done|apply surjective_pairing|done].
Qed.

Lemma two_read (w : World unit) sid :
  (fun s => (reading s, Z.of_nat (Buffer.write_capacity (read_buf_ s)))) <$> sessions w !! sid = Some (true, 4096) ->
  enabled w (Read sid false (connect_frame "dev" 2 10)).
Proof.
  intros Hx. destruct (demo_session w sid _ _ Hx) as (s & Hs & Hy). apply pair_equal_spec in Hy as [Hr Hc].
  exists s. split; [done|]. split; [done|].
  assert (Hl : length (connect_frame "dev" 2 10) = 17%nat) by (by vm_compute). lia.
Qed.

Lemma two_stuck_reachable : reachable (E := unit) two_config tt two_stuck.
Proof.
  apply two_step; [apply two_read; vm_compute; reflexivity|vm_compute; discriminate|].
  apply two_step; [apply two_read; vm_compute; reflexivity|vm_compute; discriminate|].
  apply two_step; [done|vm_compute; discriminate|].
  apply two_step; [done|vm_compute; discriminate|constructor].
Qed.


(** The takeover blocks, and later events are still defined. *)
Lemma broker_defined_witness :
  (exec (E := unit) tiny_config tt 0 (Read 0 false (connect_frame "dev" 2 10)) demo_accepted).1
    <> Undefined /\
  (exec (E := unit) two_config tt 0 (Read 1 false (connect_frame "dev" 2 10)) two_connected).1 = Deadlock /\
  (exec (E := unit) two_config tt 0 (KeepaliveTick 1) two_stuck).1 <> Undefined.
Proof.
  split; [|split].
  - eapply (broker_defined tiny_config);
      [reflexivity|apply tiny_settings_ok|apply demo_accepted_reachable|apply demo_connect_enabled].
  - vm_compute. reflexivity.
  - eapply (broker_defined two_config);
      [reflexivity|constructor; vm_compute; reflexivity|apply two_stuck_reachable|].
    destruct (demo_session two_stuck 1%nat connected_ false) as (s & Hs & _); [vm_compute; reflexivity|].
    exists s. exact Hs.
Defined.

Lemma connections_bounded_witness : Z.of_nat (size (sessions demo_connected)) <= 1.
Proof.
  assert (Ha : active_connections_ (server demo_connected) = 1) by (by vm_compute).
  rewrite <- Ha. eapply (connections_bounded (E := unit) tiny_config);
    [reflexivity|apply demo_connected_reachable].
Defined.

Lemma full_broker_stays_full_witness :
  sessions (exec (E := unit) tiny_config tt 0 (Accepted false (Some "10.0.0.2"%string)) demo_accepted).2 =
  sessions demo_accepted.
Proof.
  eapply (full_broker_stays_full tiny_config);
    [reflexivity|apply demo_accepted_reachable|vm_compute; discriminate|apply rtc_refl].
Defined.

Lemma connected_session_never_destroyed_witness :
  exists s', sessions demo_connected !! 0%nat = Some s' /\ pinned s'.
Proof.
  destruct (demo_session demo_connected 0%nat
              (fun s => (keepalive_ s, (callback_ <$> keepalive_timer_ s))) (10, Some (Some tt)))
    as (s & Hs & [= Hk Ht]); [by vm_compute|].
  eapply (connected_session_never_destroyed (E := unit) tiny_config ltac:(reflexivity) tt demo_connected);
    [apply tiny_settings_ok|apply demo_connected_reachable|exact Hs|by rewrite Hk| |apply rtc_refl].
  destruct (keepalive_timer_ s) as [t|] eqn:E; [|discriminate].
  exists t. split; [done|]. injection Ht as ->. by eexists.
Defined.
