(* ===== verification/Routing.v ===== *)
(** * Routing a publication to the output streams

    From a PUBLISH of one session to the packets the others send: what
    [DeliveryEngine] hands to [Session::deliver] ([src/core/], [src/qos/])
    reaches the write queues of the sessions ([src/session.cpp]) in order and
    exactly once. *)

From Stdlib Require Import Strings.String ZArith Lia.
From stdpp Require Import base list strings numbers option gmap fin_maps sets.
From S2P Require Import Prelude Config Buffer Packet Parser Filter TopicTree Retained Subscription Auth Timer Qos Inflight Qos1 Qos2 Delivery World Session Closing Server Safety.

Open Scope Z_scope.

(** ** Output streams *)

(** Everything accepted for the wire: what was handed to [async_write], then
    what waits. *)
Definition outstream (s : Session) : list Buffer :=
  sent s ++ (if writing_ s then tail (write_queue_ s) else write_queue_ s).

Lemma outstream_enqueue s packet :
  (writing_ s = true -> write_queue_ s <> []) -> connected_ s = true ->
  outstream (enqueue packet s) = outstream s ++ [packet].
Proof.
  intros Hs Hc. unfold outstream, enqueue. destruct (write_queue_ s) as [|x q] eqn:E.
  - unfold pump. simpl. rewrite Hc. simpl.
    destruct (writing_ s) eqn:Hw; [by destruct (Hs eq_refl)|]. by rewrite !app_nil_r.
  - simpl. destruct (writing_ s); simpl; by rewrite <- app_assoc.
Qed.

Lemma outstream_written cfg l h s :
  session_wf cfg l h s -> writing_ s = true ->
  outstream (written s) = outstream s.
Proof.
  intros Hs Hw. pose proof (sw_writing _ _ _ _ Hs Hw) as Hq. unfold outstream, written, pump. rewrite Hw.
  destruct (write_queue_ s) as [|x [|y q]]; [done|by simpl|]. simpl.
  destruct (connected_ s); simpl; [by rewrite <- app_assoc|done].
Qed.

(** ** Sending a list of packets *)

(** The packets of [out] for session [x], in order. *)
Definition packets_for (x : session_id) (out : list delivery) : list Buffer :=
  (filter (fun d => d.1 = x) out).*2.

Lemma packets_for_app x o1 o2 : packets_for x (o1 ++ o2) = packets_for x o1 ++ packets_for x o2.
Proof. unfold packets_for. by rewrite filter_app, fmap_app. Qed.

Lemma packets_for_cons x d out :
  packets_for x (d :: out) = (if decide (d.1 = x) then [d.2] else []) ++ packets_for x out.
Proof. unfold packets_for. rewrite filter_cons. by case_decide. Qed.

(** A session after the packets of [out]. *)
Definition queue_after (out : list delivery) (x : session_id) (s : Session) : Session :=
  if connected_ s then foldl (fun s p => enqueue p s) s (packets_for x out) else s.

Lemma enqueue_connected p s : connected_ (enqueue p s) = connected_ s.
Proof. unfold enqueue, pump. destruct (write_queue_ s); simpl; [|done]. by destruct (connected_ s) eqn:E. Qed.

Lemma enqueue_client_id p s : client_id_ (enqueue p s) = client_id_ s.
Proof. unfold enqueue, pump. destruct (write_queue_ s); simpl; [by destruct (connected_ s)|done]. Qed.

Lemma enqueue_queue p s : write_queue_ (enqueue p s) = write_queue_ s ++ [p].
Proof.
  unfold enqueue, pump. destruct (write_queue_ s) eqn:E; simpl; [|done]. by destruct (connected_ s).
Qed.

Lemma enqueue_writing p s : writing_ (enqueue p s) = true -> write_queue_ (enqueue p s) <> [].
Proof. intros _. rewrite enqueue_queue. by destruct (write_queue_ s). Qed.

Lemma queue_after_nil x s : queue_after [] x s = s.
Proof. unfold queue_after. simpl. by destruct (connected_ s). Qed.

Lemma queue_after_cons d out x s :
  queue_after (d :: out) x s =
    queue_after out x (if decide (d.1 = x) then if connected_ s then enqueue d.2 s else s else s).
Proof.
  unfold queue_after. rewrite packets_for_cons.
  case_decide; destruct (connected_ s) eqn:Hc; rewrite ?enqueue_connected, ?Hc; done.
Qed.

Lemma queue_after_app o1 o2 x s : queue_after (o1 ++ o2) x s = queue_after o2 x (queue_after o1 x s).
Proof.
  revert s. induction o1 as [|d o1 IH]; intros s; [by rewrite queue_after_nil|].
  simpl. by rewrite !queue_after_cons, IH.
Qed.

Lemma queue_after_same out x s :
  connected_ (queue_after out x s) = connected_ s /\ client_id_ (queue_after out x s) = client_id_ s.
Proof.
  revert s. induction out as [|d out IH]; intros s; [by rewrite queue_after_nil|].
  rewrite queue_after_cons. destruct (IH (if decide (d.1 = x) then
    if connected_ s then enqueue d.2 s else s else s)) as [-> ->].
  case_decide; [|done]. destruct (connected_ s) eqn:Hc; [|done].
  by rewrite enqueue_connected, enqueue_client_id.
Qed.

(** What the packets add to the output stream. *)
Lemma outstream_queue_after out x s :
  (writing_ s = true -> write_queue_ s <> []) ->
  outstream (queue_after out x s) =
    outstream s ++ (if connected_ s then packets_for x out else []).
Proof.
  unfold queue_after. destruct (connected_ s) eqn:Hc; [|by rewrite app_nil_r].
  revert s Hc. induction (packets_for x out) as [|p ps IH]; intros s Hc Hw; simpl.
  - by rewrite app_nil_r.
  - rewrite IH by (rewrite ?enqueue_connected; auto using enqueue_writing).
    rewrite outstream_enqueue by done. by rewrite <- app_assoc.
Qed.

(** Every connected session's queue takes its packets of [out]. *)
Definition room_for (cfg : Config) (ss : gmap session_id Session) (out : list delivery) : Prop :=
  forall x s, ss !! x = Some s -> connected_ s = true ->
    Z.of_nat (length (write_queue_ s) + length (packets_for x out)) <= max_write_queue_size cfg.

Definition after (out : list delivery) (ss : gmap session_id Session) : gmap session_id Session :=
  map_imap (fun x s => Some (queue_after out x s)) ss.

Lemma lookup_after out ss x : after out ss !! x = queue_after out x <$> ss !! x.
Proof. unfold after. rewrite map_lookup_imap. by destruct (ss !! x). Qed.

Lemma after_nil ss : after [] ss = ss.
Proof.
  apply map_eq. intros x. rewrite lookup_after. destruct (ss !! x); simpl; [|done].
  by rewrite queue_after_nil.
Qed.

Lemma after_app o1 o2 ss : after o2 (after o1 ss) = after (o1 ++ o2) ss.
Proof.
  apply map_eq. intros x. rewrite !lookup_after. destruct (ss !! x); simpl; [|done].
  by rewrite queue_after_app.
Qed.

Lemma room_for_app cfg ss o1 o2 : room_for cfg ss (o1 ++ o2) -> room_for cfg (after o1 ss) o2.
Proof.
  intros Hr x s Hx Hc. rewrite lookup_after in Hx.
  destruct (ss !! x) as [s0|] eqn:E; [|done]. injection Hx as <-.
  rewrite (proj1 (queue_after_same o1 x s0)) in Hc. specialize (Hr x s0 E Hc).
  rewrite packets_for_app, length_app in Hr.
  assert (Hq : write_queue_ (queue_after o1 x s0) = write_queue_ s0 ++ packets_for x o1).
  { clear E Hr. unfold queue_after. rewrite Hc. clear Hc. revert s0.
    induction (packets_for x o1) as [|p ps IH]; intros s0; simpl; [by rewrite app_nil_r|].
    rewrite IH, enqueue_queue. by rewrite <- app_assoc. }
  rewrite Hq, length_app. lia.
Qed.

Section Sending.

Context {A : Type} (cfg : Config) (Hmax : max_write_queue_size cfg < 2 ^ 31).
Abbreviation W := (World A).
Implicit Types (w : W).

Lemma deliver_after w x p :
  is_Some (sessions w !! x) -> room_for cfg (sessions w) [(x, p)] ->
  Session.deliver cfg x p w = (Ret tt, put_sessions (after [(x, p)] (sessions w)) w).
Proof using Hmax.
  intros [s Hs] Hr. rewrite (deliver_cases cfg x p w s Hs).
  assert (Ha : forall y, after [(x, p)] (sessions w) !! y =
    alter (fun s => if connected_ s then enqueue p s else s) x (sessions w) !! y).
  { intros y. rewrite lookup_after. destruct (decide (x = y)) as [->|Hne].
    - rewrite lookup_alter_eq. destruct (sessions w !! y) as [sy|]; [|done]. simpl.
      by rewrite queue_after_cons, queue_after_nil, decide_True.
    - rewrite lookup_alter_ne by done. destruct (sessions w !! y) as [sy|]; [|done]. simpl.
      by rewrite queue_after_cons, queue_after_nil, decide_False. }
  destruct (connected_ s) eqn:Hc; cbn [negb].
  - assert (Hro : has_room cfg s = true).
    { specialize (Hr x s Hs Hc). rewrite packets_for_cons in Hr. simpl in Hr.
      rewrite decide_True in Hr by done. simpl in Hr.
      unfold has_room. apply Z.ltb_lt. rewrite i32_small; lia. }
    rewrite Hro. apply (f_equal (fun m => (Ret tt, put_sessions m w))), map_eq. intros y.
    rewrite Ha. apply (f_equal (.!! y)), alter_ext. intros s' Hs'. rewrite Hs in Hs'.
    injection Hs' as <-. by rewrite Hc.
  - replace (after [(x, p)] (sessions w)) with (sessions w); [by destruct w|].
    apply map_eq. intros y. rewrite Ha. destruct (decide (x = y)) as [->|Hne].
    + rewrite lookup_alter_eq, Hs. simpl. by rewrite Hc.
    + by rewrite lookup_alter_ne.
Qed.

Lemma send_all_after out : forall w,
  Forall (fun d => is_Some (sessions w !! d.1)) out -> room_for cfg (sessions w) out ->
  Session.send_all cfg out w = (Ret tt, put_sessions (after out (sessions w)) w).
Proof using Hmax.
  induction out as [|[x p] out IH]; intros w Hf Hr.
  { rewrite after_nil. by destruct w. }
  apply Forall_cons in Hf as [Hx Hf].
  change (Session.send_all cfg ((x, p) :: out)) with
    (Session.deliver (A := A) cfg x p;; Session.send_all cfg out).
  assert (Hr1 : room_for cfg (sessions w) [(x, p)]).
  { intros y s Hy Hc. specialize (Hr y s Hy Hc).
    change ((x, p) :: out) with ([(x, p)] ++ out) in Hr. rewrite packets_for_app, length_app in Hr. lia. }
  unfold mbind, M_bind. rewrite (deliver_after w x p Hx Hr1).
  rewrite IH; simpl.
  - change ((x, p) :: out) with ([(x, p)] ++ out). rewrite <- after_app. done.
  - eapply Forall_impl; [exact Hf|]. intros d [s Hs]. rewrite lookup_after, Hs. by eexists.
  - by apply room_for_app.
Qed.

End Sending.

(** ** Views that agree

    Delivering a packet changes a session's queue but not what the engine
    reads of it: the views before and after are equal at every session. *)

#[global] Instance view_equiv : Equiv SessionView := fun v1 v2 =>
  (forall s, view_alive v1 s = view_alive v2 s) /\
  (forall s, view_client_id v1 s = view_client_id v2 s) /\
  (forall s, view_connected v1 s = view_connected v2 s).

#[global] Instance view_equivalence : Equivalence (≡@{SessionView}).
Proof.
  split.
  - by intros v.
  - intros v1 v2 (H1 & H2 & H3). split; [|split]; by symmetry.
  - intros v1 v2 v3 (H1 & H2 & H3) (K1 & K2 & K3). split; [|split]; intros s; congruence.
Qed.

Lemma lock_view v1 v2 o :
  v1 ≡ v2 -> TopicTree.lock (view_alive v1) o = TopicTree.lock (view_alive v2) o.
Proof. intros (H & _ & _). destruct o as [s|]; simpl; [|done]. by rewrite H. Qed.

Lemma send_each_ext {H E} (l : list E) (f g : E -> sender H) h :
  (forall x h, f x h = g x h) -> send_each l f h = send_each l g h.
Proof.
  intros Hfg. revert h. induction l as [|x l IH]; intros h; cbn [send_each]; [done|].
  rewrite Hfg. destruct (g x h) as [h1 o1]. by rewrite IH.
Qed.

#[global] Instance live_proper : Proper ((≡) ==> (=) ==> (=)) live.
Proof.
  intros v1 v2 Hv l ? <-. unfold live. induction l as [|e l IH]; [done|]. cbn.
  by rewrite (lock_view v1 v2 _ Hv), IH.
Qed.

#[global] Instance qos1_deliver_proper cfg :
  Proper ((≡) ==> (=) ==> (=) ==> (=) ==> (=)) (Qos1Handler.deliver cfg).
Proof.
  intros v1 v2 Hv t ? <- pub ? <- h ? <-. apply send_each_ext. intros e h'.
  unfold Qos1Handler.deliver_entry. rewrite (lock_view v1 v2 _ Hv).
  destruct (TopicTree.lock _ _) as [s|]; [|done]. destruct Hv as (_ & Hc & _). by rewrite Hc.
Qed.

#[global] Instance qos2_deliver_proper cfg :
  Proper ((≡) ==> (=) ==> (=) ==> (=) ==> (=)) (Qos2Handler.deliver cfg).
Proof.
  intros v1 v2 Hv t ? <- pub ? <- h ? <-. apply send_each_ext. intros e h'.
  unfold Qos2Handler.deliver_entry. rewrite (lock_view v1 v2 _ Hv).
  destruct (TopicTree.lock _ _) as [s|]; [|done]. destruct Hv as (_ & Hc & _). by rewrite Hc.
Qed.

#[global] Instance publish_from_client_proper cfg :
  Proper ((≡) ==> (=) ==> (=) ==> (=) ==> (=)) (DeliveryEngine.publish_from_client cfg).
Proof.
  intros v1 v2 Hv t ? <- pub ? <- d ? <-. unfold DeliveryEngine.publish_from_client.
  rewrite !qos0_deliver_live, (live_proper v1 v2 Hv _ _ eq_refl),
    (qos1_deliver_proper cfg v1 v2 Hv t t eq_refl pub pub eq_refl _ _ eq_refl),
    (qos2_deliver_proper cfg v1 v2 Hv t t eq_refl pub pub eq_refl _ _ eq_refl).
  done.
Qed.

Lemma view_after {A} (w w' : World A) out :
  sessions w' = after out (sessions w) -> view_of w' ≡ view_of w.
Proof.
  intros Hs. split; [|split]; intros x; simpl; unfold alive; rewrite Hs, lookup_after;
    destruct (sessions w !! x) as [s|]; simpl; try done; apply (queue_after_same out x s).
Qed.

(** ** Publishing *)

(** What the publisher is answered. *)
Definition answer (sid : session_id) (pub : PublishPacket) : list delivery :=
  match qos pub with
  | 1 => [(sid, PacketBuilder.build_puback (packet_id pub))]
  | 2 => [(sid, PacketBuilder.build_pubrec (packet_id pub))]
  | _ => []
  end.

(** What the engine does at once: it forwards at QoS 0 and 1, and keeps a QoS 2
    publication until its PUBREL. *)
Definition routed (cfg : Config) (v : SessionView) (cid : string) (tree : TopicTree)
    (pub : PublishPacket) : sender DeliveryEngine := fun d =>
  match qos pub with
  | 0 | 1 => DeliveryEngine.publish_from_client cfg v tree pub d
  | 2 => (DeliveryEngine.store_incoming_qos2 cid pub d, [])
  | _ => (d, [])
  end.

Section Publishing.

Context {E A : Type} `{Authenticator E A} (cfg : Config) (Hmax : max_write_queue_size cfg < 2 ^ 31).
Abbreviation W := (World A).
Implicit Types (w : W).

Lemma publish_from_client_after w pub d out :
  DeliveryEngine.publish_from_client cfg (view_of w) (topic_tree w) pub (delivery_engine w) = (d, out) ->
  room_for cfg (sessions w) out ->
  Session.publish_from_client cfg pub w =
    (Ret tt, put_sessions (after out (sessions w)) (put_delivery_engine d w)).
Proof using Hmax.
  intros Hp Hr. unfold Session.publish_from_client, Session.engine_call, get, mbind, M_bind.
  rewrite Hp. unfold engine, modify. apply (send_all_after cfg Hmax out (put_delivery_engine d w)); [|done]. simpl.
  apply Forall_forall. intros [x p] Hin. apply elem_of_dom. simpl.
  destruct (engine_ok_publish cfg (view_of w) (topic_tree w) pub) as [Hk _].
  specialize (Hk (delivery_engine w) x p). rewrite Hp in Hk.
  destruct (Hk Hin); [by apply view_alive_dom | by apply view_connected_dom].
Qed.

Lemma publish_by_qos_after w sid cid pub d out :
  is_Some (sessions w !! sid) ->
  routed cfg (view_of w) cid (topic_tree w) pub (delivery_engine w) = (d, out) ->
  room_for cfg (sessions w) (answer sid pub ++ out) ->
  exists c, Session.publish_by_qos cfg sid cid pub w =
    (Ret tt, put_counters c (put_sessions (after (answer sid pub ++ out) (sessions w))
                               (put_delivery_engine d w))).
Proof using Hmax.
  intros Hs Ho Hr. unfold routed, answer, Session.publish_by_qos in *.
  assert (Hd : forall p, room_for cfg (sessions w) ([(sid, p)] ++ out) ->
    Session.deliver cfg sid p w = (Ret tt, put_sessions (after [(sid, p)] (sessions w)) w)).
  { intros p Hp. apply (deliver_after cfg Hmax); [done|]. intros x s Hx Hc.
    specialize (Hp x s Hx Hc). rewrite packets_for_app, length_app in Hp. lia. }
  destruct (qos pub) as [|[q|[q|q|]|]|q] eqn:Hq;
    try (injection Ho as <- <-; exists (counters w); rewrite after_nil; by destruct w).
  - unfold mbind, M_bind. rewrite (publish_from_client_after w pub d out) by done. by eexists.
  - injection Ho as <- <-. unfold mbind at 1, M_bind at 1. rewrite Hd by done.
    exists (counters w). by destruct w.
  - unfold mbind at 1, M_bind at 1. rewrite Hd by done.
    set (w1 := put_sessions _ w).
    assert (Ho1 : DeliveryEngine.publish_from_client cfg (view_of w1) (topic_tree w1) pub
                    (delivery_engine w1) = (d, out)).
    { rewrite (publish_from_client_proper cfg _ _ (view_after w w1 _ eq_refl) _ _ eq_refl _ _ eq_refl
                 _ _ eq_refl). exact Ho. }
    unfold mbind, M_bind. rewrite (publish_from_client_after w1 pub d out Ho1) by (by apply room_for_app).
    eexists. simpl. by rewrite after_app.
Qed.

End Publishing.

(** ** From subscriptions to deliveries *)

(** Retaining a message moves no subscription. *)
Lemma subs_at_child gs seg c node :
  (forall gs, subs_at gs c = subs_at gs (TopicTree.ensure_node node seg)) ->
  subs_at gs (set_child seg c node) = subs_at gs node.
Proof.
  intros Hc. destruct gs as [|g gs]; [done|]. rewrite !subs_at_cons.
  destruct (String.eqb g "#"); [done|]. destruct (String.eqb g "+"); [done|]. simpl.
  destruct (decide (seg = g)) as [->|Hne].
  - rewrite lookup_insert_eq. apply Hc.
  - by rewrite lookup_insert_ne.
Qed.

Lemma subs_at_ensure_path segs : forall node gs,
  subs_at gs (TopicTree.ensure_path segs node) = subs_at gs node.
Proof.
  induction segs as [|seg segs IH]; intros node gs; [done|].
  cbn [TopicTree.ensure_path]. by apply subs_at_child.
Qed.

Lemma subs_at_store_path r segs : forall node gs,
  subs_at gs (TopicTree.store_path r segs node) = subs_at gs node.
Proof.
  induction segs as [|seg segs IH]; intros node gs; cbn [TopicTree.store_path].
  - destruct gs as [|g gs]; [done|]. by rewrite !subs_at_cons.
  - by apply subs_at_child.
Qed.

Lemma subs_at_set_retained cfg top msg t gs :
  subs_at gs (root_ (TopicTree.set_retained cfg top msg t).2) = subs_at gs (root_ t).
Proof.
  unfold TopicTree.set_retained.
  repeat case_match; simpl; by rewrite ?subs_at_store_path, subs_at_ensure_path.
Qed.

(** The entries a session has among those of a lookup. *)
Definition entries_for (x : session_id) (l : list SubscriberEntry) : nat :=
  length (filter (fun e => entry_session e = Some x) l).

Lemma packets_for_live v x l p :
  view_alive v x = true ->
  packets_for x ((fun s => (s, p)) <$> live v l) = replicate (entries_for x l) p.
Proof.
  intros Hx. unfold live, entries_for. induction l as [|e l IH]; [done|].
  rewrite filter_cons. cbn [omap list_omap]. destruct (entry_session e) as [y|]; simpl.
  - destruct (decide (Some y = Some x)) as [Heq|Hne].
    + injection Heq as ->. rewrite Hx. rewrite fmap_cons, packets_for_cons, IH. simpl.
      by rewrite decide_True.
    + destruct (view_alive v y); [|exact IH]. rewrite fmap_cons, packets_for_cons, IH. simpl.
      rewrite decide_False by congruence. done.
  - exact IH.
Qed.

Lemma entries_for_pos x l : (0 < entries_for x l)%nat <-> exists q, mkEntry (Some x) q ∈ l.
Proof.
  unfold entries_for. split.
  - destruct (filter _ l) as [|e es] eqn:Ef; simpl; [lia|]. intros _.
    assert (He : e ∈ filter (fun e => entry_session e = Some x) l) by (rewrite Ef; left).
    apply list_elem_of_filter in He as [Hs Hin]. destruct e as [o q]. simpl in Hs. subst o. by exists q.
  - intros [q Hin]. assert (Hf : mkEntry (Some x) q ∈ filter (fun e => entry_session e = Some x) l)
      by (by apply list_elem_of_filter).
    destruct (filter _ l); [by apply elem_of_nil in Hf|]. simpl. lia.
Qed.

(** A session has an entry in the lookup of a valid topic iff it is subscribed
    under one of the filters the topic is looked up under. *)
Lemma entries_for_lookup cfg x t tr :
  topic.is_valid_topic cfg t = true ->
  (0 < entries_for x (TopicTree.lookup t tr))%nat <->
  exists fs q, fs ∈ candidates (topic.split t) /\ mkEntry (Some x) q ∈ subs_at fs (root_ tr).
Proof.
  intros Hv%valid_topic_plain. rewrite entries_for_pos, lookup_lookup_rec, lookup_rec_candidates by done.
  split.
  - intros (q & Hin). apply list_elem_of_In, in_flat_map in Hin as (fs & H1 & H2).
    exists fs, q. by rewrite !list_elem_of_In.
  - intros (fs & q & H1 & H2). exists q. apply list_elem_of_In, in_flat_map.
    exists fs. by rewrite <- !list_elem_of_In.
Qed.

Section Publications.

Context {E A : Type} `{Authenticator E A} (cfg : Config) (Hmax : max_write_queue_size cfg < 2 ^ 31)
  (env : E).
Abbreviation W := (World A).
Implicit Types (w : W).

(** The tree after [handle_publish]'s retain step. *)
Definition retaining (pub : PublishPacket) (t : TopicTree) : TopicTree :=
  if retain pub
  then (TopicTree.set_retained cfg (topic pub) (Session.retained_of pub) t).2 else t.

Lemma subs_at_retaining pub t gs : subs_at gs (root_ (retaining pub t)) = subs_at gs (root_ t).
Proof. unfold retaining. destruct (retain pub); [apply subs_at_set_retained|done]. Qed.

(** An admitted publication, up to the sessions' queues. *)
Lemma handle_publish_after w sid s packet hdr pub acc a' d out :
  sessions w !! sid = Some s -> connected_ s = true ->
  (parse_publish hdr packet).1 = Ret pub ->
  check_acl env (username_ s) (topic pub) Access.WRITE (auth w) = (Ret acc, a') ->
  acc <> Access.NONE -> topic.is_valid_topic cfg (topic pub) = true ->
  routed cfg (view_of w) (client_id_ s) (retaining pub (topic_tree w)) pub (delivery_engine w) = (d, out) ->
  room_for cfg (sessions w) (answer sid pub ++ out) ->
  exists w', Session.handle_publish cfg env sid packet hdr w = (Ret tt, w') /\
    topic_tree w' = retaining pub (topic_tree w) /\ delivery_engine w' = d /\
    sessions w' = after (answer sid pub ++ out) (sessions w) /\ sub_manager w' = sub_manager w.
Proof using Hmax.
  intros Hs Hc Hp Ha Hn Hv Ho Hr. unfold Session.handle_publish.
  rewrite (this_bind_eq w sid s) by done. rewrite Hc. cbn [negb].
  unfold try_parse, auth_call, mbind, M_bind. rewrite Hp, Ha.
  rewrite_test (acc =? Access.NONE) false. rewrite Hv. cbn [negb].
  unfold Session.count_received, Session.retain_publication, count, tree, modify, mret, M_ret.
  set (w1 := put_counters _ (put_auth a' w)).
  set (w2 := put_topic_tree (retaining pub (topic_tree w)) w1).
  assert (Hq : exists c, Session.publish_by_qos cfg sid (client_id_ s) pub w2 =
    (Ret tt, put_counters c (put_sessions (after (answer sid pub ++ out) (sessions w2))
                               (put_delivery_engine d w2)))).
  { apply (publish_by_qos_after cfg Hmax w2); [by exists s|exact Ho|exact Hr]. }
  destruct Hq as [c Hq]. unfold retaining in w2.
  destruct (retain pub) eqn:Er; unfold w2 in Hq.
  - change (topic_tree w1) with (topic_tree w). rewrite Hq. eexists. split; [done|].
    unfold retaining. rewrite Er. done.
  - replace (put_topic_tree (topic_tree w) w1) with w1 in Hq by (by destruct w). rewrite Hq.
    eexists. split; [done|]. unfold retaining. rewrite Er. done.
Qed.

(** From a PUBLISH to the wire: an admitted publication is retained if it
    asks for it, the publisher is answered (PUBACK, PUBREC or nothing), and
    every packet the engine routes reaches the output stream of its session,
    in order, exactly once, behind what was there; sessions that are not
    connected and sessions without a packet keep their streams.  The queues
    must have room for the packets. *)
Theorem publish_routed f b w sid s packet hdr pub acc a' :
  world_wf cfg f b w -> sessions w !! sid = Some s -> connected_ s = true ->
  (parse_publish hdr packet).1 = Ret pub ->
  check_acl env (username_ s) (topic pub) Access.WRITE (auth w) = (Ret acc, a') ->
  acc <> Access.NONE -> topic.is_valid_topic cfg (topic pub) = true ->
  let tree := retaining pub (topic_tree w) in
  let '(d, out) := routed cfg (view_of w) (client_id_ s) tree pub (delivery_engine w) in
  room_for cfg (sessions w) (answer sid pub ++ out) ->
  exists w', Session.handle_publish cfg env sid packet hdr w = (Ret tt, w') /\
    topic_tree w' = tree /\ delivery_engine w' = d /\
    forall x sx, sessions w !! x = Some sx -> exists sx', sessions w' !! x = Some sx' /\
      outstream sx' = outstream sx ++
        (if connected_ sx then packets_for x (answer sid pub ++ out) else []).
Proof using Hmax.
  intros Hw Hs Hc Hp Ha Hn Hv tree. subst tree.
  destruct (routed _ _ _ _ _ _) as [d out] eqn:Ho. intros Hr.
  destruct (handle_publish_after w sid s packet hdr pub acc a' d out Hs Hc Hp Ha Hn Hv Ho Hr)
    as (w' & Hh & Ht & Hd & Hs' & _).
  exists w'. split; [done|]. split; [done|]. split; [done|]. intros x sx Hx.
  exists (queue_after (answer sid pub ++ out) x sx). rewrite Hs', lookup_after, Hx. split; [done|].
  apply outstream_queue_after. exact (sw_writing _ _ _ _ (ww_sessions _ _ _ _ Hw x sx Hx)).
Qed.

(** A QoS 0 publication reaches exactly the subscribers: every connected
    session's output stream grows by copies of one PUBLISH with the topic and
    payload, at least one iff the session is subscribed under a filter the
    topic is looked up under, so in particular whenever a well-formed filter
    it is subscribed under matches the topic. *)
Theorem qos0_reaches_matching f b w sid s packet hdr pub acc a' :
  world_wf cfg f b w -> sessions w !! sid = Some s -> connected_ s = true ->
  (parse_publish hdr packet).1 = Ret pub -> qos pub = 0 ->
  check_acl env (username_ s) (topic pub) Access.WRITE (auth w) = (Ret acc, a') ->
  acc <> Access.NONE -> topic.is_valid_topic cfg (topic pub) = true ->
  room_for cfg (sessions w) (Qos0Handler.deliver (view_of w) (retaining pub (topic_tree w)) pub) ->
  exists w', Session.handle_publish cfg env sid packet hdr w = (Ret tt, w') /\
    forall x sx, sessions w !! x = Some sx -> connected_ sx = true ->
    exists n sx', sessions w' !! x = Some sx' /\
      outstream sx' = outstream sx ++
        replicate n (PacketBuilder.build_publish (topic pub) (contents (payload pub)) 0 false false 0) /\
      ((0 < n)%nat <-> exists fs q, fs ∈ candidates (topic.split (topic pub)) /\
                                    mkEntry (Some x) q ∈ subs_at fs (root_ (topic_tree w))) /\
      (forall fs q, filter_shape fs -> tree_matches (topic.split (topic pub)) fs ->
         mkEntry (Some x) q ∈ subs_at fs (root_ (topic_tree w)) -> (0 < n)%nat).
Proof using Hmax.
  intros Hw Hs Hc Hp Hq Ha Hn Hv Hr.
  set (tree := retaining pub (topic_tree w)) in *. set (v := view_of w) in *.
  assert (Ho : routed cfg v (client_id_ s) tree pub (delivery_engine w) =
                 (delivery_engine w, Qos0Handler.deliver v tree pub)).
  { unfold routed, DeliveryEngine.publish_from_client. by rewrite Hq. }
  assert (Han : answer sid pub = []) by (unfold answer; by rewrite Hq).
  destruct (handle_publish_after w sid s packet hdr pub acc a' _ _ Hs Hc Hp Ha Hn Hv Ho)
    as (w' & Hh & _ & _ & Hs' & _); [by rewrite Han|].
  exists w'. split; [done|]. intros x sx Hx Hcx. rewrite Han in Hs'.
  assert (Hal : view_alive v x = true) by (apply bool_decide_eq_true; by exists sx).
  assert (Hent : (0 < entries_for x (TopicTree.lookup (topic pub) tree))%nat <->
    exists fs q, fs ∈ candidates (topic.split (topic pub)) /\
                 mkEntry (Some x) q ∈ subs_at fs (root_ (topic_tree w))).
  { rewrite (entries_for_lookup cfg x _ _ Hv). unfold tree. by setoid_rewrite subs_at_retaining. }
  exists (entries_for x (TopicTree.lookup (topic pub) tree)), (queue_after (Qos0Handler.deliver v tree pub) x sx).
  split; [by rewrite Hs', lookup_after, Hx|]. split; [|split; [exact Hent|]].
  - rewrite outstream_queue_after by exact (sw_writing _ _ _ _ (ww_sessions _ _ _ _ Hw x sx Hx)).
    by rewrite Hcx, qos0_deliver_live, packets_for_live.
  - intros fs q Hsh Hm Hin. apply Hent. exists fs, q. split; [by apply candidates_matches|done].
Qed.

End Publications.

(** ** A subscriber, for the witnesses *)

(** The client of the small run subscribes to ["a/+"] and publishes ["a/b"]. *)
Definition subscribe_frame : list byte :=
  frame 0x82 (Buffer.uint16_bytes 1 ++ string_field "a/+" ++ [byte_of_Z 1]).

Definition demo_subscriber : World unit :=
  (demo_exec tiny_config (Read 0 false subscribe_frame) demo_connected).2.

Definition demo_publication : PublishPacket :=
  mkPublishPacket "a/b" (Buffer.of_bytes (string_bytes "hi")) 0 false false 0.

Definition demo_publish_body : Buffer :=
  Buffer.of_bytes (string_field "a/b" ++ string_bytes "hi").

Lemma demo_subscriber_wf : world_wf tiny_config None Free demo_subscriber.
Proof.
  apply (serving_wf (E := unit) tiny_config ltac:(reflexivity) tt), demo_serve;
    [|by vm_compute|apply demo_connected_serving].
  destruct (demo_session demo_connected 0%nat
              (fun s => (reading s, Z.of_nat (Buffer.write_capacity (read_buf_ s)))) (true, 4096))
    as (s & Hs & Hx); [by vm_compute|]. apply pair_equal_spec in Hx as [Hr Hc].
  exists s. split; [done|]. split; [done|].
  assert (Hl : length subscribe_frame = 10%nat) by (by vm_compute). lia.
Qed.

Lemma demo_room_of (w : World unit) out :
  bool_decide (map_Forall (fun _ s => Z.of_nat (length (write_queue_ s)) <= 10) (sessions w)) = true ->
  (length out <= 10)%nat -> room_for tiny_config (sessions w) out.
Proof.
  intros Hq%bool_decide_eq_true Ho x s Hs _. apply Hq in Hs.
  assert (Hp : (length (packets_for x out) <= length out)%nat).
  { unfold packets_for. rewrite length_fmap. apply length_filter. }
  assert (Hm : 100 <= max_write_queue_size tiny_config) by (vm_compute; discriminate). lia.
Qed.

Lemma demo_room out :
  (length out <= 10)%nat -> room_for tiny_config (sessions demo_subscriber) out.
Proof. apply demo_room_of. vm_compute. reflexivity. Qed.

Lemma qos0_reaches_matching_witness :
  exists w' s s' n, Session.handle_publish (E := unit) tiny_config tt 0 demo_publish_body
      (mkFixedHeader 3 false 0 false 7) demo_subscriber = (Ret tt, w') /\
    sessions demo_subscriber !! 0%nat = Some s /\ sessions w' !! 0%nat = Some s' /\
    (0 < n)%nat /\ outstream s' = outstream s ++ replicate n
      (PacketBuilder.build_publish "a/b" (string_bytes "hi") 0 false false 0).
Proof.
  destruct (demo_session demo_subscriber 0%nat connected_ true) as (s & Hs & Hc); [by vm_compute|].
  destruct (qos0_reaches_matching (E := unit) tiny_config ltac:(reflexivity) tt None Free
    demo_subscriber 0%nat s demo_publish_body (mkFixedHeader 3 false 0 false 7) demo_publication
    Access.READWRITE tt) as (w' & Hh & Hx).
  - exact demo_subscriber_wf.
  - exact Hs.
  - exact Hc.
  - vm_compute. reflexivity.
  - reflexivity.
  - reflexivity.
  - discriminate.
  - vm_compute. reflexivity.
  - apply demo_room. apply Nat.leb_le. by vm_compute.
  - destruct (Hx 0%nat s Hs Hc) as (n & s' & Hs' & Hout & _ & Hm).
    exists w', s, s', n. split; [exact Hh|]. split; [exact Hs|]. split; [exact Hs'|].
    split; [|exact Hout]. apply (Hm ["a"; "+"]%string 1).
    + apply filter_segments_ok_shape. vm_compute. reflexivity.
    + repeat constructor.
    + replace (subs_at ["a"; "+"]%string (root_ (topic_tree demo_subscriber)))
        with [mkEntry (Some 0%nat) 1] by (vm_compute; reflexivity). left.
Defined.

Lemma publish_routed_witness :
  exists w' s s', Session.handle_publish (E := unit) tiny_config tt 0 demo_publish_body
      (mkFixedHeader 3 false 0 false 7) demo_subscriber = (Ret tt, w') /\
    sessions demo_subscriber !! 0%nat = Some s /\ sessions w' !! 0%nat = Some s' /\
    outstream s' = outstream s ++
      [PacketBuilder.build_publish "a/b" (string_bytes "hi") 0 false false 0].
Proof.
  destruct (demo_session demo_subscriber 0%nat connected_ true) as (s & Hs & Hc); [by vm_compute|].
  pose proof (publish_routed (E := unit) tiny_config ltac:(reflexivity) tt None Free
    demo_subscriber 0%nat s demo_publish_body (mkFixedHeader 3 false 0 false 7) demo_publication
    Access.READWRITE tt demo_subscriber_wf Hs Hc ltac:(vm_compute; reflexivity)
    ltac:(reflexivity) ltac:(discriminate) ltac:(vm_compute; reflexivity)) as Hp.
  cbv zeta in Hp. destruct (routed _ _ _ _ _ _) as [d out] eqn:Ho.
  assert (Hout : out = [(0%nat, PacketBuilder.build_publish "a/b" (string_bytes "hi") 0 false false 0)]).
  { replace out with (d, out).2 by reflexivity. rewrite <- Ho. vm_compute. reflexivity. }
  subst out. destruct Hp as (w' & Hh & _ & _ & Hx); [apply demo_room, Nat.leb_le; reflexivity|].
  destruct (Hx 0%nat s Hs) as (s' & Hs' & Hq). exists w', s, s'. rewrite Hc in Hq.
  split; [exact Hh|]. split; [exact Hs|]. split; [exact Hs'|exact Hq].
Defined.
