(* ===== verification/Release.v ===== *)
(** * Releases and retained messages on the wire

    Two further ways from a packet of one session to the output streams of the
    others: the PUBREL that releases a QoS 2 publication, and the retained
    messages a new subscription is sent. *)

From Stdlib Require Import Strings.Byte Strings.String ZArith Lia.
From stdpp Require Import base list strings numbers option gmap fin_maps sets.
From S2P Require Import Prelude Config Buffer Packet Parser Filter TopicTree Retained Subscription Auth Timer Qos Inflight Qos1 Qos2 Delivery World Session Closing Server Safety Routing.

Open Scope Z_scope.

(** Queueing keeps the rule that a write is outstanding only for a packet. *)
Lemma queue_after_writing out x s :
  (writing_ s = true -> write_queue_ s <> []) ->
  writing_ (queue_after out x s) = true -> write_queue_ (queue_after out x s) <> [].
Proof.
  unfold queue_after. destruct (connected_ s); [|done]. revert s.
  induction (packets_for x out) as [|p ps IH]; intros s Hs; [done|]. simpl. apply IH, enqueue_writing.
Qed.

(** All packets for one session. *)
Lemma packets_for_one x sid ps :
  packets_for x ((fun p => (sid, p)) <$> ps) = if decide (x = sid) then ps else [].
Proof.
  induction ps as [|p ps IH]; [by case_decide|]. rewrite fmap_cons, packets_for_cons, IH. simpl.
  destruct (decide (x = sid)) as [->|Hne]; [by rewrite decide_True|by rewrite decide_False].
Qed.

Section Release.

Context {E A : Type} `{Authenticator E A} (cfg : Config) (Hmax : max_write_queue_size cfg < 2 ^ 31)
  (env : E).
Abbreviation W := (World A).
Implicit Types (w : W).

(** The packets of a release go to sessions that exist. *)
Lemma qos2_deliver_targets w pub h out :
  Qos2Handler.deliver cfg (view_of w) (topic_tree w) pub (qos2_ (delivery_engine w)) = (h, out) ->
  Forall (fun d => is_Some (sessions w !! d.1)) out.
Proof.
  intros Hd. apply Forall_forall. intros [x p] Hin. apply elem_of_dom. simpl.
  pose proof (reaches_qos2_deliver cfg (view_of w) (topic_tree w) pub (qos2_ (delivery_engine w)) x p) as Hk.
  rewrite Hd in Hk. destruct (Hk Hin); [by apply view_alive_dom | by apply view_connected_dom].
Qed.

(** A PUBREL for a stored publication, up to the sessions' queues. *)
Lemma handle_pubrel_after w sid s packet pid msg h out :
  sessions w !! sid = Some s -> connected_ s = true -> (parse_pubrel packet).1 = Ret pid ->
  incoming (client_id_ s) pid (delivery_engine w) = Some msg ->
  Qos2Handler.deliver cfg (view_of w) (topic_tree w) (DeliveryEngine.released msg)
    (qos2_ (delivery_engine w)) = (h, out) ->
  room_for cfg (sessions w) (out ++ [(sid, PacketBuilder.build_pubcomp pid)]) ->
  exists w', Session.handle_pubrel cfg sid packet w = (Ret tt, w') /\
    sessions w' = after (out ++ [(sid, PacketBuilder.build_pubcomp pid)]) (sessions w) /\
    topic_tree w' = topic_tree w /\ qos2_ (delivery_engine w') = h /\
    (forall c p, incoming c p (delivery_engine w') =
       if decide (c = client_id_ s /\ p = pid) then None else incoming c p (delivery_engine w)).
Proof using Hmax.
  intros Hs Hc Hp Hi Hd Hr. unfold Session.handle_pubrel, Session.handle_ack.
  rewrite (this_bind_eq w sid s) by done. rewrite Hc. cbn [negb].
  unfold try_parse. unfold mbind at 1, M_bind at 1. rewrite Hp.
  pose proof (complete_spec cfg (view_of w) (client_id_ s) pid (topic_tree w) (delivery_engine w)) as Hcs.
  rewrite Hi, Hd in Hcs. destruct Hcs as (d' & Hce & _ & Hq2 & Hin). simpl in Hce, Hq2.
  assert (Hr1 : room_for cfg (sessions w) out).
  { intros x sx Hx Hcx. specialize (Hr x sx Hx Hcx). rewrite packets_for_app, length_app in Hr. lia. }
  unfold try_catch, Session.complete_incoming, mbind, M_bind, get. rewrite Hce.
  unfold engine, modify. set (w1 := put_delivery_engine d' w).
  rewrite (send_all_after cfg Hmax out w1) by (done || exact (qos2_deliver_targets w _ h out Hd)).
  unfold mret, M_ret, Session.count_published, count, modify.
  set (w2 := put_counters _ _).
  rewrite (deliver_after cfg Hmax w2 sid).
  - eexists. split; [reflexivity|]. simpl. rewrite after_app. by repeat split.
  - simpl. rewrite lookup_after, Hs. by eexists.
  - simpl. by apply room_for_app.
Qed.

(** [C7] QoS 2 from end to end: a QoS 2 PUBLISH that is admitted, followed by
    its PUBREL, while the queues have room, answers the publisher with PUBREC and PUBCOMP and adds to the
    output streams, in between, exactly the packets the QoS 2 handler sends
    for the publication, in order and once; nothing is forwarded before the
    PUBREL, and afterwards nothing is stored under the identifier. *)
Theorem qos2_end_to_end f b w sid s packet hdr pub acc a' rel h out :
  world_wf cfg f b w -> sessions w !! sid = Some s -> connected_ s = true ->
  (parse_publish hdr packet).1 = Ret pub -> qos pub = 2 ->
  check_acl env (username_ s) (topic pub) Access.WRITE (auth w) = (Ret acc, a') ->
  acc <> Access.NONE -> topic.is_valid_topic cfg (topic pub) = true ->
  (parse_pubrel rel).1 = Ret (packet_id pub) ->
  Qos2Handler.deliver cfg (view_of w) (retaining cfg pub (topic_tree w))
    (mkPublishPacket (topic pub) (Buffer.of_bytes (contents (payload pub))) 2 false false 0)
    (qos2_ (delivery_engine w)) = (h, out) ->
  room_for cfg (sessions w) ([(sid, PacketBuilder.build_pubrec (packet_id pub))] ++ out ++
                             [(sid, PacketBuilder.build_pubcomp (packet_id pub))]) ->
  exists w1 w2, Session.handle_publish cfg env sid packet hdr w = (Ret tt, w1) /\
    Session.handle_pubrel cfg sid rel w1 = (Ret tt, w2) /\
    qos2_ (delivery_engine w2) = h /\ incoming (client_id_ s) (packet_id pub) (delivery_engine w2) = None /\
    forall x sx, sessions w !! x = Some sx -> exists s1 s2,
      sessions w1 !! x = Some s1 /\ sessions w2 !! x = Some s2 /\
      outstream s1 = outstream sx ++
        (if connected_ sx && bool_decide (x = sid) then [PacketBuilder.build_pubrec (packet_id pub)] else []) /\
      outstream s2 = outstream s1 ++
        (if connected_ sx then packets_for x (out ++ [(sid, PacketBuilder.build_pubcomp (packet_id pub))]) else []).
Proof using Hmax.
  intros Hw Hs Hc Hp Hq Ha Hn Hv Hrel Hd Hr.
  set (rec := PacketBuilder.build_pubrec (packet_id pub)) in *.
  set (comp := PacketBuilder.build_pubcomp (packet_id pub)) in *.
  assert (Han : answer sid pub = [(sid, rec)]) by (unfold answer; by rewrite Hq).
  assert (Ho : routed cfg (view_of w) (client_id_ s) (retaining cfg pub (topic_tree w)) pub (delivery_engine w) =
    (DeliveryEngine.store_incoming_qos2 (client_id_ s) pub (delivery_engine w), [])).
  { unfold routed. by rewrite Hq. }
  destruct (handle_publish_after cfg Hmax env w sid s packet hdr pub acc a' _ _ Hs Hc Hp Ha Hn Hv Ho)
    as (w1 & Hh & Ht & Hde & Hs1 & _).
  { rewrite Han, app_nil_r. intros x sx Hx Hcx. specialize (Hr x sx Hx Hcx).
    rewrite packets_for_app, length_app in Hr. lia. }
  rewrite Han, app_nil_r in Hs1.
  assert (Hsid1 : sessions w1 !! sid = Some (queue_after [(sid, rec)] sid s)) by (by rewrite Hs1, lookup_after, Hs).
  destruct (queue_after_same [(sid, rec)] sid s) as [Hc1 Hi1].
  destruct (handle_pubrel_after w1 sid _ rel (packet_id pub)
    (mkIncoming (topic pub) (Buffer.of_bytes (contents (payload pub))) (qos pub)) h out Hsid1)
    as (w2 & Hh2 & Hs2 & _ & Hq2 & Hin2).
  - by rewrite Hc1.
  - done.
  - rewrite Hi1, Hde, incoming_store. by rewrite decide_True.
  - rewrite (qos2_deliver_proper cfg _ _ (view_after w w1 _ Hs1) _ _ eq_refl _ _ eq_refl _ _ eq_refl).
    rewrite Ht, Hde. unfold DeliveryEngine.released. simpl. rewrite Hq, contents_of_bytes. exact Hd.
  - rewrite Hs1. by apply room_for_app.
  - exists w1, w2. split; [done|]. split; [done|]. split; [done|]. rewrite Hi1 in Hin2.
    split; [rewrite Hin2; by rewrite decide_True|].
    intros x sx Hx. exists (queue_after [(sid, rec)] x sx), (queue_after (out ++ [(sid, comp)]) x (queue_after [(sid, rec)] x sx)).
    split; [by rewrite Hs1, lookup_after, Hx|]. split; [by rewrite Hs2, lookup_after, Hs1, lookup_after, Hx|].
    pose proof (sw_writing _ _ _ _ (ww_sessions _ _ _ _ Hw x sx Hx)) as Hwr. split.
    + rewrite outstream_queue_after by done. rewrite packets_for_cons. simpl.
      rewrite (bool_decide_ext (x = sid) (sid = x)) by (split; congruence).
      destruct (connected_ sx); [|done]. case_decide; [by rewrite bool_decide_true|by rewrite bool_decide_false].
    + rewrite outstream_queue_after by (by apply queue_after_writing).
      by rewrite (proj1 (queue_after_same [(sid, rec)] x sx)).
Qed.

(** ** Retained messages *)

(** The retained messages of a tree that match a filter, as the packets a new
    subscriber is sent. *)
Definition retained_for (f : string) (t : TopicTree) : list Buffer :=
  (fun x => PacketBuilder.build_publish x.1 (contents (retained_payload x.2)) (retained_qos x.2) true false 0)
  <$> filter (fun x => topic.matches x.1 f = true) (TopicTree.get_all_retained t).

Lemma deliver_each_after sid f l : forall w,
  is_Some (sessions w !! sid) ->
  let out := (fun x => (sid, PacketBuilder.build_publish x.1 (contents (retained_payload x.2)) (retained_qos x.2) true false 0))
             <$> filter (fun x => topic.matches x.1 f = true) l in
  room_for cfg (sessions w) out ->
  for_each l (fun '(t, msg) =>
    if topic.matches t f
    then Session.deliver cfg sid (PacketBuilder.build_publish t (contents (retained_payload msg))
                                    (retained_qos msg) true false 0)
    else mret tt) w = (Ret tt, put_sessions (after out (sessions w)) w).
Proof using Hmax.
  induction l as [|[t msg] l IH]; intros w Hs out Hr; subst out.
  - simpl. rewrite after_nil. by destruct w.
  - cbn [for_each]. rewrite filter_cons in Hr |- *. cbn [fst snd] in *. unfold mbind, M_bind.
    destruct (topic.matches t f) eqn:Hm.
    + rewrite decide_True in Hr |- * by done. rewrite fmap_cons in Hr |- *. cbn [fst snd] in *.
      set (d := (sid, PacketBuilder.build_publish t _ _ _ _ _)) in *.
      change (d :: ?x) with ([d] ++ x) in *.
      assert (Hr1 : room_for cfg (sessions w) [d]).
      { intros x sx Hx Hcx. specialize (Hr x sx Hx Hcx). rewrite packets_for_app, length_app in Hr. lia. }
      rewrite (deliver_after cfg Hmax w sid _ Hs Hr1). fold d.
      rewrite IH.
      * simpl. by rewrite after_app.
      * simpl. rewrite lookup_after. destruct Hs as [sx ->]. by eexists.
      * simpl. by apply room_for_app.
    + rewrite decide_False in Hr |- * by congruence. by apply IH.
Qed.

(** The new entry is there. *)
Lemma added_subscriber alive x q l :
  alive x = true -> exists e, e ∈ TopicTree.add_subscriber alive (mkEntry (Some x) q) l /\
    TopicTree.lock alive (entry_session e) = Some x /\ entry_qos e = q.
Proof.
  intros Hx. induction l as [|e l IH]; cbn [TopicTree.add_subscriber].
  - eexists. split; [by left|]. simpl. by rewrite Hx.
  - simpl. rewrite Hx. destruct (TopicTree.same_session alive (Some x) e) eqn:Hs.
    + eexists. split; [by left|]. apply same_session_spec in Hs. by split.
    + destruct IH as (e' & Hin & He). exists e'. split; [by right|exact He].
Qed.

(** A subscription that is granted: the tree and the manager, then the retained
    messages. *)
Definition granted_tree (w : W) (sid : session_id) (f : SubscribeFilter) : TopicTree :=
  TopicTree.subscribe (alive w) (Packet.topic_filter f) (mkEntry (Some sid) (requested_qos f)) (topic_tree w).

(** The stored subscriptions after a filter is granted. *)
Definition granted_store w s (f : SubscribeFilter) : SubscriptionManager :=
  if clean_session_ s then sub_manager w
  else SubscriptionManager.add (client_id_ s) (Packet.topic_filter f) (requested_qos f) (sub_manager w).

Lemma granted_store_qos w s f :
  clean_session_ s = false ->
  stored_qos (client_id_ s) (Packet.topic_filter f) (granted_store w s f) = Some (requested_qos f).
Proof.
  intros Hc. unfold granted_store. rewrite Hc.
  rewrite (stored_qos_step (Subscription.Add (client_id_ s) (Packet.topic_filter f) (requested_qos f)) (sub_manager w)).
  cbn [spec_step]. by rewrite decide_True.
Qed.

Lemma subscribe_filter_after w sid s f acc a' :
  sessions w !! sid = Some s -> topic.is_valid_filter cfg (Packet.topic_filter f) = true ->
  check_acl env (username_ s) (Packet.topic_filter f) Access.READ (auth w) = (Ret acc, a') ->
  acc <> Access.NONE ->
  clean_session_ s = true \/
    i32 (Z.of_nat (length (SubscriptionManager.get_client_subs (client_id_ s) (sub_manager w)))) <
      max_subscriptions_per_client cfg ->
  let out := (fun p => (sid, p)) <$> retained_for (Packet.topic_filter f) (granted_tree w sid f) in
  room_for cfg (sessions w) out ->
  exists w', Session.subscribe_filter cfg env sid s f w = (Ret (suback_code_of (requested_qos f)), w') /\
    sessions w' = after out (sessions w) /\ topic_tree w' = granted_tree w sid f /\
    sub_manager w' = granted_store w s f.
Proof using Hmax.
  intros Hs Hv Ha Hn Hl out Hr. unfold granted_store, Session.subscribe_filter. rewrite Hv. cbn [negb].
  unfold auth_call, mbind at 1, M_bind at 1. rewrite Ha. rewrite_test (acc =? Access.NONE) false.
  unfold mbind at 1, M_bind at 1, get. cbn [sub_manager put_auth].
  assert (Hb : negb (clean_session_ s) && (max_subscriptions_per_client cfg <=?
      i32 (Z.of_nat (length (SubscriptionManager.get_client_subs (client_id_ s) (sub_manager w))))) = false).
  { destruct Hl as [->|Hl]; [done|]. rewrite (proj2 (Z.leb_gt _ _) Hl). apply andb_false_r. }
  change (sub_manager (put_auth a' w)) with (sub_manager w). rewrite Hb.
  unfold tree, subs, Session.count_subscribed, count, modify, mret, M_ret.
  assert (Hout : out = (fun x => (sid, PacketBuilder.build_publish x.1 (contents (retained_payload x.2))
      (retained_qos x.2) true false 0)) <$>
    filter (fun x => topic.matches x.1 (Packet.topic_filter f) = true)
      (TopicTree.get_all_retained (granted_tree w sid f))).
  { unfold out, retained_for. by rewrite <- list_fmap_compose. }
  rewrite Hout in Hr |- *. clear Hout.
  unfold mbind, M_bind. destruct (clean_session_ s) eqn:Hc; cbn [negb]; unfold Session.deliver_retained, get, mbind, M_bind.
  - cbn [topic_tree put_counters put_topic_tree put_auth].
    erewrite (deliver_each_after sid); [|by exists s|exact Hr].
    eexists. split; [reflexivity|]. by repeat split.
  - cbn [topic_tree put_counters put_topic_tree put_auth put_sub_manager].
    erewrite (deliver_each_after sid); [|by exists s|exact Hr].
    eexists. split; [reflexivity|]. by repeat split.
Qed.

(** [C8] A granted subscription is served: after a SUBSCRIBE with one filter that
    is valid, allowed and within the limit, while the session's queue has room,
    the session has an entry with the
    requested QoS under the filter, a persistent session's subscription is
    stored, and the session is sent the retained messages whose topics match
    the filter and no others, with the retain flag, followed by the SUBACK; no
    other session is sent anything. *)
Theorem subscription_served fo b w sid s packet sub f acc a' m :
  world_wf cfg fo b w -> sessions w !! sid = Some s -> connected_ s = true ->
  (parse_subscribe packet).1 = Ret sub -> filters sub = [f] ->
  topic.is_valid_filter cfg (Packet.topic_filter f) = true ->
  check_acl env (username_ s) (Packet.topic_filter f) Access.READ (auth w) = (Ret acc, a') ->
  acc <> Access.NONE ->
  clean_session_ s = true \/
    i32 (Z.of_nat (length (SubscriptionManager.get_client_subs (client_id_ s) (sub_manager w)))) <
      max_subscriptions_per_client cfg ->
  tree_reachable cfg (topic_tree w) m ->
  let suback := PacketBuilder.build_suback (sub_packet_id sub) [suback_code_of (requested_qos f)] in
  room_for cfg (sessions w)
    ((fun p => (sid, p)) <$> retained_for (Packet.topic_filter f) (granted_tree w sid f) ++ [suback]) ->
  exists w' l, Session.handle_subscribe cfg env sid packet w = (Ret tt, w') /\
    (forall p r, (p, r) ∈ l <->
       (exists segs, m !! segs = Some r /\ p = join segs) /\ topic.matches p (Packet.topic_filter f) = true) /\
    (exists e, e ∈ subs_at (topic.split (Packet.topic_filter f)) (root_ (topic_tree w')) /\
       TopicTree.lock (alive w) (entry_session e) = Some sid /\ entry_qos e = requested_qos f) /\
    (clean_session_ s = false ->
     stored_qos (client_id_ s) (Packet.topic_filter f) (sub_manager w') = Some (requested_qos f)) /\
    forall x sx, sessions w !! x = Some sx -> exists sx', sessions w' !! x = Some sx' /\
      outstream sx' = outstream sx ++
        (if decide (x = sid) then
           ((fun y => PacketBuilder.build_publish y.1 (contents (retained_payload y.2)) (retained_qos y.2)
                        true false 0) <$> l) ++ [suback]
         else []).
Proof using Hmax.
  intros Hw Hs Hc Hp Hf Hv Ha Hn Hl Hm suback Hr. rewrite fmap_app in Hr.
  set (out := (fun p => (sid, p)) <$> retained_for (Packet.topic_filter f) (granted_tree w sid f)) in *.
  destruct (subscribe_filter_after w sid s f acc a' Hs Hv Ha Hn Hl) as (w1 & Hsf & Hs1 & Ht1 & Hq1).
  { intros x sx Hx Hcx. specialize (Hr x sx Hx Hcx). rewrite packets_for_app, length_app in Hr. fold out. lia. }
  fold out in Hs1.
  exists (put_sessions (after [(sid, suback)] (sessions w1)) w1),
    (filter (fun x => topic.matches x.1 (Packet.topic_filter f) = true)
       (TopicTree.get_all_retained (granted_tree w sid f))).
  split; [|split; [|split; [|split]]].
  - unfold Session.handle_subscribe. rewrite (this_bind_eq w sid s) by done. rewrite Hc. cbn [negb].
    unfold try_parse. unfold mbind at 1, M_bind at 1. rewrite Hp, Hf. cbn [Session.subscribe_filters].
    unfold mbind, M_bind. rewrite Hsf. cbn [mret M_ret]. apply (deliver_after cfg Hmax).
    + rewrite Hs1, lookup_after, Hs. by eexists.
    + rewrite Hs1. by apply room_for_app.
  - intros p r. rewrite list_elem_of_filter. simpl.
    rewrite (get_all_retained_simulates (granted_tree w sid f) m)
      by (apply (tree_reachable_refines cfg), tr_subscribe, Hm). tauto.
  - simpl. rewrite Ht1. unfold granted_tree, TopicTree.subscribe. simpl. rewrite subs_at_subscribe.
    rewrite decide_True by done. apply added_subscriber. unfold alive. apply bool_decide_eq_true. by exists s.
  - intros Hcl. simpl. rewrite Hq1. by apply granted_store_qos.
  - intros x sx Hx. exists (queue_after (out ++ [(sid, suback)]) x sx). split.
    { simpl. rewrite Hs1, after_app, lookup_after, Hx. done. }
    rewrite outstream_queue_after by exact (sw_writing _ _ _ _ (ww_sessions _ _ _ _ Hw x sx Hx)).
    assert (Hpk : packets_for x (out ++ [(sid, suback)]) =
      if decide (x = sid) then retained_for (Packet.topic_filter f) (granted_tree w sid f) ++ [suback] else []).
    { change [(sid, suback)] with ((fun p => (sid, p)) <$> [suback]). unfold out.
      rewrite <- fmap_app. apply packets_for_one. }
    rewrite Hpk. case_decide; [subst x; rewrite Hs in Hx; injection Hx as <-; by rewrite Hc|].
    by destruct (connected_ sx).
Qed.

End Release.

(** ** Concrete runs *)

Definition demo_qos2_body : Buffer :=
  Buffer.of_bytes (string_field "a/b" ++ Buffer.uint16_bytes 7 ++ string_bytes "hi").
Definition demo_qos2_pub : PublishPacket :=
  mkPublishPacket "a/b" (Buffer.of_bytes (string_bytes "hi")) 2 false false 7.
Definition demo_pubrel : Buffer := Buffer.of_bytes (Buffer.uint16_bytes 7).

Lemma qos2_end_to_end_witness :
  exists w1 w2, Session.handle_publish (E := unit) tiny_config tt 0 demo_qos2_body
      (mkFixedHeader 3 false 2 false 9) demo_subscriber = (Ret tt, w1) /\
    Session.handle_pubrel tiny_config 0 demo_pubrel w1 = (Ret tt, w2) /\
    incoming "dev" 7 (delivery_engine w2) = None.
Proof.
  destruct (demo_session demo_subscriber 0%nat (fun s => (connected_ s, client_id_ s)) (true, "dev"%string))
    as (s & Hs & Hx); [by vm_compute|]. injection Hx as Hc Hi.
  destruct (Qos2Handler.deliver tiny_config (view_of demo_subscriber)
    (retaining tiny_config demo_qos2_pub (topic_tree demo_subscriber))
    (mkPublishPacket "a/b" (Buffer.of_bytes (string_bytes "hi")) 2 false false 0)
    (qos2_ (delivery_engine demo_subscriber))) as [h out] eqn:Hd.
  assert (Hout : length out = 1%nat).
  { replace out with (h, out).2 by reflexivity. rewrite <- Hd. vm_compute. reflexivity. }
  destruct (qos2_end_to_end (E := unit) tiny_config ltac:(reflexivity) tt None Free demo_subscriber 0%nat s
    demo_qos2_body (mkFixedHeader 3 false 2 false 9) demo_qos2_pub Access.READWRITE tt demo_pubrel h out)
    as (w1 & w2 & H1 & H2 & _ & Hin & _).
  - exact demo_subscriber_wf.
  - exact Hs.
  - exact Hc.
  - vm_compute. reflexivity.
  - reflexivity.
  - reflexivity.
  - discriminate.
  - vm_compute. reflexivity.
  - vm_compute. reflexivity.
  - exact Hd.
  - apply demo_room. rewrite !length_app, Hout. apply Nat.leb_le. reflexivity.
  - rewrite Hi in Hin. exists w1, w2. exact (conj H1 (conj H2 Hin)).
Defined.

Definition demo_subscribe_body : Buffer :=
  Buffer.of_bytes (Buffer.uint16_bytes 9 ++ string_field "b/#" ++ [byte_of_Z 1]).
Definition demo_filter : SubscribeFilter := mkSubscribeFilter "b/#" 1.

Lemma subscription_served_witness :
  exists w', Session.handle_subscribe (E := unit) tiny_config tt 0 demo_subscribe_body demo_subscriber = (Ret tt, w') /\
    exists e, e ∈ subs_at ["b"; "#"]%string (root_ (topic_tree w')) /\ entry_qos e = 1.
Proof.
  destruct (demo_session demo_subscriber 0%nat (fun s => (connected_ s, clean_session_ s)) (true, true))
    as (s & Hs & Hx); [by vm_compute|]. injection Hx as Hc Hcl.
  destruct (ww_tree _ _ _ _ demo_subscriber_wf) as [m Hm].
  destruct (subscription_served (E := unit) tiny_config ltac:(reflexivity) tt None Free demo_subscriber 0%nat s
    demo_subscribe_body (mkSubscribePacket 9 [demo_filter]) demo_filter Access.READWRITE tt m)
    as (w' & l & Hh & _ & (e & He & _ & Hq) & _).
  - exact demo_subscriber_wf.
  - exact Hs.
  - exact Hc.
  - vm_compute. reflexivity.
  - reflexivity.
  - vm_compute. reflexivity.
  - reflexivity.
  - discriminate.
  - left. exact Hcl.
  - exact Hm.
  - apply demo_room. apply Nat.leb_le. vm_compute. reflexivity.
  - exists w'. split; [exact Hh|]. exists e. split; [exact He|exact Hq].
Defined.
