(* ===== verification/Wire.v ===== *)
(** * From received bytes to handlers ([Session::on_read])

    What a read does, in terms of frames: feeding a segment to the parser and
    running the extraction loop is the same as running the packet handlers on
    the frames the segment completes, in order, and keeping the rest.  From
    this the theorems about single handlers become theorems about bytes that
    arrive on one socket and packets that leave on others. *)

From Stdlib Require Import Strings.Byte Strings.String ZArith Lia.
From stdpp Require Import base list strings numbers option gmap fin_maps sets.
From S2P Require Import Prelude Config Buffer Packet Parser Filter TopicTree Retained Subscription Auth Timer Qos Inflight Qos1 Qos2 Delivery World Session Closing Steady Server Safety Routing Release.

Open Scope Z_scope.

(** Less than a frame. *)
Definition partial (cfg : Config) (rest : list byte) : Prop :=
  exists f more, valid_frame cfg f /\ f = rest ++ more /\ more <> [].

Lemma partial_nil cfg : partial cfg [].
Proof.
  exists (frame 0xC0 []), (frame 0xC0 []). split; [|done]. exists 0xC0, [].
  assert (0 <= u32 (max_packet_size cfg)) by (apply Z.mod_pos_bound; lia). simpl. repeat split; lia.
Qed.

(** A parser that was given [bs] afresh. *)
Definition parser_at (bs : list byte) : PacketParser := mkParser (Buffer.of_bytes bs) "".

Section Reading.

Context {E A : Type} `{Authenticator E A} (cfg : Config) (env : E) (now : Z) (sid : session_id).
Abbreviation W := (World A).
Implicit Types (w : W) (s : Session).

(** The packet handlers on the frames [fs], in order, until one throws; [rest]
    stays behind them. *)
Fixpoint handle_frames (fs : list (list byte)) (rest : list byte) : M W bool :=
  match fs with
  | [] => mret true
  | f :: fs =>
      update sid (set_parser (parser_at (concat fs ++ rest)));;
      ok ← try_catch (Session.handle_packet cfg env now sid (Buffer.of_bytes f);; mret true)
                     (fun _ => Session.close sid;; mret false);
      if ok : bool then handle_frames fs rest else mret false
  end.

(** The end of [on_read]: the keepalive starts afresh and the next read is
    armed, while the session is connected. *)
Definition rearm : M W unit :=
  update sid (fun s =>
    if connected_ s then set_keepalive_timer (Timer.reset <$> keepalive_timer_ s) s else s);;
  s ← this sid;
  if connected_ s then Session.do_read sid else mret tt.

(** The session when the loop of [on_read] starts. *)
Definition fed (bs : list byte) s : Session :=
  set_parser (PacketParser.feed cfg bs (parser_ s))
    (set_read_buf (mkBuffer (list_inserts (write_pos_ (read_buf_ s)) bs (data_ (read_buf_ s)))
                     (read_pos_ (read_buf_ s)) (write_pos_ (read_buf_ s) + length bs))
      (set_reading false s)).

Lemma alter_set_parser_id w s :
  sessions w !! sid = Some s -> put_sessions (alter (set_parser (parser_ s)) sid (sessions w)) w = w.
Proof.
  intros Hs. destruct w. unfold put_sessions. f_equal. simpl in *. apply alter_id.
  intros x Hx. rewrite Hs in Hx. injection Hx as <-. by destruct s.
Qed.

Lemma frame_readable f : valid_frame cfg f -> (Buffer.readable (Buffer.of_bytes f) =? 0)%nat = false.
Proof. intros (b1 & bd & -> & _). done. Qed.

Lemma handle_frames_parser fs rest : forall w s w',
  sessions w !! sid = Some s -> handle_frames fs rest w = (Ret true, w') ->
  exists s', sessions w' !! sid = Some s' /\
    parser_ s' = match fs with [] => parser_ s | _ => parser_at rest end.
Proof.
  induction fs as [|f fs IH]; intros w s w' Hs Hh; cbn [handle_frames] in Hh.
  { injection Hh as <-. by exists s. }
  rewrite (update_then w sid s) in Hh by done.
  pose proof (updated w sid s (set_parser (parser_at (concat fs ++ rest))) Hs) as Hs1.
  set (w1 := put_sessions _ w) in *.
  pose proof (steady_handle_or_close cfg env now sid (Buffer.of_bytes f) w1 sid) as Hst.
  unfold mbind at 1, M_bind at 1 in Hh.
  destruct (try_catch _ _ w1) as [[ok|e| |] w2]; try done. destruct ok; [|done].
  cbn [snd] in Hst. rewrite Hs1 in Hst. destruct (sessions w2 !! sid) as [s2|] eqn:Hs2; [|done].
  injection Hst as Hst. destruct (IH w2 s2 w' Hs2 Hh) as (s' & Hs' & Hp). exists s'. split; [done|].
  rewrite Hp. destruct fs; [exact Hst|done].
Qed.

Lemma read_loop_frames fs rest : forall fuel w s,
  Forall (valid_frame cfg) fs -> partial cfg rest ->
  sessions w !! sid = Some s -> holding (concat fs ++ rest) (parser_ s) ->
  (length (concat fs ++ rest) < fuel)%nat ->
  Session.read_loop cfg env now fuel sid w = handle_frames fs rest w.
Proof.
  induction fs as [|f fs IH]; intros fuel w s Hv Hr Hs Hh Hf;
    (destruct fuel as [|fuel]; [lia|]); cbn [Session.read_loop handle_frames];
    rewrite (this_bind_eq w sid s) by done.
  - destruct Hr as (f & more & Hvf & Hfm & Hm).
    rewrite (try_extract_prefix cfg f rest more (parser_ s) Hvf Hfm Hm Hh).
    rewrite (update_then w sid s) by done. by rewrite alter_set_parser_id.
  - apply Forall_cons_1 in Hv as [Hvf Hv]. cbn [concat] in *. rewrite <- app_assoc in Hh, Hf.
    rewrite (try_extract_frame_eq cfg f _ _ Hvf Hh).
    rewrite !(update_then w sid s) by done. rewrite (frame_readable f Hvf).
    fold (parser_at (concat fs ++ rest)).
    pose proof (updated w sid s (set_parser (parser_at (concat fs ++ rest))) Hs) as Hs1.
    set (w1 := put_sessions _ w) in *.
    pose proof (steady_handle_or_close cfg env now sid (Buffer.of_bytes f) w1 sid) as Hst.
    unfold mbind, M_bind in Hst |- *.
    destruct (try_catch _ _ w1) as [[ok|e| |] w2]; try done. destruct ok; [|done].
    cbn [snd] in Hst. rewrite Hs1 in Hst. destruct (sessions w2 !! sid) as [s2|] eqn:Hs2; [|done].
    injection Hst as Hst. apply (IH fuel w2 s2 Hv Hr Hs2).
    + rewrite Hst. apply holding_of_bytes.
    + rewrite length_app in Hf. destruct Hvf as (b1 & bd & -> & _). simpl in Hf. lia.
Qed.

Lemma read_frames_eq w s c bs fs rest :
  world_wf cfg None Free w -> sessions w !! sid = Some s -> reading s = true ->
  (length bs <= Buffer.write_capacity (read_buf_ s))%nat ->
  holding c (parser_ s) -> c ++ bs = concat fs ++ rest ->
  Forall (valid_frame cfg) fs -> partial cfg rest ->
  Z.of_nat (length c + length bs) <= u64 (max_parser_buffer_size cfg) ->
  Session.read_handler cfg env now sid false bs w =
    (update sid (fed bs);; ok ← handle_frames fs rest; if ok : bool then rearm else mret tt) w.
Proof.
  intros Hw Hs Hrd Hcap Hh Hcat Hv Hr Hfit.
  pose proof (ww_sessions _ _ _ _ Hw sid s Hs) as Hsw.
  destruct (sw_armed _ _ _ _ Hsw Hrd) as [Hpos _].
  unfold Session.read_handler. rewrite !(update_then w sid s) by done.
  pose proof (updated w sid s (set_reading false) Hs) as Hs1. set (w1 := put_sessions _ w) in Hs1 |- *.
  unfold Session.receive. rewrite (this_bind_eq w1 sid _ _ Hs1).
  unfold Buffer.advance_write. cbn [data_ write_pos_ read_pos_ read_buf_ set_reading].
  unfold Buffer.write_capacity in Hcap. rewrite length_inserts.
  rewrite_test (length (data_ (read_buf_ s)) <? write_pos_ (read_buf_ s) + length bs)%nat false.
  rewrite (update_then w1 sid _ _ _ Hs1).
  pose proof (updated w1 sid _ (set_read_buf (mkBuffer (list_inserts (write_pos_ (read_buf_ s)) bs
    (data_ (read_buf_ s))) (read_pos_ (read_buf_ s)) (write_pos_ (read_buf_ s) + length bs))) Hs1) as Hs2.
  set (w2 := put_sessions _ w1) in Hs2 |- *.
  unfold Session.on_read. rewrite (this_bind_eq w2 sid _ _ Hs2), (update_then w2 sid _ _ _ Hs2).
  cbn [data_ read_buf_ set_read_buf parser_ set_reading]. rewrite Hpos.
  assert (Htake : take (length bs) (list_inserts 0 bs (data_ (read_buf_ s))) = bs)
    by (apply (take_list_inserts 0); lia).
  rewrite Htake. clear Htake.
  set (w3 := put_sessions _ w2).
  assert (E3 : put_sessions (alter (fed bs) sid (sessions w)) w = w3).
  { unfold w3, w2, w1. cbn [sessions put_sessions]. rewrite !alter_alter_eq. unfold put_sessions. simpl. f_equal. apply alter_ext. intros x Hx.
    rewrite Hs in Hx. injection Hx as <-. unfold fed. by rewrite Hpos. }
  rewrite E3. pose proof (updated w sid s (fed bs) Hs) as Hs3. rewrite E3 in Hs3.
  assert (Hh3 : holding (concat fs ++ rest) (parser_ (fed bs s))).
  { rewrite <- Hcat. by apply feed_holding. }
  unfold Session.extract_all. unfold mbind at 1, M_bind at 1. rewrite (this_bind_eq w3 sid _ _ Hs3).
  rewrite (read_loop_frames fs rest _ w3 _ Hv Hr Hs3 Hh3) by (rewrite (holding_size _ _ Hh3); lia).
  unfold mbind at 4, M_bind at 4.
  destruct (handle_frames fs rest w3) as [[ok|e| |] w4] eqn:Ef; try done. destruct ok; [|done]. cbn [negb].
  destruct (handle_frames_parser fs rest w3 _ w4 Hs3 Ef) as (s4 & Hs4 & Hp4).
  rewrite (this_bind_eq w4 sid s4) by done.
  assert (He : PacketParser.has_error (parser_ s4) = false).
  { rewrite Hp4. destruct fs; [|done]. by apply (holding_no_error _ _ Hh3). }
  by rewrite He.
Qed.

(** [C11] What a read does, whatever the segmentation: when the buffered bytes
    and the received segment together are the frames [fs] and less than one
    frame [rest], the read handler runs the packet handlers on the frames in
    order, stops at the first that throws, keeps [rest] for the next segment,
    and arms the keepalive timer and the next read while the session is
    connected. *)
Theorem read_handles_frames w s c bs fs rest :
  world_wf cfg None Free w -> sessions w !! sid = Some s -> reading s = true ->
  (length bs <= Buffer.write_capacity (read_buf_ s))%nat ->
  holding c (parser_ s) -> c ++ bs = concat fs ++ rest ->
  Forall (valid_frame cfg) fs -> partial cfg rest ->
  Z.of_nat (length c + length bs) <= u64 (max_parser_buffer_size cfg) ->
  Session.read_handler cfg env now sid false bs w =
    (update sid (fed bs);; ok ← handle_frames fs rest; if ok : bool then rearm else mret tt) w.
Proof. apply read_frames_eq. Qed.

(** ** One frame *)

(** The header [handle_packet] reads from a frame. *)
Definition frame_header (byte1 : Z) (body : list byte) : FixedHeader :=
  let h := decode_byte1 byte1 in
  mkFixedHeader (hdr_type h) (hdr_dup h) (hdr_qos h) (hdr_retain h) (Z.of_nat (length body)).

Lemma handle_packet_frame byte1 body w :
  0 <= byte1 < 256 -> Z.of_nat (length body) < 2 ^ 28 ->
  exists packet, buffer_wf packet /\ unread packet = body /\
    Session.handle_packet cfg env now sid (Buffer.of_bytes (frame byte1 body)) w =
      Session.dispatch cfg env now sid (frame_header byte1 body) packet w.
Proof.
  intros Hb Hl. set (b := Buffer.of_bytes (frame byte1 body)).
  set (hd := byte_of_Z byte1 :: remaining_length_bytes (Z.of_nat (length body))).
  assert (Hu : unread b = hd ++ body) by (unfold b; by rewrite unread_of_bytes).
  assert (Hwf : buffer_wf b) by apply of_bytes_wf.
  pose proof (consumes_read_header byte1 body Hb Hl b body Hwf Hu) as Hh.
  exists (advance (length hd) b).
  split; [apply advance_wf; [done|]; rewrite Hu, length_app; lia|].
  split; [by rewrite unread_advance, Hu, drop_app_length|].
  unfold Session.handle_packet. change (Buffer.empty b) with false.
  change (Buffer.readable b <? 1)%nat with false. cbv iota. by rewrite Hh.
Qed.

(** The session after [rearm]. *)
Definition rearmed s : Session :=
  if connected_ s
  then reading_session (set_keepalive_timer (Timer.reset <$> keepalive_timer_ s) s) else s.

Lemma rearm_eq w s :
  sessions w !! sid = Some s -> rearm w = (Ret tt, put_sessions (alter rearmed sid (sessions w)) w).
Proof.
  intros Hs. unfold rearm. rewrite (update_then w sid s) by done.
  pose proof (updated w sid s (fun s => if connected_ s
    then set_keepalive_timer (Timer.reset <$> keepalive_timer_ s) s else s) Hs) as Hs1.
  rewrite (this_bind_eq _ sid _ _ Hs1). unfold rearmed.
  destruct (connected_ s) eqn:Hc; cbn [connected_ set_keepalive_timer]; rewrite ?Hc.
  - unfold Session.do_read. rewrite (update_eq _ sid _ _ Hs1). cbn [sessions put_sessions].
    rewrite alter_alter_eq. apply (f_equal (fun m => (Ret tt, put_sessions m w))), alter_ext. intros x Hx.
    rewrite Hs in Hx. injection Hx as <-. unfold compose, reading_session. simpl. by rewrite Hc.
  - apply (f_equal (fun m => (Ret tt, put_sessions m w))), alter_ext. intros x Hx.
    rewrite Hs in Hx. injection Hx as <-. by rewrite Hc.
Qed.

(** The state in which the handler of a frame that arrives alone runs. *)
Definition framed (bs : list byte) w : W :=
  put_sessions (alter (fun s => set_parser (parser_at []) (fed bs s)) sid (sessions w)) w.

Lemma read_one_frame w s f w' :
  world_wf cfg None Free w -> sessions w !! sid = Some s -> reading s = true ->
  (length f <= Buffer.write_capacity (read_buf_ s))%nat -> holding [] (parser_ s) ->
  valid_frame cfg f -> Z.of_nat (length f) <= u64 (max_parser_buffer_size cfg) ->
  Session.handle_packet cfg env now sid (Buffer.of_bytes f) (framed f w) = (Ret tt, w') ->
  exists s', sessions w' !! sid = Some s' /\ holding [] (parser_ s') /\
    Session.read_handler cfg env now sid false f w =
      (Ret tt, put_sessions (alter rearmed sid (sessions w')) w').
Proof.
  intros Hw Hs Hrd Hcap Hh Hv Hfit Hp.
  assert (Hcat : [] ++ f = concat [f] ++ []) by (cbn [concat]; by rewrite !app_nil_r).
  rewrite (read_frames_eq w s [] f [f] [] Hw Hs Hrd Hcap Hh Hcat);
    [|by repeat constructor|apply partial_nil|done].
  assert (Hb : (update sid (fed f);; handle_frames [f] []) w = (Ret true, w')).
  { rewrite (update_then w sid s) by done. cbn [handle_frames concat app].
    rewrite (update_then _ sid _ _ _ (updated w sid s (fed f) Hs)).
    cbn [sessions put_sessions]. rewrite alter_alter_eq.
    change (put_sessions _ _) with (framed f w). unfold try_catch, mbind, M_bind. by rewrite Hp. }
  pose proof (updated w sid s (fed f) Hs) as Hs1. rewrite (update_then w sid s) in Hb |- * by done.
  destruct (handle_frames_parser [f] [] _ _ w' Hs1 Hb) as (s' & Hs' & Hps). exists s'.
  split; [done|]. split; [rewrite Hps; apply holding_of_bytes|].
  unfold mbind at 1, M_bind at 1. rewrite Hb. by apply (rearm_eq w' s').
Qed.

End Reading.

(** ** A publication over the wire *)

(** Queueing packets leaves the reading side of a session alone. *)
Lemma queue_after_reading out x s :
  reading (queue_after out x s) = reading s /\ parser_ (queue_after out x s) = parser_ s /\
  read_buf_ (queue_after out x s) = read_buf_ s.
Proof.
  unfold queue_after. destruct (connected_ s); [|done]. revert s.
  induction (packets_for x out) as [|p ps IH]; intros s; [done|]. simpl.
  destruct (IH (enqueue p s)) as (-> & -> & ->). unfold enqueue, pump.
  destruct (write_queue_ s); simpl; [|done]. by destruct (connected_ s).
Qed.

(** Who a session is, and whether it is open. *)
Record same_client (s s' : Session) : Prop := {
  sc_connected : connected_ s' = connected_ s;
  sc_id : client_id_ s' = client_id_ s;
  sc_clean : clean_session_ s' = clean_session_ s;
  sc_open : socket_open s' = socket_open s;
  sc_handshaking : handshaking s' = handshaking s
}.

#[global] Instance same_client_preorder : PreOrder same_client.
Proof. split; [done|]. intros x y z [] []. constructor; congruence. Qed.

Lemma enqueue_client p s : same_client s (enqueue p s).
Proof.
  unfold enqueue, pump. destruct (write_queue_ s); simpl; [|done].
  destruct (connected_ s) eqn:Hc; constructor; simpl; congruence.
Qed.

Lemma queue_after_client out x s : same_client s (queue_after out x s).
Proof.
  unfold queue_after. destruct (connected_ s); [|done]. revert s.
  induction (packets_for x out) as [|p ps IH]; intros s; [done|]. simpl.
  etransitivity; [apply enqueue_client|apply IH].
Qed.

Lemma rearmed_client s : same_client s (rearmed s).
Proof. unfold rearmed. destruct (connected_ s) eqn:Hc; constructor; simpl; congruence. Qed.

(** What the engine and the output streams see of a session. *)
Definition same_output (g : Session -> Session) : Prop :=
  forall s, write_queue_ (g s) = write_queue_ s /\ writing_ (g s) = writing_ s /\ sent (g s) = sent s /\
            connected_ (g s) = connected_ s /\ client_id_ (g s) = client_id_ s.

Lemma same_output_outstream g s : same_output g -> outstream (g s) = outstream s.
Proof. intros Hg. destruct (Hg s) as (Hq & Hw & Hs & _). unfold outstream. by rewrite Hq, Hw, Hs. Qed.

Lemma same_output_framed cfg bs : same_output (fun s => set_parser (parser_at []) (fed cfg bs s)).
Proof. by intros s. Qed.

Lemma same_output_rearmed : same_output rearmed.
Proof. intros s. unfold rearmed. by destruct (connected_ s) eqn:Hc. Qed.

Lemma room_for_alter cfg g sid ss out :
  same_output g -> room_for cfg ss out -> room_for cfg (alter g sid ss) out.
Proof.
  intros Hg Hr x s Hx Hc. destruct (decide (x = sid)) as [->|Hne].
  - rewrite lookup_alter_eq in Hx. destruct (ss !! sid) as [s0|] eqn:Hs; [|done].
    injection Hx as <-. destruct (Hg s0) as (Hq & _ & _ & Hcg & _). rewrite Hq. apply (Hr sid s0 Hs). congruence.
  - rewrite lookup_alter_ne in Hx by done. by apply (Hr x s).
Qed.

Lemma view_alter {A} (w : World A) g sid :
  same_output g -> view_of (put_sessions (alter g sid (sessions w)) w) ≡ view_of w.
Proof.
  intros Hg. split; [|split]; intros x; simpl; unfold alive; simpl;
    (destruct (decide (x = sid)) as [->|Hne]; [rewrite lookup_alter_eq|by rewrite lookup_alter_ne]);
    destruct (sessions w !! sid) as [s|]; simpl; try done; apply Hg.
Qed.

#[global] Instance routed_proper cfg :
  Proper ((≡) ==> (=) ==> (=) ==> (=) ==> (=) ==> (=)) (routed cfg).
Proof.
  intros v1 v2 Hv c ? <- t ? <- pub ? <- d ? <-. unfold routed.
  by rewrite (publish_from_client_proper cfg v1 v2 Hv t t eq_refl pub pub eq_refl d d eq_refl).
Qed.

(** The PUBLISH a client sends. *)
Definition publish_frame (t : string) (pl : list byte) (q : Z) (r d : bool) (pid : Z) : list byte :=
  contents (PacketBuilder.build_publish t pl q r d pid).

(** The broker reads it as this. *)
Definition published_as (t : string) (pl : list byte) (q : Z) (r d : bool) (pid : Z) : PublishPacket :=
  mkPublishPacket t (Buffer.of_bytes pl) q r d (if 0 <? q then pid else 0).

Section Wire.

Context {E A : Type} `{Authenticator E A} (cfg : Config) (Hmax : max_write_queue_size cfg < 2 ^ 31)
  (env : E) (now : Z).
Abbreviation W := (World A).
Implicit Types (w : W) (s : Session).

(** A session that waits for its next packet. *)
Definition waiting_session s : Prop :=
  connected_ s = true /\ reading s = true /\ holding [] (parser_ s).

(** A frame that fits into the limits and one read of the socket. *)
Record frame_fits (s : Session) (f : list byte) : Prop := {
  ff_valid : valid_frame cfg f;
  ff_parser : Z.of_nat (length f) <= u64 (max_parser_buffer_size cfg);
  ff_read : (length f <= Buffer.write_capacity (read_buf_ s))%nat
}.

(** What the streams and the reader are after a read of one frame whose handler
    only sends packets. *)
Definition read_outcome w sid (out : list delivery) w' : Prop :=
  (exists s', sessions w' !! sid = Some s' /\ waiting_session s') /\
  dom (sessions w') = dom (sessions w) /\
  (forall x, x <> sid -> sessions w' !! x = queue_after out x <$> sessions w !! x) /\
  forall x sx, sessions w !! x = Some sx -> exists sx', sessions w' !! x = Some sx' /\
    same_client sx sx' /\
    outstream sx' = outstream sx ++ (if connected_ sx then packets_for x out else []).

Lemma wire_after w sid s f out w1 :
  world_wf cfg None Free w -> sessions w !! sid = Some s -> waiting_session s -> frame_fits s f ->
  Session.handle_packet cfg env now sid (Buffer.of_bytes f) (framed cfg sid f w) = (Ret tt, w1) ->
  sessions w1 = after out (sessions (framed cfg sid f w)) ->
  exists m, exec cfg env now (Read sid false f) w = (Ret tt, put_sessions m w1) /\
    read_outcome w sid out (put_sessions m w1).
Proof.
  intros Hw Hs (Hc & Hrd & Hh) [Hvf Hb Hcap] Hhp Hse.
  pose proof (same_output_framed cfg f) as Hg. set (g := fun s => _) in Hg.
  assert (Hs1 : sessions (framed cfg sid f w) !! sid = Some (g s)) by apply (updated w sid s _ Hs).
  cbn [exec]. destruct (read_one_frame cfg env now sid w s f w1 Hw Hs Hrd Hcap Hh Hvf Hb Hhp) as (s1 & Hs1' & Hh1 & ->).
  eexists. split; [reflexivity|]. split.
  - exists (rearmed s1). split; [apply (updated w1 sid s1 _ Hs1')|].
    assert (Hc1 : connected_ s1 = true).
    { rewrite Hse, lookup_after, Hs1 in Hs1'. injection Hs1' as <-.
      by rewrite (proj1 (queue_after_same _ sid (g s))). }
    unfold rearmed. rewrite Hc1. by split.
  - split; [|split].
    { simpl. rewrite dom_alter_L, Hse. apply set_eq. intros x. rewrite !elem_of_dom, lookup_after.
      unfold framed. simpl. rewrite fmap_is_Some, <- !elem_of_dom, dom_alter_L. done. }
    { intros x Hne. simpl. rewrite lookup_alter_ne by done. rewrite Hse, lookup_after. unfold framed. simpl.
      by rewrite lookup_alter_ne. }
    intros x sx Hx.
    assert (Hx1 : exists y, sessions (framed cfg sid f w) !! x = Some y /\ outstream y = outstream sx /\
      same_client sx y /\ (writing_ y = true -> write_queue_ y <> [])).
    { pose proof (sw_writing _ _ _ _ (ww_sessions _ _ _ _ Hw x sx Hx)) as Hwr.
      destruct (decide (x = sid)) as [->|Hne].
      - rewrite Hs in Hx. injection Hx as <-. exists (g s). by repeat split.
      - exists sx. unfold framed. simpl. by rewrite lookup_alter_ne. }
    destruct Hx1 as (y & Hy & Hoy & Hcy & Hwy).
    assert (Hz : sessions w1 !! x = Some (queue_after out x y)) by (by rewrite Hse, lookup_after, Hy).
    assert (Hcz : same_client sx (queue_after out x y)) by (etransitivity; [exact Hcy|apply queue_after_client]).
    assert (Hoz : outstream (queue_after out x y) =
      outstream sx ++ (if connected_ sx then packets_for x out else [])).
    { rewrite outstream_queue_after by done. by rewrite Hoy, (sc_connected _ _ Hcy). }
    simpl. destruct (decide (x = sid)) as [->|Hne].
    + rewrite lookup_alter_eq, Hz. eexists. split; [done|]. rewrite same_output_outstream by apply same_output_rearmed.
      split; [|done]. etransitivity; [exact Hcz|apply rearmed_client].
    + rewrite lookup_alter_ne by done. by eexists.
Qed.

(** A PUBLISH a client may send: the field sizes of the protocol and the packet
    limit of the configuration. *)
Record publish_fits t pl (q pid : Z) : Prop := {
  pf_topic : Z.of_nat (String.length t) < 65536;
  pf_qos : 0 <= q <= 2;
  pf_pid : 0 <= pid < 65536;
  pf_body : Z.of_nat (length (publish_body t pl q pid)) < 2 ^ 28;
  pf_packet : Z.of_nat (length (publish_body t pl q pid)) <= u32 (max_packet_size cfg)
}.

Lemma publish_frame_valid t pl q r d pid :
  publish_fits t pl q pid -> valid_frame cfg (publish_frame t pl q r d pid).
Proof.
  intros [Ht Hq Hpid Hl Hp]. unfold publish_frame.
  destruct (build_publish_contents t pl q r d pid) as [_ ->]; [lia|].
  eexists _, _. split; [reflexivity|]. split; [|done].
  assert (q = 0 \/ q = 1 \/ q = 2) as [-> | [-> | ->]] by lia; destruct r, d; vm_compute; split; congruence.
Qed.

Lemma handle_publish_frame w sid t pl q r d pid :
  publish_fits t pl q pid ->
  exists packet hdr, (parse_publish hdr packet).1 = Ret (published_as t pl q r d pid) /\
    Session.handle_packet cfg env now sid (Buffer.of_bytes (publish_frame t pl q r d pid)) w =
      Session.handle_publish cfg env sid packet hdr w.
Proof.
  intros [Ht Hq Hpid Hl _]. unfold publish_frame.
  destruct (build_publish_contents t pl q r d pid) as [_ ->]; [lia|].
  destruct (decode_byte1_publish q r d) as [Hb1 Hdec]; [lia|]. set (byte1 := Z.lor _ _) in *.
  destruct (handle_packet_frame cfg env now sid byte1 (publish_body t pl q pid) w Hb1 Hl)
    as (packet & Hwf & Hu & ->).
  set (hdr := frame_header byte1 _). exists packet, hdr.
  assert (Hh : hdr = mkFixedHeader 3 d q r (Z.of_nat (length (publish_body t pl q pid))))
    by (unfold hdr, frame_header; by rewrite Hdec).
  split; [|by rewrite Hh].
  pose proof (consumes_parse_publish hdr t pl pid Ht Hpid) as Hc. rewrite Hh in Hc |- *.
  rewrite (Hc eq_refl packet [] Hwf); [done|]. by rewrite Hu, app_nil_r.
Qed.

(** The read of an admitted PUBLISH. *)
Lemma publish_read w sid s t pl q r dp pid acc a' d out :
  let f := publish_frame t pl q r dp pid in
  let pub := published_as t pl q r dp pid in
  world_wf cfg None Free w -> sessions w !! sid = Some s -> waiting_session s ->
  publish_fits t pl q pid -> Z.of_nat (length f) <= u64 (max_parser_buffer_size cfg) ->
  (length f <= Buffer.write_capacity (read_buf_ s))%nat ->
  check_acl env (username_ s) t Access.WRITE (auth w) = (Ret acc, a') ->
  acc <> Access.NONE -> topic.is_valid_topic cfg t = true ->
  routed cfg (view_of w) (client_id_ s) (retaining cfg pub (topic_tree w)) pub (delivery_engine w) = (d, out) ->
  room_for cfg (sessions w) (answer sid pub ++ out) ->
  exists w', exec cfg env now (Read sid false f) w = (Ret tt, w') /\
    topic_tree w' = retaining cfg pub (topic_tree w) /\ delivery_engine w' = d /\
    read_outcome w sid (answer sid pub ++ out) w'.
Proof using Hmax.
  intros f pub Hw Hs Hwt Hpf Hb Hcap Ha Hn Hv Ho Hr.
  pose proof (same_output_framed cfg f) as Hg. set (g := fun s => _) in Hg.
  assert (Hs1 : sessions (framed cfg sid f w) !! sid = Some (g s)) by apply (updated w sid s _ Hs).
  destruct (handle_publish_frame (framed cfg sid f w) sid t pl q r dp pid Hpf) as (packet & hdr & Hpub & Hhp).
  destruct (handle_publish_after cfg Hmax env (framed cfg sid f w) sid (g s) packet hdr pub acc a' d out)
    as (w1 & Hpb & Htr & Hde & Hse & _); try done.
  { apply Hwt. }
  { rewrite <- Ho. apply routed_proper; try done. by apply view_alter. }
  { by apply room_for_alter. }
  rewrite Hpb in Hhp. assert (Hff : frame_fits s f) by (constructor; [by apply publish_frame_valid|done|done]).
  destruct (wire_after w sid s f _ w1 Hw Hs Hwt Hff Hhp Hse) as (m & He & Hx).
  eexists. split; [exact He|]. by split.
Qed.

(** [C6] From bytes to bytes: a PUBLISH that arrives in one segment on a session
    that waits for a packet, that is admitted by the ACL and has a valid topic,
    when every queue it is sent to has room, is retained if it asks for it, answered according to its QoS, and every packet the engine
    routes is appended, in order and once, to the output stream of its
    session; the publisher's session is left waiting for the next packet. *)
Theorem publish_over_wire w sid s t pl q r dp pid acc a' d out :
  let f := publish_frame t pl q r dp pid in
  let pub := published_as t pl q r dp pid in
  world_wf cfg None Free w -> sessions w !! sid = Some s -> waiting_session s ->
  publish_fits t pl q pid -> Z.of_nat (length f) <= u64 (max_parser_buffer_size cfg) ->
  (length f <= Buffer.write_capacity (read_buf_ s))%nat ->
  check_acl env (username_ s) t Access.WRITE (auth w) = (Ret acc, a') ->
  acc <> Access.NONE -> topic.is_valid_topic cfg t = true ->
  routed cfg (view_of w) (client_id_ s) (retaining cfg pub (topic_tree w)) pub (delivery_engine w) = (d, out) ->
  room_for cfg (sessions w) (answer sid pub ++ out) ->
  exists w', exec cfg env now (Read sid false f) w = (Ret tt, w') /\
    topic_tree w' = retaining cfg pub (topic_tree w) /\ delivery_engine w' = d /\
    (exists s', sessions w' !! sid = Some s' /\ waiting_session s') /\
    forall x sx, sessions w !! x = Some sx -> exists sx', sessions w' !! x = Some sx' /\
      outstream sx' = outstream sx ++
        (if connected_ sx then packets_for x (answer sid pub ++ out) else []).
Proof using Hmax.
  intros f pub Hw Hs Hwt Hpf Hb Hcap Ha Hn Hv Ho Hr.
  destruct (publish_read w sid s t pl q r dp pid acc a' d out Hw Hs Hwt Hpf Hb Hcap Ha Hn Hv Ho Hr)
    as (w' & He & Ht & Hd & Hwt' & _ & _ & Hx).
  exists w'. do 4 (split; [done|]). intros x sx Hsx. destruct (Hx x sx Hsx) as (sx' & H1 & _ & H2). by exists sx'.
Qed.

End Wire.

(** ** Concrete runs *)

(** The waiting session of the small run. *)
Lemma demo_waiting :
  exists s, sessions demo_subscriber !! 0%nat = Some s /\ waiting_session s /\
    Z.of_nat (Buffer.write_capacity (read_buf_ s)) = 4096.
Proof.
  destruct (demo_session demo_subscriber 0%nat
    (fun s => (connected_ s, reading s, parser_ s, Z.of_nat (Buffer.write_capacity (read_buf_ s))))
    (true, true, parser_at [], 4096)) as (s & Hs & Hx); [vm_compute; reflexivity|].
  apply pair_equal_spec in Hx as [Hx Hcap]. apply pair_equal_spec in Hx as [Hx Hp].
  apply pair_equal_spec in Hx as [Hc Hr]. exists s. split; [exact Hs|]. split; [|exact Hcap].
  split; [exact Hc|]. split; [exact Hr|]. rewrite Hp. apply holding_of_bytes.
Qed.

(** A PINGREQ and the first octet of the next packet. *)
Lemma read_handles_frames_witness :
  Session.read_handler (E := unit) tiny_config tt 0 0 false (frame 0xC0 [] ++ [byte_of_Z 0xC0]) demo_subscriber =
    (update 0 (fed tiny_config (frame 0xC0 [] ++ [byte_of_Z 0xC0]));;
     ok ← handle_frames (E := unit) tiny_config tt 0 0 [frame 0xC0 []] [byte_of_Z 0xC0];
     if ok : bool then rearm 0 else mret tt) demo_subscriber.
Proof.
  destruct demo_waiting as (s & Hs & (Hc & Hr & Hh) & Hcap).
  assert (Hv : valid_frame tiny_config (frame 0xC0 [])).
  { exists 0xC0, []. split; [reflexivity|]. vm_compute. intuition congruence. }
  apply (read_handles_frames (E := unit) tiny_config tt 0 0 demo_subscriber s [] _ [frame 0xC0 []] [byte_of_Z 0xC0]).
  - exact demo_subscriber_wf.
  - exact Hs.
  - exact Hr.
  - change (3 <= Buffer.write_capacity (read_buf_ s))%nat. lia.
  - exact Hh.
  - reflexivity.
  - constructor; [exact Hv|constructor].
  - exists (frame 0xC0 []), [Byte.x00]. split; [exact Hv|]. split; [reflexivity|discriminate].
  - vm_compute. discriminate.
Defined.

Lemma publish_over_wire_witness :
  exists w', exec (E := unit) tiny_config tt 0
      (Read 0 false (publish_frame "a/b" (string_bytes "hi") 1 true false 7)) demo_subscriber = (Ret tt, w') /\
    exists s', sessions w' !! 0%nat = Some s' /\ waiting_session s'.
Proof.
  destruct demo_waiting as (s & Hs & Hwt & Hcap).
  set (pub := published_as "a/b" (string_bytes "hi") 1 true false 7).
  destruct (routed tiny_config (view_of demo_subscriber) (client_id_ s)
    (retaining tiny_config pub (topic_tree demo_subscriber)) pub (delivery_engine demo_subscriber)) as [d out] eqn:Ho.
  assert (Hout : length out = 1%nat).
  { replace out with (d, out).2 by reflexivity. rewrite <- Ho. vm_compute. reflexivity. }
  destruct (publish_over_wire (E := unit) tiny_config ltac:(reflexivity) tt 0 demo_subscriber 0%nat s
    "a/b" (string_bytes "hi") 1 true false 7 Access.READWRITE tt d out) as (w' & He & _ & _ & Hs' & _).
  - exact demo_subscriber_wf.
  - exact Hs.
  - exact Hwt.
  - constructor; vm_compute; intuition congruence.
  - vm_compute. discriminate.
  - apply Nat2Z.inj_le. rewrite Hcap. vm_compute. discriminate.
  - reflexivity.
  - discriminate.
  - vm_compute. reflexivity.
  - exact Ho.
  - apply demo_room. rewrite length_app, Hout. apply Nat.leb_le. vm_compute. reflexivity.
  - exists w'. split; [exact He|exact Hs'].
Defined.
