(* ===== verification/Requests.v ===== *)
(** * Requests: UNSUBSCRIBE, PINGREQ and CONNECT

    Functional theorems about the remaining requests of a client
    ([Session::handle_unsubscribe], [handle_pingreq], [handle_connect] and the
    functions it calls in [src/session.cpp]): what they do to the topic tree,
    the stored subscriptions, the registration of clients and the output
    streams. *)

From Stdlib Require Import Strings.Byte Strings.String ZArith QArith.QArith_base Lia.
From stdpp Require Import base list strings numbers option gmap fin_maps sets.
From S2P Require Import Prelude Config Buffer Packet Parser Filter TopicTree Retained Subscription Auth Timer Qos Inflight Qos1 Qos2 Delivery World Session Closing Steady Server Safety Routing Release Wire.

Open Scope Z_scope.

(** ** Entries of one session under many filters *)

(** The tree after a session leaves the filters [fs]. *)
Definition departed (al : session_id -> bool) (sid : session_id) (fs : list string) (t : TopicTree) : TopicTree :=
  foldl (fun t f => TopicTree.unsubscribe al f (Some sid) t) t fs.

(** The tree after a session joins the subscriptions [l]. *)
Definition joined (al : session_id -> bool) (sid : session_id) (l : list Subscription) (t : TopicTree) : TopicTree :=
  foldl (fun t sub => TopicTree.subscribe al (Subscription.topic_filter sub)
                        (mkEntry (Some sid) (sub_qos sub)) t) t l.

Lemma remove_subscriber_elem al sid l e :
  e ∈ TopicTree.remove_subscriber al (Some sid) l <->
  e ∈ l /\ TopicTree.lock al (entry_session e) <> Some sid.
Proof.
  unfold TopicTree.remove_subscriber. rewrite list_elem_of_filter.
  pose proof (same_session_spec al sid e) as Hs.
  destruct (TopicTree.same_session al (Some sid) e); naive_solver.
Qed.

Lemma departed_elem al sid fs : forall t gs e,
  e ∈ subs_at gs (root_ (departed al sid fs t)) <->
  e ∈ subs_at gs (root_ t) /\
  ~ (gs ∈ topic.split <$> fs /\ TopicTree.lock al (entry_session e) = Some sid).
Proof.
  induction fs as [|f fs IH]; intros t gs e.
  { simpl. split; [|by intros [? _]]. intros He. split; [done|]. intros [Hin _]. by apply elem_of_nil in Hin. }
  change (departed al sid (f :: fs) t) with (departed al sid fs (TopicTree.unsubscribe al f (Some sid) t)).
  rewrite IH. unfold TopicTree.unsubscribe. simpl. rewrite subs_at_unsubscribe, elem_of_cons. case_decide as Hg.
  - subst gs. rewrite remove_subscriber_elem. naive_solver.
  - naive_solver.
Qed.

Lemma add_subscriber_elem al sid q l e :
  al sid = true ->
  e ∈ TopicTree.add_subscriber al (mkEntry (Some sid) q) l ->
  (e ∈ l /\ TopicTree.lock al (entry_session e) <> Some sid) \/
  (TopicTree.lock al (entry_session e) = Some sid /\ (entry_qos e = q \/ e ∈ l)).
Proof.
  intros Ha. induction l as [|x l IH]; cbn [TopicTree.add_subscriber entry_session TopicTree.lock]; rewrite ?Ha.
  - intros ->%list_elem_of_singleton. right. simpl. rewrite Ha. split; [done|]. by left.
  - destruct (TopicTree.same_session al (Some sid) x) eqn:Hs.
    + intros [->|Hin]%elem_of_cons.
      * right. apply same_session_spec in Hs. split; [exact Hs|by left].
      * destruct (decide (TopicTree.lock al (entry_session e) = Some sid)); 
          [right; split; [done|]; right; by right|left; split; [by right|done]].
    + intros [->|Hin]%elem_of_cons.
      * left. split; [by left|]. intros Hl%same_session_spec. congruence.
      * destruct (IH Hin) as [[H1 H2]|[H1 [H2|H2]]]; [left; split; [by right|done]|right..];
          (split; [done|]); [by left|by right; right].
Qed.

Lemma add_subscriber_keeps al sid q l e :
  al sid = true -> e ∈ l -> TopicTree.lock al (entry_session e) <> Some sid ->
  e ∈ TopicTree.add_subscriber al (mkEntry (Some sid) q) l.
Proof.
  intros Ha. induction l as [|x l IH]; [by intros Hin%elem_of_nil|].
  cbn [TopicTree.add_subscriber entry_session TopicTree.lock]. rewrite Ha.
  intros [<-|Hin]%elem_of_cons Hl.
  - destruct (TopicTree.same_session al (Some sid) e) eqn:Hs; [by apply same_session_spec in Hs|by left].
  - destruct (TopicTree.same_session al (Some sid) x); [by right|]. right. by apply IH.
Qed.

(** Where the session is subscribed after joining. *)
Lemma joined_live al x l y gs : forall t, al x = true ->
  y ∈ live_sessions al (subs_at gs (root_ (joined al x l t))) <->
  y ∈ live_sessions al (subs_at gs (root_ t)) \/
  (y = x /\ gs ∈ (fun sub => topic.split (Subscription.topic_filter sub)) <$> l).
Proof.
  induction l as [|sub l IH]; intros t Hx; [simpl; set_solver|].
  change (joined al x (sub :: l) t) with
    (joined al x l (TopicTree.subscribe al (Subscription.topic_filter sub) (mkEntry (Some x) (sub_qos sub)) t)).
  rewrite IH by done. unfold TopicTree.subscribe. simpl. rewrite subs_at_subscribe, elem_of_cons.
  case_decide; [subst gs; rewrite live_sessions_add by done; case_decide; set_solver|set_solver].
Qed.

(** The entries of the session after joining are old ones or have a stored QoS. *)
Lemma joined_entries al sid l : forall t gs e, al sid = true ->
  e ∈ subs_at gs (root_ (joined al sid l t)) -> TopicTree.lock al (entry_session e) = Some sid ->
  e ∈ subs_at gs (root_ t) \/
  exists sub, sub ∈ l /\ gs = topic.split (Subscription.topic_filter sub) /\ entry_qos e = sub_qos sub.
Proof.
  induction l as [|sub l IH]; intros t gs e Ha He Hl; [by left|].
  change (joined al sid (sub :: l) t) with
    (joined al sid l (TopicTree.subscribe al (Subscription.topic_filter sub) (mkEntry (Some sid) (sub_qos sub)) t)) in He.
  destruct (IH _ gs e Ha He Hl) as [Hin|(sub' & Hin & Hrest)].
  - unfold TopicTree.subscribe in Hin. simpl in Hin. rewrite subs_at_subscribe in Hin.
    case_decide as Hg; [|by left]. subst gs.
    destruct (add_subscriber_elem al sid _ _ e Ha Hin) as [[? ?]|[_ [Hq|?]]]; [by left| |by left].
    right. exists sub. split; [by left|done].
  - right. exists sub'. split; [by right|done].
Qed.

Lemma joined_elsewhere al sid l gs : forall t,
  (forall sub, sub ∈ l -> gs <> topic.split (Subscription.topic_filter sub)) ->
  subs_at gs (root_ (joined al sid l t)) = subs_at gs (root_ t).
Proof.
  induction l as [|sub l IH]; intros t Hn; [done|].
  change (joined al sid (sub :: l) t) with
    (joined al sid l (TopicTree.subscribe al (Subscription.topic_filter sub) (mkEntry (Some sid) (sub_qos sub)) t)).
  rewrite IH by (intros x Hx; apply Hn; by right). unfold TopicTree.subscribe. simpl.
  rewrite subs_at_subscribe, decide_False; [done|]. apply Hn. by left.
Qed.

(** Joining keeps every other session's entries. *)
Lemma joined_others al sid l : forall t gs e,
  al sid = true -> TopicTree.lock al (entry_session e) <> Some sid ->
  e ∈ subs_at gs (root_ (joined al sid l t)) <-> e ∈ subs_at gs (root_ t).
Proof.
  induction l as [|sub l IH]; intros t gs e Ha He; [done|].
  change (joined al sid (sub :: l) t) with
    (joined al sid l (TopicTree.subscribe al (Subscription.topic_filter sub) (mkEntry (Some sid) (sub_qos sub)) t)).
  rewrite IH by done. unfold TopicTree.subscribe. simpl. rewrite subs_at_subscribe.
  case_decide; [subst gs|done]. split; [|intros Hin; by apply add_subscriber_keeps].
  intros Hin. destruct (add_subscriber_elem _ _ _ _ _ Ha Hin) as [[? _]|[? _]]; done.
Qed.

(** Joining leaves one entry of the session, with a QoS of the list, under every
    filter of the list. *)
Lemma joined_self al sid l : forall t sub,
  al sid = true -> sub ∈ l ->
  exists e sub', e ∈ subs_at (topic.split (Subscription.topic_filter sub)) (root_ (joined al sid l t)) /\
    TopicTree.lock al (entry_session e) = Some sid /\ sub' ∈ l /\
    topic.split (Subscription.topic_filter sub') = topic.split (Subscription.topic_filter sub) /\
    entry_qos e = sub_qos sub'.
Proof.
  induction l as [|x l IH] using rev_ind; intros t sub Ha Hin; [by apply elem_of_nil in Hin|].
  unfold joined. rewrite foldl_snoc. fold (joined al sid l t). unfold TopicTree.subscribe. simpl.
  setoid_rewrite subs_at_subscribe.
  destruct (decide (topic.split (Subscription.topic_filter sub) = topic.split (Subscription.topic_filter x))) as [Hg|Hg].
  - destruct (added_subscriber al sid (sub_qos x)
      (subs_at (topic.split (Subscription.topic_filter x)) (root_ (joined al sid l t))) Ha) as (e & He & Hl & Hq).
    exists e, x. rewrite Hg. do 2 (split; [done|]). split; [|by split].
    apply elem_of_app. right. by apply list_elem_of_singleton.
  - apply elem_of_app in Hin as [Hin| ->%list_elem_of_singleton]; [|done].
    destruct (IH t sub Ha Hin) as (e & sub' & He & Hl & Hs & Hf & Hq). exists e, sub'.
    split; [done|]. split; [done|]. split; [apply elem_of_app; by left|]. by split.
Qed.

(** ** UNSUBSCRIBE *)

Lemma stored_qos_removed c fs : forall m c' g,
  stored_qos c' g (foldl (fun m f => SubscriptionManager.remove c f m) m fs) =
    if decide (c' = c /\ g ∈ fs) then None else stored_qos c' g m.
Proof.
  induction fs as [|f fs IH]; intros m c' g; simpl.
  - rewrite decide_False; [done|]. intros [_ Hin]. by apply elem_of_nil in Hin.
  - rewrite IH. change (SubscriptionManager.remove c f m) with (sub_step (Remove c f) m).
    rewrite stored_qos_step. cbn [spec_step]. repeat case_decide; set_solver.
Qed.

Section Requests.

Context {E A : Type} `{Authenticator E A} (cfg : Config) (Hmax : max_write_queue_size cfg < 2 ^ 31)
  (env : E) (now : Z).
Abbreviation W := (World A).
Implicit Types (w : W) (s : Session).

(** The subscription manager after [fs] are given up. *)
Definition forgotten (clean : bool) (cid : string) (fs : list string) (m : SubscriptionManager)
  : SubscriptionManager :=
  if clean then m else foldl (fun m f => SubscriptionManager.remove cid f m) m fs.

Lemma unsubscribe_each sid s fs : forall w,
  for_each fs (fun f =>
    w ← get;
    tree (TopicTree.unsubscribe (alive w) f (Some sid));;
    if negb (clean_session_ s) then subs (SubscriptionManager.remove (client_id_ s) f) else mret tt) w =
  (Ret tt, put_sub_manager (forgotten (clean_session_ s) (client_id_ s) fs (sub_manager w))
             (put_topic_tree (departed (alive w) sid fs (topic_tree w)) w)).
Proof.
  unfold forgotten. induction fs as [|f fs IH]; intros w.
  { simpl. destruct w. by destruct (clean_session_ s). }
  set (body := fun f => _) in IH |- *. cbn [for_each]. unfold mbind at 1, M_bind at 1.
  assert (Hb : body f w = (Ret tt,
    put_sub_manager (if clean_session_ s then sub_manager w
                     else SubscriptionManager.remove (client_id_ s) f (sub_manager w))
      (put_topic_tree (TopicTree.unsubscribe (alive w) f (Some sid) (topic_tree w)) w)))
    by (unfold body; destruct w; by destruct (clean_session_ s)).
  rewrite Hb, IH. by destruct (clean_session_ s).
Qed.

(** An UNSUBSCRIBE, up to the sessions' queues. *)
Lemma handle_unsubscribe_after w sid s packet unsub :
  sessions w !! sid = Some s -> connected_ s = true -> (parse_unsubscribe packet).1 = Ret unsub ->
  room_for cfg (sessions w) [(sid, PacketBuilder.build_unsuback (unsub_packet_id unsub))] ->
  exists w', Session.handle_unsubscribe cfg sid packet w = (Ret tt, w') /\
    sessions w' = after [(sid, PacketBuilder.build_unsuback (unsub_packet_id unsub))] (sessions w) /\
    topic_tree w' = departed (alive w) sid (topic_filters unsub) (topic_tree w) /\
    sub_manager w' = forgotten (clean_session_ s) (client_id_ s) (topic_filters unsub) (sub_manager w) /\
    delivery_engine w' = delivery_engine w.
Proof using Hmax.
  intros Hs Hc Hp Hr. unfold Session.handle_unsubscribe. rewrite (this_bind_eq w sid s) by done.
  rewrite Hc. cbn [negb]. unfold try_parse. unfold mbind at 1, M_bind at 1. rewrite Hp.
  unfold mbind at 1, M_bind at 1. rewrite unsubscribe_each.
  rewrite (deliver_after cfg Hmax); [|by exists s|done]. eexists. split; [reflexivity|]. by repeat split.
Qed.

(** [C10] An UNSUBSCRIBE takes effect: afterwards the session has no entry under
    any of the filters, so no publication reaches it through them; every other
    entry of the tree is as before, a persistent session's stored
    subscriptions lose exactly these filters, and the session, and nobody
    else, is sent the UNSUBACK. *)
Theorem unsubscribe_served fo b w sid s packet unsub :
  world_wf cfg fo b w -> sessions w !! sid = Some s -> connected_ s = true ->
  (parse_unsubscribe packet).1 = Ret unsub ->
  let unsuback := PacketBuilder.build_unsuback (unsub_packet_id unsub) in
  room_for cfg (sessions w) [(sid, unsuback)] ->
  exists w', Session.handle_unsubscribe cfg sid packet w = (Ret tt, w') /\
    (forall gs e, e ∈ subs_at gs (root_ (topic_tree w')) <->
       e ∈ subs_at gs (root_ (topic_tree w)) /\
       ~ (gs ∈ topic.split <$> topic_filters unsub /\ TopicTree.lock (alive w) (entry_session e) = Some sid)) /\
    (forall c g, stored_qos c g (sub_manager w') =
       if decide (clean_session_ s = false /\ c = client_id_ s /\ g ∈ topic_filters unsub)
       then None else stored_qos c g (sub_manager w)) /\
    forall x sx, sessions w !! x = Some sx -> exists sx', sessions w' !! x = Some sx' /\
      outstream sx' = outstream sx ++ (if decide (x = sid) then [unsuback] else []).
Proof using Hmax.
  intros Hw Hs Hc Hp unsuback Hr.
  destruct (handle_unsubscribe_after w sid s packet unsub Hs Hc Hp Hr) as (w' & Hh & Hs' & Ht & Hm & _).
  exists w'. split; [done|]. split; [|split].
  - intros gs e. rewrite Ht. apply departed_elem.
  - intros c g. rewrite Hm. unfold forgotten. destruct (clean_session_ s).
    + rewrite decide_False; [done|]. by intros [? _].
    + rewrite stored_qos_removed. repeat case_decide; naive_solver.
  - intros x sx Hx. exists (queue_after [(sid, unsuback)] x sx). split; [by rewrite Hs', lookup_after, Hx|].
    rewrite outstream_queue_after by exact (sw_writing _ _ _ _ (ww_sessions _ _ _ _ Hw x sx Hx)).
    change [(sid, unsuback)] with ((fun p => (sid, p)) <$> [unsuback]). rewrite packets_for_one.
    case_decide; [subst x; rewrite Hs in Hx; injection Hx as <-; by rewrite Hc|]. by destruct (connected_ sx).
Qed.

(** A PINGREQ, up to the queues. *)
Lemma handle_pingreq_after w sid s :
  sessions w !! sid = Some s -> connected_ s = true ->
  room_for cfg (sessions w) [(sid, PacketBuilder.build_pingresp)] ->
  Session.handle_pingreq cfg sid w =
    (Ret tt, put_sessions (after [(sid, PacketBuilder.build_pingresp)] (sessions w)) w).
Proof using Hmax.
  intros Hs Hc Hr. unfold Session.handle_pingreq. rewrite (this_bind_eq w sid s) by done. rewrite Hc.
  cbn [negb]. apply (deliver_after cfg Hmax); [by exists s|done].
Qed.

End Requests.

(** ** CONNECT *)

Lemma lock_ext al1 al2 o :
  (forall x, al1 x = al2 x) -> TopicTree.lock al1 o = TopicTree.lock al2 o.
Proof. intros Ha. destruct o as [x|]; simpl; [|done]. by rewrite Ha. Qed.

Lemma live_sessions_ext al1 al2 l :
  (forall e, e ∈ l -> TopicTree.lock al1 (entry_session e) = TopicTree.lock al2 (entry_session e)) ->
  live_sessions al1 l = live_sessions al2 l.
Proof.
  induction l as [|e l IH]; intros He; [done|]. rewrite !live_sessions_cons, (He e) by left.
  by rewrite IH by (intros; apply He; by right).
Qed.

Section Connect.

Context {E A : Type} `{Authenticator E A} (cfg : Config) (Hmax : max_write_queue_size cfg < 2 ^ 31)
  (env : E) (now : Z).
Abbreviation W := (World A).
Implicit Types (w : W) (s : Session) (conn : ConnectPacket).

(** The address is not banned, or its ban is over. *)
Definition not_banned w (ip : string) : Prop :=
  match auth_ban_until (server_state w) !! ip with Some until => until <= now | None => True end.

(** The credentials are accepted: the authenticator accepts them, or there are
    none and it is not asked. *)
Definition credentials_accepted w conn (a' : A) : Prop :=
  (username conn = ""%string /\ password conn = ""%string /\ a' = auth w) \/
  ((username conn <> ""%string \/ password conn <> ""%string) /\
   exists r, authenticate env (client_id conn) (username conn) (password conn) (auth w) = (Ret r, a') /\
             success r = true).

(** No other connected session has the client id. *)
Definition unclaimed w (sid : session_id) (cid : string) : Prop :=
  forall old so, active_clients (server_state w) !! cid = Some old -> old <> sid ->
    sessions w !! old = Some so -> connected_ so = false.

(** The state of the server once the client is registered. *)
Definition registered w (sid : session_id) (ip cid : string) : ServerState :=
  let st := server_state w in
  mkServerState false (<[cid := sid]> (active_clients st)) (delete ip (auth_failures st))
    (delete ip (auth_ban_until st)) (connections_per_ip st).

Lemma check_auth_rate_limit_passes w sid s :
  sessions w !! sid = Some s -> mutex (server_state w) = false -> not_banned w (remote_ip_ s) ->
  exists st, Session.check_auth_rate_limit now sid w = (Ret true, put_server_state st w) /\
    mutex st = false /\
    registered (put_server_state st w) sid (remote_ip_ s) = registered w sid (remote_ip_ s) /\
    active_clients st = active_clients (server_state w).
Proof.
  intros Hs Hm Hb. unfold Session.check_auth_rate_limit. rewrite (this_bind_eq w sid s) by done.
  unfold with_lock. rewrite Hm. unfold not_banned in Hb. unfold get, state, modify, mret, M_ret, mbind, M_bind. simpl.
  unfold registered. simpl.
  destruct (auth_ban_until (server_state w) !! remote_ip_ s) as [until|] eqn:Eb.
  - rewrite_test (now <? until) false. eexists. split; [reflexivity|]. simpl. split; [done|].
    split; [|done]. by rewrite !delete_delete_eq.
  - eexists. split; [reflexivity|]. simpl. by destruct (server_state w).
Qed.

Lemma register_client_after w sid ip cid :
  mutex (server_state w) = false -> unclaimed w sid cid ->
  Session.register_client sid ip cid w = (Ret tt, put_server_state (registered w sid ip cid) w).
Proof.
  intros Hm Hu. unfold Session.register_client, with_lock. rewrite Hm.
  unfold state, get, modify. unfold mbind at 1 2 3, M_bind at 1 2 3. cbn [server_state put_server_state].
  change (active_clients (set_auth_ban_until _ _)) with (active_clients (server_state w)).
  set (w1 := put_server_state _ _).
  assert (Hc : (match active_clients (server_state w) !! cid with
     | Some old => if alive w1 old && negb (old =? sid)%nat then Session.close old else mret tt
     | None => mret tt
     end : M W unit) w1 = (Ret tt, w1)).
  { destruct (active_clients (server_state w) !! cid) as [old|] eqn:Eo; [|done].
    destruct (alive w1 old) eqn:Ea; [|done]. destruct (Nat.eqb_spec old sid) as [->|Hne]; [done|]. cbn [negb andb].
    unfold alive in Ea. apply bool_decide_eq_true in Ea as [so Hso].
    apply (close_disconnected w1 old so Hso). by apply (Hu old so). }
  cbv beta in Hc. rewrite Hc. unfold w1, registered. by destruct w as [? ? ? ? ? [] ? ? ?].
Qed.

(** The members [handle_connect] sets. *)
Definition identified conn s : Session :=
  set_connected true (set_keepalive (Session.clamp_keepalive cfg (keepalive conn))
    (set_clean_session (clean_session conn)
      (set_username (username conn) (set_client_id (client_id conn) s)))).

(** The keepalive times the multiplier is a number of seconds an [int] holds. *)
Definition timeable conn : Prop :=
  int_fits (Session.keepalive_seconds cfg (Session.clamp_keepalive cfg (keepalive conn))) = true.

(** The keepalive timer of a connection starts. *)
Definition timed s : Session :=
  if keepalive_ s =? 0 then s
  else set_keepalive_timer (Some (Timer.start (Session.keepalive_seconds cfg (keepalive_ s) * 1000) tt Timer.init)) s.

Lemma start_keepalive_eq w sid s :
  sessions w !! sid = Some s -> int_fits (Session.keepalive_seconds cfg (keepalive_ s)) = true ->
  Session.start_keepalive cfg sid w = (Ret tt, put_sessions (alter timed sid (sessions w)) w).
Proof.
  intros Hs Hf. unfold Session.start_keepalive, Session.keepalive_duration. rewrite (this_bind_eq w sid s) by done.
  assert (Ha : forall g, g s = timed s -> alter g sid (sessions w) = alter timed sid (sessions w)).
  { intros g Hg. apply alter_ext. intros x Hx. rewrite Hs in Hx. by injection Hx as <-. }
  unfold timed in Ha at 1. destruct (keepalive_ s =? 0).
  - rewrite <- (Ha (fun s => s)) by done. unfold mret, M_ret. rewrite alter_id by done. by destruct w.
  - rewrite Hf. unfold mbind, M_bind, mret, M_ret. rewrite (update_eq w sid s) by done. by rewrite (Ha _ eq_refl).
Qed.

Lemma enqueue_keepalive packet s : keepalive_ (enqueue packet s) = keepalive_ s.
Proof. unfold enqueue, pump. destruct (write_queue_ s); simpl; [by destruct (connected_ s)|done]. Qed.

(** The session once it is connected. *)
Definition accepted_session conn (present : bool) s : Session :=
  timed (enqueue (PacketBuilder.build_connack present ACCEPTED) (identified conn s)).

(** The stored subscriptions of a client that comes back. *)
Definition resumed w conn : list Subscription :=
  if clean_session conn then []
  else SubscriptionManager.get_client_subs (client_id conn) (sub_manager w).

Lemma restore_subscriptions_after w sid conn :
  exists al, (forall x, al x = alive w x) /\
  Session.restore_subscriptions sid (client_id conn) (clean_session conn) w =
    (Ret (negb (bool_decide (resumed w conn = []))),
     put_topic_tree (joined al sid (resumed w conn) (topic_tree w))
       (put_sub_manager (if clean_session conn then SubscriptionManager.remove_client (client_id conn) (sub_manager w)
                         else sub_manager w) w)).
Proof.
  exists (alive w). split; [done|]. unfold Session.restore_subscriptions, resumed, joined.
  destruct (clean_session conn); cbn [negb]; [by destruct w|].
  unfold get. unfold mbind at 1, M_bind at 1. unfold mbind at 1, M_bind at 1.
  rewrite for_each_tree. unfold mret, M_ret.
  destruct (SubscriptionManager.get_client_subs (client_id conn) (sub_manager w)); by destruct w.
Qed.

Lemma accept_connection_after w sid s conn :
  sessions w !! sid = Some s -> write_queue_ s = [] -> 0 < max_write_queue_size cfg -> timeable conn ->
  let present := negb (bool_decide (resumed w conn = [])) in
  exists al, (forall x, al x = alive w x) /\
  Session.accept_connection cfg sid conn w =
    (Ret tt, put_sessions (alter (accepted_session conn present) sid (sessions w))
      (put_topic_tree (joined al sid (resumed w conn) (topic_tree w))
        (put_sub_manager (if clean_session conn then SubscriptionManager.remove_client (client_id conn) (sub_manager w)
                          else sub_manager w) w))).
Proof using Hmax.
  intros Hs Hq Hpos Hka present. unfold Session.accept_connection.
  rewrite (update_then w sid s) by done. change (fun s => set_connected true _) with (identified conn).
  pose proof (updated w sid s (identified conn) Hs) as Hs1. set (w1 := put_sessions _ w) in *.
  destruct (restore_subscriptions_after w1 sid conn) as (al & Hal & Hre).
  exists al. split.
  { intros x. rewrite Hal. unfold alive. apply bool_decide_ext. unfold w1. simpl.
    by rewrite <- !elem_of_dom, dom_alter_L. }
  unfold mbind at 1, M_bind at 1. rewrite Hre.
  change (resumed w1 conn) with (resumed w conn). fold present.
  set (w2 := put_topic_tree _ _). unfold mbind, M_bind.
  rewrite (deliver_cases cfg sid _ w2 (identified conn s) Hs1). cbn [connected_ identified set_connected negb].
  assert (Hro : has_room cfg (identified conn s) = true).
  { unfold has_room. simpl. rewrite Hq. apply Z.ltb_lt. simpl. rewrite i32_small; lia. }
  rewrite Hro, (start_keepalive_eq _ sid _ (updated w2 sid (identified conn s) _ Hs1)).
  2:{ rewrite enqueue_keepalive. exact Hka. }
  cbn [sessions put_sessions put_topic_tree put_sub_manager w2 w1]. rewrite !alter_alter_eq.
  rewrite (alter_ext _ (accepted_session conn present) (sessions w) sid) by (intros x _; unfold accepted_session, timed; cbv beta zeta delta [compose]; reflexivity).
  unfold w2, w1, put_sessions, put_topic_tree, put_sub_manager.
  cbn [sessions topic_tree sub_manager auth delivery_engine server_state counters server ssl_ctx]. reflexivity.
Qed.

(** The packet passes the tests of [handle_connect] before authentication. *)
Record well_formed_connect conn : Prop := {
  wc_name : protocol_name conn = MQTT_PROTOCOL_NAME;
  wc_level : protocol_level conn = MQTT_PROTOCOL_LEVEL;
  wc_id : client_id conn <> ""%string \/ clean_session conn = true
}.

Lemma authenticated_passes w sid ip conn a' :
  credentials_accepted w conn a' ->
  Session.authenticated cfg env now sid ip conn w = (Ret true, put_auth a' w).
Proof.
  unfold Session.authenticated, credentials_accepted. intros [(-> & -> & ->)|(Hc & r & Ha & Hr)].
  - simpl. by destruct w.
  - assert (Hb : negb (String.eqb (username conn) "") || negb (String.eqb (password conn) "") = true).
    { destruct (String.eqb_spec (username conn) ""), (String.eqb_spec (password conn) ""); naive_solver. }
    rewrite Hb. unfold auth_call, mbind, M_bind. rewrite Ha. cbn [negb]. by rewrite Hr.
Qed.

(** The whole of an accepted CONNECT, as one state transformation. *)
Lemma handle_connect_after w sid s packet conn a' :
  sessions w !! sid = Some s -> connected_ s = false -> write_queue_ s = [] ->
  mutex (server_state w) = false -> 0 < max_write_queue_size cfg ->
  (parse_connect packet).1 = Ret conn -> well_formed_connect conn -> timeable conn ->
  not_banned w (remote_ip_ s) -> credentials_accepted w conn a' -> unclaimed w sid (client_id conn) ->
  let present := negb (bool_decide (resumed w conn = [])) in
  exists al, (forall x, al x = alive w x) /\
  Session.handle_connect cfg env now sid packet w =
    (Ret tt, mkWorld (alter (accepted_session conn present) sid (sessions w))
      (joined al sid (resumed w conn) (topic_tree w))
      (if clean_session conn then SubscriptionManager.remove_client (client_id conn) (sub_manager w) else sub_manager w)
      a' (delivery_engine w) (registered w sid (remote_ip_ s) (client_id conn)) (counters w) (server w) (ssl_ctx w)).
Proof using Hmax.
  intros Hs Hc Hq Hm Hpos Hp [Hn Hl Hi] Hka Hb Hcr Hu present. unfold Session.handle_connect.
  rewrite (this_bind_eq w sid s) by done. rewrite Hc. unfold try_parse. unfold mbind at 1, M_bind at 1. rewrite Hp.
  rewrite Hn, Hl. change (negb (String.eqb MQTT_PROTOCOL_NAME MQTT_PROTOCOL_NAME) || _) with false. cbv iota.
  assert (Hid : String.eqb (client_id conn) "" && negb (clean_session conn) = false).
  { destruct (String.eqb_spec (client_id conn) "") as [He|]; [|done]. destruct Hi as [|Hi]; [done|]. by rewrite Hi. }
  rewrite Hid.
  destruct (check_auth_rate_limit_passes w sid s Hs Hm Hb) as (st & Hr & Hmst & Hreg & Hac).
  unfold mbind at 1, M_bind at 1. rewrite Hr. cbn [negb]. set (w1 := put_server_state st w) in *.
  unfold mbind at 1, M_bind at 1. rewrite (authenticated_passes w1 sid _ conn a') by exact Hcr. cbn [negb].
  set (w2 := put_auth a' w1). unfold mbind, M_bind.
  assert (Hu2 : unclaimed w2 sid (client_id conn)) by (unfold unclaimed; simpl; by rewrite Hac).
  rewrite (register_client_after w2) by done.
  set (w3 := put_server_state _ w2).
  destruct (accept_connection_after w3 sid s conn) as (al & Hal & Hacc); try done.
  exists al. split; [exact Hal|]. rewrite Hacc.
  change (resumed w3 conn) with (resumed w conn). fold present. unfold w3, w2.
  change (registered (put_auth a' w1) sid (remote_ip_ s)) with (registered w1 sid (remote_ip_ s)).
  rewrite Hreg. unfold w1, put_sessions, put_topic_tree, put_sub_manager, put_server_state, put_auth.
  cbn [sessions topic_tree sub_manager auth delivery_engine server_state counters server ssl_ctx]. reflexivity.
Qed.

Lemma accepted_session_fields conn present s :
  writing_ s = false -> write_queue_ s = [] ->
  let s' := accepted_session conn present s in
  connected_ s' = true /\ client_id_ s' = client_id conn /\ username_ s' = username conn /\
  clean_session_ s' = clean_session conn /\ keepalive_ s' = Session.clamp_keepalive cfg (keepalive conn) /\
  (keepalive_ s' <> 0 -> keepalive_timer_ s' =
     Some (Timer.start (Session.keepalive_seconds cfg (keepalive_ s') * 1000) tt Timer.init)) /\
  outstream s' = outstream s ++ [PacketBuilder.build_connack present ACCEPTED].
Proof.
  intros Hw Hq. unfold accepted_session, timed, outstream, enqueue, pump. simpl. rewrite Hq, Hw. simpl.
  destruct (Z.eqb_spec (Session.clamp_keepalive cfg (keepalive conn)) 0) as [Hk|Hk]; simpl;
    rewrite !app_nil_r; by repeat split.
Qed.

(** [C9] An accepted CONNECT: from a session that is not connected and has nothing
    queued, while the server lock is free, a well-formed CONNECT from an address
    that is not banned, with accepted credentials, a client id no connected
    session uses and a keepalive that can be timed, registers the session under the
    client id, clears the failures of the address, sets the session's identity,
    its clamped keepalive and its timer, answers CONNACK with the session
    present flag exactly when a persistent client has stored subscriptions,
    puts the session into the tree under every one of them with a stored QoS,
    and forgets the subscriptions of a clean session.  Exactly these are
    restored: the session is subscribed to what it was subscribed to before and
    to the stored filters, each of its entries is an old one or has a stored QoS,
    and a filter that is not stored keeps its list.  No other session, and no other
    session's entry in the tree, changes. *)
Theorem connect_accepted w sid s packet conn a' :
  sessions w !! sid = Some s -> connected_ s = false -> writing_ s = false -> write_queue_ s = [] ->
  mutex (server_state w) = false -> 0 < max_write_queue_size cfg ->
  (parse_connect packet).1 = Ret conn -> well_formed_connect conn -> timeable conn ->
  not_banned w (remote_ip_ s) -> credentials_accepted w conn a' -> unclaimed w sid (client_id conn) ->
  let stored := SubscriptionManager.get_client_subs (client_id conn) (sub_manager w) in
  let present := negb (clean_session conn) && negb (bool_decide (stored = [])) in
  exists w' s', Session.handle_connect cfg env now sid packet w = (Ret tt, w') /\
    server_state w' = registered w sid (remote_ip_ s) (client_id conn) /\
    sessions w' = <[sid := s']> (sessions w) /\
    (connected_ s' = true /\ client_id_ s' = client_id conn /\ username_ s' = username conn /\
     clean_session_ s' = clean_session conn /\ keepalive_ s' = Session.clamp_keepalive cfg (keepalive conn) /\
     (keepalive_ s' <> 0 -> keepalive_timer_ s' =
        Some (Timer.start (Session.keepalive_seconds cfg (keepalive_ s') * 1000) tt Timer.init))) /\
    outstream s' = outstream s ++ [PacketBuilder.build_connack present ACCEPTED] /\
    (forall c g, stored_qos c g (sub_manager w') =
       if decide (clean_session conn = true /\ c = client_id conn) then None else stored_qos c g (sub_manager w)) /\
    (forall sub, clean_session conn = false -> sub ∈ stored ->
       exists e sub', e ∈ subs_at (topic.split (Subscription.topic_filter sub)) (root_ (topic_tree w')) /\
         TopicTree.lock (alive w) (entry_session e) = Some sid /\ sub' ∈ stored /\
         topic.split (Subscription.topic_filter sub') = topic.split (Subscription.topic_filter sub) /\
         entry_qos e = sub_qos sub') /\
    (forall gs e, TopicTree.lock (alive w) (entry_session e) <> Some sid ->
       e ∈ subs_at gs (root_ (topic_tree w')) <-> e ∈ subs_at gs (root_ (topic_tree w))) /\
    (forall gs, sid ∈ live_sessions (alive w) (subs_at gs (root_ (topic_tree w'))) <->
       sid ∈ live_sessions (alive w) (subs_at gs (root_ (topic_tree w))) \/
       (clean_session conn = false /\ exists sub, sub ∈ stored /\ gs = topic.split (Subscription.topic_filter sub))) /\
    (forall gs e, e ∈ subs_at gs (root_ (topic_tree w')) -> TopicTree.lock (alive w) (entry_session e) = Some sid ->
       e ∈ subs_at gs (root_ (topic_tree w)) \/
       exists sub, sub ∈ stored /\ gs = topic.split (Subscription.topic_filter sub) /\ entry_qos e = sub_qos sub) /\
    (forall gs, (forall sub, sub ∈ stored -> gs <> topic.split (Subscription.topic_filter sub)) ->
       subs_at gs (root_ (topic_tree w')) = subs_at gs (root_ (topic_tree w))) /\
    (clean_session conn = true -> topic_tree w' = topic_tree w).
Proof using Hmax.
  intros Hs Hc Hw Hq Hm Hpos Hp Hwf Hka Hb Hcr Hu stored present.
  destruct (handle_connect_after w sid s packet conn a' Hs Hc Hq Hm Hpos Hp Hwf Hka Hb Hcr Hu) as (al & Hal & Hh).
  assert (Hpr : negb (bool_decide (resumed w conn = [])) = present).
  { unfold present, resumed. by destruct (clean_session conn). }
  rewrite Hpr in Hh. eexists _, (accepted_session conn present s). split; [exact Hh|]. cbn [server_state sessions sub_manager topic_tree].
  destruct (accepted_session_fields conn present s Hw Hq) as (H1 & H2 & H3 & H4 & H5 & H6 & H7).
  assert (Hsid : al sid = true) by (rewrite Hal; unfold alive; apply bool_decide_eq_true; by exists s).
  split; [done|]. split; [by apply alter_as_insert|]. split; [done|]. split; [done|]. split; [|split; [|split; [|split; [|split; [|split]]]]].
  - intros c g. destruct (clean_session conn).
    + change (SubscriptionManager.remove_client (client_id conn) (sub_manager w)) with
        (sub_step (RemoveClient (client_id conn)) (sub_manager w)).
      rewrite stored_qos_step. cbn [spec_step]. repeat case_decide; naive_solver.
    + rewrite decide_False; [done|]. by intros [? _].
  - intros sub Hcl Hin. unfold resumed. rewrite Hcl.
    destruct (joined_self al sid stored (topic_tree w) sub Hsid Hin) as (e & sub' & He & Hl & Hrest).
    exists e, sub'. rewrite <- (lock_ext al (alive w)) by done. by split.
  - intros gs e He. apply joined_others; [done|]. by rewrite (lock_ext al (alive w)).
  - intros gs. rewrite !(live_sessions_ext (alive w) al) by (intros; by apply lock_ext). rewrite joined_live by done.
    unfold resumed. destruct (clean_session conn); [simpl; set_solver|]. rewrite list_elem_of_fmap. naive_solver.
  - intros gs e He Hl. rewrite (lock_ext (alive w) al) in Hl by done.
    destruct (joined_entries al sid _ _ gs e Hsid He Hl) as [?|(sub & Hin & ?)]; [by left|right]. exists sub.
    unfold resumed in Hin. destruct (clean_session conn); [by apply elem_of_nil in Hin|done].
  - intros gs Hgs. apply joined_elsewhere. intros sub Hin. apply Hgs. unfold resumed in Hin.
    destruct (clean_session conn); [by apply elem_of_nil in Hin|done].
  - intros Hcl. unfold resumed. by rewrite Hcl.
Qed.

End Connect.

(** ** The will *)

(** Two CONNECT packets that differ at most in their wills. *)
Record same_but_will (c1 c2 : ConnectPacket) : Prop := {
  sw_name : protocol_name c1 = protocol_name c2;
  sw_level : protocol_level c1 = protocol_level c2;
  sw_clean : clean_session c1 = clean_session c2;
  sw_user : username c1 = username c2;
  sw_pass : password c1 = password c2;
  sw_keepalive : keepalive c1 = keepalive c2;
  sw_id : client_id c1 = client_id c2
}.

(** The will is ignored: CONNECT packets that differ only in the will leave the
    broker in the same state, so no will is ever published, however the
    connection ends. *)
Theorem will_ignored {E A} `{Authenticator E A} cfg (env : E) now sid p1 p2 c1 c2 (w : World A) :
  (parse_connect p1).1 = Ret c1 -> (parse_connect p2).1 = Ret c2 -> same_but_will c1 c2 ->
  Session.handle_connect cfg env now sid p1 w = Session.handle_connect cfg env now sid p2 w.
Proof.
  intros H1 H2 [Hn Hl Hcl Hu Hp Hk Hi]. destruct c1, c2; simpl in *; subst.
  unfold Session.handle_connect. destruct (sessions w !! sid) as [s|] eqn:Hs.
  - rewrite !(this_bind_eq w sid s) by done. destruct (connected_ s); [done|].
    unfold try_parse, mbind, M_bind. by rewrite H1, H2.
  - unfold this, mbind, M_bind. by rewrite Hs.
Qed.

(** ** Concrete runs *)

Definition demo_unsubscribe_body : Buffer :=
  Buffer.of_bytes (unsubscribe_body (mkUnsubscribePacket 3 ["a/+"]%string)).

Lemma unsubscribe_served_witness :
  exists w', Session.handle_unsubscribe tiny_config 0 demo_unsubscribe_body demo_subscriber = (Ret tt, w') /\
    ~ (mkEntry (Some 0%nat) 1 ∈ subs_at ["a"; "+"]%string (root_ (topic_tree w'))).
Proof.
  destruct (demo_session demo_subscriber 0%nat connected_ true) as (s & Hs & Hc); [by vm_compute|].
  destruct (unsubscribe_served tiny_config ltac:(reflexivity) None Free demo_subscriber 0%nat s
    demo_unsubscribe_body (mkUnsubscribePacket 3 ["a/+"]%string)) as (w' & Hh & He & _).
  - exact demo_subscriber_wf.
  - exact Hs.
  - exact Hc.
  - vm_compute. reflexivity.
  - apply demo_room. apply Nat.leb_le. reflexivity.
  - exists w'. split; [exact Hh|]. intros [_ Hn]%He. apply Hn. split; [left|]. vm_compute. reflexivity.
Defined.

Definition demo_connect : ConnectPacket :=
  {| protocol_name := "MQTT"; protocol_level := 4; clean_session := true; will_flag := false; will_qos := 0;
     will_retain := false; will_topic := ""; will_message := ""; username := ""; password := "";
     keepalive := 10; client_id := "dev" |}.

Lemma connect_accepted_witness :
  exists w' s', Session.handle_connect (E := unit) tiny_config tt 0 0 (Buffer.of_bytes (connect_body demo_connect))
      demo_accepted = (Ret tt, w') /\
    sessions w' = <[0%nat := s']> (sessions demo_accepted) /\ connected_ s' = true.
Proof.
  destruct (demo_session demo_accepted 0%nat
    (fun s => (connected_ s, writing_ s, write_queue_ s)) (false, false, [])) as (s & Hs & Hx); [by vm_compute|].
  apply pair_equal_spec in Hx as [Hx Hq]. apply pair_equal_spec in Hx as [Hc Hw].
  destruct (connect_accepted (E := unit) tiny_config ltac:(reflexivity) tt 0 demo_accepted 0%nat s
    (Buffer.of_bytes (connect_body demo_connect)) demo_connect tt) as (w' & s' & Hh & _ & Hs' & (Hc' & _) & _).
  - exact Hs.
  - exact Hc.
  - exact Hw.
  - exact Hq.
  - vm_compute. reflexivity.
  - reflexivity.
  - vm_compute. reflexivity.
  - constructor; [reflexivity|reflexivity|left; discriminate].
  - vm_compute. reflexivity.
  - assert (Hb : auth_ban_until (server_state demo_accepted) = ∅) by (vm_compute; reflexivity).
    unfold not_banned. rewrite Hb, lookup_empty. exact I.
  - left. repeat split.
  - assert (Ha : active_clients (server_state demo_accepted) = ∅) by (vm_compute; reflexivity).
    intros old so. rewrite Ha, lookup_empty. discriminate.
  - exists w', s'. split; [exact Hh|]. split; [exact Hs'|exact Hc'].
Defined.
