(* ===== verification/Spec.v ===== *)
(** * The broker as a publish/subscribe machine

    An abstract specification of what the broker promises to its clients: who
    is connected, what each client is subscribed to, the subscriptions that
    are kept for client ids, the retained messages and one output stream per
    client, changed by the clients' actions; and what the broker does with
    each request that arrives as bytes on a socket.  The file [Refinement]
    shows that the broker implements the machine. *)

From Stdlib Require Import Strings.Byte Strings.String ZArith QArith.QArith_base Lia.
From stdpp Require Import base list strings numbers option gmap fin_maps sets.
From S2P Require Import Prelude Config Buffer Packet Parser Filter TopicTree Retained Subscription Auth Timer Qos Inflight Qos1 Qos2 Delivery World Session Closing Steady Server Safety Routing Release Wire Requests.

Open Scope Z_scope.

(** ** The machine *)

(** The requests of a client [x]: PUBLISH at QoS 0, SUBSCRIBE to one filter,
    UNSUBSCRIBE and PINGREQ. *)
Inductive request : Type :=
| Publish (x : session_id) (t : string) (pl : list byte) (r dp : bool)
| Subscribe (x : session_id) (pid : Z) (f : string) (q : Z)
| Unsubscribe (x : session_id) (pid : Z) (fs : list string)
| Pingreq (x : session_id).

Definition client_of (rq : request) : session_id :=
  match rq with Publish x _ _ _ _ | Subscribe x _ _ _ | Unsubscribe x _ _ | Pingreq x => x end.

(** The connected clients with their id and whether their session is a clean
    one, what each of them is subscribed to, the subscriptions kept for client
    ids, the retained messages, and what was sent to each client. *)
Record Machine : Type := mkMachine {
  m_clients : gmap session_id (string * bool);
  m_subs : gset (session_id * list string);
  m_stored : gset (string * string);
  m_retained : gmap (list string) RetainedMessage;
  m_out : gmap session_id (list Buffer)
}.

(** What a subscriber is sent for a publication, and for a retained message. *)
Definition publication (t : string) (pl : list byte) : Buffer :=
  PacketBuilder.build_publish t pl 0 false false 0.

Definition retained_publication (x : string * RetainedMessage) : Buffer :=
  PacketBuilder.build_publish x.1 (contents (retained_payload x.2)) (retained_qos x.2) true false 0.

(** How many of a client's filters match a topic. *)
Definition copies (m : Machine) (y : session_id) (t : string) : nat :=
  length (filter (fun gs => (y, gs) ∈ m_subs m) (candidates (topic.split t))).

Definition send (x : session_id) (ps : list Buffer) (out : gmap session_id (list Buffer))
  : gmap session_id (list Buffer) :=
  alter (fun l => l ++ ps) x out.

Definition after_publication (m : Machine) (t : string) (pl : list byte) : gmap session_id (list Buffer) :=
  map_imap (fun y l => Some (l ++ replicate (copies m y t) (publication t pl))) (m_out m).

(** The kept subscriptions after a client subscribes, and unsubscribes: those of
    clean sessions are not kept. *)
Definition kept_with (m : Machine) (x : session_id) (f : string) : gset (string * string) :=
  match m_clients m !! x with
  | Some (c, false) => {[(c, f)]} ∪ m_stored m
  | _ => m_stored m
  end.

Definition kept_without (m : Machine) (x : session_id) (fs : list string) : gset (string * string) :=
  match m_clients m !! x with
  | Some (c, false) => filter (fun p => ~ (p.1 = c /\ p.2 ∈ fs)) (m_stored m)
  | _ => m_stored m
  end.

(** The retained messages after a publication. *)
Definition retaining_map (cfg : Config) (t : string) (pl : list byte) (r : bool)
    (m : gmap (list string) RetainedMessage) : gmap (list string) RetainedMessage :=
  if r then (map_set_retained cfg (topic.split t)
               (Session.retained_of (published_as t pl 0 r false 0)) m).2
  else m.

(** One request, and whether the broker admits it.  The order in which retained
    messages are sent is not specified. *)
Inductive machine_step (cfg : Config) : Machine -> request -> bool -> Machine -> Prop :=
| step_publish m x t pl r dp :
    machine_step cfg m (Publish x t pl r dp) true
      (mkMachine (m_clients m) (m_subs m) (m_stored m) (retaining_map cfg t pl r (m_retained m)) (after_publication m t pl))
| step_dropped m x t pl r dp : machine_step cfg m (Publish x t pl r dp) false m
| step_subscribe m x pid f q l :
    (forall p r, (p, r) ∈ l <->
       (exists segs, m_retained m !! segs = Some r /\ p = join segs) /\ topic.matches p f = true) ->
    machine_step cfg m (Subscribe x pid f q) true
      (mkMachine (m_clients m) ({[(x, topic.split f)]} ∪ m_subs m) (kept_with m x f) (m_retained m)
         (send x ((retained_publication <$> l) ++ [PacketBuilder.build_suback pid [suback_code_of q]]) (m_out m)))
| step_refused m x pid f q :
    machine_step cfg m (Subscribe x pid f q) false
      (mkMachine (m_clients m) (m_subs m) (m_stored m) (m_retained m) (send x [PacketBuilder.build_suback pid [FAILURE]] (m_out m)))
| step_unsubscribe m x pid fs :
    machine_step cfg m (Unsubscribe x pid fs) true
      (mkMachine (m_clients m) (filter (fun p => ~ (p.1 = x /\ p.2 ∈ topic.split <$> fs)) (m_subs m))
         (kept_without m x fs) (m_retained m)
         (send x [PacketBuilder.build_unsuback pid] (m_out m)))
| step_ping m x :
    machine_step cfg m (Pingreq x) true
      (mkMachine (m_clients m) (m_subs m) (m_stored m) (m_retained m) (send x [PacketBuilder.build_pingresp] (m_out m))).

(** ** Clients that come and go *)

Inductive action : Type :=
| Ask (rq : request) (ok : bool)
| Connect (x : session_id) (conn : ConnectPacket)
| Disconnect (x : session_id)
| Lost (x : session_id).

(** What a client that connects gets back. *)
Definition resumed_filters (m : Machine) (conn : ConnectPacket) : gset (string * string) :=
  if clean_session conn then ∅ else filter (fun p => p.1 = client_id conn) (m_stored m).

Definition after_connect (m : Machine) (x : session_id) (conn : ConnectPacket) : Machine :=
  mkMachine (<[x := (client_id conn, clean_session conn)]> (m_clients m))
    (set_map (fun p => (x, topic.split p.2)) (resumed_filters m conn) ∪ m_subs m)
    (if clean_session conn then filter (fun p => p.1 <> client_id conn) (m_stored m) else m_stored m)
    (m_retained m)
    (<[x := [PacketBuilder.build_connack (negb (bool_decide (resumed_filters m conn = ∅))) ACCEPTED]]> (m_out m)).

Definition after_leave (m : Machine) (x : session_id) (stored : gset (string * string)) : Machine :=
  mkMachine (delete x (m_clients m)) (filter (fun p => p.1 <> x) (m_subs m)) stored (m_retained m)
    (delete x (m_out m)).

(** A lost connection ends a clean session. *)
Definition kept_after_loss (m : Machine) (x : session_id) : gset (string * string) :=
  match m_clients m !! x with
  | Some (c, true) => if String.eqb c "" then m_stored m else filter (fun p => p.1 <> c) (m_stored m)
  | _ => m_stored m
  end.

Inductive machine_action (cfg : Config) : Machine -> action -> Machine -> Prop :=
| action_ask m rq ok m' : machine_step cfg m rq ok m' -> machine_action cfg m (Ask rq ok) m'
| action_connect m x conn : machine_action cfg m (Connect x conn) (after_connect m x conn)
| action_disconnect m x : machine_action cfg m (Disconnect x) (after_leave m x (m_stored m))
| action_lost m x : machine_action cfg m (Lost x) (after_leave m x (kept_after_loss m x)).

(** Runs of the machine. *)
Inductive machine_run (cfg : Config) : Machine -> list action -> Machine -> Prop :=
| mrun_nil m : machine_run cfg m [] m
| mrun_step m a m1 l m2 : machine_action cfg m a m1 -> machine_run cfg m1 l m2 -> machine_run cfg m (a :: l) m2.

Definition empty_machine : Machine := mkMachine ∅ ∅ ∅ ∅ ∅.

(** ** Requests as bytes *)

Definition connect_bytes (conn : ConnectPacket) : list byte := frame 0x10 (connect_body conn).
Definition disconnect_bytes : list byte := frame 0xE0 [].

Definition subscribe_packet (pid : Z) (f : string) (q : Z) : SubscribePacket :=
  mkSubscribePacket pid [mkSubscribeFilter f q].

Definition request_bytes (rq : request) : list byte :=
  match rq with
  | Publish _ t pl r dp => publish_frame t pl 0 r dp 0
  | Subscribe _ pid f q => frame 0x82 (subscribe_body (subscribe_packet pid f q))
  | Unsubscribe _ pid fs => frame 0xA2 (unsubscribe_body (mkUnsubscribePacket pid fs))
  | Pingreq _ => frame 0xC0 []
  end.

(** The fields fit their encoding. *)
Definition encodable (cfg : Config) (rq : request) : Prop :=
  match rq with
  | Publish _ t pl _ _ => publish_fits cfg t pl 0 0
  | Subscribe _ pid f q =>
      0 <= pid < 65536 /\ Z.of_nat (String.length f) < 65536 /\ 0 <= q <= 3 /\
      Z.of_nat (length (subscribe_body (subscribe_packet pid f q))) <= u32 (max_packet_size cfg)
  | Unsubscribe _ pid fs =>
      0 <= pid < 65536 /\ Forall (fun f => Z.of_nat (String.length f) < 65536) fs /\
      Z.of_nat (length (unsubscribe_body (mkUnsubscribePacket pid fs))) < 2 ^ 28 /\
      Z.of_nat (length (unsubscribe_body (mkUnsubscribePacket pid fs))) <= u32 (max_packet_size cfg)
  | Pingreq _ => True
  end.

Lemma length_subscribe_body pid f q :
  length (subscribe_body (subscribe_packet pid f q)) = (5 + String.length f)%nat.
Proof.
  unfold subscribe_body, subscribe_packet. cbn [flat_map filters sub_packet_id]. unfold filter_field.
  cbn [Packet.topic_filter requested_qos]. rewrite app_nil_r, !length_app, length_string_field. simpl. lia.
Qed.

Lemma request_valid_frame cfg rq : encodable cfg rq -> valid_frame cfg (request_bytes rq).
Proof.
  assert (Hu : 0 <= u32 (max_packet_size cfg)) by (apply Z.mod_pos_bound; lia).
  destruct rq as [x t pl r dp|x pid f q|x pid fs|x]; simpl.
  - apply publish_frame_valid.
  - intros (_ & Hf & _ & Hl). exists 0x82, (subscribe_body (subscribe_packet pid f q)).
    split; [done|]. split; [lia|]. split; [|done]. rewrite length_subscribe_body. lia.
  - intros (_ & _ & H28 & Hl). eexists 0xA2, _. split; [done|]. split; [lia|]. done.
  - intros _. exists 0xC0, []. simpl. repeat split; lia.
Qed.

(** ** Trees under views that agree

    The tree operations only ask which sessions are alive. *)

#[global] Instance add_subscriber_proper :
  Proper (pointwise_relation _ eq ==> eq ==> eq ==> eq) TopicTree.add_subscriber.
Proof.
  intros al1 al2 Ha e ? <- l ? <-. induction l as [|x l IH]; [done|]. cbn [TopicTree.add_subscriber].
  unfold TopicTree.same_session. rewrite !(lock_ext al1 al2) by exact Ha. by rewrite IH.
Qed.

#[global] Instance subscribe_at_proper :
  Proper (pointwise_relation _ eq ==> eq ==> eq ==> eq ==> eq) TopicTree.subscribe_at.
Proof.
  intros al1 al2 Ha e ? <- fs ? <- node ? <-. revert node. induction fs as [|f fs IH]; intros node;
    cbn [TopicTree.subscribe_at].
  - by rewrite (add_subscriber_proper al1 al2 Ha e e eq_refl _ _ eq_refl).
  - by rewrite !IH.
Qed.

#[global] Instance unsubscribe_at_proper :
  Proper (pointwise_relation _ eq ==> eq ==> eq ==> eq ==> eq) TopicTree.unsubscribe_at.
Proof.
  intros al1 al2 Ha o ? <- fs ? <- node ? <-. revert node. induction fs as [|f fs IH]; intros node;
    cbn [TopicTree.unsubscribe_at].
  - unfold TopicTree.remove_subscriber. f_equal. apply list_filter_iff. intros e. by rewrite (lock_ext al1 al2).
  - destruct (multi_wild node), (single_wild node), (children node !! f); by rewrite ?IH.
Qed.

#[global] Instance departed_proper :
  Proper (pointwise_relation _ eq ==> eq ==> eq ==> eq ==> eq) departed.
Proof.
  intros al1 al2 Ha x ? <- fs ? <- t ? <-. revert t. unfold departed. induction fs as [|f fs IH]; intros t; [done|].
  simpl. unfold TopicTree.unsubscribe at 2 4.
  by rewrite (unsubscribe_at_proper al1 al2 Ha _ _ eq_refl _ _ eq_refl _ _ eq_refl), IH.
Qed.

Lemma alive_alter {A} (w : World A) g sid : pointwise_relation _ eq (alive (put_sessions (alter g sid (sessions w)) w)) (alive w).
Proof. intros x. unfold alive. simpl. apply bool_decide_ext. by rewrite <- !elem_of_dom, dom_alter_L. Qed.

(** ** What the broker does with a request *)

Section Requests.

Context {E A : Type} `{Authenticator E A} (cfg : Config) (Hmax : max_write_queue_size cfg < 2 ^ 31)
  (env : E) (now : Z).
Abbreviation W := (World A).
Implicit Types (w : W) (s : Session).

(** Whether the broker admits the request: its topic or filter is valid, the
    ACL allows it, and a persistent session is below its limit. *)
Definition decided w s (rq : request) (ok : bool) : Prop :=
  match rq with
  | Publish _ t _ _ _ =>
      exists acc a', check_acl env (username_ s) t Access.WRITE (auth w) = (Ret acc, a') /\
        ok = negb (acc =? Access.NONE) && topic.is_valid_topic cfg t
  | Subscribe _ _ f _ =>
      (topic.is_valid_filter cfg f = false /\ ok = false) \/
      (topic.is_valid_filter cfg f = true /\
       exists acc a', check_acl env (username_ s) f Access.READ (auth w) = (Ret acc, a') /\
         ok = negb (acc =? Access.NONE) &&
              (clean_session_ s ||
               (i32 (Z.of_nat (length (SubscriptionManager.get_client_subs (client_id_ s) (sub_manager w)))) <?
                  max_subscriptions_per_client cfg)))
  | _ => ok = true
  end.

(** The tree and the stored subscriptions it leaves, and the packets it sends. *)
Definition new_tree w (rq : request) (ok : bool) : TopicTree :=
  match rq, ok with
  | Publish _ t pl r dp, true => retaining cfg (published_as t pl 0 r dp 0) (topic_tree w)
  | Subscribe x _ f q, true => granted_tree w x (mkSubscribeFilter f q)
  | Unsubscribe x _ fs, true => departed (alive w) x fs (topic_tree w)
  | _, _ => topic_tree w
  end.

Definition new_store w s (rq : request) (ok : bool) : SubscriptionManager :=
  match rq, ok with
  | Subscribe x _ f q, true => granted_store w s (mkSubscribeFilter f q)
  | Unsubscribe x _ fs, true => forgotten (clean_session_ s) (client_id_ s) fs (sub_manager w)
  | _, _ => sub_manager w
  end.

Definition outgoing w (rq : request) (ok : bool) : list delivery :=
  match rq, ok with
  | Publish x t pl r dp, true => Qos0Handler.deliver (view_of w) (new_tree w rq ok) (published_as t pl 0 r dp 0)
  | Publish _ _ _ _ _, false => []
  | Subscribe x pid f q, true =>
      (fun p => (x, p)) <$> retained_for f (new_tree w rq ok) ++ [PacketBuilder.build_suback pid [suback_code_of q]]
  | Subscribe x pid _ _, false => [(x, PacketBuilder.build_suback pid [FAILURE])]
  | Unsubscribe x pid _, _ => [(x, PacketBuilder.build_unsuback pid)]
  | Pingreq x, _ => [(x, PacketBuilder.build_pingresp)]
  end.

Lemma publish_dropped_after w sid s packet hdr pub acc a' :
  sessions w !! sid = Some s -> connected_ s = true -> (parse_publish hdr packet).1 = Ret pub ->
  check_acl env (username_ s) (topic pub) Access.WRITE (auth w) = (Ret acc, a') ->
  negb (acc =? Access.NONE) && topic.is_valid_topic cfg (topic pub) = false ->
  exists w', Session.handle_publish cfg env sid packet hdr w = (Ret tt, w') /\
    sessions w' = sessions w /\ topic_tree w' = topic_tree w /\ sub_manager w' = sub_manager w.
Proof.
  intros Hs Hc Hp Ha Hv. unfold Session.handle_publish.
  rewrite (this_bind_eq w sid s) by done. rewrite Hc. cbn [negb].
  unfold try_parse, auth_call, mbind, M_bind. rewrite Hp, Ha.
  destruct (acc =? Access.NONE); [by eexists|]. cbn [negb andb] in Hv. rewrite Hv. by eexists.
Qed.

Lemma subscribe_refused_after w sid s f q :
  decided w s (Subscribe sid 0 f q) false ->
  exists w', Session.subscribe_filter cfg env sid s (mkSubscribeFilter f q) w = (Ret FAILURE, w') /\
    sessions w' = sessions w /\ topic_tree w' = topic_tree w /\ sub_manager w' = sub_manager w.
Proof.
  unfold Session.subscribe_filter. cbn [Packet.topic_filter]. intros [[Hv _]|(Hv & acc & a' & Ha & Hd)]; rewrite Hv; cbn [negb].
  - by eexists.
  - unfold auth_call, mbind at 1, M_bind at 1. rewrite Ha.
    destruct (acc =? Access.NONE); [by eexists|]. cbn [negb andb] in Hd.
    unfold get, mbind, M_bind. change (sub_manager (put_auth a' w)) with (sub_manager w).
    destruct (clean_session_ s); [done|]. cbn [orb negb andb] in *. rewrite Z.ltb_antisym in Hd.
    destruct (max_subscriptions_per_client cfg <=? _); [by eexists|done].
Qed.

(** In any state: the handler of the request runs, changes the tree as
    specified and queues the packets. *)
Definition handled w s (x : session_id) (rq : request) (ok : bool) : Prop :=
  exists w1, Session.handle_packet cfg env now x (Buffer.of_bytes (request_bytes rq)) w = (Ret tt, w1) /\
    sessions w1 = after (outgoing w rq ok) (sessions w) /\ topic_tree w1 = new_tree w rq ok /\
    sub_manager w1 = new_store w s rq ok.

Lemma publish_handled w x s t pl r dp ok :
  let rq := Publish x t pl r dp in
  sessions w !! x = Some s -> connected_ s = true -> encodable cfg rq -> decided w s rq ok ->
  room_for cfg (sessions w) (outgoing w rq ok) -> handled w s x rq ok.
Proof using Hmax.
  intros rq Hs Hc He (acc & a' & Ha & ->) Hr. subst rq. unfold handled. cbn [request_bytes].
  destruct (handle_publish_frame cfg env now w x t pl 0 r dp 0 He) as (packet & hdr & Hp & ->).
  destruct (negb (acc =? Access.NONE) && topic.is_valid_topic cfg t) eqn:Hok.
  - apply andb_prop in Hok as [Hn Hv]. tests_to_props.
    destruct (handle_publish_after cfg Hmax env w x s packet hdr (published_as t pl 0 r dp 0) acc a'
      (delivery_engine w) (outgoing w (Publish x t pl r dp) true)) as (w' & Hh & Ht & _ & Hs' & Hm); try done.
    exists w'. by rewrite Hh.
  - destruct (publish_dropped_after w x s packet hdr _ acc a' Hs Hc Hp Ha Hok) as (w' & Hh & Hs' & Ht & Hm).
    exists w'. rewrite Hh. split; [done|]. simpl. by rewrite after_nil.
Qed.

Lemma mask_qos_small f q : 0 <= q <= 3 -> mask_qos (mkSubscribeFilter f q) = mkSubscribeFilter f q.
Proof.
  intros Hq. unfold mask_qos. simpl. f_equal.
  by assert (q = 0 \/ q = 1 \/ q = 2 \/ q = 3) as [-> | [-> | [-> | ->]]] by lia.
Qed.

Lemma subscribe_handled w x s pid f q ok :
  let rq := Subscribe x pid f q in
  sessions w !! x = Some s -> connected_ s = true -> encodable cfg rq -> decided w s rq ok ->
  room_for cfg (sessions w) (outgoing w rq ok) -> handled w s x rq ok.
Proof using Hmax.
  intros rq Hs Hc (Hpid & Hf & Hq & Hl) Hd Hr. subst rq. unfold handled. cbn [request_bytes].
  destruct (handle_packet_frame cfg env now x 0x82 (subscribe_body (subscribe_packet pid f q)) w)
    as (packet & Hwf & Hu & ->); [lia|rewrite length_subscribe_body; lia|].
  change (Session.dispatch cfg env now x (frame_header 0x82 _) packet w) with
    (Session.handle_subscribe cfg env x packet w).
  destruct (parse_subscribe_body packet (subscribe_packet pid f q) Hwf Hu) as (b' & Hp & _); [done| |].
  { repeat constructor; simpl; lia. }
  cbn [filters subscribe_packet map sub_packet_id] in Hp. rewrite mask_qos_small in Hp by done.
  unfold Session.handle_subscribe. rewrite (this_bind_eq w x s) by done. rewrite Hc. cbn [negb].
  unfold try_parse. unfold mbind at 1, M_bind at 1. rewrite Hp. cbn [fst filters Session.subscribe_filters].
  unfold mbind, M_bind. destruct ok.
  - destruct Hd as [[_ ?]|(Hv & acc & a' & Ha & Hd)]; [done|]. symmetry in Hd.
    apply andb_prop in Hd as [Hn Hlim]. apply negb_true_iff, Z.eqb_neq in Hn.
    set (out := (fun p => (x, p)) <$> retained_for f (granted_tree w x (mkSubscribeFilter f q))).
    set (suback := PacketBuilder.build_suback pid [suback_code_of q]).
    assert (Ho : outgoing w (Subscribe x pid f q) true = out ++ [(x, suback)]).
    { simpl. by rewrite fmap_app. }
    rewrite Ho in Hr |- *.
    destruct (subscribe_filter_after cfg Hmax env w x s (mkSubscribeFilter f q) acc a' Hs Hv Ha)
      as (w1 & Hsf & Hs1 & Ht1 & Hm1).
    + done.
    + destruct (clean_session_ s); [by left|]. right. by apply Z.ltb_lt.
    + intros y sy Hy Hcy. specialize (Hr y sy Hy Hcy). rewrite packets_for_app, length_app in Hr. simpl in *. fold out. lia.
    + rewrite Hsf. cbn [mret M_ret]. rewrite (deliver_after cfg Hmax).
      * eexists. split; [reflexivity|]. simpl. rewrite Hs1. simpl. fold out. by rewrite after_app.
      * rewrite Hs1, lookup_after, Hs. by eexists.
      * rewrite Hs1. by apply room_for_app.
  - destruct (subscribe_refused_after w x s f q Hd) as (w1 & Hsf & Hs1 & Ht1 & Hm1).
    rewrite Hsf. cbn [mret M_ret]. rewrite (deliver_after cfg Hmax); rewrite ?Hs1; [|by exists s|done].
    eexists. split; [reflexivity|]. by split.
Qed.

Lemma request_handled w x s rq ok :
  client_of rq = x -> sessions w !! x = Some s -> connected_ s = true -> encodable cfg rq ->
  decided w s rq ok -> room_for cfg (sessions w) (outgoing w rq ok) -> handled w s x rq ok.
Proof using Hmax.
  intros Hx Hs Hc He Hd Hr. destruct rq as [y t pl r dp|y pid f q|y pid fs|y]; simpl in Hx; subst y.
  - by apply (publish_handled w x s).
  - by apply (subscribe_handled w x s).
  - simpl in Hd. subst ok. destruct He as (Hpid & Hf & H28 & Hl). unfold handled. cbn [request_bytes].
    destruct (handle_packet_frame cfg env now x 0xA2 (unsubscribe_body (mkUnsubscribePacket pid fs)) w)
      as (packet & Hwf & Hu & ->); [lia|done|].
    change (Session.dispatch cfg env now x (frame_header 0xA2 _) packet w) with
      (Session.handle_unsubscribe cfg x packet w).
    destruct (parse_unsubscribe_body packet _ Hwf Hu) as (b' & Hp & _); [done|done|].
    destruct (handle_unsubscribe_after cfg Hmax w x s packet _ Hs Hc (f_equal fst Hp)) as (w' & Hh & Hs' & Ht & Hm & _); [done|].
    exists w'. by rewrite Hh.
  - simpl in Hd. subst ok. unfold handled. cbn [request_bytes].
    destruct (handle_packet_frame cfg env now x 0xC0 [] w) as (packet & _ & _ & ->); [lia|simpl; lia|].
    change (Session.dispatch cfg env now x (frame_header 0xC0 _) packet w) with (Session.handle_pingreq cfg x w).
    rewrite (handle_pingreq_after cfg Hmax w x s Hs Hc Hr). by eexists.
Qed.

(** A session's reading side plays no role. *)
Lemma new_tree_alter w g y rq ok :
  new_tree (put_sessions (alter g y (sessions w)) w) rq ok = new_tree w rq ok.
Proof.
  pose proof (alive_alter w g y) as Ha.
  destruct rq as [x t pl r dp|x pid f q|x pid fs|x], ok; simpl; try done.
  - unfold granted_tree, TopicTree.subscribe. simpl.
    by rewrite (subscribe_at_proper _ _ Ha _ _ eq_refl _ _ eq_refl _ _ eq_refl).
  - by apply departed_proper.
Qed.

Lemma outgoing_alter w g y rq ok :
  same_output g -> outgoing (put_sessions (alter g y (sessions w)) w) rq ok = outgoing w rq ok.
Proof.
  intros Hg. unfold outgoing. rewrite new_tree_alter.
  destruct rq as [x t pl r dp|x pid f q|x pid fs|x], ok; try done.
  rewrite !qos0_deliver_live. by rewrite (live_proper _ _ (view_alter w g y Hg) _ _ eq_refl).
Qed.

(** One request as one read. *)
Lemma request_read w x s rq ok :
  client_of rq = x -> world_wf cfg None Free w -> sessions w !! x = Some s -> waiting_session s ->
  encodable cfg rq -> frame_fits cfg s (request_bytes rq) -> decided w s rq ok ->
  room_for cfg (sessions w) (outgoing w rq ok) ->
  exists w', exec cfg env now (Read x false (request_bytes rq)) w = (Ret tt, w') /\
    topic_tree w' = new_tree w rq ok /\ sub_manager w' = new_store w s rq ok /\
    read_outcome w x (outgoing w rq ok) w'.
Proof using Hmax.
  intros Hx Hw Hs Hwt He Hff Hd Hr. set (f := request_bytes rq) in *.
  pose proof (same_output_framed cfg f) as Hg. set (g := fun s => _) in Hg.
  destruct (request_handled (framed cfg x f w) x (g s) rq ok Hx) as (w1 & Hh & Hs1 & Ht1 & Hm1).
  - apply (updated w x s _ Hs).
  - apply Hwt.
  - done.
  - exact Hd.
  - unfold framed. rewrite outgoing_alter by done. by apply room_for_alter.
  - unfold framed in Hs1, Ht1. rewrite outgoing_alter in Hs1 by done. rewrite new_tree_alter in Ht1.
    destruct (wire_after cfg env now w x s f _ w1 Hw Hs Hwt Hff Hh Hs1) as (m & Hex & Ho).
    eexists. split; [exact Hex|]. by split.
Qed.

End Requests.

(** ** Counting entries *)

Lemma entries_for_app x l1 l2 : entries_for x (l1 ++ l2) = (entries_for x l1 + entries_for x l2)%nat.
Proof. unfold entries_for. by rewrite filter_app, length_app. Qed.

Lemma lock_alive_eq al o x : al x = true -> TopicTree.lock al o = Some x <-> o = Some x.
Proof.
  intros Hx. destruct o as [y|]; simpl; [|done]. destruct (al y) eqn:Hy; [done|].
  split; [done|]. intros [= ->]. congruence.
Qed.

(** A live session has one entry under a filter it is subscribed to. *)
Lemma entries_for_once al x l :
  al x = true -> NoDup (live_sessions al l) ->
  entries_for x l = if decide (x ∈ live_sessions al l) then 1%nat else 0%nat.
Proof.
  intros Hx. induction l as [|e l IH]; [done|]. rewrite live_sessions_cons.
  unfold entries_for in *. rewrite filter_cons. intros Hnd.
  pose proof (lock_alive_eq al (entry_session e) x Hx) as Hl.
  destruct (decide (entry_session e = Some x)) as [He|He].
  - rewrite (proj2 Hl He) in Hnd |- *. apply NoDup_cons in Hnd as [Hni Hnd]. simpl.
    rewrite (IH Hnd), decide_False by done. rewrite decide_True; [done|by left].
  - destruct (TopicTree.lock al (entry_session e)) as [y|] eqn:Ey; [|by apply IH].
    apply NoDup_cons in Hnd as [Hni Hnd]. rewrite (IH Hnd).
    assert (x <> y) by (intros ->; apply He, Hl; done). repeat case_decide; set_solver.
Qed.

Lemma live_sessions_elem al l x :
  x ∈ live_sessions al l <-> exists e, e ∈ l /\ TopicTree.lock al (entry_session e) = Some x.
Proof. unfold live_sessions. apply list_elem_of_omap. Qed.

#[global] Instance live_sessions_proper :
  Proper (pointwise_relation _ eq ==> eq ==> eq) live_sessions.
Proof.
  intros al1 al2 Ha l ? <-. induction l as [|e l IH]; [done|].
  rewrite !live_sessions_cons, IH. by rewrite (lock_ext al1 al2).
Qed.

(** Trees with the same entries are looked up alike. *)
Lemma lookup_same_subs cfg t tr1 tr2 :
  topic.is_valid_topic cfg t = true -> (forall gs, subs_at gs (root_ tr1) = subs_at gs (root_ tr2)) ->
  TopicTree.lookup t tr1 = TopicTree.lookup t tr2.
Proof.
  intros Hv%valid_topic_plain Hs. rewrite !lookup_lookup_rec, !lookup_rec_candidates by done.
  induction (candidates (topic.split t)) as [|gs cs IH]; [done|]. cbn [flat_map]. by rewrite Hs, IH.
Qed.
