(* ===== verification/Refinement.v ===== *)
(** * The broker refines the publish/subscribe machine

    Whatever clients connect, subscribe, publish and leave, and however the
    completions of accepts, handshakes and writes interleave with what they
    send, the broker's output streams, tree and stored subscriptions are those
    of the machine of [Spec], from start-up on.  Properties of the machine
    then hold of the broker. *)

From Stdlib Require Import Strings.Byte Strings.String ZArith QArith.QArith_base Lia.
From stdpp Require Import base list strings numbers option gmap fin_maps sets.
From S2P Require Import Prelude Config Buffer Packet Parser Filter TopicTree Retained Subscription Auth Timer Qos Inflight Qos1 Qos2 Delivery World Session Closing Steady Server Safety Routing Release Wire Requests Spec.

Open Scope Z_scope.

(** ** Sessions that have entries in a tree *)

Definition entered (t : TopicTree) (x : session_id) : Prop :=
  exists gs e, e ∈ subs_at gs (root_ t) /\ entry_session e = Some x.

Lemma add_subscriber_session al x q l e :
  e ∈ TopicTree.add_subscriber al (mkEntry (Some x) q) l ->
  entry_session e = Some x \/ exists e', e' ∈ l /\ entry_session e' = entry_session e.
Proof.
  induction l as [|e0 l IH]; cbn [TopicTree.add_subscriber]; [intros ->%list_elem_of_singleton; by left|].
  case_match; intros [->|He]%elem_of_cons.
  - right. exists e0. split; [by left|done].
  - right. exists e. split; [by right|done].
  - right. exists e0. split; [by left|done].
  - destruct (IH He) as [?|(e' & He' & Hs)]; [by left|]. right. exists e'. split; [by right|done].
Qed.

Lemma entered_subscribe al f x q t y :
  entered (TopicTree.subscribe al f (mkEntry (Some x) q) t) y -> y = x \/ entered t y.
Proof.
  intros (gs & e & He & Hs). unfold TopicTree.subscribe in He. simpl in He. rewrite subs_at_subscribe in He.
  case_decide; [subst gs|right; by exists gs, e].
  destruct (add_subscriber_session _ _ _ _ _ He) as [Hx|(e' & He' & Hs')]; [left; congruence|].
  right. exists (topic.split f), e'. split; [done|congruence].
Qed.

Lemma entered_joined al x l : forall t y, entered (joined al x l t) y -> y = x \/ entered t y.
Proof.
  induction l as [|sub l IH]; intros t y; [by right|]. intros [?|He]%IH; [by left|]. by apply entered_subscribe in He.
Qed.

Lemma entered_departed al x fs t y : entered (departed al x fs t) y -> entered t y.
Proof. intros (gs & e & [He _]%departed_elem & Hs). by exists gs, e. Qed.

(** ** The tree after a session joins *)

Lemma subscribe_once al f x q t : al x = true ->
  (forall gs, NoDup (live_sessions al (subs_at gs (root_ t)))) ->
  forall gs, NoDup (live_sessions al (subs_at gs (root_ (TopicTree.subscribe al f (mkEntry (Some x) q) t)))).
Proof.
  intros Hx Hn gs. unfold TopicTree.subscribe. simpl. rewrite subs_at_subscribe.
  case_decide; [subst gs|apply Hn]. rewrite live_sessions_add by done.
  case_decide; [apply Hn|]. apply NoDup_app. split; [apply Hn|]. split; [set_solver|apply NoDup_singleton].
Qed.

Lemma joined_once al x l : forall t, al x = true ->
  (forall gs, NoDup (live_sessions al (subs_at gs (root_ t)))) ->
  forall gs, NoDup (live_sessions al (subs_at gs (root_ (joined al x l t)))).
Proof.
  induction l as [|sub l IH]; intros t Hx Hn; [done|]. by apply IH; [|apply subscribe_once].
Qed.

Lemma departed_once al x fs : forall t,
  (forall gs, NoDup (live_sessions al (subs_at gs (root_ t)))) ->
  forall gs, NoDup (live_sessions al (subs_at gs (root_ (departed al x fs t)))).
Proof.
  induction fs as [|f fs IH]; intros t Ht gs; [done|].
  change (departed al x (f :: fs) t) with (departed al x fs (TopicTree.unsubscribe al f (Some x) t)).
  apply IH. intros gs'. unfold TopicTree.unsubscribe. simpl. rewrite subs_at_unsubscribe. case_decide; [subst|done].
  eapply sublist_NoDup; [apply Ht|apply live_sessions_remove].
Qed.

Lemma departed_live al x fs t y gs :
  y ∈ live_sessions al (subs_at gs (root_ (departed al x fs t))) <->
  y ∈ live_sessions al (subs_at gs (root_ t)) /\ ~ (y = x /\ gs ∈ topic.split <$> fs).
Proof.
  rewrite !live_sessions_elem. setoid_rewrite departed_elem. split.
  - intros (e & [He Hn] & Hl). split; [by exists e|]. intros [-> Hg]. apply Hn. by split.
  - intros [(e & He & Hl) Hn]. exists e. split; [|done]. split; [done|]. intros [Hg Hx]. apply Hn. split; [congruence|done].
Qed.

Lemma departed_reachable cfg al x fs : forall t r,
  tree_reachable cfg t r -> tree_reachable cfg (departed al x fs t) r.
Proof. induction fs as [|f fs IH]; intros t r Ht; [done|]. simpl. by apply IH, tr_unsubscribe. Qed.

Lemma joined_reachable cfg al x l : forall t r,
  tree_reachable cfg t r -> tree_reachable cfg (joined al x l t) r.
Proof. induction l as [|sub l IH]; intros t r Ht; [done|]. simpl. by apply IH, tr_subscribe. Qed.

#[global] Instance joined_proper :
  Proper (pointwise_relation _ eq ==> eq ==> eq ==> eq ==> eq) joined.
Proof.
  intros al1 al2 Ha x ? <- l ? <- t ? <-. revert t. unfold joined. induction l as [|sub l IH]; intros t; [done|].
  simpl. unfold TopicTree.subscribe at 2 4.
  by rewrite (subscribe_at_proper al1 al2 Ha _ _ eq_refl _ _ eq_refl _ _ eq_refl), IH.
Qed.

(** ** The stored subscriptions *)

Definition stores (s : gset (string * string)) (sm : SubscriptionManager) : Prop :=
  forall c f, (c, f) ∈ s <-> is_Some (stored_qos c f sm).

Lemma stored_elem c f sm :
  is_Some (stored_qos c f sm) <->
  exists sub, sub ∈ SubscriptionManager.get_client_subs c sm /\ Subscription.topic_filter sub = f.
Proof.
  rewrite stored_qos_find. induction (SubscriptionManager.get_client_subs c sm) as [|sub l IH]; simpl.
  { split; [by intros [? ?]|]. intros (sub & Hin & _). by apply elem_of_nil in Hin. }
  setoid_rewrite elem_of_cons. case_decide as He.
  - split; [|by eauto]. intros _. exists sub. by split; [left|].
  - rewrite IH. split; [naive_solver|]. intros (sub' & [->|Hin] & Hf); [done|]. by exists sub'.
Qed.

Lemma stores_granted s sm c f q :
  stores s sm -> stores ({[(c, f)]} ∪ s) (SubscriptionManager.add c f q sm).
Proof.
  intros Hs c' f'. rewrite (stored_qos_step (Subscription.Add c f q) sm). cbn [spec_step].
  rewrite elem_of_union, elem_of_singleton, (Hs c' f'). case_decide as Hd.
  - destruct Hd as [-> ->]. split; [by eauto|by left].
  - split; [|by right]. intros [[= -> ->]|?]; [by destruct Hd|done].
Qed.

Lemma stores_removed s sm c :
  stores s sm -> stores (filter (fun p => p.1 <> c) s) (SubscriptionManager.remove_client c sm).
Proof.
  intros Hs c' f'. rewrite (stored_qos_step (Subscription.RemoveClient c) sm). cbn [spec_step].
  rewrite elem_of_filter, (Hs c' f'). simpl. case_decide as Hd; [subst c'|].
  - split; [by intros [? _]|by intros [? ?]].
  - split; [by intros [_ ?]|]. intros ?. by split; [|].
Qed.

Lemma stores_forgotten s sm c fs :
  stores s sm ->
  stores (filter (fun p => ~ (p.1 = c /\ p.2 ∈ fs)) s) (foldl (fun sm f => SubscriptionManager.remove c f sm) sm fs).
Proof.
  intros Hs c' f'. rewrite stored_qos_removed, elem_of_filter, (Hs c' f'). simpl.
  case_decide as Hd; [|tauto]. split; [tauto|by intros [? ?]].
Qed.

Lemma lookup_send x ps out y : send x ps out !! y = (fun l => l ++ (if decide (y = x) then ps else [])) <$> out !! y.
Proof.
  unfold send. destruct (decide (y = x)) as [->|Hne].
  - by rewrite lookup_alter_eq.
  - rewrite lookup_alter_ne by done. destruct (out !! y); simpl; [by rewrite app_nil_r|done].
Qed.

(** ** Simulation *)

(** A session that has not sent its CONNECT yet. *)
Definition pending (s : Session) : Prop :=
  connected_ s = false /\ socket_open s = true /\ (reading s = true \/ handshaking s = true).

(** It has sent and received nothing. *)
Record blank (t : TopicTree) (x : session_id) (s : Session) : Prop := {
  bl_out : outstream s = [];
  bl_queue : write_queue_ s = [];
  bl_writing : writing_ s = false;
  bl_parser : holding [] (parser_ s);
  bl_entries : ~ entered t x
}.

(** A connected client, and what it has been sent. *)
Definition client_in (s : Session) : option (string * bool) :=
  if connected_ s then Some (client_id_ s, clean_session_ s) else None.

Lemma same_client_in s s' : same_client s s' -> client_in s' = client_in s.
Proof. intros [Hc Hi Hk _ _]. unfold client_in. by rewrite Hc, Hi, Hk. Qed.

Definition stream_in (s : Session) : option (list Buffer) :=
  if connected_ s then Some (outstream s) else None.

Lemma written_client s : same_client s (written s) /\ reading (written s) = reading s /\ parser_ (written s) = parser_ s.
Proof.
  unfold written, pump. simpl. destruct (tail (write_queue_ s)); [by repeat split|]. simpl.
  destruct (connected_ s) eqn:?; by repeat split.
Qed.

Section Refinement.

Context {E A : Type} `{AuthenticatorSafe E A} (cfg : Config) (Hmax : max_write_queue_size cfg < 2 ^ 31)
  (** an address below the limit has a count an [int] can still increase *)
  (Hips : max_connections_per_ip cfg < 2 ^ 31 - 1).
Abbreviation W := (World A).
Implicit Types (w : W) (s : Session) (m : Machine).

(** The broker is in a state of the machine: its connected sessions are the
    machine's clients and wait for their next packet, their output streams are
    the machine's, the live entries of the tree are the subscriptions, each
    once, the stored subscriptions and the retained messages agree, and the
    sessions that have not connected are blank. *)
Record simulates w m : Prop := {
  si_wf : world_wf cfg None Free w;
  si_waiting : forall x s, sessions w !! x = Some s -> connected_ s = true -> waiting_session s;
  si_clients : forall x, m_clients m !! x = sessions w !! x ≫= client_in;
  si_out : forall x, m_out m !! x = sessions w !! x ≫= stream_in;
  si_subs : forall x gs, (x, gs) ∈ m_subs m <->
    is_Some (m_clients m !! x) /\ x ∈ live_sessions (alive w) (subs_at gs (root_ (topic_tree w)));
  si_once : forall gs, NoDup (live_sessions (alive w) (subs_at gs (root_ (topic_tree w))));
  si_stored : stores (m_stored m) (sub_manager w);
  si_retained : tree_reachable cfg (topic_tree w) (m_retained m);
  si_pending : forall x s, sessions w !! x = Some s -> pending s -> blank (topic_tree w) x s;
  si_known : forall x, entered (topic_tree w) x -> (x < created (server w))%nat
}.

Lemma client_connected w m x s :
  simulates w m -> sessions w !! x = Some s -> connected_ s = true ->
  m_clients m !! x = Some (client_id_ s, clean_session_ s) /\ m_out m !! x = Some (outstream s).
Proof.
  intros Hm Hs Hc. rewrite (si_clients _ _ Hm), (si_out _ _ Hm), Hs. simpl. unfold client_in, stream_in. by rewrite Hc.
Qed.

Lemma alive_session w x s : sessions w !! x = Some s -> alive w x = true.
Proof. intros Hs. unfold alive. apply bool_decide_eq_true. by exists s. Qed.

(** The copies of a publication. *)
Lemma copies_entries w m y s t :
  simulates w m -> sessions w !! y = Some s -> connected_ s = true -> topic.is_valid_topic cfg t = true ->
  entries_for y (TopicTree.lookup t (topic_tree w)) = copies m y t.
Proof.
  intros Hm Hy Hc Hv%valid_topic_plain. unfold copies.
  destruct (client_connected w m y s Hm Hy Hc) as [Hcl _].
  rewrite lookup_lookup_rec, lookup_rec_candidates by done.
  induction (candidates (topic.split t)) as [|gs cs IH]; [done|]. cbn [flat_map]. rewrite entries_for_app, IH.
  rewrite (entries_for_once (alive w)), filter_cons; [|by eapply alive_session|apply (si_once _ _ Hm)].
  pose proof (si_subs _ _ Hm y gs) as Hs. rewrite Hcl in Hs.
  repeat case_decide; simpl; first [lia|naive_solver].
Qed.

(** A state in which one session has changed, but neither the clients nor what
    they were sent. *)
Lemma quiet_simulated w m x s h :
  simulates w m -> sessions w !! x = Some s -> world_wf cfg None Free (put_sessions (alter h x (sessions w)) w) ->
  connected_ (h s) = connected_ s -> client_in (h s) = client_in s -> outstream (h s) = outstream s ->
  (connected_ s = true -> waiting_session (h s)) ->
  (pending (h s) -> pending s /\ write_queue_ (h s) = [] /\ writing_ (h s) = false /\ parser_ (h s) = parser_ s) ->
  simulates (put_sessions (alter h x (sessions w)) w) m.
Proof.
  intros Hm Hs Hw Hc Hcl Ho Hwt Hp. pose proof (alive_alter w h x) as Ha.
  constructor; cbn [topic_tree sub_manager server sessions put_sessions]; try apply Hm.
  - done.
  - intros y sy. destruct (decide (y = x)) as [->|Hne].
    + rewrite lookup_alter_eq, Hs. intros [= <-]. rewrite Hc. done.
    + rewrite lookup_alter_ne by done. apply (si_waiting _ _ Hm).
  - intros y. rewrite (si_clients _ _ Hm). destruct (decide (y = x)) as [->|Hne]; [|by rewrite lookup_alter_ne].
    rewrite lookup_alter_eq, Hs. simpl. by rewrite Hcl.
  - intros y. rewrite (si_out _ _ Hm). destruct (decide (y = x)) as [->|Hne]; [|by rewrite lookup_alter_ne].
    rewrite lookup_alter_eq, Hs. simpl. unfold stream_in. by rewrite Hc, Ho.
  - intros y gs. rewrite (live_sessions_proper _ _ Ha _ _ eq_refl). apply (si_subs _ _ Hm).
  - intros gs. rewrite (live_sessions_proper _ _ Ha _ _ eq_refl). apply (si_once _ _ Hm).
  - intros y sy. destruct (decide (y = x)) as [->|Hne]; [|rewrite lookup_alter_ne by done; apply (si_pending _ _ Hm)].
    rewrite lookup_alter_eq, Hs. intros [= <-] Hpe. destruct (Hp Hpe) as (Hps & Hq & Hwr & Hpa).
    destruct (si_pending _ _ Hm x s Hs Hps). constructor; congruence || done.
Qed.

(** *** Requests *)

Lemma alive_outcome w x out w' : read_outcome w x out w' -> pointwise_relation _ eq (alive w') (alive w).
Proof. intros (_ & Hd & _) y. unfold alive. apply bool_decide_ext. by rewrite <- !elem_of_dom, Hd. Qed.

(** What the others see of a request. *)
Lemma outcome_session w x out w' y :
  read_outcome w x out w' ->
  match sessions w !! y with
  | Some s => exists s', sessions w' !! y = Some s' /\ same_client s s' /\
      outstream s' = outstream s ++ (if connected_ s then packets_for y out else [])
  | None => sessions w' !! y = None
  end.
Proof.
  intros (_ & Hd & _ & Ho). destruct (sessions w !! y) as [sy|] eqn:Hy; [by apply Ho|].
  by rewrite <- not_elem_of_dom, Hd, not_elem_of_dom.
Qed.

(** What the machine must have done to match the broker. *)
Record matched w s m (rq : request) (ok : bool) m' : Prop := {
  mt_step : machine_step cfg m rq ok m';
  mt_clients : m_clients m' = m_clients m;
  mt_out : forall y, m_out m' !! y = (fun l => l ++ packets_for y (outgoing cfg w rq ok)) <$> m_out m !! y;
  mt_subs : forall y gs, (y, gs) ∈ m_subs m' <-> is_Some (m_clients m !! y) /\
              y ∈ live_sessions (alive w) (subs_at gs (root_ (new_tree cfg w rq ok)));
  mt_once : forall gs, NoDup (live_sessions (alive w) (subs_at gs (root_ (new_tree cfg w rq ok))));
  mt_stored : stores (m_stored m') (new_store w s rq ok);
  mt_retained : tree_reachable cfg (new_tree cfg w rq ok) (m_retained m');
  mt_entered : forall y, entered (new_tree cfg w rq ok) y -> y = client_of rq \/ entered (topic_tree w) y
}.

Lemma outcome_simulates w s m rq ok w' m' :
  simulates w m -> sessions w !! client_of rq = Some s -> connected_ s = true ->
  matched w s m rq ok m' -> world_wf cfg None Free w' ->
  (created (server w) <= created (server w'))%nat -> topic_tree w' = new_tree cfg w rq ok ->
  sub_manager w' = new_store w s rq ok -> read_outcome w (client_of rq) (outgoing cfg w rq ok) w' ->
  simulates w' m'.
Proof.
  intros Hm Hs Hcs [_ Hcl Hout Hsub Hnd Hst Hret Hen] Hw Hcr Ht Hsm Ho. set (x := client_of rq) in *.
  pose proof (alive_outcome _ _ _ _ Ho) as Ha. pose proof (fun y => outcome_session _ _ _ _ y Ho) as Hy.
  destruct Ho as ((sx & Hsx & Hwx) & _ & Hoth & _).
  constructor; rewrite ?Ht, ?Hsm; try done.
  - intros y sy Hsy Hc. destruct (decide (y = x)) as [->|Hne]; [congruence|].
    rewrite (Hoth y Hne) in Hsy. destruct (sessions w !! y) as [s0|] eqn:Hs0; [|done]. injection Hsy as <-.
    destruct (queue_after_reading (outgoing cfg w rq ok) y s0) as (Hr & Hp & _).
    rewrite (sc_connected _ _ (queue_after_client _ y s0)) in Hc.
    destruct (si_waiting _ _ Hm y s0 Hs0 Hc) as (_ & Hr' & Hh). split; [|by rewrite Hr, Hp].
    by rewrite (sc_connected _ _ (queue_after_client _ y s0)).
  - intros y. rewrite Hcl, (si_clients _ _ Hm). specialize (Hy y). destruct (sessions w !! y) as [s0|]; [|by rewrite Hy].
    destruct Hy as (s1 & -> & Hsc & _). simpl. symmetry. by apply same_client_in.
  - intros y. rewrite Hout, (si_out _ _ Hm). specialize (Hy y). destruct (sessions w !! y) as [s0|]; [|by rewrite Hy].
    destruct Hy as (s1 & -> & [Hc _ _ _ _] & Hos). simpl. unfold stream_in. rewrite Hc.
    destruct (connected_ s0); [|done]. simpl. by rewrite Hos.
  - intros y gs. rewrite Hsub, Hcl. by rewrite (live_sessions_proper _ _ Ha _ _ eq_refl).
  - intros gs. by rewrite (live_sessions_proper _ _ Ha _ _ eq_refl).
  - intros y sy Hsy Hp. destruct (decide (y = x)) as [->|Hne].
    { destruct Hp as [Hp _], Hwx as [Hwx _]. congruence. }
    rewrite (Hoth y Hne) in Hsy. destruct (sessions w !! y) as [s0|] eqn:Hs0; [|done]. injection Hsy as <-.
    destruct (queue_after_client (outgoing cfg w rq ok) y s0) as [Hc _ _ Hop Hhs], Hp as (Hp1 & Hp2 & Hp3).
    destruct (queue_after_reading (outgoing cfg w rq ok) y s0) as (Hr & _).
    assert (Hq : queue_after (outgoing cfg w rq ok) y s0 = s0) by (unfold queue_after; by rewrite <- Hc, Hp1).
    rewrite Hq in *. destruct (si_pending _ _ Hm y s0 Hs0) as [? ? ? ? Hne']; [by split|]. constructor; try done.
    by intros [?|?]%Hen.
  - intros y [->|Hy']%Hen; [|by apply (si_known _ _ Hm) in Hy'; lia].
    enough (x < created (server w))%nat by lia. apply (ww_created _ _ _ _ (si_wf _ _ Hm)), elem_of_dom. by exists s.
Qed.

Lemma publish_matched w m x s t pl r dp :
  simulates w m -> topic.is_valid_topic cfg t = true ->
  exists m', matched w s m (Publish x t pl r dp) true m'.
Proof.
  intros Hm Hv. eexists.
  constructor; [apply step_publish|..]; cbn [m_clients m_subs m_stored m_out m_retained new_tree new_store].
  - done.
  - intros y. unfold after_publication. rewrite map_lookup_imap, (si_out _ _ Hm y).
    destruct (sessions w !! y) as [sy|] eqn:Hy; [|done]. simpl. unfold stream_in.
    destruct (connected_ sy) eqn:Hc; [|done]. simpl.
    rewrite qos0_deliver_live, (packets_for_live (view_of w) y) by (by eapply alive_session).
    rewrite <- (copies_entries w m y sy t Hm) by done. simpl.
    rewrite (lookup_same_subs cfg t (retaining cfg (published_as t pl 0 r dp 0) (topic_tree w)) (topic_tree w))
      by (done || intros; apply subs_at_retaining).
    unfold published_as. cbn [payload]. by rewrite contents_of_bytes.
  - intros y gs. rewrite subs_at_retaining. apply (si_subs _ _ Hm).
  - intros gs. rewrite subs_at_retaining. apply (si_once _ _ Hm).
  - apply (si_stored _ _ Hm).
  - unfold retaining, retaining_map. simpl. destruct r; [|apply (si_retained _ _ Hm)].
    apply (tr_set_retained cfg t); [done|apply (si_retained _ _ Hm)].
  - intros y (gs & e & He & Hx). rewrite subs_at_retaining in He. right. by exists gs, e.
Qed.

(** Nothing but packets for the client. *)
Lemma only_sent_matched w m x s rq ok ps :
  simulates w m ->
  machine_step cfg m rq ok (mkMachine (m_clients m) (m_subs m) (m_stored m) (m_retained m) (send x ps (m_out m))) ->
  outgoing cfg w rq ok = (fun p => (x, p)) <$> ps -> new_tree cfg w rq ok = topic_tree w ->
  new_store w s rq ok = sub_manager w -> exists m', matched w s m rq ok m'.
Proof.
  intros Hm Hst Ho Ht Hsm. eexists.
  constructor; [exact Hst|..]; cbn [m_clients m_subs m_stored m_out m_retained]; rewrite ?Ht, ?Ho, ?Hsm;
    try (by apply Hm); [done| |by right].
  intros y. by rewrite lookup_send, packets_for_one.
Qed.

Lemma subscribe_matched w m x s pid f q :
  simulates w m -> sessions w !! x = Some s -> connected_ s = true ->
  exists m', matched w s m (Subscribe x pid f q) true m'.
Proof.
  intros Hm Hs Hc. pose proof (alive_session w x s Hs) as Hal.
  destruct (client_connected w m x s Hm Hs Hc) as [Hcl _].
  set (tr := granted_tree w x (mkSubscribeFilter f q)).
  assert (Hr : tree_reachable cfg tr (m_retained m)) by apply tr_subscribe, (si_retained _ _ Hm).
  set (l := filter (fun y => topic.matches y.1 f = true) (TopicTree.get_all_retained tr)).
  eexists. constructor; [apply (step_subscribe cfg m x pid f q l)|..];
    cbn [m_clients m_subs m_stored m_out m_retained new_tree new_store].
  - intros p r. unfold l. rewrite list_elem_of_filter. simpl.
    rewrite (get_all_retained_simulates tr (m_retained m)) by (by apply (tree_reachable_refines cfg)). tauto.
  - done.
  - intros y. rewrite lookup_send. cbn [outgoing new_tree]. by rewrite packets_for_one.
  - intros y gs. unfold granted_tree, TopicTree.subscribe. simpl. rewrite subs_at_subscribe.
    rewrite elem_of_union, elem_of_singleton, (si_subs _ _ Hm). case_decide as Hg.
    + subst gs. rewrite live_sessions_add by done. case_decide as Hin.
      * split; [|by right]. intros [[= ->]|?]; [|done]. split; [by rewrite Hcl|done].
      * rewrite elem_of_app, list_elem_of_singleton. split; [|naive_solver].
        intros [[= ->]|[? ?]]; (split; [|by auto]); [by exists (client_id_ s, clean_session_ s)|done].
    + split; [|by right]. intros [[= -> ->]|Hin]; done.
  - by apply subscribe_once; [|apply (si_once _ _ Hm)].
  - unfold kept_with, granted_store. rewrite Hcl. destruct (clean_session_ s); [apply (si_stored _ _ Hm)|].
    apply stores_granted, (si_stored _ _ Hm).
  - exact Hr.
  - intros y. apply entered_subscribe.
Qed.

Lemma unsubscribe_matched w m x s pid fs :
  simulates w m -> sessions w !! x = Some s -> connected_ s = true ->
  exists m', matched w s m (Unsubscribe x pid fs) true m'.
Proof.
  intros Hm Hs Hc. destruct (client_connected w m x s Hm Hs Hc) as [Hcl _]. eexists.
  constructor; [apply step_unsubscribe|..]; cbn [m_clients m_subs m_stored m_out m_retained new_tree new_store].
  - done.
  - intros y. rewrite lookup_send. cbn [outgoing].
    change [(x, PacketBuilder.build_unsuback pid)] with ((fun p => (x, p)) <$> [PacketBuilder.build_unsuback pid]).
    by rewrite packets_for_one.
  - intros y gs. rewrite elem_of_filter, (si_subs _ _ Hm), departed_live. simpl. tauto.
  - apply departed_once, (si_once _ _ Hm).
  - unfold kept_without, forgotten. rewrite Hcl. destruct (clean_session_ s); [apply (si_stored _ _ Hm)|].
    apply stores_forgotten, (si_stored _ _ Hm).
  - apply departed_reachable, (si_retained _ _ Hm).
  - intros y Hy%entered_departed. by right.
Qed.

Lemma request_matched env w m s rq ok :
  simulates w m -> sessions w !! client_of rq = Some s -> connected_ s = true -> decided cfg env w s rq ok ->
  exists m', matched w s m rq ok m'.
Proof.
  intros Hm Hs Hc Hd. destruct rq as [x t pl r dp|x pid f q|x pid fs|x]; cbn [client_of] in *.
  - destruct Hd as (acc & a' & _ & Hok). destruct ok.
    + symmetry in Hok. apply andb_prop in Hok as [_ Hv]. by apply publish_matched.
    + exists m. constructor; try (by apply Hm); [apply step_dropped|done| |by right].
      intros y. simpl. destruct (m_out m !! y); simpl; [by rewrite app_nil_r|done].
  - destruct ok; [by eapply subscribe_matched|].
    by apply (only_sent_matched w m x _ _ _ [PacketBuilder.build_suback pid [FAILURE]] Hm); [apply step_refused|..].
  - simpl in Hd. subst ok. by apply unsubscribe_matched.
  - simpl in Hd. subst ok.
    by apply (only_sent_matched w m x _ _ _ [PacketBuilder.build_pingresp] Hm); [apply step_ping|..].
Qed.

(** A request the broker is ready to read: it comes from a connected client,
    fits the protocol and the limits, the authenticator answers, and the write
    queues have room for what it sends. *)
Definition ready (env : E) w (rq : request) (ok : bool) : Prop :=
  exists s, sessions w !! client_of rq = Some s /\ connected_ s = true /\ encodable cfg rq /\
    frame_fits cfg s (request_bytes rq) /\ decided cfg env w s rq ok /\
    room_for cfg (sessions w) (outgoing cfg w rq ok).

Lemma exec_grown (env : E) now e w o w' :
  world_wf cfg None Free w -> enabled w e -> exec cfg env now e w = (o, w') -> o <> Deadlock -> o <> Undefined ->
  world_wf cfg None Free w' /\ (created (server w) <= created (server w'))%nat.
Proof using Hmax H0.
  intros Hw He Hx Hd Hu. pose proof (exec_wf cfg Hmax Free ltac:(done) env now e w Hw He) as Ho. rewrite Hx in Ho.
  destruct o; try done; destruct Ho as [Hw' [Ha _ Hc _ _]]; (split; [done|lia]).
Qed.

(** A request is a step of the machine. *)
Lemma request_simulated (env : E) now w m rq ok :
  simulates w m -> ready env w rq ok ->
  exists w' m', exec cfg env now (Read (client_of rq) false (request_bytes rq)) w = (Ret tt, w') /\
    machine_step cfg m rq ok m' /\ simulates w' m'.
Proof using Hmax H0.
  intros Hm (s & Hs & Hc & He & Hff & Hd & Hr).
  pose proof (si_waiting _ _ Hm _ s Hs Hc) as Hwt.
  destruct (request_read cfg Hmax env now w _ s rq ok eq_refl (si_wf _ _ Hm) Hs Hwt He Hff Hd Hr)
    as (w' & Hx & Ht & Hsm & Ho).
  destruct (request_matched env w m s rq ok Hm Hs Hc Hd) as (m' & Hmt).
  exists w', m'. split; [done|]. split; [apply (mt_step _ _ _ _ _ _ Hmt)|].
  assert (Hen : enabled w (Read (client_of rq) false (request_bytes rq))).
  { exists s. split; [done|]. split; [apply Hwt|apply Hff]. }
  destruct (exec_grown env now _ w _ w' (si_wf _ _ Hm) Hen Hx) as [Hw' Hcr]; [done|done|].
  by eapply outcome_simulates.
Qed.

(** *** Completions *)

(** The completion of a write is no step of the machine. *)
Lemma written_simulated (env : E) now w m x s :
  simulates w m -> sessions w !! x = Some s -> writing_ s = true ->
  exists w', exec cfg env now (Written x false) w = (Ret tt, w') /\ simulates w' m.
Proof using Hmax H0.
  intros Hm Hs Hwr. pose proof (si_wf _ _ Hm) as Hw. pose proof (ww_sessions _ _ _ _ Hw x s Hs) as Hsw.
  pose proof (exec_wf cfg Hmax Free ltac:(done) env now (Written x false) w Hw ltac:(by exists s)) as Hwf. cbn [exec] in *.
  rewrite (on_write_eq w x s Hs (sw_writing _ _ _ _ Hsw Hwr)) in Hwf |- *.
  eexists. split; [reflexivity|]. destruct Hwf as [Hwf _].
  destruct (written_client s) as [Hsc [Hr Hp]].
  pose proof (outstream_written cfg _ _ s Hsw Hwr) as Ho.
  apply (quiet_simulated w m x s written Hm Hs Hwf (sc_connected _ _ Hsc) (same_client_in _ _ Hsc) Ho).
  - intros Hc. destruct (si_waiting _ _ Hm x s Hs Hc) as (_ & Hr' & Hh). split; [by rewrite (sc_connected _ _ Hsc)|].
    by rewrite Hr, Hp.
  - intros (Hpc & Hpo & Hpr). exfalso. destruct Hsc as [Hc _ _ Hop Hh]. rewrite Hc, Hop, Hr, Hh in *.
    assert (Hb : blank (topic_tree w) x s) by (by apply (si_pending _ _ Hm)). by destruct Hb; congruence.
Qed.

(** A new connection. *)
Lemma on_accept_after ec remote w :
  mutex (server_state w) = false -> counts_wf cfg (server_state w) ->
  let w' := (Server.on_accept cfg ec remote w).2 in
  (Server.on_accept cfg ec remote w).1 <> Undefined /\
  topic_tree w' = topic_tree w /\ sub_manager w' = sub_manager w /\
  (sessions w' = sessions w \/
   exists ip, sessions w' = <[created (server w) := begun (Session.init (ssl_ctx w) ip)]> (sessions w)).
Proof using Hips.
  intros Hm Hct. unfold Server.on_accept, Server.set_accepting, Server.do_accept, gets, modify.
  unfold mbind, M_bind. destruct ec; [split; [done|by repeat split; left]|]. destruct remote as [ip|]; [|split; [done|by repeat split; left]].
  simpl. destruct (max_connections_ (server w) <=? active_connections_ (server w)); [split; [done|by repeat split; left]|].
  unfold Server.count_ip, with_lock, state, get, modify, mret, M_ret, mbind, M_bind. simpl. rewrite Hm.
  rewrite (count_fits cfg ip _ Hct Hips). simpl.
  destruct (max_connections_per_ip cfg <? _); [split; [done|by repeat split; left]|].
  unfold Server.new_session, get, modify, mret, M_ret. unfold mbind, M_bind. simpl.
  erewrite start_eq by apply lookup_insert_eq. simpl. rewrite alter_insert_eq. split; [done|]. repeat split. right. by exists ip.
Qed.

Lemma fresh_simulated w m w' s0 :
  simulates w m -> world_wf cfg None Free w' -> sessions w' = <[created (server w) := s0]> (sessions w) ->
  topic_tree w' = topic_tree w -> sub_manager w' = sub_manager w -> connected_ s0 = false ->
  outstream s0 = [] -> write_queue_ s0 = [] -> writing_ s0 = false -> parser_ s0 = PacketParser.init ->
  simulates w' m.
Proof.
  intros Hm Hw Hs Ht Hsm Hc Ho Hq Hwr Hp. set (z := created (server w)) in *.
  assert (Hz : ~ entered (topic_tree w) z) by (intros Hz%(si_known _ _ Hm); unfold z in Hz; lia).
  assert (Hn : sessions w !! z = None).
  { apply not_elem_of_dom. intros Hin%(ww_created _ _ _ _ (si_wf _ _ Hm)). unfold z in Hin. lia. }
  assert (Hz' : (z < created (server w'))%nat).
  { apply (ww_created _ _ _ _ Hw). rewrite Hs, dom_insert_L. set_solver. }
  assert (Hl : forall gs, live_sessions (alive w') (subs_at gs (root_ (topic_tree w'))) =
                 live_sessions (alive w) (subs_at gs (root_ (topic_tree w)))).
  { intros gs. rewrite Ht. apply live_sessions_ext. intros e He.
    destruct (entry_session e) as [y|] eqn:Ee; [|done]. simpl. unfold alive. rewrite Hs.
    rewrite lookup_insert_ne; [done|]. intros <-. apply Hz. by exists gs, e. }
  assert (Hlk : forall X (f : Session -> option X) y, f s0 = None -> sessions w' !! y ≫= f = sessions w !! y ≫= f).
  { intros X f y Hf. rewrite Hs. destruct (decide (y = z)) as [->|Hne]; [|by rewrite lookup_insert_ne].
    rewrite lookup_insert_eq, Hn. exact Hf. }
  constructor; rewrite ?Ht, ?Hsm; try (by apply Hm).
  - done.
  - intros y sy. rewrite Hs, lookup_insert_Some. intros [[_ <-]|[_ Hy]]; [congruence|]. by apply (si_waiting _ _ Hm y).
  - intros y. rewrite Hlk by (unfold client_in; by rewrite Hc). apply (si_clients _ _ Hm).
  - intros y. rewrite Hlk by (unfold stream_in; by rewrite Hc). apply (si_out _ _ Hm).
  - intros y gs. rewrite <- Ht, Hl. apply (si_subs _ _ Hm).
  - intros gs. rewrite <- Ht, Hl. apply (si_once _ _ Hm).
  - intros y sy. rewrite Hs, lookup_insert_Some. intros [[<- <-]|[_ Hy]]; [|by apply (si_pending _ _ Hm)].
    intros _. constructor; try done. rewrite Hp. apply holding_of_bytes.
  - intros y Hy%(si_known _ _ Hm). unfold z in Hz'. lia.
Qed.

Lemma accepted_simulated (env : E) now w m ec remote :
  simulates w m -> accepting (server w) = true ->
  exists o w', exec cfg env now (Accepted ec remote) w = (o, w') /\ o <> Deadlock /\ o <> Undefined /\ simulates w' m.
Proof using Hmax Hips H0.
  intros Hm Ha. pose proof (si_wf _ _ Hm) as Hw.
  pose proof (exec_wf cfg Hmax Free ltac:(done) env now (Accepted ec remote) w Hw Ha) as Hx.
  destruct (on_accept_after ec remote w (ww_mutex _ _ _ _ Hw) (ww_counts _ _ _ _ Hw)) as (Hu & Ht & Hsm & Hs). cbn [exec] in *.
  destruct (Server.on_accept cfg ec remote w) as [o w'] eqn:Eo. simpl in Hu, Ht, Hsm, Hs. exists o, w'.
  assert (Ho : o <> Deadlock /\ o <> Undefined /\ world_wf cfg None Free w' /\ grows w w').
  { destruct o; try done; destruct Hx as [Hx ?]; try done. by destruct Hx. }
  destruct Ho as (Hd & _ & Hw' & [Hga _ Hgc _ _]). do 3 (split; [done|]). destruct Hs as [Hs|[ip Hs]].
  - constructor; rewrite ?Hs, ?Ht, ?Hsm; try (by apply Hm); [done|..].
    + intros x gs. pose proof (si_subs _ _ Hm x gs) as Hsu. unfold alive in *. by rewrite Hs.
    + intros gs. pose proof (si_once _ _ Hm gs) as Hsu. unfold alive in *. by rewrite Hs.
    + intros x Hx'%(si_known _ _ Hm). lia.
  - eapply fresh_simulated; try done; by destruct (ssl_ctx w).
Qed.

Lemma handshaken_simulated (env : E) now w m x s ec :
  simulates w m -> sessions w !! x = Some s -> handshaking s = true ->
  exists w', exec cfg env now (Handshaken x ec) w = (Ret tt, w') /\ simulates w' m.
Proof using Hmax H0.
  intros Hm Hs Hh. pose proof (si_wf _ _ Hm) as Hw.
  destruct (sw_handshake _ _ _ _ (ww_sessions _ _ _ _ Hw x s Hs) Hh) as (_ & Hc & Hq & Hr).
  set (h := fun s => if ec then set_handshaking false s else reading_session (set_handshaking false s)).
  assert (Hx : exec cfg env now (Handshaken x ec) w = (Ret tt, put_sessions (alter h x (sessions w)) w)).
  { cbn [exec]. unfold Session.on_handshake. rewrite (update_then w x s) by done.
    pose proof (updated w x s (set_handshaking false) Hs) as Hs1. unfold h. destruct ec.
    - by rewrite (close_disconnected _ x _ Hs1).
    - unfold Session.do_read. rewrite (update_eq _ x _ _ Hs1). cbn [sessions put_sessions]. by rewrite alter_alter_eq. }
  eexists. split; [exact Hx|].
  assert (Hen : enabled w (Handshaken x ec)) by (by exists s).
  destruct (exec_grown env now _ w _ _ Hw Hen Hx) as [Hw' _]; [done|done|].
  assert (Hsc : connected_ (h s) = connected_ s /\ client_in (h s) = client_in s /\ outstream (h s) = outstream s /\
    socket_open (h s) = socket_open s /\ write_queue_ (h s) = write_queue_ s /\ writing_ (h s) = writing_ s /\
    parser_ (h s) = parser_ s) by (unfold h; by destruct ec).
  destruct Hsc as (Hc' & Hci & Ho & Hop & Hq' & Hwr & Hpa).
  apply (quiet_simulated w m x s h Hm Hs Hw' Hc' Hci Ho); [by rewrite Hc|].
  intros (_ & Hso & _). rewrite Hop in Hso.
  assert (Hp : pending s) by (split; [done|]; split; [done|by right]). split; [done|].
  destruct (si_pending _ _ Hm x s Hs Hp). by rewrite Hq', Hwr.
Qed.

(** *** Leaving *)

(** A client's session is no longer connected and cannot connect again. *)
Lemma left_simulated w m x s w' h stored :
  simulates w m -> sessions w !! x = Some s -> connected_ s = true -> world_wf cfg None Free w' ->
  sessions w' = alter h x (sessions w) -> connected_ (h s) = false -> ~ pending (h s) ->
  server w' = server w -> stores stored (sub_manager w') -> tree_reachable cfg (topic_tree w') (m_retained m) ->
  (forall y, entered (topic_tree w') y -> entered (topic_tree w) y) ->
  (forall y gs, y <> x -> y ∈ live_sessions (alive w) (subs_at gs (root_ (topic_tree w'))) <->
                          y ∈ live_sessions (alive w) (subs_at gs (root_ (topic_tree w)))) ->
  (forall gs, NoDup (live_sessions (alive w) (subs_at gs (root_ (topic_tree w'))))) ->
  simulates w' (after_leave m x stored).
Proof.
  intros Hm Hs Hc Hw Hs' Hc' Hp Hsv Hst Hret Hen Hl Hnd.
  assert (Ha : pointwise_relation _ eq (alive w') (alive w)).
  { intros y. unfold alive. rewrite Hs'. apply bool_decide_ext. by rewrite <- !elem_of_dom, dom_alter_L. }
  assert (Hx : sessions w' !! x = Some (h s)) by (by rewrite Hs', lookup_alter_eq, Hs).
  assert (Hy : forall y, y <> x -> sessions w' !! y = sessions w !! y) by (intros; by rewrite Hs', lookup_alter_ne).
  constructor; cbn [m_clients m_subs m_stored m_retained m_out after_leave]; try done.
  - intros y sy Hsy Hcy. destruct (decide (y = x)) as [->|Hne]; [congruence|].
    rewrite Hy in Hsy by done. by apply (si_waiting _ _ Hm y).
  - intros y. destruct (decide (y = x)) as [->|Hne].
    + rewrite lookup_delete_eq, Hx. simpl. unfold client_in. by rewrite Hc'.
    + rewrite lookup_delete_ne, Hy by done. apply (si_clients _ _ Hm).
  - intros y. destruct (decide (y = x)) as [->|Hne].
    + rewrite lookup_delete_eq, Hx. simpl. unfold stream_in. by rewrite Hc'.
    + rewrite lookup_delete_ne, Hy by done. apply (si_out _ _ Hm).
  - intros y gs. rewrite (live_sessions_proper _ _ Ha _ _ eq_refl), elem_of_filter, (si_subs _ _ Hm). simpl.
    destruct (decide (y = x)) as [->|Hne].
    + rewrite lookup_delete_eq. split; [by intros [? _]|by intros [[? ?] _]].
    + rewrite lookup_delete_ne, (Hl y gs Hne) by done. tauto.
  - intros gs. by rewrite (live_sessions_proper _ _ Ha _ _ eq_refl).
  - intros y sy Hsy Hpy. destruct (decide (y = x)) as [->|Hne]; [congruence|].
    rewrite Hy in Hsy by done. destruct (si_pending _ _ Hm y sy Hsy Hpy). constructor; try done. by intros ?%Hen.
  - rewrite Hsv. intros y Hy'%Hen. by apply (si_known _ _ Hm).
Qed.

(** A DISCONNECT. *)
Lemma disconnect_simulated (env : E) now w m x s :
  simulates w m -> sessions w !! x = Some s -> connected_ s = true -> frame_fits cfg s disconnect_bytes ->
  exists w', exec cfg env now (Read x false disconnect_bytes) w = (Ret tt, w') /\
    simulates w' (after_leave m x (m_stored m)).
Proof using Hmax H0.
  intros Hm Hs Hc Hff. pose proof (si_wf _ _ Hm) as Hw.
  destruct (si_waiting _ _ Hm x s Hs Hc) as (_ & Hrd & Hh).
  set (g := fun s => set_parser (parser_at []) (fed cfg disconnect_bytes s)).
  pose proof (updated w x s g Hs) as Hs1. set (w1 := put_sessions (alter g x (sessions w)) w) in Hs1.
  set (w2 := put_sessions (alter (set_connected false) x (sessions w1)) w1).
  assert (Hp : Session.handle_packet cfg env now x (Buffer.of_bytes disconnect_bytes) (framed cfg x disconnect_bytes w) =
    (Ret tt, w2)).
  { destruct (handle_packet_frame cfg env now x 0xE0 [] (framed cfg x disconnect_bytes w))
      as (packet & _ & _ & Hp); [lia|simpl; lia|]. unfold disconnect_bytes at 1. rewrite Hp.
    change (Session.dispatch cfg env now x (frame_header 0xE0 []) packet) with (Session.handle_disconnect (A := A) x).
    unfold Session.handle_disconnect. change (framed cfg x disconnect_bytes w) with w1.
    rewrite (update_then w1 x _ _ _ Hs1). fold w2.
    by apply (close_disconnected w2 x _ (updated w1 x _ _ Hs1)). }
  destruct (read_one_frame cfg env now x w s disconnect_bytes w2 Hw Hs Hrd) as (s2 & Hs2 & _ & Hx); try (by apply Hff); [done|done|].
  assert (Hs2' : s2 = set_connected false (g s)).
  { pose proof (updated w1 x _ (set_connected false) Hs1) as Hu. fold w2 in Hu. congruence. }
  assert (Hen : enabled w (Read x false disconnect_bytes)) by (exists s; split; [done|]; split; [done|apply Hff]).
  eexists. split; [exact Hx|].
  destruct (exec_grown env now _ w _ _ Hw Hen Hx) as [Hw' _]; [done|done|].
  eapply (left_simulated w m x s _ (rearmed ∘ set_connected false ∘ g)); try done; try (by apply Hm).
  - simpl. by rewrite !alter_alter_eq.
  - intros (_ & _ & Hpr). simpl in Hpr. destruct Hpr as [Hpr|Hpr]; [done|].
    pose proof (sw_handshake _ _ _ _ (ww_sessions _ _ _ _ Hw x s Hs) Hpr) as (_ & ? & _). congruence.
Qed.

(** *** Losing the connection *)

Lemma closed_departed w x s :
  topic_tree (closed w x s) =
    departed (alive (disconnected w x)) x (Subscription.topic_filter <$> withdrawn w s) (topic_tree w).
Proof. unfold closed, departed. cbn [topic_tree]. by rewrite foldl_fmap. Qed.

(** [close] on a connected client, after its reading side or its timer has
    changed. *)
Lemma closed_simulated w m x s h :
  simulates w m -> sessions w !! x = Some s -> connected_ s = true -> same_client s (h s) ->
  let w1 := put_sessions (alter h x (sessions w)) w in
  world_wf cfg None Free (closed w1 x (h s)) ->
  simulates (closed w1 x (h s)) (after_leave m x (kept_after_loss m x)).
Proof.
  intros Hm Hs Hc [_ Hi Hcl _ _] w1 Hw. destruct (client_connected w m x s Hm Hs Hc) as [Hmc _].
  assert (Ha : pointwise_relation _ eq (alive (disconnected w1 x)) (alive w)).
  { etransitivity; [apply alive_alter|]. apply alive_alter. }
  pose proof (closed_departed w1 x (h s)) as Ht. change (topic_tree w1) with (topic_tree w) in Ht.
  rewrite (departed_proper _ _ Ha _ _ eq_refl _ _ eq_refl _ _ eq_refl) in Ht.
  eapply (left_simulated w m x s _ (set_socket_open false ∘ set_connected false ∘ h) _ Hm Hs Hc Hw);
    rewrite ?Ht; try done.
  - unfold closed. cbn [sessions w1 put_sessions]. by rewrite !alter_alter_eq.
  - by intros (_ & ? & _).
  - unfold kept_after_loss, closed. rewrite Hmc, Hi, Hcl. cbn [sub_manager]. change (sub_manager w1) with (sub_manager w).
    destruct (clean_session_ s); simpl; [|apply (si_stored _ _ Hm)].
    destruct (String.eqb (client_id_ s) ""); simpl; [apply (si_stored _ _ Hm)|].
    apply stores_removed, (si_stored _ _ Hm).
  - apply departed_reachable, (si_retained _ _ Hm).
  - intros y. apply entered_departed.
  - intros y gs Hne. rewrite departed_live. tauto.
  - apply departed_once, (si_once _ _ Hm).
Qed.

(** How a connection is lost: its read or its write fails, or its keepalive
    timer expires. *)
Inductive loses (x : session_id) (s : Session) : event -> Prop :=
| loses_read : loses x s (Read x true [])
| loses_write : writing_ s = true -> loses x s (Written x true)
| loses_timer t cb : keepalive_timer_ s = Some t -> (Timer.on_tick Expired t).1 = Some cb -> loses x s (KeepaliveTick x).

Lemma loses_closes (env : E) now w x s e :
  sessions w !! x = Some s -> connected_ s = true -> mutex (server_state w) = false -> loses x s e ->
  exists h, same_client s (h s) /\
    exec cfg env now e w = (Ret tt, closed (put_sessions (alter h x (sessions w)) w) x (h s)).
Proof.
  intros Hs Hc Hmu [|Hwr|t cb Ht Hcb].
  - exists (set_reading false). split; [done|]. cbn [exec]. unfold Session.read_handler.
    rewrite (update_then w x s) by done.
    by apply (close_connected _ x _ (updated w x s (set_reading false) Hs)).
  - exists id. split; [done|]. cbn [exec]. unfold Session.on_write.
    rewrite (close_connected w x s Hs Hc Hmu). do 2 f_equal.
    assert (Hid : alter id x (sessions w) = sessions w) by (by apply alter_id). rewrite Hid. by destruct w.
  - set (h := fun s => set_keepalive_timer ((fun t => (Timer.on_tick Expired t).2) <$> keepalive_timer_ s) s).
    exists h. split; [done|]. cbn [exec]. unfold keepalive_tick. rewrite (this_bind_eq w x s) by done.
    rewrite (update_then w x s) by done. rewrite Ht. simpl. rewrite Hcb. unfold Session.on_keepalive_timeout.
    by apply (close_connected _ x _ (updated w x s h Hs)).
Qed.

Lemma lost_simulated (env : E) now w m x s e :
  simulates w m -> sessions w !! x = Some s -> connected_ s = true -> loses x s e ->
  exists w', exec cfg env now e w = (Ret tt, w') /\ simulates w' (after_leave m x (kept_after_loss m x)).
Proof using Hmax H0.
  intros Hm Hs Hc He. pose proof (si_wf _ _ Hm) as Hw.
  destruct (loses_closes env now w x s e Hs Hc (ww_mutex _ _ _ _ Hw) He) as (h & Hsc & Hx).
  assert (Hen : enabled w e).
  { destruct He as [|Hwr|t cb Ht Hcb]; [|by exists s|by exists s]. exists s. split; [done|].
    split; [by apply (si_waiting _ _ Hm x s Hs Hc)|simpl; lia]. }
  destruct (exec_grown env now _ w _ _ Hw Hen Hx) as [Hw' _]; [done|done|].
  eexists. split; [exact Hx|]. by apply closed_simulated.
Qed.

(** *** Connecting *)

(** A CONNECT the broker accepts. *)
Record admitted (env : E) (now : Z) w (x : session_id) (s : Session) (conn : ConnectPacket) : Prop := {
  ad_pending : pending s;
  ad_reading : reading s = true;
  ad_packet : connect_encodable conn;
  ad_fits : frame_fits cfg s (connect_bytes conn);
  ad_form : well_formed_connect conn;
  ad_keepalive : timeable cfg conn;
  ad_allowed : not_banned now w (remote_ip_ s);
  ad_credentials : exists a', credentials_accepted env w conn a';
  ad_free : unclaimed w x (client_id conn);
  ad_room : 0 < max_write_queue_size cfg
}.

Lemma resumed_present w m conn :
  stores (m_stored m) (sub_manager w) ->
  bool_decide (resumed w conn = []) = bool_decide (resumed_filters m conn = ∅).
Proof.
  intros Hst. apply bool_decide_ext. unfold resumed, resumed_filters. destruct (clean_session conn); [done|].
  split; intros He.
  - apply set_eq. intros [c f]. rewrite elem_of_filter. split; [|by intros ?%elem_of_empty]. simpl. intros [-> Hin].
    apply Hst, stored_elem in Hin as (sub & Hin & _). rewrite He in Hin. by apply elem_of_nil in Hin.
  - destruct (SubscriptionManager.get_client_subs (client_id conn) (sub_manager w)) as [|sub l] eqn:Eg; [done|].
    assert (Hin : (client_id conn, Subscription.topic_filter sub) ∈ m_stored m).
    { apply Hst, stored_elem. exists sub. split; [rewrite Eg; by left|done]. }
    exfalso. apply (not_elem_of_empty (C := gset (string * string)) (client_id conn, Subscription.topic_filter sub)).
    rewrite <- He. apply elem_of_filter. by split.
Qed.

Lemma resumed_elem w m conn gs :
  stores (m_stored m) (sub_manager w) ->
  gs ∈ (fun sub => topic.split (Subscription.topic_filter sub)) <$> resumed w conn <->
  exists p, p ∈ resumed_filters m conn /\ gs = topic.split p.2.
Proof.
  intros Hst. unfold resumed, resumed_filters. destruct (clean_session conn).
  { simpl. split; [by intros ?%elem_of_nil|]. intros (p & Hp & _). by apply elem_of_empty in Hp. }
  rewrite list_elem_of_fmap. setoid_rewrite elem_of_filter. split.
  - intros (sub & -> & Hin). exists (client_id conn, Subscription.topic_filter sub). split; [|done].
    split; [done|]. apply Hst, stored_elem. by exists sub.
  - intros ([c f] & [Hc Hin] & ->). simpl in *. subst c. apply Hst, stored_elem in Hin as (sub & Hin & <-).
    by exists sub.
Qed.

(** The broker's side of an accepted CONNECT. *)
Lemma connect_read (env : E) now w m x s conn :
  simulates w m -> sessions w !! x = Some s -> admitted env now w x s conn ->
  exists w' s', exec cfg env now (Read x false (connect_bytes conn)) w = (Ret tt, w') /\
    sessions w' = <[x := s']> (sessions w) /\ waiting_session s' /\
    client_id_ s' = client_id conn /\ clean_session_ s' = clean_session conn /\
    outstream s' = [PacketBuilder.build_connack (negb (bool_decide (resumed w conn = []))) ACCEPTED] /\
    topic_tree w' = joined (alive w) x (resumed w conn) (topic_tree w) /\
    sub_manager w' = (if clean_session conn then SubscriptionManager.remove_client (client_id conn) (sub_manager w)
                      else sub_manager w).
Proof using Hmax H0.
  intros Hm Hs [Hp Hrd Hen Hff Hwc Hka Hnb (a' & Hcr) Hun Hpos]. pose proof (si_wf _ _ Hm) as Hw.
  destruct (si_pending _ _ Hm x s Hs Hp) as [Ho Hq Hwr Hh _], Hp as [Hc _].
  set (f := connect_bytes conn) in *. set (g := fun s => set_parser (parser_at []) (fed cfg f s)).
  pose proof (updated w x s g Hs) as Hs1. change (put_sessions _ w) with (framed cfg x f w) in Hs1.
  destruct (handle_packet_frame cfg env now x 0x10 (connect_body conn) (framed cfg x f w))
    as (packet & Hwf & Hu & Hhp); [lia|by apply connect_body_small|].
  change (Session.dispatch cfg env now x (frame_header 0x10 (connect_body conn)) packet) with
    (Session.handle_connect cfg env now x packet) in Hhp.
  destruct (parse_connect_body packet conn Hwf Hu Hen) as (b' & Hpa & _).
  destruct (handle_connect_after cfg Hmax env now (framed cfg x f w) x (g s) packet conn a' Hs1 Hc Hq)
    as (al & Hal & Hcn); try done.
  { apply (ww_mutex _ _ _ _ Hw). }
  { by rewrite Hpa. }
  { intros old so Hold Hne Hso. unfold framed in Hso. simpl in Hso. rewrite lookup_alter_ne in Hso by done.
    by apply (Hun old so). }
  rewrite Hcn in Hhp. clear Hcn.
  change (resumed (framed cfg x f w) conn) with (resumed w conn) in Hhp.
  set (present := negb (bool_decide (resumed w conn = []))) in *.
  match type of Hhp with _ = (_, ?w2) => set (w1 := w2) in Hhp end.
  destruct (read_one_frame cfg env now x w s f w1 Hw Hs Hrd) as (s2 & Hs2 & Hh2 & Hx); try (by apply Hff); [done|exact Hhp|].
  assert (Hs2' : s2 = accepted_session cfg conn present (g s)).
  { unfold w1 in Hs2. cbn [sessions] in Hs2. rewrite lookup_alter_eq, Hs1 in Hs2. symmetry. exact (inj Some _ _ Hs2). }
  destruct (accepted_session_fields cfg conn present (g s) Hwr Hq) as (H1 & H2 & H3 & H4 & _ & _ & H7).
  rewrite <- Hs2' in H1, H2, H3, H4, H7.
  destruct (rearmed_client s2) as [Hrc Hri Hrk _ _].
  exists (put_sessions (alter rearmed x (sessions w1)) w1), (rearmed s2).
  split; [exact Hx|]. cbn [sessions topic_tree sub_manager put_sessions]. split; [|split; [|split; [|split; [|split; [|split]]]]].
  - unfold w1, framed. cbn [sessions put_sessions]. rewrite !alter_alter_eq, (alter_as_insert _ _ _ s Hs).
    rewrite Hs2'. reflexivity.
  - split; [by rewrite Hrc|]. unfold rearmed. rewrite H1. by split.
  - by rewrite Hri.
  - by rewrite Hrk.
  - rewrite same_output_outstream by apply same_output_rearmed. rewrite H7.
    change (outstream (g s)) with (outstream s). by rewrite Ho.
  - apply joined_proper; try done. intros y. rewrite Hal. apply (alive_alter w g x).
  - done.
Qed.

(** The subscriptions a client has after its CONNECT. *)
Lemma connect_subs w m x s conn y gs :
  simulates w m -> sessions w !! x = Some s -> pending s ->
  (y, gs) ∈ m_subs (after_connect m x conn) <->
  is_Some (m_clients (after_connect m x conn) !! y) /\
  y ∈ live_sessions (alive w) (subs_at gs (root_ (joined (alive w) x (resumed w conn) (topic_tree w)))).
Proof.
  intros Hm Hs Hp. pose proof (alive_session w x s Hs) as Hal. pose proof (si_stored _ _ Hm) as Hst.
  destruct (si_pending _ _ Hm x s Hs Hp) as [_ _ _ _ Hne].
  assert (Hmc : m_clients m !! x = None).
  { rewrite (si_clients _ _ Hm), Hs. simpl. unfold client_in. by rewrite (proj1 Hp). }
  cbn [m_clients m_subs after_connect]. rewrite joined_live by done.
  rewrite (resumed_elem w m conn gs Hst), elem_of_union, elem_of_map, (si_subs _ _ Hm).
  destruct (decide (y = x)) as [->|Hn].
  - rewrite lookup_insert_eq, Hmc. split.
    + intros [(p & [= ->] & Hin)|[[? ?] _]]; [|done]. split; [done|]. right. split; [done|]. by exists p.
    + intros [_ [(e & He & Hl)%live_sessions_elem|[_ (p & Hin & ->)]]]; [|left; by exists p].
      exfalso. apply Hne. exists gs, e. split; [done|]. by apply (lock_alive_eq (alive w)).
  - rewrite lookup_insert_ne by done. split; [intros [(p & [= ? _] & _)|?]; [done|tauto]|].
    intros [Hc [Hl|[? _]]]; [by right|done].
Qed.

Lemma connect_simulated (env : E) now w m x s conn :
  simulates w m -> sessions w !! x = Some s -> admitted env now w x s conn ->
  exists w', exec cfg env now (Read x false (connect_bytes conn)) w = (Ret tt, w') /\
    simulates w' (after_connect m x conn).
Proof using Hmax Hips H0.
  intros Hm Hs Had. pose proof (si_wf _ _ Hm) as Hw. pose proof (alive_session w x s Hs) as Hal.
  destruct (connect_read env now w m x s conn Hm Hs Had)
    as (w' & s' & Hx & Hs' & Hwt & Hid & Hcl & Ho & Ht & Hsm).
  exists w'. split; [done|]. pose proof (si_stored _ _ Hm) as Hst.
  assert (Hen : enabled w (Read x false (connect_bytes conn))).
  { exists s. split; [done|]. split; [apply Had|apply (ff_read _ _ _ (ad_fits _ _ _ _ _ _ Had))]. }
  destruct (exec_grown env now _ w _ _ Hw Hen Hx) as [Hw' Hcr]; [done|done|].
  pose proof (ad_pending _ _ _ _ _ _ Had) as Hp. destruct (si_pending _ _ Hm x s Hs Hp) as [_ _ _ _ Hne].
  assert (Ha : pointwise_relation _ eq (alive w') (alive w)).
  { intros y. unfold alive. rewrite Hs'. apply bool_decide_ext. rewrite <- !elem_of_dom, dom_insert_L.
    assert (x ∈ dom (sessions w)) by (apply elem_of_dom; by exists s). set_solver. }
  assert (Hy : forall y, y <> x -> sessions w' !! y = sessions w !! y) by (intros; by rewrite Hs', lookup_insert_ne).
  assert (Hxl : sessions w' !! x = Some s') by (by rewrite Hs', lookup_insert_eq).
  constructor; cbn [m_clients m_subs m_stored m_retained m_out after_connect]; rewrite ?Ht, ?Hsm.
  - done.
  - intros y sy Hsy Hc. destruct (decide (y = x)) as [->|Hn]; [congruence|].
    rewrite Hy in Hsy by done. by apply (si_waiting _ _ Hm y).
  - intros y. destruct (decide (y = x)) as [->|Hn].
    + rewrite lookup_insert_eq, Hxl. simpl. unfold client_in. by rewrite (proj1 Hwt), Hid, Hcl.
    + rewrite lookup_insert_ne, Hy by done. apply (si_clients _ _ Hm).
  - intros y. destruct (decide (y = x)) as [->|Hn].
    + rewrite lookup_insert_eq, Hxl. simpl. unfold stream_in. rewrite (proj1 Hwt), Ho.
      by rewrite (resumed_present w m conn Hst).
    + rewrite lookup_insert_ne, Hy by done. apply (si_out _ _ Hm).
  - intros y gs. rewrite (live_sessions_proper _ _ Ha _ _ eq_refl). by apply (connect_subs w m x s).
  - intros gs. rewrite (live_sessions_proper _ _ Ha _ _ eq_refl). by apply joined_once; [|apply (si_once _ _ Hm)].
  - destruct (clean_session conn); [by apply stores_removed|done].
  - apply joined_reachable, (si_retained _ _ Hm).
  - intros y sy Hsy Hpy. destruct (decide (y = x)) as [->|Hn].
    { rewrite Hxl in Hsy. injection Hsy as <-. destruct Hpy as [Hpy _]. by rewrite (proj1 Hwt) in Hpy. }
    rewrite Hy in Hsy by done. destruct (si_pending _ _ Hm y sy Hsy Hpy). constructor; try done.
    by intros [?|?]%entered_joined.
  - intros y [->|Hk%(si_known _ _ Hm)]%entered_joined; [|lia].
    enough (x < created (server w))%nat by lia. apply (ww_created _ _ _ _ Hw), elem_of_dom. by exists s.
Qed.

(** *** Runs *)

(** The event with which the broker performs an action, and when it can. *)
Inductive performs (env : E) (now : Z) w : action -> event -> Prop :=
| performs_ask rq ok :
    ready env w rq ok -> performs env now w (Ask rq ok) (Read (client_of rq) false (request_bytes rq))
| performs_connect x s conn :
    sessions w !! x = Some s -> admitted env now w x s conn ->
    performs env now w (Connect x conn) (Read x false (connect_bytes conn))
| performs_disconnect x s :
    sessions w !! x = Some s -> connected_ s = true -> frame_fits cfg s disconnect_bytes ->
    performs env now w (Disconnect x) (Read x false disconnect_bytes)
| performs_lost x s e :
    sessions w !! x = Some s -> connected_ s = true -> loses x s e -> performs env now w (Lost x) e.

(** The events no client notices: connections are accepted, handshakes and
    writes complete. *)
Definition quiet w (e : event) : Prop :=
  match e with
  | Accepted _ _ => accepting (server w) = true
  | Handshaken x _ => exists s, sessions w !! x = Some s /\ handshaking s = true
  | Written x false => exists s, sessions w !! x = Some s /\ writing_ s = true
  | _ => False
  end.

Lemma action_simulated (env : E) now w m a e :
  simulates w m -> performs env now w a e ->
  exists w' m', exec cfg env now e w = (Ret tt, w') /\ machine_action cfg m a m' /\ simulates w' m'.
Proof using Hmax Hips H0.
  intros Hm [rq ok Hr|x s conn Hs Had|x s Hs Hc Hff|x s e' Hs Hc Hl].
  - destruct (request_simulated env now w m rq ok Hm Hr) as (w' & m' & Hx & Hst & Hm'). exists w', m'.
    split; [done|]. split; [by constructor|done].
  - destruct (connect_simulated env now w m x s conn Hm Hs Had) as (w' & Hx & Hm'). eexists _, _. by split; [|split; [constructor|]].
  - destruct (disconnect_simulated env now w m x s Hm Hs Hc Hff) as (w' & Hx & Hm'). eexists _, _. by split; [|split; [constructor|]].
  - destruct (lost_simulated env now w m x s e' Hm Hs Hc Hl) as (w' & Hx & Hm'). eexists _, _. by split; [|split; [constructor|]].
Qed.

Lemma quiet_simulates (env : E) now w m e :
  simulates w m -> quiet w e ->
  exists o w', exec cfg env now e w = (o, w') /\ o <> Deadlock /\ o <> Undefined /\ simulates w' m.
Proof using Hmax Hips H0.
  intros Hm Hq. destruct e as [ec remote|x ec|x ec bs|x ec|x|c p|c p|x]; try done.
  - by apply accepted_simulated.
  - destruct Hq as (s & Hs & Hh). destruct (handshaken_simulated env now w m x s ec Hm Hs Hh) as (w' & Hx & Hm').
    by exists (Ret tt), w'.
  - destruct ec; [done|]. destruct Hq as (s & Hs & Hwr).
    destruct (written_simulated env now w m x s Hm Hs Hwr) as (w' & Hx & Hm'). by exists (Ret tt), w'.
Qed.

Lemma initial_simulates tls a : simulates (initial cfg tls a) empty_machine.
Proof using Hmax H0.
  constructor.
  - by apply initial_wf.
  - intros x s Hs. simpl in Hs. by rewrite lookup_empty in Hs.
  - intros x. simpl. by rewrite !lookup_empty.
  - intros x. simpl. by rewrite !lookup_empty.
  - intros x gs. simpl. rewrite lookup_empty. split; [by intros ?%elem_of_empty|by intros [[? ?] _]].
  - intros gs. simpl. rewrite subs_at_new. constructor.
  - intros c f. rewrite stored_qos_find. simpl. split; [by intros ?%elem_of_empty|by intros [? ?]].
  - constructor.
  - intros x s Hs. simpl in Hs. by rewrite lookup_empty in Hs.
  - intros x (gs & e & He & _). simpl in He. rewrite subs_at_new in He. by apply elem_of_nil in He.
Qed.

(** Runs of the broker. *)
Inductive wire_run : W -> list action -> W -> Prop :=
| run_nil w : wire_run w [] w
| run_action (env : E) now w a e w1 l w2 :
    performs env now w a e -> exec cfg env now e w = (Ret tt, w1) -> wire_run w1 l w2 -> wire_run w (a :: l) w2
| run_quiet (env : E) now w e o w1 l w2 :
    quiet w e -> exec cfg env now e w = (o, w1) -> wire_run w1 l w2 -> wire_run w l w2.

Lemma wire_run_simulated w l w' :
  wire_run w l w' -> forall m, simulates w m -> exists m', machine_run cfg m l m' /\ simulates w' m'.
Proof using Hmax Hips H0.
  induction 1 as [w|env now w a e w1 l w2 Hp Hx _ IH|env now w e o w1 l w2 Hq Hx _ IH]; intros m Hm.
  - exists m. split; [constructor|done].
  - destruct (action_simulated env now w m a e Hm Hp) as (w1' & m1 & Hx' & Hst & Hm1).
    rewrite Hx in Hx'. injection Hx' as <-. destruct (IH m1 Hm1) as (m' & Hrun & Hm').
    exists m'. split; [by econstructor|done].
  - destruct (quiet_simulates env now w m e Hm Hq) as (o' & w1' & Hx' & _ & _ & Hm1).
    rewrite Hx in Hx'. injection Hx' as <- <-. by apply IH.
Qed.

(** The events of a run are enabled: runs are runs of the broker's event loop. *)
Lemma performs_enabled (env : E) now w m a e : simulates w m -> performs env now w a e -> enabled w e.
Proof.
  intros Hm [rq ok (s & Hs & Hc & _ & Hff & _)|x s conn Hs Had|x s Hs Hc Hff|x s e' Hs Hc [|Hwr|t cb Ht Hcb]];
    [exists s..|by exists s|by exists s]; (split; [done|]).
  - split; [by apply (si_waiting _ _ Hm _ s Hs Hc)|apply Hff].
  - split; [apply Had|apply (ad_fits _ _ _ _ _ _ Had)].
  - split; [by apply (si_waiting _ _ Hm _ s Hs Hc)|apply Hff].
  - split; [by apply (si_waiting _ _ Hm _ s Hs Hc)|simpl; lia].
Qed.

Lemma quiet_enabled w e : quiet w e -> enabled w e.
Proof. destruct e as [ec remote|x ec|x ec bs|x [] |x|c p|c p|x]; done. Qed.

Lemma wire_run_reachable a w l w' m :
  wire_run w l w' -> simulates w m -> reachable cfg a w -> reachable cfg a w'.
Proof using Hmax Hips H0.
  intros Hr. revert m. induction Hr as [w|env now w a' e w1 l w2 Hp Hx _ IH|env now w e o w1 l w2 Hq Hx _ IH]; intros m Hm Hw.
  - done.
  - destruct (action_simulated env now w m a' e Hm Hp) as (w1' & m1 & Hx' & _ & Hm1).
    rewrite Hx in Hx'. injection Hx' as <-. apply (IH m1 Hm1). eapply reach_step; [exact Hw|].
    eapply step_event; [by eapply performs_enabled|exact Hx|done].
  - destruct (quiet_simulates env now w m e Hm Hq) as (o' & w1' & Hx' & Hd & Hu & Hm1).
    rewrite Hx in Hx'. injection Hx' as <- <-. apply (IH m Hm1). eapply reach_step; [exact Hw|].
    eapply step_event; [by eapply quiet_enabled|exact Hx|done].
Qed.

(** [C3] The broker refines the publish/subscribe machine.  It starts as the
    empty machine.  Whenever its state is one of the machine, every action of
    a client that it is ready for (a CONNECT, SUBSCRIBE, UNSUBSCRIBE, QoS 0
    PUBLISH, PINGREQ or DISCONNECT that arrives, a failed read or write, an
    expired keepalive) is handled to the end and is one step of the machine;
    an accepted connection, a finished handshake and a completed write are
    none.  So every run of the broker, with any number of clients in any
    order, which is a run of its event loop, is a run of the machine with the
    same clients, the same output
    streams, the same subscriptions, current and stored, each once, and the
    same retained messages. *)
Theorem broker_refines_machine w m :
  simulates w m ->
  (forall tls a, simulates (initial cfg tls a) empty_machine) /\
  (forall (env : E) now a e, performs env now w a e ->
     exists w' m', exec cfg env now e w = (Ret tt, w') /\ machine_action cfg m a m' /\ simulates w' m') /\
  (forall (env : E) now e, quiet w e ->
     exists o w', exec cfg env now e w = (o, w') /\ o <> Deadlock /\ o <> Undefined /\ simulates w' m) /\
  (forall l w', wire_run w l w' ->
     (exists m', machine_run cfg m l m' /\ simulates w' m') /\
     forall a, reachable cfg a w -> reachable cfg a w').
Proof using Hmax Hips H0.
  intros Hm. split; [apply initial_simulates|]. split; [|split].
  - intros. by apply action_simulated.
  - intros. by apply quiet_simulates.
  - intros l w' Hr. split; [by eapply wire_run_simulated|]. intros a Hw. by eapply wire_run_reachable.
Qed.

(** ** What a subscriber receives *)

Lemma machine_run_app m l1 l2 m' :
  machine_run cfg m (l1 ++ l2) m' -> exists m1, machine_run cfg m l1 m1 /\ machine_run cfg m1 l2 m'.
Proof.
  revert m. induction l1 as [|a l1 IH]; intros m Hr; simpl in Hr.
  - exists m. split; [constructor|done].
  - inversion Hr as [|? ? m1 ? ? Hst Hr1]; subst. destruct (IH m1 Hr1) as (m2 & H1 & H2).
    exists m2. split; [by econstructor|done].
Qed.

(** In the list of actions the client stays connected, and does not take the
    filter back. *)
Definition keeps (x : session_id) (gs : list string) (l : list action) : Prop :=
  Forall (fun a => match a with
                   | Ask (Unsubscribe y _ fs) _ => y = x -> gs ∉ topic.split <$> fs
                   | Ask _ _ => True
                   | Connect y _ | Disconnect y | Lost y => y <> x
                   end) l.

Lemma machine_subs_kept m l m' x gs :
  machine_run cfg m l m' -> keeps x gs l -> (x, gs) ∈ m_subs m -> (x, gs) ∈ m_subs m'.
Proof.
  induction 1 as [m|m a m1 l m2 Hst _ IH]; [done|]. intros [Hk Hks]%Forall_cons_1 Hin. apply IH; [done|]. clear IH.
  destruct Hst as [m rq ok m1 Hst|m y conn|m y|m y]; simpl.
  - destruct Hst; simpl in *; try done; [set_solver|]. apply elem_of_filter. split; [|done]. simpl. intros [-> Hg].
    by apply Hk.
  - set_solver.
  - apply elem_of_filter. split; [|done]. simpl. congruence.
  - apply elem_of_filter. split; [|done]. simpl. congruence.
Qed.

Lemma machine_out_grows m l m' x gs o :
  machine_run cfg m l m' -> keeps x gs l -> m_out m !! x = Some o -> exists o', m_out m' !! x = Some (o ++ o').
Proof.
  intros Hr. revert o. induction Hr as [m|m a m1 l m2 Hst _ IH]; intros o Hk Ho.
  { exists []. by rewrite app_nil_r. }
  apply Forall_cons_1 in Hk as [Hk Hks].
  assert (H1 : exists o1, m_out m1 !! x = Some (o ++ o1)).
  { destruct Hst as [m rq ok m1 Hst|m y conn|m y|m y]; simpl.
    - destruct Hst; simpl; rewrite ?lookup_send, ?Ho; simpl; eauto.
      + unfold after_publication. rewrite map_lookup_imap, Ho. simpl. eauto.
      + exists []. by rewrite app_nil_r.
    - rewrite lookup_insert_ne, Ho by done. exists []. by rewrite app_nil_r.
    - rewrite lookup_delete_ne, Ho by done. exists []. by rewrite app_nil_r.
    - rewrite lookup_delete_ne, Ho by done. exists []. by rewrite app_nil_r. }
  destruct H1 as (o1 & H1). destruct (IH _ Hks H1) as (o2 & H2). exists (o1 ++ o2). by rewrite app_assoc.
Qed.

Lemma copies_matching m x t f :
  (x, topic.split f) ∈ m_subs m -> topic.is_valid_topic cfg t = true ->
  topic.is_valid_filter cfg f = true -> topic.matches t f = true -> (0 < copies m x t)%nat.
Proof.
  intros Hin Hv%valid_topic_plain Hf Hm. unfold copies.
  assert (Hs : filter_shape (topic.split f)).
  { apply filter_segments_ok_shape. unfold topic.is_valid_filter in Hf. by repeat case_match. }
  assert (Hc : topic.split f ∈ filter (fun gs => (x, gs) ∈ m_subs m) (candidates (topic.split t))).
  { apply list_elem_of_filter. split; [done|]. apply candidates_matches; [done|].
    apply matchers_disagree_on_parent_level; [done|done|]. left. exact Hm. }
  destruct (filter _ _); [by apply elem_of_nil in Hc|]. simpl. lia.
Qed.

(** A machine in which [x] has the subscription and keeps it: the publication
    that ends the run ends its stream. *)
Lemma machine_delivers m l y t pl r dp m' x f o :
  machine_run cfg m (l ++ [Ask (Publish y t pl r dp) true]) m' ->
  (x, topic.split f) ∈ m_subs m -> m_out m !! x = Some o -> keeps x (topic.split f) l ->
  topic.is_valid_filter cfg f = true -> topic.is_valid_topic cfg t = true -> topic.matches t f = true ->
  exists o', m_out m' !! x = Some (o ++ o' ++ [publication t pl]).
Proof.
  intros Hrun Hin Ho Hk Hf Hv Hmt. apply machine_run_app in Hrun as (m1 & Hr1 & Hlast).
  pose proof (machine_subs_kept _ _ _ _ _ Hr1 Hk Hin) as Hin1.
  destruct (machine_out_grows _ _ _ _ _ _ Hr1 Hk Ho) as (o1 & Ho1).
  pose proof (copies_matching m1 x t f Hin1 Hv Hf Hmt) as Hpos.
  inversion Hlast as [|? ? m2 ? ? Hst Hnil]; subst. inversion Hnil; subst.
  inversion Hst as [? ? ? ? Hp| | |]; subst. inversion Hp; subst. simpl.
  unfold after_publication. rewrite map_lookup_imap, Ho1. simpl.
  destruct (copies m1 x t) as [|n]; [lia|]. exists (o1 ++ replicate n (publication t pl)).
  rewrite replicate_S_end. by rewrite <- !app_assoc.
Qed.

Lemma stream_of w m x o :
  simulates w m -> m_out m !! x = Some o ->
  exists s, sessions w !! x = Some s /\ connected_ s = true /\ outstream s = o.
Proof.
  intros Hm Ho. rewrite (si_out _ _ Hm x) in Ho. destruct (sessions w !! x) as [s|]; [|done].
  simpl in Ho. unfold stream_in in Ho. destruct (connected_ s) eqn:Hc; [|done]. injection Ho as <-. by exists s.
Qed.

(** [C4] A subscriber receives what it subscribed to: in a [wire_run] that starts with
    client [x] being granted a filter, and in which it stays connected and
    does not take the filter back, when somebody's QoS 0 publication on a matching
    topic is admitted, the output stream of [x] ends with that publication, topic
    and payload unchanged, behind everything it was sent before.  The run is made
    of what the broker is ready for: admitted CONNECTs (client id not in use,
    address not banned, credentials accepted, keepalive that can be timed),
    SUBSCRIBEs and UNSUBSCRIBEs with one filter, QoS 0 PUBLISHes, PINGREQs,
    DISCONNECTs and losses, one frame per segment and with room in the queues,
    between accepts, handshakes and completed writes. *)
Theorem subscriber_receives w m x s pid f q l y t pl r dp w' :
  simulates w m -> sessions w !! x = Some s -> connected_ s = true ->
  wire_run w (Ask (Subscribe x pid f q) true :: l ++ [Ask (Publish y t pl r dp) true]) w' ->
  keeps x (topic.split f) l -> topic.is_valid_filter cfg f = true ->
  topic.is_valid_topic cfg t = true -> topic.matches t f = true ->
  exists s' o, sessions w' !! x = Some s' /\ connected_ s' = true /\
    outstream s' = outstream s ++ o ++ [publication t pl].
Proof using Hmax Hips H0.
  intros Hm Hs Hc Hr Hk Hf Hv Hmt. destruct (wire_run_simulated _ _ _ Hr m Hm) as (m' & Hrun & Hm').
  destruct (client_connected w m x s Hm Hs Hc) as [_ Ho].
  inversion Hrun as [|? ? m1 ? ? Hst Hr1]; subst. inversion Hst as [? ? ? ? Hsu| | |]; subst.
  assert (Hin : (x, topic.split f) ∈ m_subs m1) by (inversion Hsu; subst; simpl; set_solver).
  assert (Ho1 : exists o1, m_out m1 !! x = Some (outstream s ++ o1)).
  { inversion Hsu; subst; simpl. rewrite lookup_send, Ho. by eexists. }
  destruct Ho1 as (o1 & Ho1).
  destruct (machine_delivers _ _ _ _ _ _ _ _ _ _ _ Hr1 Hin Ho1 Hk Hf Hv Hmt) as (o2 & Ho2).
  destruct (stream_of w' m' x _ Hm' Ho2) as (s' & Hs' & Hc' & Hos). exists s', (o1 ++ o2).
  rewrite Hos. by rewrite <- !app_assoc.
Qed.

(** ** Sessions that are resumed *)

Definition clients_after (cl : gmap session_id (string * bool)) (a : action) : gmap session_id (string * bool) :=
  match a with
  | Ask _ _ => cl
  | Connect x conn => <[x := (client_id conn, clean_session conn)]> cl
  | Disconnect x | Lost x => delete x cl
  end.

(** In the list of actions nobody under the client id gives the filter up or
    starts a clean session. *)
Fixpoint remembers (c f : string) (cl : gmap session_id (string * bool)) (l : list action) : Prop :=
  match l with
  | [] => True
  | a :: l =>
      match a with
      | Ask (Unsubscribe y _ fs) _ => cl !! y = Some (c, false) -> f ∉ fs
      | Ask _ _ => True
      | Connect _ conn => client_id conn = c -> clean_session conn = false
      | Disconnect _ => True
      | Lost y => cl !! y <> Some (c, true)
      end /\ remembers c f (clients_after cl a) l
  end.

Lemma machine_clients m a m' : machine_action cfg m a m' -> m_clients m' = clients_after (m_clients m) a.
Proof. intros [? ? ? ? []| | |]; done. Qed.

Lemma machine_stored_kept c f l : forall m m',
  machine_run cfg m l m' -> remembers c f (m_clients m) l -> (c, f) ∈ m_stored m -> (c, f) ∈ m_stored m'.
Proof.
  induction l as [|a l IH]; intros m m' Hr Hre Hin; inversion Hr as [|? ? m1 ? ? Hst Hr1]; subst; [done|].
  destruct Hre as [Ha Hre]. rewrite <- (machine_clients _ _ _ Hst) in Hre. apply (IH m1 m' Hr1 Hre). clear IH Hr1 Hre.
  destruct Hst as [m rq ok m1 Hst|m y conn|m y|m y]; simpl.
  - destruct Hst; simpl; try done.
    + unfold kept_with. destruct (m_clients m !! x) as [[c' []]|]; set_solver.
    + unfold kept_without. destruct (m_clients m !! x) as [[c' []]|] eqn:Ec; try done.
      apply elem_of_filter. split; [|done]. simpl. intros [-> Hf]. by apply Ha.
  - destruct (clean_session conn) eqn:Ecl; [|done]. apply elem_of_filter. split; [|done]. simpl. intros He.
    by specialize (Ha (eq_sym He)).
  - done.
  - unfold kept_after_loss. destruct (m_clients m !! y) as [[c' []]|] eqn:Ec; try done.
    destruct (String.eqb c' ""); [done|]. apply elem_of_filter. split; [|done]. simpl. congruence.
Qed.

(** [C5] A persistent session survives: a client with a persistent session is
    granted a filter; then follows any [wire_run], in which its connection may be
    lost.  As long as nobody under its client id gives the filter up or asks for
    a clean session, a later CONNECT of the client that is admitted, on any
    connection, is answered with the session-present flag, and an admitted QoS 0
    publication on a matching topic then reaches it on that connection without
    a new SUBSCRIBE.  Admitted means in particular that no connected session
    holds the client id any more; with one that does the CONNECT blocks
    ([takeover_deadlocks]). *)
Theorem session_resumed w m x s pid f q l1 z conn l2 y t pl r dp w' :
  simulates w m -> sessions w !! x = Some s -> connected_ s = true -> clean_session_ s = false ->
  client_id conn = client_id_ s -> clean_session conn = false ->
  wire_run w (Ask (Subscribe x pid f q) true :: l1 ++ Connect z conn :: l2 ++ [Ask (Publish y t pl r dp) true]) w' ->
  remembers (client_id_ s) f (m_clients m) l1 -> keeps z (topic.split f) l2 ->
  topic.is_valid_filter cfg f = true -> topic.is_valid_topic cfg t = true -> topic.matches t f = true ->
  exists s' o, sessions w' !! z = Some s' /\ connected_ s' = true /\
    outstream s' = PacketBuilder.build_connack true ACCEPTED :: o ++ [publication t pl].
Proof using Hmax Hips H0.
  intros Hm Hs Hc Hcl Hid Hcc Hr Hre Hk Hf Hv Hmt. destruct (wire_run_simulated _ _ _ Hr m Hm) as (m' & Hrun & Hm').
  destruct (client_connected w m x s Hm Hs Hc) as [Hmc _]. rewrite Hcl in Hmc.
  inversion Hrun as [|? ? m1 ? ? Hst Hr1]; subst.
  assert (Hin : (client_id_ s, f) ∈ m_stored m1).
  { inversion Hst as [? ? ? ? Hsu| | |]; subst. inversion Hsu; subst; simpl. unfold kept_with. rewrite Hmc. set_solver. }
  apply machine_run_app in Hr1 as (m2 & Hr2 & Hr3).
  rewrite <- (machine_clients _ _ _ Hst : _ = m_clients m) in Hre.
  pose proof (machine_stored_kept _ _ _ _ _ Hr2 Hre Hin) as Hin2.
  inversion Hr3 as [|? ? m3 ? ? Hst3 Hr4]; subst. inversion Hst3; subst.
  assert (Hres : (client_id_ s, f) ∈ resumed_filters m2 conn).
  { unfold resumed_filters. rewrite Hcc. apply elem_of_filter. by split. }
  assert (Hin3 : (z, topic.split f) ∈ m_subs (after_connect m2 z conn)).
  { simpl. apply elem_of_union_l, elem_of_map. by exists (client_id_ s, f). }
  assert (Ho : m_out (after_connect m2 z conn) !! z = Some [PacketBuilder.build_connack true ACCEPTED]).
  { simpl. rewrite lookup_insert_eq. rewrite bool_decide_false; [done|]. set_solver. }
  destruct (machine_delivers _ _ _ _ _ _ _ _ _ _ _ Hr4 Hin3 Ho Hk Hf Hv Hmt) as (o & Ho').
  destruct (stream_of w' m' z _ Hm' Ho') as (s' & Hs' & Hc' & Hos). by exists s', o.
Qed.

End Refinement.

(** ** A story, for the witnesses

    A client with a persistent session connects, subscribes, loses its
    connection, comes back on a new one and publishes. *)

Definition story_client : ConnectPacket :=
  {| protocol_name := "MQTT"; protocol_level := 4; clean_session := false; will_flag := false; will_qos := 0;
     will_retain := false; will_topic := ""; will_message := ""; username := ""; password := "";
     keepalive := 10; client_id := "dev" |}.

Definition story_arrival : event := Accepted false (Some "10.0.0.1"%string).
Definition story_subscribe : request := Subscribe 0 9 "a/+" 1.
Definition story_publish (x : session_id) : request := Publish x "a/b" (string_bytes "hi") false false.

Definition story_after (e : event) (w : World unit) : World unit := (demo_exec default_config e w).2.

Definition story_start : World unit := initial default_config false tt.
Definition story_arrived : World unit := story_after story_arrival story_start.
Definition story_connected : World unit := story_after (Read 0 false (connect_bytes story_client)) story_arrived.
Definition story_subscribed : World unit := story_after (Read 0 false (request_bytes story_subscribe)) story_connected.
Definition story_published : World unit := story_after (Read 0 false (request_bytes (story_publish 0))) story_subscribed.
Definition story_lost : World unit := story_after (Read 0 true []) story_subscribed.
Definition story_returned : World unit := story_after story_arrival story_lost.
Definition story_resumed : World unit := story_after (Read 1 false (connect_bytes story_client)) story_returned.
Definition story_told : World unit := story_after (Read 1 false (request_bytes (story_publish 1))) story_resumed.

Lemma story_exec e w :
  (demo_exec default_config e w).1 = Ret tt -> exec (E := unit) default_config tt 0 e w = (Ret tt, story_after e w).
Proof. intros Ho. rewrite <- Ho. apply surjective_pairing. Qed.

(** A frame on a session of a concrete state. *)
Lemma story_fits (w : World unit) x s f :
  sessions w !! x = Some s ->
  (fun s => Z.of_nat (Buffer.write_capacity (read_buf_ s))) <$> sessions w !! x = Some 4096 ->
  valid_frame default_config f -> Z.of_nat (length f) <= 4096 -> frame_fits default_config s f.
Proof.
  intros Hs Hc Hv Hl. rewrite Hs in Hc. injection Hc as Hc.
  assert (Hp : 4096 <= u64 (max_parser_buffer_size default_config)) by (vm_compute; discriminate).
  constructor; [done|lia|lia].
Qed.

Lemma story_room (w : World unit) out :
  bool_decide (map_Forall (fun _ s => Z.of_nat (length (write_queue_ s)) <= 10) (sessions w)) = true ->
  (length out <= 10)%nat -> room_for default_config (sessions w) out.
Proof.
  intros Hq%bool_decide_eq_true Ho x s Hs _. apply Hq in Hs.
  assert (Hp : (length (packets_for x out) <= length out)%nat).
  { unfold packets_for. rewrite length_fmap. apply length_filter. }
  assert (Hm : 100 <= max_write_queue_size default_config) by (vm_compute; discriminate). lia.
Qed.

Lemma story_encodable : connect_encodable story_client.
Proof. constructor; vm_compute; intuition congruence. Qed.

(** The CONNECT is accepted where nobody is registered under the client id. *)
Lemma story_admitted (w : World unit) x s :
  sessions w !! x = Some s ->
  (fun s => (connected_ s, socket_open s, reading s, Z.of_nat (Buffer.write_capacity (read_buf_ s)))) <$>
    sessions w !! x = Some (false, true, true, 4096) ->
  auth_ban_until (server_state w) = ∅ -> active_clients (server_state w) = ∅ ->
  admitted (E := unit) default_config tt 0 w x s story_client.
Proof.
  intros Hs Hf Hb Ha. rewrite Hs in Hf. simpl in Hf. injection Hf as Hc Ho Hr Hcap. constructor.
  - split; [exact Hc|]. split; [exact Ho|]. left. exact Hr.
  - exact Hr.
  - exact story_encodable.
  - apply (story_fits w x s); [exact Hs|rewrite Hs; simpl; by rewrite Hcap| |vm_compute; discriminate].
    exists 0x10, (connect_body story_client). split; [reflexivity|]. vm_compute. intuition congruence.
  - constructor; [reflexivity|reflexivity|left; discriminate].
  - vm_compute. reflexivity.
  - unfold not_banned. by rewrite Hb, lookup_empty.
  - exists (auth w). left. by split.
  - intros old so Hold. by rewrite Ha, lookup_empty in Hold.
  - reflexivity.
Qed.

Lemma story_arrived_admitted :
  exists s, sessions story_arrived !! 0%nat = Some s /\
    admitted (E := unit) default_config tt 0 story_arrived 0 s story_client.
Proof.
  destruct (demo_session story_arrived 0%nat reading true) as (s & Hs & _); [by vm_compute|].
  exists s. split; [exact Hs|]. apply (story_admitted _ _ _ Hs); vm_compute; reflexivity.
Qed.

Lemma story_returned_admitted :
  exists s, sessions story_returned !! 1%nat = Some s /\
    admitted (E := unit) default_config tt 0 story_returned 1 s story_client.
Proof.
  destruct (demo_session story_returned 1%nat reading true) as (s & Hs & _); [by vm_compute|].
  exists s. split; [exact Hs|]. apply (story_admitted _ _ _ Hs); vm_compute; reflexivity.
Qed.

Lemma story_subscribe_ready : ready (E := unit) default_config tt story_connected story_subscribe true.
Proof.
  destruct (demo_session story_connected 0%nat (fun s => (connected_ s, client_id_ s)) (true, "dev"%string))
    as (s & Hs & [= Hc Hi]); [by vm_compute|].
  assert (He : encodable default_config story_subscribe) by (vm_compute; intuition congruence).
  exists s. split; [exact Hs|]. split; [exact Hc|]. split; [exact He|]. split; [|split].
  - apply (story_fits story_connected 0); [exact Hs|vm_compute; reflexivity|by apply request_valid_frame|].
    vm_compute. discriminate.
  - right. split; [vm_compute; reflexivity|]. exists Access.READWRITE, tt. split; [reflexivity|].
    rewrite Hi. destruct (clean_session_ s); vm_compute; reflexivity.
  - apply story_room; [vm_compute; reflexivity|]. apply Nat.leb_le. vm_compute. reflexivity.
Qed.

Lemma story_publish_ready (w : World unit) x :
  (fun s => (connected_ s, Z.of_nat (Buffer.write_capacity (read_buf_ s)))) <$> sessions w !! x = Some (true, 4096) ->
  bool_decide (map_Forall (fun _ s => Z.of_nat (length (write_queue_ s)) <= 10) (sessions w)) = true ->
  (length (outgoing default_config w (story_publish x) true) <=? 10)%nat = true ->
  ready (E := unit) default_config tt w (story_publish x) true.
Proof.
  intros Hf Hq Hl. destruct (sessions w !! x) as [s|] eqn:Hs; [|done]. injection Hf as Hc Hcap.
  assert (He : encodable default_config (story_publish x)) by (constructor; vm_compute; intuition congruence).
  exists s. split; [exact Hs|]. split; [exact Hc|]. split; [exact He|]. split; [|split].
  - apply (story_fits w x); [exact Hs|rewrite Hs; simpl; by rewrite Hcap|by apply request_valid_frame|].
    vm_compute. discriminate.
  - exists Access.READWRITE, (auth w). split; [by destruct (auth w)|]. vm_compute. reflexivity.
  - apply story_room; [exact Hq|]. by apply Nat.leb_le.
Qed.

Lemma story_action (w : World unit) a e l w2 :
  performs (E := unit) default_config tt 0 w a e -> (demo_exec default_config e w).1 = Ret tt ->
  wire_run (E := unit) default_config (story_after e w) l w2 -> wire_run (E := unit) default_config w (a :: l) w2.
Proof. intros Hp Ho Hr. eapply run_action; [exact Hp|by apply story_exec|exact Hr]. Qed.

Lemma story_quiet (w : World unit) e l w2 :
  quiet w e -> wire_run (E := unit) default_config (story_after e w) l w2 ->
  wire_run (E := unit) default_config w l w2.
Proof. intros Hq Hr. eapply (run_quiet default_config tt 0 w e); [exact Hq|apply surjective_pairing|exact Hr]. Qed.

(** From the start to the subscription. *)
Lemma story_run_start l w :
  wire_run (E := unit) default_config story_connected l w ->
  wire_run (E := unit) default_config story_start (Connect 0 story_client :: l) w.
Proof.
  intros Hr. apply (story_quiet story_start story_arrival); [reflexivity|].
  destruct story_arrived_admitted as (s & Hs & Had).
  eapply story_action; [by eapply performs_connect|vm_compute; reflexivity|exact Hr].
Qed.

Lemma story_run_subscribe l w :
  wire_run (E := unit) default_config story_subscribed l w ->
  wire_run (E := unit) default_config story_connected (Ask story_subscribe true :: l) w.
Proof.
  intros Hr. eapply story_action; [apply performs_ask, story_subscribe_ready|vm_compute; reflexivity|exact Hr].
Qed.

Lemma story_run_publish :
  wire_run (E := unit) default_config story_subscribed [Ask (story_publish 0) true] story_published.
Proof.
  eapply story_action; [apply performs_ask, story_publish_ready; vm_compute; reflexivity|vm_compute; reflexivity|].
  apply run_nil.
Qed.

Lemma story_run_return :
  wire_run (E := unit) default_config story_subscribed
    ([Lost 0] ++ Connect 1 story_client :: [] ++ [Ask (story_publish 1) true]) story_told.
Proof.
  destruct (demo_session story_subscribed 0%nat connected_ true) as (s & Hs & Hc); [by vm_compute|].
  eapply story_action; [eapply (performs_lost _ _ _ _ 0 s); [exact Hs|exact Hc|apply loses_read]|vm_compute; reflexivity|].
  apply (story_quiet _ story_arrival); [vm_compute; reflexivity|].
  destruct story_returned_admitted as (s1 & Hs1 & Had).
  eapply story_action; [by eapply performs_connect|vm_compute; reflexivity|].
  eapply story_action; [apply performs_ask, story_publish_ready; vm_compute; reflexivity|vm_compute; reflexivity|].
  apply run_nil.
Qed.

Lemma story_connected_simulates :
  simulates default_config story_connected (after_connect empty_machine 0 story_client).
Proof.
  assert (Hr : wire_run (E := unit) default_config story_start [Connect 0 story_client] story_connected)
    by (apply story_run_start, run_nil).
  destruct (wire_run_simulated (E := unit) default_config ltac:(reflexivity) ltac:(reflexivity) _ _ _ Hr empty_machine) as (m & Hm & Hs).
  - apply (initial_simulates (E := unit)). reflexivity.
  - inversion Hm as [|? ? m1 ? ? Ha Hn]; subst. inversion Hn; subst. by inversion Ha; subst.
Qed.

Lemma broker_refines_machine_witness :
  exists m', machine_run default_config empty_machine
      [Connect 0 story_client; Ask story_subscribe true; Ask (story_publish 0) true] m' /\
    simulates default_config story_published m'.
Proof.
  destruct (broker_refines_machine (E := unit) default_config ltac:(reflexivity) ltac:(reflexivity) story_start empty_machine
    (initial_simulates (E := unit) default_config ltac:(reflexivity) false tt)) as (_ & _ & _ & Hrun).
  apply Hrun, story_run_start, story_run_subscribe, story_run_publish.
Defined.

Lemma subscriber_receives_witness :
  exists s' o, sessions story_published !! 0%nat = Some s' /\
    outstream s' = o ++ [publication "a/b" (string_bytes "hi")].
Proof.
  destruct (demo_session story_connected 0%nat connected_ true) as (s & Hs & Hc); [by vm_compute|].
  destruct (subscriber_receives (E := unit) default_config ltac:(reflexivity) ltac:(reflexivity) story_connected
    (after_connect empty_machine 0 story_client) 0%nat s 9 "a/+" 1 [] 0%nat "a/b" (string_bytes "hi") false false
    story_published) as (s' & o & Hs' & _ & Ho).
  - exact story_connected_simulates.
  - exact Hs.
  - exact Hc.
  - apply story_run_subscribe, story_run_publish.
  - constructor.
  - vm_compute. reflexivity.
  - vm_compute. reflexivity.
  - vm_compute. reflexivity.
  - exists s', (outstream s ++ o). split; [exact Hs'|]. rewrite Ho. apply app_assoc.
Defined.

Lemma session_resumed_witness :
  exists s' o, sessions story_told !! 1%nat = Some s' /\
    outstream s' = PacketBuilder.build_connack true ACCEPTED :: o ++ [publication "a/b" (string_bytes "hi")].
Proof.
  destruct (demo_session story_connected 0%nat (fun s => (connected_ s, clean_session_ s, client_id_ s))
    (true, false, "dev"%string)) as (s & Hs & [= Hc Hcl Hi]); [by vm_compute|].
  destruct (session_resumed (E := unit) default_config ltac:(reflexivity) ltac:(reflexivity) story_connected
    (after_connect empty_machine 0 story_client) 0%nat s 9 "a/+" 1 [Lost 0] 1%nat story_client [] 1%nat "a/b"
    (string_bytes "hi") false false story_told) as (s' & o & Hs' & _ & Ho).
  - exact story_connected_simulates.
  - exact Hs.
  - exact Hc.
  - exact Hcl.
  - rewrite Hi. reflexivity.
  - reflexivity.
  - apply story_run_subscribe, story_run_return.
  - rewrite Hi. split; [|exact I]. vm_compute. discriminate.
  - constructor.
  - vm_compute. reflexivity.
  - vm_compute. reflexivity.
  - vm_compute. reflexivity.
  - exists s', o. split; [exact Hs'|exact Ho].
Defined.
