(* ===== verification/Behaviour.v ===== *)
(** * What the session handlers do

    Functional theorems about single handlers of [src/session.cpp]: the write
    queue, the gates in front of PUBLISH and SUBSCRIBE, the authentication
    ban, and the paths on which a handler does less than its name says. *)

From Stdlib Require Import Strings.String ZArith Lia.
From stdpp Require Import base list strings numbers option gmap fin_maps sets.
From S2P Require Import Prelude Config Buffer Packet Parser Filter TopicTree Retained Subscription Auth Timer Qos Inflight Qos1 Qos2 Delivery World Session Closing Server Safety Routing Wire Requests.

Open Scope Z_scope.

(** ** The write queue *)

(** Packets leave a session in the order they were delivered: [deliver]
    to a connected session with room appends the packet to the output stream,
    and the completion of a write neither drops, repeats nor reorders
    anything. *)
Theorem write_queue_fifo {A} cfg (w : World A) sid s packet :
  world_wf cfg None Free w -> sessions w !! sid = Some s ->
  (connected_ s = true -> has_room cfg s = true ->
   exists s', sessions (Session.deliver cfg sid packet w).2 !! sid = Some s' /\
     outstream s' = outstream s ++ [packet]) /\
  (writing_ s = true ->
   exists s', sessions (Session.on_write sid false w).2 !! sid = Some s' /\
     outstream s' = outstream s).
Proof.
  intros Hw Hs. pose proof (ww_sessions _ _ _ _ Hw sid s Hs) as Hsw. split.
  - intros Hc Hr. rewrite (deliver_cases cfg sid packet w s Hs), Hc, Hr. simpl.
    rewrite lookup_alter_eq, Hs. eexists. split; [done|]. apply outstream_enqueue; [by eapply (sw_writing cfg)|done].
  - intros Hwr. rewrite (on_write_eq w sid s Hs (sw_writing _ _ _ _ Hsw Hwr)).
    cbn [snd]. rewrite (updated w sid s _ Hs). eexists. split; [done|].
    by eapply (outstream_written cfg).
Qed.

Lemma write_queue_fifo_witness :
  exists s s', sessions demo_connected !! 0%nat = Some s /\
    sessions (Session.deliver tiny_config 0 PacketBuilder.build_pingresp demo_connected).2 !! 0%nat =
      Some s' /\ outstream s' = outstream s ++ [PacketBuilder.build_pingresp].
Proof.
  destruct (demo_session demo_connected 0%nat
              (fun s => (connected_ s, has_room tiny_config s)) (true, true)) as (s & Hs & Hx);
    [by vm_compute|]. apply pair_equal_spec in Hx as [Hc Hr].
  destruct (write_queue_fifo tiny_config demo_connected 0%nat s PacketBuilder.build_pingresp)
    as [Hd _]; [exact demo_connected_wf|exact Hs|].
  destruct (Hd Hc Hr) as (s' & Hs' & Ho). exists s, s'.
  split; [exact Hs|]. split; [exact Hs'|exact Ho].
Defined.

(** What happens to the queue of a connected session: packets are delivered to it,
    and outstanding writes complete. *)
Inductive queue_act : Type :=
| Deliver (packet : Buffer)
| Complete.

Definition is_complete (a : queue_act) : bool := match a with Complete => true | _ => false end.
Definition completions (l : list queue_act) : nat := length (filter is_complete l).
Definition deliveries (l : list queue_act) : nat := length l - completions l.

Lemma completions_le l : (completions l <= length l)%nat.
Proof. unfold completions. apply length_filter. Qed.

Lemma completions_cons a l :
  completions (a :: l) = ((if is_complete a then 1 else 0) + completions l)%nat /\
  deliveries (a :: l) = ((if is_complete a then 0 else 1) + deliveries l)%nat.
Proof.
  pose proof (completions_le l). unfold deliveries, completions in *. rewrite filter_cons.
  destruct a; simpl in *; split; lia.
Qed.

Definition queue_run {A} (cfg : Config) (sid : session_id) (l : list queue_act) (w : World A) : World A :=
  fold_left (fun w a =>
    match a with
    | Deliver packet => (Session.deliver cfg sid packet w).2
    | Complete =>
        match sessions w !! sid with
        | Some s => if writing_ s then (Session.on_write sid false w).2 else w
        | None => w
        end
    end) l w.

(** A connected session writes exactly while packets wait. *)
Definition pumping (s : Session) : Prop :=
  connected_ s = true /\ (writing_ s = true <-> write_queue_ s <> []).

Lemma pumping_enqueue packet s : pumping s -> pumping (enqueue packet s).
Proof.
  intros [Hc Hw]. unfold pumping, enqueue. destruct (write_queue_ s) as [|x q] eqn:E.
  - unfold pump. simpl. by rewrite Hc.
  - simpl. split; [done|]. by split; [|intros _; apply Hw].
Qed.

Lemma pumping_written s : pumping s -> pumping (written s).
Proof.
  intros [Hc Hw]. unfold pumping, written, pump. simpl.
  destruct (tail (write_queue_ s)); simpl; [done|]. rewrite Hc. done.
Qed.

Lemma queue_length_enqueue packet s :
  length (write_queue_ (enqueue packet s)) = S (length (write_queue_ s)).
Proof.
  unfold enqueue, pump. destruct (write_queue_ s) eqn:E; simpl; rewrite ?E; [by destruct (connected_ s)|].
  rewrite length_app. simpl. lia.
Qed.

Lemma queue_length_written s : write_queue_ (written s) = tail (write_queue_ s).
Proof. unfold written, pump. simpl. destruct (tail (write_queue_ s)); [done|]. by destruct (connected_ s). Qed.

Lemma sent_grows packet s : (length (sent s) <= length (sent (enqueue packet s)))%nat.
Proof.
  unfold enqueue, pump. destruct (write_queue_ s); simpl; [|lia]. destruct (connected_ s); simpl; [|lia].
  rewrite length_app. lia.
Qed.

Lemma prefix_length_app {X} (t a b : list X) :
  t `prefix_of` a ++ b -> (length t <= length a)%nat -> t `prefix_of` a.
Proof.
  intros Ht Hl. destruct (prefix_weak_total t a (a ++ b)) as [Hp|Hp]; [done|by apply prefix_app_r|done|].
  by rewrite (prefix_length_eq a t Hp Hl).
Qed.

(** A completion hands the next packet over, if there is one. *)
Lemma sent_written s :
  pumping s -> writing_ s = true ->
  outstream (written s) = outstream s /\
  ((outstream s = sent s /\ sent (written s) = sent s) \/ length (sent (written s)) = S (length (sent s))).
Proof.
  intros [Hc Hw] Hwr. unfold outstream, written, pump. rewrite Hwr.
  destruct (write_queue_ s) as [|x [|y q]] eqn:E; simpl.
  - by destruct (proj1 Hw Hwr).
  - split; [done|]. left. by rewrite !app_nil_r.
  - rewrite Hc. simpl. rewrite <- app_assoc. split; [done|]. right. rewrite length_app. simpl. lia.
Qed.

Section Draining.

Context {A : Type} (cfg : Config) (Hmax : max_write_queue_size cfg < 2 ^ 31) (sid : session_id).

Lemma room_enqueue s l packet :
  Z.of_nat (length (write_queue_ s) + deliveries (Deliver packet :: l)) <= max_write_queue_size cfg ->
  has_room cfg s = true.
Proof using Hmax.
  destruct (completions_cons (Deliver packet) l) as [_ ->]. simpl. intros Hr.
  unfold has_room, i32. rewrite Z.mod_small by lia. apply Z.ltb_lt. lia.
Qed.

Lemma queue_run_sent l : forall (w : World A) s t,
  sessions w !! sid = Some s -> pumping s -> t `prefix_of` outstream s ->
  (length t <= length (sent s) + completions l)%nat ->
  Z.of_nat (length (write_queue_ s) + deliveries l) <= max_write_queue_size cfg ->
  exists s', sessions (queue_run cfg sid l w) !! sid = Some s' /\ connected_ s' = true /\
    t `prefix_of` sent s'.
Proof using Hmax.
  induction l as [|a l IH]; intros w s t Hs Hp Ht Hl Hr.
  - exists s. split; [done|]. split; [apply Hp|]. eapply prefix_length_app; [exact Ht|].
    unfold completions in Hl. simpl in Hl. lia.
  - destruct (completions_cons a l) as [Hca Hda]. destruct a as [packet|]; simpl in Hca, Hda; unfold queue_run; cbn [fold_left].
    + assert (Hroom := room_enqueue s l packet Hr). destruct Hp as [Hc Hw].
      rewrite (deliver_cases cfg sid packet w s Hs), Hc, Hroom. cbn [negb snd].
      apply (IH _ (enqueue packet s)).
      * simpl. by rewrite lookup_alter_eq, Hs.
      * by apply pumping_enqueue.
      * rewrite outstream_enqueue by (done || apply Hw). by apply prefix_app_r.
      * pose proof (sent_grows packet s). lia.
      * rewrite queue_length_enqueue. lia.
    + rewrite Hs. destruct (writing_ s) eqn:Hwr.
      * destruct (sent_written s Hp Hwr) as [Ho Hn].
        rewrite (on_write_eq w sid s Hs (proj1 (proj2 Hp) Hwr)). cbn [snd].
        apply (IH _ (written s)).
        -- simpl. by rewrite lookup_alter_eq, Hs.
        -- by apply pumping_written.
        -- by rewrite Ho.
        -- destruct Hn as [[Hn ->]|Hn]; [|lia]. rewrite Hn in Ht. apply prefix_length in Ht. lia.
        -- rewrite queue_length_written. destruct (write_queue_ s); simpl in *; lia.
      * apply (IH w s); try (done || lia). apply prefix_length in Ht. unfold outstream in Ht. rewrite Hwr in Ht.
        destruct (write_queue_ s) as [|x q] eqn:E; [rewrite app_nil_r in Ht; lia|].
        destruct Hp as [_ Hw]. rewrite E in Hw. exfalso. destruct Hw as [_ Hw]. by rewrite Hw in Hwr.
Qed.

(** [C21] Queued packets get out: whatever is delivered to a connected session
    meanwhile, as long as its queue does not overflow, once as many writes have
    completed as packets were queued, everything that had been accepted for the
    wire has been handed to the socket, in order, and the session is still
    connected. *)
Theorem queue_drains l (w : World A) s :
  world_wf cfg None Free w -> sessions w !! sid = Some s ->
  connected_ s = true -> socket_open s = true ->
  (length (write_queue_ s) <= completions l)%nat ->
  Z.of_nat (length (write_queue_ s) + deliveries l) <= max_write_queue_size cfg ->
  exists s', sessions (queue_run cfg sid l w) !! sid = Some s' /\ connected_ s' = true /\
    outstream s `prefix_of` sent s'.
Proof using Hmax.
  intros Hw Hs Hc Ho Hl Hr. pose proof (ww_sessions _ _ _ _ Hw sid s Hs) as Hsw.
  apply (queue_run_sent l w s); [done| |done| |done].
  - split; [done|]. split; [by apply (sw_writing _ _ _ _ Hsw)|]. intros Hq.
    destruct (sw_flow _ _ _ _ Hsw Ho Hq) as [?|[? _]]; [done|congruence].
  - unfold outstream. rewrite length_app. destruct (writing_ s); [|lia]. destruct (write_queue_ s); simpl in *; lia.
Qed.

End Draining.

Lemma queue_drains_witness :
  exists s s', sessions demo_connected !! 0%nat = Some s /\
    sessions (queue_run tiny_config 0 [Complete; Deliver PacketBuilder.build_pingresp; Complete] demo_connected)
      !! 0%nat = Some s' /\ outstream s `prefix_of` sent s'.
Proof.
  destruct (demo_session demo_connected 0%nat
    (fun s => (connected_ s, socket_open s, length (write_queue_ s))) (true, true, 1%nat)) as (s & Hs & Hx);
    [by vm_compute|]. injection Hx as Hc Ho Hq.
  destruct (queue_drains tiny_config ltac:(by vm_compute) 0%nat
    [Complete; Deliver PacketBuilder.build_pingresp; Complete] demo_connected s) as (s' & Hs' & _ & Hp);
    [exact demo_connected_wf|exact Hs|exact Hc|exact Ho|rewrite Hq; apply Nat.leb_le; by vm_compute
    |rewrite Hq; by vm_compute|].
  exists s, s'. split; [exact Hs|]. split; [exact Hs'|exact Hp].
Defined.

(** ** Before CONNECT: TLS *)

(** A connection that ends before CONNECT is never given back: a failed handshake
    calls [close], which does nothing on a session that is not connected, and
    neither does the destruction of the session touch the count of the address,
    which was raised when the connection was accepted. *)
Theorem failed_handshake_keeps_count {A} cfg (w : World A) sid s :
  world_wf cfg None Free w -> sessions w !! sid = Some s -> handshaking s = true ->
  exists w', (Session.on_handshake sid true;; destroy sid) w = (Ret tt, w') /\
    sessions w' !! sid = None /\ server_state w' = server_state w.
Proof.
  intros Hw Hs Hh. pose proof (ww_sessions _ _ _ _ Hw sid s Hs) as Hsw.
  destruct (sw_handshake _ _ _ _ Hsw Hh) as (_ & Hc & _ & _).
  unfold mbind, M_bind, Session.on_handshake. rewrite (update_then w sid s) by done.
  pose proof (updated w sid s (set_handshaking false) Hs) as Hs1.
  erewrite close_disconnected; [|exact Hs1|exact Hc].
  unfold destroy, Session.stop. rewrite (update_then _ sid _ _ _ Hs1). eexists. split; [reflexivity|].
  simpl. by rewrite lookup_delete_eq.
Qed.

(** ** Before CONNECT *)

Lemma set_connected_same s : connected_ s = false -> set_connected false s = s.
Proof. destruct s; simpl. by intros ->. Qed.

Section Sessions.

Context {E A : Type} `{Authenticator E A} (cfg : Config) (env : E) (now : Z).
Abbreviation W := (World A).
Implicit Types (w : W) (s : Session).

Lemma disconnect_eq w sid s :
  sessions w !! sid = Some s -> Session.handle_disconnect sid w = (Ret tt, disconnected w sid).
Proof.
  intros Hs. unfold Session.handle_disconnect. rewrite (update_then w sid s) by done.
  apply (close_disconnected (disconnected w sid) sid (set_connected false s)); [|done].
  simpl. by rewrite lookup_alter_eq, Hs.
Qed.

(** Nothing happens before CONNECT: on a session that is not connected
    every packet but CONNECT leaves the whole state of the broker as it is. *)
Theorem preconnect_inert w sid s hdr packet :
  sessions w !! sid = Some s -> connected_ s = false ->
  packet_type_of (hdr_type hdr) <> Some CONNECT ->
  Session.dispatch cfg env now sid hdr packet w = (Ret tt, w).
Proof.
  intros Hs Hc Ht.
  assert (Hack : forall p act, Session.handle_ack sid p packet act w = (Ret tt, w)).
  { intros p act. unfold Session.handle_ack, this, mbind, M_bind. by rewrite Hs, Hc. }
  unfold Session.dispatch. destruct (packet_type_of (hdr_type hdr)) as [[]|]; try done;
    try apply Hack;
    try (unfold Session.handle_publish, Session.handle_subscribe, Session.handle_unsubscribe,
           Session.handle_pingreq, this, mbind, M_bind; by rewrite Hs, Hc).
  rewrite (disconnect_eq w sid s Hs). f_equal. unfold disconnected.
  replace (alter (set_connected false) sid (sessions w)) with (sessions w); [by destruct w|].
  symmetry. apply alter_id. intros x Hx. rewrite Hs in Hx. injection Hx as <-.
  by apply set_connected_same.
Qed.

(** ** Publishing and subscribing *)

(** The gate in front of PUBLISH: a publication the ACL denies, or whose
    topic is not valid, is counted as dropped and has no other effect: nothing
    is retained, acknowledged or delivered. *)
Theorem publish_gate w sid s packet hdr pub acc a' :
  sessions w !! sid = Some s -> connected_ s = true ->
  (parse_publish hdr packet).1 = Ret pub ->
  check_acl env (username_ s) (topic pub) Access.WRITE (auth w) = (Ret acc, a') ->
  acc = Access.NONE \/ topic.is_valid_topic cfg (topic pub) = false ->
  Session.handle_publish cfg env sid packet hdr w =
    (Ret tt, put_counters (mkCounters (received (counters w)) (published (counters w))
                             (dropped (counters w) + 1) (subscribed (counters w)))
               (put_auth a' w)).
Proof.
  intros Hs Hc Hp Ha Hd.
  unfold Session.handle_publish, this, try_parse, auth_call, mbind, M_bind.
  rewrite Hs, Hc. cbn [negb]. rewrite Hp, Ha.
  destruct (Z.eqb_spec acc Access.NONE) as [->|Hn]; [done|].
  destruct Hd as [Hd|Hd]; [done|]. by rewrite Hd.
Qed.

(** The return codes a SUBSCRIBE may get. *)
Definition code_ok (f : SubscribeFilter) (c : SubackCode) : Prop :=
  c = FAILURE \/
  (c = suback_code_of (requested_qos f) /\ topic.is_valid_filter cfg (Packet.topic_filter f) = true).

Lemma subscribe_filter_code sid s f w c w' :
  Session.subscribe_filter cfg env sid s f w = (Ret c, w') -> code_ok f c.
Proof.
  unfold Session.subscribe_filter. destruct (topic.is_valid_filter cfg (Packet.topic_filter f)) eqn:Hv;
    cbn [negb].
  2:{ intros [= <- <-]. by left. }
  intros (acc & w1 & _ & Hk)%bind_ret_inv.
  destruct (acc =? Access.NONE); [injection Hk as <- <-; by left|].
  apply bind_ret_inv in Hk as (w2 & w3 & _ & Hk).
  destruct (_ && _); [injection Hk as <- <-; by left|].
  do 4 apply bind_ret_inv in Hk as (? & ? & _ & Hk). injection Hk as <- <-. by right.
Qed.

(** SUBSCRIBE is answered filter by filter: when [handle_subscribe]'s loop
    ends, it has one return code per requested filter, in order, each either
    FAILURE or the requested QoS of a valid filter. *)
Theorem suback_codes sid s fs w codes w' :
  Session.subscribe_filters cfg env sid s fs w = (Ret codes, w') -> Forall2 code_ok fs codes.
Proof.
  revert w codes w'. induction fs as [|f fs IH]; intros w codes w'; cbn [Session.subscribe_filters].
  { intros [= <- <-]. constructor. }
  unfold mbind, M_bind.
  destruct (Session.subscribe_filter cfg env sid s f w) as [[c|e| |] w1] eqn:E1; try done.
  destruct (Session.subscribe_filters cfg env sid s fs w1) as [[cs|e| |] w2] eqn:E2; try done.
  intros [= <- <-]. constructor; [by eapply subscribe_filter_code|by eapply IH].
Qed.

(** ** Connection handling *)

(** [C38] Taking over a client id deadlocks: registering a client locks the
    server mutex and then closes the session that holds the id, whose [close]
    locks it again.  This happens exactly when another live, connected session
    is registered under the id; two clients with an empty id are such a case. *)
Theorem takeover_deadlocks w sid ip cid :
  mutex (server_state w) = false ->
  (Session.register_client sid ip cid w).1 = Deadlock <->
  exists old s, active_clients (server_state w) !! cid = Some old /\ old <> sid /\
    sessions w !! old = Some s /\ connected_ s = true.
Proof.
  intros Hm. unfold Session.register_client, with_lock, state, modify, get, mbind, M_bind.
  rewrite Hm. simpl. destruct (active_clients (server_state w) !! cid) as [old|] eqn:Eo.
  2:{ simpl. split; [done|]. intros (old & s & [=] & _). }
  change (alive (put_server_state ?st (put_server_state ?st' w)) old) with (alive w old).
  destruct (alive w old && negb (old =? sid)%nat) eqn:Ha; simpl.
  - apply andb_prop in Ha as [Ha Hne]. unfold alive in Ha. apply bool_decide_eq_true in Ha as [s Hs].
    apply negb_true_iff, Nat.eqb_neq in Hne.
    set (w1 := put_server_state _ (put_server_state _ w)).
    assert (Hs1 : sessions w1 !! old = Some s) by done.
    destruct (connected_ s) eqn:Hc.
    + rewrite (close_deadlock w1 old s Hs1 Hc eq_refl). split; [|done]. intros _. by exists old, s.
    + rewrite (close_disconnected w1 old s Hs1 Hc). split; [done|].
      intros (old' & s' & [= <-] & _ & Hs' & Hc'). congruence.
  - split; [done|]. intros (old' & s' & [= <-] & Hne & Hs' & _). apply andb_false_iff in Ha as [Ha|Ha].
    + unfold alive in Ha. apply bool_decide_eq_false in Ha. rewrite Hs' in Ha. destruct Ha. by eexists.
    + apply negb_false_iff, Nat.eqb_eq in Ha. done.
Qed.

Lemma refuse_inert w sid s code :
  sessions w !! sid = Some s -> connected_ s = false ->
  Session.refuse cfg sid code w = (Ret tt, w).
Proof.
  intros Hs Hc. unfold Session.refuse, mbind, M_bind.
  rewrite (deliver_cases cfg sid _ w s Hs), Hc. simpl. by apply (close_disconnected w sid s).
Qed.

(** A refusal is silent: a CONNECT with the wrong protocol, or without a
    client id for a persistent session, changes nothing.  The CONNACK is not
    sent, since [deliver] drops packets of unconnected sessions, and the socket
    is not closed, since [close] ignores them. *)
Theorem refused_connect_silent w sid s packet conn :
  sessions w !! sid = Some s -> connected_ s = false -> (parse_connect packet).1 = Ret conn ->
  protocol_name conn <> MQTT_PROTOCOL_NAME \/ protocol_level conn <> MQTT_PROTOCOL_LEVEL \/
  (client_id conn = ""%string /\ clean_session conn = false) ->
  Session.handle_connect cfg env now sid packet w = (Ret tt, w).
Proof.
  intros Hs Hc Hp Hr. pose proof (refuse_inert w sid s) as Hn.
  unfold Session.handle_connect, this, try_parse, mbind, M_bind. rewrite Hs, Hc, Hp.
  destruct (negb _ || negb _) eqn:Hproto; [by apply Hn|].
  apply orb_false_iff in Hproto as [Hp1 Hp2].
  apply negb_false_iff, String.eqb_eq in Hp1. apply negb_false_iff, Z.eqb_eq in Hp2.
  destruct Hr as [Hr|[Hr|[-> ->]]]; [done..|]. by apply Hn.
Qed.

(** DISCONNECT leaks the connection: the handler clears [connected_] before
    it calls [close], which then does nothing.  The socket stays open, the
    address keeps its connection count, the client id its registration, and
    the session its subscriptions; only the flag has changed. *)
Theorem disconnect_leaks w sid s :
  sessions w !! sid = Some s ->
  Session.handle_disconnect sid w =
    (Ret tt, put_sessions (alter (set_connected false) sid (sessions w)) w) /\
  Session.close sid (Session.handle_disconnect sid w).2 =
    (Ret tt, (Session.handle_disconnect sid w).2).
Proof.
  intros Hs. rewrite (disconnect_eq w sid s Hs). split; [done|]. simpl.
  apply (close_disconnected _ sid (set_connected false s)); [|done].
  simpl. by rewrite lookup_alter_eq, Hs.
Qed.

(** Closing a clean session withdraws from the tree only the
    subscriptions recorded in the subscription manager, where clean sessions
    record none: its subscriptions stay in the tree. *)
Theorem clean_session_subscriptions_stay w sid s :
  sessions w !! sid = Some s -> connected_ s = true -> mutex (server_state w) = false ->
  clean_session_ s = true ->
  SubscriptionManager.get_client_subs (client_id_ s) (sub_manager w) = [] ->
  topic_tree (Session.close sid w).2 = topic_tree w.
Proof.
  intros Hs Hc Hm Hcl Hsub. rewrite (close_connected w sid s Hs Hc Hm). simpl.
  unfold withdrawn. rewrite Hsub. by destruct (clean_session_ s && _).
Qed.

(** A PUBREL for which the client has no QoS 2 publication waiting (such
    as the retransmission of one already completed) is not answered with
    PUBCOMP; instead the broker gives up its own outgoing QoS 2 message with
    the same identifier, if there is one, and frees that identifier. *)
Theorem stray_pubrel w sid s packet pid :
  sessions w !! sid = Some s -> connected_ s = true -> (parse_pubrel packet).1 = Ret pid ->
  incoming (client_id_ s) pid (delivery_engine w) = None ->
  exists d, Session.handle_pubrel cfg sid packet w = (Ret tt, put_delivery_engine d w) /\
    find_message (client_id_ s) pid (outgoing_ (qos2_ d)) = None /\
    qos1_ d = qos1_ (delivery_engine w) /\
    (forall c p, (c, p) <> (client_id_ s, pid) ->
       find_message c p (outgoing_ (qos2_ d)) =
       find_message c p (outgoing_ (qos2_ (delivery_engine w)))).
Proof.
  intros Hs Hc Hp Hi. pose proof (complete_spec cfg (view_of w) (client_id_ s) pid (topic_tree w) (delivery_engine w)) as Hx.
  rewrite Hi in Hx. exists (DeliveryEngine.handle_pubrel (client_id_ s) pid (delivery_engine w)).
  split.
  - unfold Session.handle_pubrel, Session.handle_ack, this, try_parse, mbind, M_bind.
    rewrite Hs, Hc. cbn [negb]. rewrite Hp. unfold try_catch, Session.complete_incoming, get, mbind, M_bind.
    rewrite Hx. done.
  - simpl. unfold Qos2Handler.handle_pubrel.
    destruct (find_message (client_id_ s) pid (outgoing_ (qos2_ (delivery_engine w)))) as [m|] eqn:Em; simpl.
    + rewrite find_erase_message, decide_True by done. split; [done|]. split; [done|].
      intros c p Hne. rewrite find_erase_message, decide_False by naive_solver. done.
    + done.
Qed.

(** ** Keepalive *)

(** The effective keepalive is the client's, capped by [max_keepalive],
    and [max_keepalive] for a client that asks for none: it is never 0 when the
    configured maximum is a positive 16-bit number. *)
Theorem keepalive_clamped k :
  0 <= k < 65536 -> 0 < max_keepalive cfg < 65536 ->
  Session.clamp_keepalive cfg k = (if k =? 0 then max_keepalive cfg else Z.min k (max_keepalive cfg)) /\
  0 < Session.clamp_keepalive cfg k <= max_keepalive cfg.
Proof.
  intros Hk Hm. unfold Session.clamp_keepalive. rewrite u16_small by lia.
  destruct (Z.eqb_spec k 0); [lia|]. destruct (Z.ltb_spec (max_keepalive cfg) k); lia.
Qed.

(** ** Partial packets *)

(** A CONNECT that arrives in two pieces stalls: when a read of an
    unconnected session completes no packet, its handler returns without
    starting another read, although the socket stays open: no further byte of
    that client is ever read. *)
Theorem partial_connect_stalls w sid s c bs :
  world_wf cfg None Free w -> sessions w !! sid = Some s -> connected_ s = false -> reading s = true ->
  (length bs <= Buffer.write_capacity (read_buf_ s))%nat -> holding c (parser_ s) -> partial cfg (c ++ bs) ->
  Z.of_nat (length c + length bs) <= u64 (max_parser_buffer_size cfg) ->
  exists w' s', Session.read_handler cfg env now sid false bs w = (Ret tt, w') /\
    sessions w' !! sid = Some s' /\ connected_ s' = false /\ socket_open s' = socket_open s /\
    reading s' = false /\ holding (c ++ bs) (parser_ s') /\
    (forall ec bs', ~ enabled w' (Read sid ec bs')).
Proof.
  intros Hw Hs Hc Hr Hl Hh Hp Hf.
  rewrite (read_frames_eq cfg env now sid w s c bs [] (c ++ bs) Hw Hs Hr Hl Hh) by done.
  rewrite (update_then w sid s) by done. cbn [handle_frames].
  pose proof (updated w sid s (fed cfg bs) Hs) as Hs1. set (w1 := put_sessions _ w) in *.
  unfold mbind, M_bind, mret, M_ret. rewrite (rearm_eq sid w1 _ Hs1).
  eexists _, (rearmed (fed cfg bs s)). split; [reflexivity|]. split; [apply (updated w1 sid _ rearmed Hs1)|].
  assert (Hre : rearmed (fed cfg bs s) = fed cfg bs s) by (unfold rearmed; simpl; by rewrite Hc).
  rewrite Hre. do 3 (split; [done|]). split; [by apply feed_holding|].
  intros ec bs' (s' & Hs' & Hr' & _). rewrite (updated w1 sid _ rearmed Hs1), Hre in Hs'. by injection Hs' as <-.
Qed.

End Sessions.

(** ** The authentication ban *)

Section AuthBan.

Context {E A : Type} `{Authenticator E A} (cfg : Config)
  (Hmax : max_write_queue_size cfg < 2 ^ 31) (env : E) (now : Z).
Abbreviation W := (World A).
Implicit Types (w : W) (s : Session) (conn : ConnectPacket).

(** Before a connection is accepted a refusal sends and closes nothing. *)
Lemma refuse_unconnected w sid s code :
  sessions w !! sid = Some s -> connected_ s = false -> Session.refuse cfg sid code w = (Ret tt, w).
Proof.
  intros Hs Hc. unfold Session.refuse, mbind, M_bind. rewrite (deliver_cases cfg sid _ w s Hs), Hc.
  by apply (close_disconnected w sid s).
Qed.

Lemma check_refuses w sid s until :
  sessions w !! sid = Some s -> mutex (server_state w) = false ->
  auth_ban_until (server_state w) !! remote_ip_ s = Some until -> now < until ->
  Session.check_auth_rate_limit now sid w = (Ret false, w).
Proof.
  intros Hs Hm Hb Hn. unfold Session.check_auth_rate_limit. rewrite (this_bind_eq w sid s) by done.
  unfold with_lock, get, mret, M_ret, mbind, M_bind. destruct w as [? ? ? ? ? [mu ? ? ? ?] ? ? ?].
  simpl in *. subst mu. rewrite Hb. by rewrite_test (now <? until) true.
Qed.

(** While the ban lasts no CONNECT has any effect. *)
Lemma banned_connect w sid s until packet :
  sessions w !! sid = Some s -> connected_ s = false -> mutex (server_state w) = false ->
  auth_ban_until (server_state w) !! remote_ip_ s = Some until -> now < until -> buffer_wf packet ->
  Session.handle_connect cfg env now sid packet w = (Ret tt, w).
Proof.
  intros Hs Hc Hm Hb Hn Hp. pose proof (proj1 (parsers_safe packet Hp)) as Hsafe. unfold safe_at in Hsafe.
  unfold Session.handle_connect. rewrite (this_bind_eq w sid s) by done. rewrite Hc.
  unfold try_parse, mbind at 1, M_bind at 1.
  destruct (parse_connect packet) as [[conn|e| |] p]; simpl; [|by apply (close_disconnected w sid s)|done..].
  destruct (_ || _); [by apply (refuse_unconnected w sid s)|].
  destruct (_ && _); [by apply (refuse_unconnected w sid s)|].
  unfold mbind at 1, M_bind at 1. rewrite (check_refuses w sid s until) by done.
  by apply (refuse_unconnected w sid s).
Qed.

(** A ban that has passed is lifted, with the failures. *)
Definition lifted st (ip : string) : ServerState :=
  match auth_ban_until st !! ip with
  | Some _ => set_auth_failures (delete ip (auth_failures st)) (set_auth_ban_until (delete ip (auth_ban_until st)) st)
  | None => st
  end.

Lemma check_lifts w sid s :
  sessions w !! sid = Some s -> mutex (server_state w) = false -> not_banned now w (remote_ip_ s) ->
  Session.check_auth_rate_limit now sid w = (Ret true, put_server_state (lifted (server_state w) (remote_ip_ s)) w).
Proof.
  intros Hs Hm Hb. unfold Session.check_auth_rate_limit, lifted. rewrite (this_bind_eq w sid s) by done.
  unfold with_lock, get, state, modify, mret, M_ret, mbind, M_bind. rewrite Hm. simpl. unfold not_banned in Hb.
  destruct w as [? ? ? ? ? [mu ac af ab ci] ? ? ?]. simpl in *. subst mu.
  destruct (ab !! remote_ip_ s) as [u|]; [rewrite_test (now <? u) false|]; done.
Qed.

(** The failures of an address once the next one is counted. *)
Definition failures_after st (ip : string) : Z := default 0 (auth_failures (lifted st ip) !! ip) + 1.

Lemma record_counts w ip :
  mutex (server_state w) = false ->
  let n := default 0 (auth_failures (server_state w) !! ip) + 1 in
  int_fits n = true ->
  exists w1, Session.record_auth_failure cfg now ip w = (Ret tt, w1) /\ sessions w1 = sessions w /\ auth w1 = auth w /\
    auth_failures (server_state w1) = <[ip := n]> (auth_failures (server_state w)) /\
    auth_ban_until (server_state w1) =
      (if max_auth_attempts cfg <=? n then <[ip := now + auth_ban_seconds cfg]> (auth_ban_until (server_state w))
       else auth_ban_until (server_state w)) /\
    mutex (server_state w1) = false.
Proof.
  intros Hm n Hf. unfold Session.record_auth_failure, with_lock, get, state, modify, mret, M_ret, mbind, M_bind.
  rewrite Hm. simpl. fold n. rewrite Hf. simpl.
  destruct (max_auth_attempts cfg <=? n); eexists; by split_and!.
Qed.

Lemma authenticated_refuses w sid ip conn r a' :
  (username conn <> ""%string \/ password conn <> ""%string) ->
  authenticate env (client_id conn) (username conn) (password conn) (auth w) = (Ret r, a') -> success r = false ->
  Session.authenticated cfg env now sid ip conn w =
    (Session.record_auth_failure cfg now ip;; Session.refuse cfg sid (reason r);; mret false) (put_auth a' w).
Proof.
  intros Hcr Ha Hr.
  assert (Hx : negb (String.eqb (username conn) "") || negb (String.eqb (password conn) "") = true).
  { destruct (String.eqb_spec (username conn) ""), (String.eqb_spec (password conn) ""); naive_solver. }
  unfold Session.authenticated, auth_call. rewrite Hx. unfold mbind at 1, M_bind at 1. rewrite Ha. by rewrite Hr.
Qed.

(** A CONNECT whose credentials the authenticator refuses. *)
Lemma failed_login w sid s packet conn r a' :
  sessions w !! sid = Some s -> connected_ s = false -> mutex (server_state w) = false ->
  (parse_connect packet).1 = Ret conn -> well_formed_connect conn -> not_banned now w (remote_ip_ s) ->
  (username conn <> ""%string \/ password conn <> ""%string) ->
  authenticate env (client_id conn) (username conn) (password conn) (auth w) = (Ret r, a') -> success r = false ->
  let ip := remote_ip_ s in
  let n := failures_after (server_state w) ip in
  int_fits n = true ->
  exists w1, Session.handle_connect cfg env now sid packet w = (Ret tt, w1) /\
    sessions w1 = sessions w /\ auth w1 = a' /\ mutex (server_state w1) = false /\
    auth_failures (server_state w1) !! ip = Some n /\
    auth_ban_until (server_state w1) !! ip =
      (if max_auth_attempts cfg <=? n then Some (now + auth_ban_seconds cfg) else None) /\
    (forall ip', ip' <> ip ->
       auth_failures (server_state w1) !! ip' = auth_failures (server_state w) !! ip' /\
       auth_ban_until (server_state w1) !! ip' = auth_ban_until (server_state w) !! ip').
Proof.
  intros Hs Hc Hm Hp [Hnm Hl Hi] Hb Hcr Ha Hr ip n Hf. unfold Session.handle_connect.
  rewrite (this_bind_eq w sid s) by done. rewrite Hc. unfold try_parse. unfold mbind at 1, M_bind at 1. rewrite Hp, Hnm, Hl.
  change (negb (String.eqb MQTT_PROTOCOL_NAME MQTT_PROTOCOL_NAME) || _) with false. cbv iota.
  assert (Hid : String.eqb (client_id conn) "" && negb (clean_session conn) = false).
  { destruct (String.eqb_spec (client_id conn) "") as [He|]; [|done]. destruct Hi as [|Hi]; [done|]. by rewrite Hi. }
  rewrite Hid. unfold mbind at 1, M_bind at 1. rewrite (check_lifts w sid s Hs Hm Hb). fold ip. cbn [negb].
  unfold mbind at 1, M_bind at 1. rewrite (authenticated_refuses (put_server_state (lifted (server_state w) ip) w) sid ip conn r a' Hcr Ha Hr).
  set (w1 := put_auth a' _).
  assert (Hmu : mutex (server_state w1) = false) by (simpl; unfold lifted; by destruct (_ !! ip)).
  destruct (record_counts w1 ip Hmu Hf) as (w2 & Hrec & Hs2 & Ha2 & Hf2 & Hb2 & Hm2).
  unfold mbind, M_bind. rewrite Hrec.
  assert (Hs2' : sessions w2 !! sid = Some s) by (by rewrite Hs2).
  pose proof (refuse_unconnected w2 sid s (reason r) Hs2' Hc) as Href. unfold mbind, M_bind in Href. rewrite Href.
  exists w2. split; [done|]. split; [done|]. split; [done|]. split; [done|]. rewrite Hf2, Hb2.
  change (default 0 (auth_failures (server_state w1) !! ip) + 1) with n.
  split; [apply lookup_insert_eq|]. split.
  - destruct (_ <=? n); [apply lookup_insert_eq|]. simpl. unfold lifted.
    destruct (auth_ban_until (server_state w) !! ip) eqn:Eb; [apply lookup_delete_eq|done].
  - intros ip' Hne. rewrite lookup_insert_ne by done.
    assert (Hli : auth_failures (lifted (server_state w) ip) !! ip' = auth_failures (server_state w) !! ip' /\
                  auth_ban_until (lifted (server_state w) ip) !! ip' = auth_ban_until (server_state w) !! ip').
    { unfold lifted. destruct (auth_ban_until (server_state w) !! ip); simpl; [|done]. by rewrite !lookup_delete_ne. }
    destruct Hli as [H1 H2]. split; [done|]. destruct (_ <=? n); [by rewrite lookup_insert_ne|done].
Qed.

(** [C32] Brute-force protection, on a session that is not connected yet and
    while the server lock is free.  As long as its address is banned every
    CONNECT, whatever it holds, leaves the whole broker as it is: the
    authenticator is not asked.  When it is not banned, or no longer, a CONNECT
    whose credentials the authenticator refuses connects nobody, counts one
    failure for the address, from zero after a ban that has passed, and bans the
    address for [auth_ban_seconds] exactly when the count reaches
    [max_auth_attempts]; other addresses keep their counts and bans.  And a
    CONNECT with accepted credentials connects the session and clears the
    failures of the address. *)
Theorem auth_ban w sid s :
  sessions w !! sid = Some s -> connected_ s = false -> mutex (server_state w) = false ->
  let ip := remote_ip_ s in
  (forall until packet, auth_ban_until (server_state w) !! ip = Some until -> now < until -> buffer_wf packet ->
     Session.handle_connect cfg env now sid packet w = (Ret tt, w)) /\
  (forall packet conn, (parse_connect packet).1 = Ret conn -> well_formed_connect conn -> not_banned now w ip ->
     (forall r a', username conn <> ""%string \/ password conn <> ""%string ->
        authenticate env (client_id conn) (username conn) (password conn) (auth w) = (Ret r, a') ->
        success r = false ->
        let n := match auth_ban_until (server_state w) !! ip with
                 | Some _ => 1
                 | None => default 0 (auth_failures (server_state w) !! ip) + 1
                 end in
        int_fits n = true ->
        exists w1, Session.handle_connect cfg env now sid packet w = (Ret tt, w1) /\
          sessions w1 = sessions w /\ auth_failures (server_state w1) !! ip = Some n /\
          auth_ban_until (server_state w1) !! ip =
            (if max_auth_attempts cfg <=? n then Some (now + auth_ban_seconds cfg) else None) /\
          (forall ip', ip' <> ip ->
             auth_failures (server_state w1) !! ip' = auth_failures (server_state w) !! ip' /\
             auth_ban_until (server_state w1) !! ip' = auth_ban_until (server_state w) !! ip')) /\
     (forall a', credentials_accepted env w conn a' -> unclaimed w sid (client_id conn) -> timeable cfg conn ->
        write_queue_ s = [] -> 0 < max_write_queue_size cfg ->
        exists w1 s1, Session.handle_connect cfg env now sid packet w = (Ret tt, w1) /\
          sessions w1 !! sid = Some s1 /\ connected_ s1 = true /\
          auth_failures (server_state w1) !! ip = None /\ auth_ban_until (server_state w1) !! ip = None)).
Proof using Hmax.
  intros Hs Hc Hm ip. split; [intros until packet; by apply banned_connect|].
  intros packet conn Hp Hwf Hb. split.
  - intros r a' Hcr Ha Hr n Hf.
    assert (Hn : failures_after (server_state w) ip = n).
    { unfold failures_after, lifted, n. destruct (auth_ban_until (server_state w) !! ip); [|done]. simpl.
      by rewrite lookup_delete_eq. }
    destruct (failed_login w sid s packet conn r a') as (w1 & H1 & H2 & _ & _ & H3 & H4 & H5); try done.
    { by fold ip; rewrite Hn. }
    fold ip in H3, H4, H5. rewrite Hn in H3, H4. by exists w1.
  - intros a' Hcr Hu Hka Hq Hpos.
    destruct (handle_connect_after cfg Hmax env now w sid s packet conn a' Hs Hc Hq Hm Hpos Hp Hwf Hka Hb Hcr Hu)
      as (al & _ & Hh).
    eexists _, _. split; [exact Hh|]. cbn [sessions server_state]. rewrite lookup_alter_eq, Hs.
    split; [reflexivity|]. split; [|unfold registered; simpl; split; apply lookup_delete_eq].
    unfold accepted_session, timed, enqueue, pump. simpl. rewrite Hq. simpl. by destruct (_ =? 0).
Qed.

End AuthBan.

(** ** Witnesses *)

Lemma preconnect_inert_witness :
  Session.dispatch (E := unit) tiny_config tt 0 0 (decode_byte1 0xC0) Buffer.init demo_accepted =
    (Ret tt, demo_accepted).
Proof.
  destruct (demo_session demo_accepted 0%nat connected_ false) as (s & Hs & Hc); [by vm_compute|].
  apply (preconnect_inert tiny_config tt 0 demo_accepted 0%nat s); [exact Hs|exact Hc|].
  vm_compute. discriminate.
Defined.

Lemma publish_gate_witness :
  (Session.handle_publish (E := unit) tiny_config tt 0 (Buffer.of_bytes (string_field "+"))
     (mkFixedHeader 3 false 0 false 3) demo_connected).1 = Ret tt.
Proof.
  destruct (demo_session demo_connected 0%nat connected_ true) as (s & Hs & Hc); [by vm_compute|].
  rewrite (publish_gate tiny_config tt demo_connected 0%nat s _ _
             (mkPublishPacket "+" Buffer.init 0 false false 0) 3 tt Hs Hc).
  - reflexivity.
  - vm_compute. reflexivity.
  - reflexivity.
  - right. vm_compute. reflexivity.
Defined.

Lemma suback_codes_witness :
  exists s codes, Forall2 (code_ok tiny_config)
    [mkSubscribeFilter "a/+" 1; mkSubscribeFilter "a+" 1]%string codes /\
    (Session.subscribe_filters (E := unit) tiny_config tt 0 s
       [mkSubscribeFilter "a/+" 1; mkSubscribeFilter "a+" 1]%string demo_connected).1 = Ret codes.
Proof.
  set (s := Session.init false "10.0.0.1").
  set (r := Session.subscribe_filters (E := unit) tiny_config tt 0 s
       [mkSubscribeFilter "a/+" 1; mkSubscribeFilter "a+" 1]%string demo_connected).
  assert (Hr : r.1 = Ret [MAX_QOS1; FAILURE]) by (vm_compute; reflexivity).
  exists s, [MAX_QOS1; FAILURE]. split; [|exact Hr].
  apply (suback_codes (E := unit) tiny_config tt 0%nat s _ demo_connected _ r.2).
  rewrite <- Hr. apply surjective_pairing.
Defined.

Lemma takeover_deadlocks_witness :
  (Session.register_client 1 "10.0.0.2" "dev" demo_connected).1 = Deadlock.
Proof.
  destruct (demo_session demo_connected 0%nat connected_ true) as (s & Hs & Hc); [by vm_compute|].
  apply takeover_deadlocks; [vm_compute; reflexivity|].
  exists 0%nat, s. split; [vm_compute; reflexivity|]. split; [discriminate|]. split; [exact Hs|exact Hc].
Defined.

Lemma refused_connect_silent_witness :
  Session.handle_connect (E := unit) tiny_config tt 0 0
    (Buffer.of_bytes (string_field "MQIs" ++ [byte_of_Z 3; byte_of_Z 2] ++ Buffer.uint16_bytes 10 ++
                      string_field "dev")) demo_accepted = (Ret tt, demo_accepted).
Proof.
  destruct (demo_session demo_accepted 0%nat connected_ false) as (s & Hs & Hc); [by vm_compute|].
  apply (refused_connect_silent tiny_config tt 0 demo_accepted 0%nat s _
           (mkConnectPacket "MQIs" 3 true false 0 false "" "" "" "" 10 "dev") Hs Hc).
  - vm_compute. reflexivity.
  - left. discriminate.
Defined.

Lemma disconnect_leaks_witness :
  Session.close 0 (Session.handle_disconnect 0 demo_connected).2 =
    (Ret tt, (Session.handle_disconnect 0 demo_connected).2).
Proof.
  destruct (demo_session demo_connected 0%nat connected_ true) as (s & Hs & Hc); [by vm_compute|].
  apply (disconnect_leaks demo_connected 0%nat s Hs).
Defined.

(** The client subscribes, then its session is closed. *)
Definition demo_subscribed : World unit :=
  (Session.subscribe_filters (E := unit) tiny_config tt 0 (Session.init false "10.0.0.1")
     [mkSubscribeFilter "a/+" 1]%string demo_connected).2.

Lemma clean_session_subscriptions_stay_witness :
  topic_tree (Session.close 0 demo_subscribed).2 = topic_tree demo_subscribed.
Proof.
  destruct (demo_session demo_subscribed 0%nat
              (fun s => (connected_ s, clean_session_ s, client_id_ s)) (true, true, "dev"%string))
    as (s & Hs & Hx); [by vm_compute|].
  apply pair_equal_spec in Hx as [Hx Hid]. apply pair_equal_spec in Hx as [Hc Hcl].
  apply (clean_session_subscriptions_stay demo_subscribed 0%nat s Hs Hc); [|exact Hcl|].
  - vm_compute. reflexivity.
  - rewrite Hid. vm_compute. reflexivity.
Defined.

Lemma stray_pubrel_witness :
  exists d, Session.handle_pubrel tiny_config 0 (Buffer.of_bytes [Byte.x00; Byte.x05]) demo_connected =
    (Ret tt, put_delivery_engine d demo_connected).
Proof.
  destruct (demo_session demo_connected 0%nat (fun s => (connected_ s, client_id_ s)) (true, "dev"%string))
    as (s & Hs & Hx); [by vm_compute|]. apply pair_equal_spec in Hx as [Hc Hid].
  destruct (stray_pubrel tiny_config demo_connected 0%nat s (Buffer.of_bytes [Byte.x00; Byte.x05]) 5 Hs Hc)
    as (d & Hd & _).
  - vm_compute. reflexivity.
  - rewrite Hid. vm_compute. reflexivity.
  - exists d. exact Hd.
Defined.

(** An authenticator that refuses everybody, and a broker that bans after one
    failure. *)
#[local] Instance refuse_all : Authenticator bool unit := {
  authenticate := fun _ _ _ _ => mret (mkAuthResult false REFUSED_BAD_USERNAME);
  check_acl := fun _ _ _ _ => mret Access.NONE
}.

Definition strict_config : Config :=
  mkConfig 1 100 3600 (keepalive_multiplier default_config) 262144 128 65536 1000 10000 10000 1048576 1 60 5 5.

Definition guess : ConnectPacket :=
  {| protocol_name := "MQTT"; protocol_level := 4; clean_session := true; will_flag := false; will_qos := 0;
     will_retain := false; will_topic := ""; will_message := ""; username := "root"; password := "guess";
     keepalive := 10; client_id := "dev" |}.

Definition guessing (now : Z) (conn : ConnectPacket) (w : World unit) : outcome unit * World unit :=
  Session.handle_connect (E := bool) strict_config true now 0 (Buffer.of_bytes (connect_body conn)) w.
Definition guessed : World unit := (guessing 0 guess demo_accepted).2.

Lemma guessed_eq : guessing 0 guess demo_accepted = (Ret tt, guessed).
Proof. vm_compute. reflexivity. Qed.

(** A wrong password bans the address; until the ban has passed even an
    anonymous CONNECT is refused, and then it is accepted. *)
Lemma auth_ban_witness :
  auth_ban_until (server_state guessed) !! "10.0.0.1"%string = Some 60 /\
  guessing 59 demo_connect guessed = (Ret tt, guessed) /\
  exists w2 s2, guessing 60 demo_connect guessed = (Ret tt, w2) /\
    sessions w2 !! 0%nat = Some s2 /\ connected_ s2 = true /\
    auth_ban_until (server_state w2) !! "10.0.0.1"%string = None.
Proof.
  destruct (demo_session demo_accepted 0%nat (fun s => (connected_ s, remote_ip_ s, write_queue_ s))
    (false, "10.0.0.1"%string, [])) as (s & Hs & Hx); [vm_compute; reflexivity|].
  apply pair_equal_spec in Hx as [Hx Hq]. apply pair_equal_spec in Hx as [Hc Hip].
  assert (Hm0 : mutex (server_state demo_accepted) = false) by (vm_compute; reflexivity).
  assert (Hm1 : mutex (server_state guessed) = false) by (vm_compute; reflexivity).
  assert (Hn0 : auth_ban_until (server_state demo_accepted) !! "10.0.0.1"%string = None) by (vm_compute; reflexivity).
  assert (Hf0 : auth_failures (server_state demo_accepted) !! "10.0.0.1"%string = None) by (vm_compute; reflexivity).
  assert (Hg : (parse_connect (Buffer.of_bytes (connect_body guess))).1 = Ret guess) by (vm_compute; reflexivity).
  assert (Hd : (parse_connect (Buffer.of_bytes (connect_body demo_connect))).1 = Ret demo_connect)
    by (vm_compute; reflexivity).
  destruct (auth_ban (E := bool) strict_config ltac:(reflexivity) true 0 demo_accepted 0%nat s Hs Hc Hm0) as [_ Hfail].
  destruct (Hfail _ guess Hg) as [Hf _].
  { constructor; [reflexivity|reflexivity|left; discriminate]. }
  { unfold not_banned. rewrite Hip, Hn0. exact I. }
  clear Hfail. cbv zeta in Hf. rewrite Hip, Hn0, Hf0 in Hf.
  assert (Hau : forall a, authenticate true (client_id guess) (username guess) (password guess) a =
    (Ret (mkAuthResult false REFUSED_BAD_USERNAME), a)) by reflexivity.
  assert (Hcr : username guess <> ""%string \/ password guess <> ""%string) by (left; discriminate).
  destruct (Hf _ _ Hcr (Hau _) eq_refl eq_refl) as (w1 & Hh & Hs1 & _ & Hb & _). clear Hf. fold (guessing 0 guess demo_accepted) in Hh.
  rewrite guessed_eq in Hh. apply pair_equal_spec in Hh as [_ Hh]. subst w1.
  change (if max_auth_attempts strict_config <=? default 0 None + 1 then _ else _) with (Some 60) in Hb.
  rewrite <- Hs1 in Hs. split; [exact Hb|]. split.
  - destruct (auth_ban (E := bool) strict_config ltac:(reflexivity) true 59 guessed 0%nat s Hs Hc Hm1) as [Hban _].
    apply (Hban 60); [rewrite Hip; exact Hb|reflexivity|]. split; apply Nat.leb_le; vm_compute; reflexivity.
  - destruct (auth_ban (E := bool) strict_config ltac:(reflexivity) true 60 guessed 0%nat s Hs Hc Hm1) as [_ Hok].
    destruct (Hok _ demo_connect Hd) as [_ Ha].
    { constructor; [reflexivity|reflexivity|left; discriminate]. }
    { unfold not_banned. rewrite Hip, Hb. discriminate. }
    destruct (Ha (auth guessed)) as (w2 & s2 & Hh & Hs2 & Hc2 & _ & Hn).
    + left. split; [reflexivity|]. split; reflexivity.
    + assert (Hac : active_clients (server_state guessed) = ∅) by (vm_compute; reflexivity).
      intros old so. rewrite Hac, lookup_empty. discriminate.
    + vm_compute. reflexivity.
    + exact Hq.
    + reflexivity.
    + rewrite Hip in Hn. exists w2, s2. split; [exact Hh|]. split; [exact Hs2|]. split; [exact Hc2|exact Hn].
Defined.

Lemma keepalive_clamped_witness : 0 < Session.clamp_keepalive default_config 0 <= 3600.
Proof. apply (keepalive_clamped default_config 0); vm_compute; split; congruence. Defined.

Lemma partial_connect_stalls_witness :
  exists w', Session.read_handler (E := unit) tiny_config tt 0 0 false [Byte.x10] demo_accepted =
    (Ret tt, w') /\ (forall ec bs, ~ enabled w' (Read 0 ec bs)).
Proof.
  destruct (demo_session demo_accepted 0%nat
    (fun s => (connected_ s, reading s, Z.of_nat (Buffer.write_capacity (read_buf_ s)), parser_ s))
    (false, true, 4096, PacketParser.init)) as (s & Hs & Hx); [vm_compute; reflexivity|].
  apply pair_equal_spec in Hx as [Hx Hp]. apply pair_equal_spec in Hx as [Hx Hb].
  apply pair_equal_spec in Hx as [Hc Hr].
  destruct (partial_connect_stalls tiny_config tt 0 demo_accepted 0%nat s [] [Byte.x10])
    as (w' & s' & Hw & _ & _ & _ & _ & _ & Hn).
  - apply (serving_wf (E := unit) tiny_config ltac:(reflexivity) tt). apply demo_serve; [done|by vm_compute|constructor].
  - exact Hs.
  - exact Hc.
  - exact Hr.
  - change (1 <= Buffer.write_capacity (read_buf_ s))%nat. lia.
  - rewrite Hp. apply holding_init.
  - exists (frame 0x10 []), (remaining_length_bytes 0). split; [|split; [reflexivity|discriminate]].
    exists 0x10, []. split; [reflexivity|]. vm_compute. intuition congruence.
  - vm_compute. discriminate.
  - exists w'. split; [exact Hw|exact Hn].
Defined.

(** ** Connecting again after [close] *)

(** An event of a concrete run. *)
Lemma run_step cfg e (w : World unit) :
  enabled w e -> (exec (E := unit) cfg tt 0 e w).1 = Ret tt ->
  reachable (E := unit) cfg tt w -> reachable (E := unit) cfg tt (exec (E := unit) cfg tt 0 e w).2.
Proof.
  intros He Ho Hr. eapply reach_step; [exact Hr|].
  apply (step_event cfg tt 0 e w (exec cfg tt 0 e w).1); [exact He|apply surjective_pairing|].
  rewrite Ho. discriminate.
Qed.

Lemma run_read_enabled (w : World unit) sid bs :
  (fun s => (reading s, Z.of_nat (Buffer.write_capacity (read_buf_ s)))) <$> sessions w !! sid = Some (true, 4096) ->
  Z.of_nat (length bs) <= 4096 -> enabled w (Read sid false bs).
Proof.
  intros Hs Hl. destruct (demo_session w sid _ _ Hs) as (s & Hx & [= Hr Hc]). exists s.
  split; [exact Hx|]. split; [exact Hr|]. lia.
Qed.

(** Two clients of one address; the first sends three CONNECTs in one segment,
    and the read that follows fails, its socket being closed. *)
Definition pair_config : Config :=
  mkConfig 10 100 3600 (keepalive_multiplier default_config) 262144 128 65536 1000 10000 10000 1048576 10 60 5 5.

Definition pair_start : World unit := initial pair_config false tt.
Definition pair_first : World unit :=
  (exec (E := unit) pair_config tt 0 (Accepted false (Some "10.0.0.1"%string)) pair_start).2.
Definition pair_second : World unit :=
  (exec (E := unit) pair_config tt 0 (Accepted false (Some "10.0.0.1"%string)) pair_first).2.
Definition pair_other : World unit :=
  (exec (E := unit) pair_config tt 0 (Read 1 false (connect_frame "b" 2 10)) pair_second).2.
Definition triple_connect : list byte :=
  connect_frame "a" 2 10 ++ connect_frame "a" 2 10 ++ connect_frame "a" 2 10.
Definition pair_flooded : World unit :=
  (exec (E := unit) pair_config tt 0 (Read 0 false triple_connect) pair_other).2.
Definition pair_failed : World unit :=
  (exec (E := unit) pair_config tt 0 (Read 0 true []) pair_flooded).2.

Lemma pair_flooded_reachable : reachable (E := unit) pair_config tt pair_flooded.
Proof.
  apply run_step; [apply run_read_enabled; vm_compute; [reflexivity|discriminate]|vm_compute; reflexivity|].
  apply run_step; [apply run_read_enabled; vm_compute; [reflexivity|discriminate]|vm_compute; reflexivity|].
  apply run_step; [vm_compute; reflexivity|vm_compute; reflexivity|].
  apply run_step; [vm_compute; reflexivity|vm_compute; reflexivity|]. constructor.
Qed.

(** A client can connect again after [close]: [on_read] goes on with the next
    packet of the segment, and [handle_connect] tests only [connected_].  After
    CONNECT, CONNECT, CONNECT the session is connected and registered on a
    closed socket, and when its read fails it gives its address's connection
    back a second time: the address then counts no connection although another
    client of it is connected. *)
Theorem reconnect_releases_twice :
  reachable (E := unit) pair_config tt pair_flooded /\ reachable (E := unit) pair_config tt pair_failed /\
  (fun s => (connected_ s, socket_open s)) <$> sessions pair_flooded !! 0%nat = Some (true, false) /\
  active_clients (server_state pair_flooded) !! "a"%string = Some 0%nat /\
  connections_per_ip (server_state pair_failed) !! "10.0.0.1"%string = None /\
  (fun s => (connected_ s, socket_open s, remote_ip_ s)) <$> sessions pair_failed !! 1%nat =
    Some (true, true, "10.0.0.1"%string).
Proof.
  split; [exact pair_flooded_reachable|]. split.
  { apply run_step; [|vm_compute; reflexivity|exact pair_flooded_reachable].
    destruct (demo_session pair_flooded 0%nat reading true) as (s & Hs & Hr); [vm_compute; reflexivity|].
    exists s. split; [exact Hs|]. split; [exact Hr|]. apply Nat.le_0_l. }
  vm_compute. repeat split; reflexivity.
Qed.
