(* ===== verification/Mdns.v ===== *)
(** * Service announcement over multicast DNS ([src/mdns/])

    [MdnsResponder] answers DNS questions for [_mqtt._tcp.local]: the encoding
    and decoding of names, the scan of a datagram, the response and the state
    of the receive loop.  Datagrams and names are lists of octets. *)

From Stdlib Require Import Strings.Byte Strings.String Strings.Ascii ZArith Lia.
From Stdlib Require ListDec.
From stdpp Require Import base strings numbers option list relations.
From S2P Require Import Prelude.

Open Scope Z_scope.

(** ** Constants *)

Definition BUF_SIZE : nat := 1500.
Definition DNS_FLAG_RESPONSE : Z := 0x8400.
Definition RR_TYPE_A : Z := 1.
Definition RR_TYPE_PTR : Z := 12.
Definition RR_TYPE_TXT : Z := 16.
Definition RR_TYPE_SRV : Z := 33.
Definition RR_CLASS_IN_FLUSH : Z := 0x8001.
Definition TTL_PTR : Z := 4500.
Definition TTL_SRV_TXT : Z := 120.
Definition TTL_A : Z := 120.

(** The class: its configuration, the names it encodes once, and the state of
    the receive loop.  [socket_open] and [receiving] stand for the socket and an
    outstanding [async_receive_from]; [sent] lists what [send_to] sent. *)
Record MdnsResponder : Type := mkMdns {
  port_ : Z;
  instance_ : list byte;
  service_ : list byte;
  node_ : list byte;
  ip_ : string;
  encoded_instance_ : list byte;
  encoded_service_ : list byte;
  encoded_node_ : list byte;
  running_ : bool;
  recv_buf_ : list byte;
  mdns_open : bool;
  receiving : bool;
  mdns_sent : list (string * list byte)
}.

Module MdnsResponder.

(** ** Names *)

Definition dot : byte := "."%byte.

(** [name.find('.', start)]: the label up to the dot, and what follows it. *)
Fixpoint next_label (s : list byte) : list byte * list byte :=
  match s with
  | [] => ([], [])
  | c :: s => if decide (c = dot) then ([], s)
              else let '(label, rest) := next_label s in (c :: label, rest)
  end.

(** The [while (start < name.size())] loop; every round consumes an octet. *)
Fixpoint encode_labels (fuel : nat) (s : list byte) : list byte :=
  match fuel, s with
  | S fuel, _ :: _ =>
      let '(label, rest) := next_label s in
      byte_of_Z (Z.of_nat (length label)) :: label ++ encode_labels fuel rest
  | _, _ => []
  end.

Definition encode_name (name : list byte) : list byte :=
  encode_labels (length name) name ++ [Byte.x00].

(** [(c >= 'A' && c <= 'Z') ? (c - 'A' + 'a') : c]. *)
Definition lower (c : byte) : byte :=
  if (65 <=? Z_of_byte c) && (Z_of_byte c <=? 90) then byte_of_Z (Z_of_byte c + 32) else c.

(** [if (!first) name += '.'; ]. *)
Definition separate (first : bool) (name : list byte) : list byte :=
  if first then name else name ++ [dot].

Definition is_pointer (b : byte) : bool := Z.land (Z_of_byte b) 0xC0 =? 0xC0.

(** The offset a compression pointer names. *)
Definition pointer (b1 b2 : byte) : nat :=
  Z.to_nat (Z.lor (Z.shiftl (Z.land (Z_of_byte b1) 0x3F) 8) (Z_of_byte b2)).

Section Decode.

Context (data : list byte) (len : nat).

(** The [while (offset < len)] loop of [decode_name]; [decode] is the recursive
    call a compression pointer makes.  The results are the name and the
    offset. *)
Fixpoint decode_loop (decode : nat -> outcome (list byte * nat)) (rounds : nat) (first : bool)
    (name : list byte) (offset : nat) : outcome (list byte * nat) :=
  match rounds with
  | O => Undefined
  | S rounds =>
      if (len <=? offset)%nat then Ret (name, offset)
      else
        match data !! offset with
        | None => Undefined
        | Some b =>
            if Z_of_byte b =? 0 then Ret (name, S offset)
            else if is_pointer b then
              if (len <? offset + 2)%nat then Ret (name, offset)
              else
                match data !! S offset with
                | None => Undefined
                | Some b' =>
                    match decode (pointer b b') with
                    | Ret (rest, _) => Ret (separate first name ++ rest, (offset + 2)%nat)
                    | Throw e => Throw e
                    | Deadlock => Deadlock
                    | Undefined => Undefined
                    end
                end
            else
              let offset := S offset in
              let n := Z.to_nat (Z_of_byte b) in
              let avail := take n (drop offset (take len data)) in
              let name := separate first name ++ (lower <$> avail) in
              if (length avail <? n)%nat then Ret (name, offset)
              else decode_loop decode rounds false name (offset + n)
        end
  end.

(** [decode_name] recurses without a bound; [depth] is the stack it is given,
    and running out of it is [Undefined]. *)
Fixpoint decode_name (depth : nat) (offset : nat) : outcome (list byte * nat) :=
  match depth with
  | O => Undefined
  | S depth => decode_loop (decode_name depth) (S len) true [] offset
  end.

End Decode.

(** ** Questions *)

(** Skip the name of a question: the inner [while (offset < bytes)]. *)
Fixpoint skip_name (rounds : nat) (data : list byte) (bytes offset : nat) : nat :=
  match rounds with
  | O => offset
  | S rounds =>
      if (bytes <=? offset)%nat then offset
      else
        let b := default Byte.x00 (data !! offset) in
        if Z_of_byte b =? 0 then S offset
        else if is_pointer b then (offset + 2)%nat
        else skip_name rounds data bytes (offset + 1 + Z.to_nat (Z_of_byte b))
  end.

(** The [for (q = 0; q < qdcount && offset < bytes; ++q)] loop. *)
Fixpoint skip_questions (data : list byte) (bytes : nat) (qdcount : nat) (offset : nat) : nat :=
  match qdcount with
  | O => offset
  | S qdcount =>
      if (bytes <=? offset)%nat then offset
      else
        let offset := skip_name (S bytes) data bytes offset in
        let offset := if (offset + 4 <=? bytes)%nat then (offset + 4)%nat else offset in
        skip_questions data bytes qdcount offset
  end.

(** [(data[i] << 8) | data[i + 1]]. *)
Definition read_u16 (data : list byte) (i : nat) : Z :=
  u16 (Z.lor (Z.shiftl (Z_of_byte (default Byte.x00 (data !! i))) 8)
             (Z_of_byte (default Byte.x00 (data !! S i)))).

(** ** The response *)

Definition write_u16 (v : Z) (buf : list byte) : list byte :=
  buf ++ [byte_of_Z (Z.shiftr v 8); byte_of_Z (Z.land v 0xFF)].

Definition write_u32 (v : Z) (buf : list byte) : list byte :=
  buf ++ [byte_of_Z (Z.shiftr v 24); byte_of_Z (Z.shiftr v 16); byte_of_Z (Z.shiftr v 8);
          byte_of_Z (Z.land v 0xFF)].

(** The placeholder for RDLENGTH, the data, and the two octets patched in. *)
Definition write_rdata (rdata : list byte -> list byte) (buf : list byte) : list byte :=
  let rdlen_pos := length buf in
  let buf := write_u16 0 buf in
  let rdata_start := length buf in
  let buf := rdata buf in
  let rdlen := Z.of_nat (length buf - rdata_start) in
  let buf := <[rdlen_pos := byte_of_Z (Z.shiftr rdlen 8)]> buf in
  <[S rdlen_pos := byte_of_Z (Z.land rdlen 0xFF)]> buf.

(** NAME, TYPE, CLASS and TTL of a record. *)
Definition write_rr_head (name : list byte) (ty ttl : Z) (buf : list byte) : list byte :=
  write_u32 ttl (write_u16 RR_CLASS_IN_FLUSH (write_u16 ty (buf ++ name))).

Section Respond.

(** [boost::asio::ip::address_v4::from_string]: the four octets of an address,
    or an error. *)
Context (parse_v4 : string -> option (byte * byte * byte * byte)).

Definition ip_bytes (m : MdnsResponder) : list byte :=
  match parse_v4 (ip_ m) with
  | Some (a, b, c, d) => [a; b; c; d]
  | None => [Byte.x7f; Byte.x00; Byte.x00; Byte.x01]
  end.

(** The datagram [send_response] builds. *)
Definition response (m : MdnsResponder) (id : Z) (question : list byte) : list byte :=
  let buf := write_u16 id [] in
  let buf := write_u16 DNS_FLAG_RESPONSE buf in
  let buf := write_u16 1 buf in
  let buf := write_u16 1 buf in
  let buf := write_u16 0 buf in
  let buf := write_u16 3 buf in
  let buf := buf ++ question in
  let buf := write_rr_head (encoded_service_ m) RR_TYPE_PTR TTL_PTR buf in
  let buf := write_rdata (fun buf => buf ++ encoded_instance_ m) buf in
  let buf := write_rr_head (encoded_instance_ m) RR_TYPE_SRV TTL_SRV_TXT buf in
  let buf := write_rdata (fun buf =>
               write_u16 (port_ m) (write_u16 0 (write_u16 0 buf)) ++ encoded_node_ m) buf in
  let buf := write_rr_head (encoded_instance_ m) RR_TYPE_TXT TTL_SRV_TXT buf in
  let buf := write_rdata (fun buf => buf ++ [Byte.x00]) buf in
  let buf := write_rr_head (encoded_node_ m) RR_TYPE_A TTL_A buf in
  let buf := write_u16 4 buf in
  buf ++ ip_bytes m.

End Respond.

(** ** The object *)

Definition init (port : Z) (hostname ip : string) : MdnsResponder :=
  let host := string_bytes hostname in
  let node := host ++ string_bytes ".local" in
  let service := string_bytes "_mqtt._tcp.local" in
  let instance := host ++ [dot] ++ service in
  mkMdns port instance service node ip (encode_name instance) (encode_name service)
    (encode_name node) false (replicate BUF_SIZE Byte.x00) false false [].

Definition set_io (run op rec : bool) (m : MdnsResponder) : MdnsResponder :=
  mkMdns (port_ m) (instance_ m) (service_ m) (node_ m) (ip_ m) (encoded_instance_ m)
    (encoded_service_ m) (encoded_node_ m) run (recv_buf_ m) op rec (mdns_sent m).

Definition set_recv_buf (b : list byte) (m : MdnsResponder) : MdnsResponder :=
  mkMdns (port_ m) (instance_ m) (service_ m) (node_ m) (ip_ m) (encoded_instance_ m)
    (encoded_service_ m) (encoded_node_ m) (running_ m) b (mdns_open m) (receiving m) (mdns_sent m).

Definition add_sent (d : string * list byte) (m : MdnsResponder) : MdnsResponder :=
  mkMdns (port_ m) (instance_ m) (service_ m) (node_ m) (ip_ m) (encoded_instance_ m)
    (encoded_service_ m) (encoded_node_ m) (running_ m) (recv_buf_ m) (mdns_open m) (receiving m)
    (mdns_sent m ++ [d]).

(** [if (!running_) return; socket_.async_receive_from(...)]. *)
Definition do_receive : M MdnsResponder unit := fun m =>
  (Ret tt, if running_ m then set_io true (mdns_open m) true m else m).

(** [start]: opening, binding and joining the group may fail. *)
Definition start (open_ok bind_ok join_ok : bool) : M MdnsResponder unit := fun m =>
  if negb open_ok then (Ret tt, m)
  else if negb bind_ok || negb join_ok then (Ret tt, set_io (running_ m) false (receiving m) m)
  else do_receive (set_io true true (receiving m) m).

(** [stop]: cancelling the socket ends the outstanding receive with an error,
    which [handle_receive] ignores. *)
Definition stop : M MdnsResponder unit := fun m =>
  (Ret tt, if running_ m then set_io false false (receiving m) m else m).

Section Receive.

Context (parse_v4 : string -> option (byte * byte * byte * byte)).

(** [send_to] throws when the datagram cannot be sent. *)
Definition send_response (dest : string) (send_ok : bool) (id : Z) (question : list byte)
  : M MdnsResponder unit := fun m =>
  if send_ok then (Ret tt, add_sent (dest, response parse_v4 m id question) m)
  else (Throw (runtime_error "send_to"), m).

(** Does the question concern this host? *)
Definition matches (m : MdnsResponder) (qname : list byte) (qtype : Z) : bool :=
  if bool_decide (qname = service_ m) && (qtype =? RR_TYPE_PTR) then true
  else if bool_decide (qname = instance_ m) && ((qtype =? RR_TYPE_SRV) || (qtype =? RR_TYPE_TXT)) then true
  else if bool_decide (qname = node_ m) && (qtype =? RR_TYPE_A) then true
  else qtype =? 255.

(** The body for a datagram of at least 12 octets, with [depth] the stack. *)
Definition handle_datagram (depth : nat) (remote : string) (send_ok : bool) (bytes : nat)
  : M MdnsResponder unit := fun m =>
  let data := recv_buf_ m in
  let qdcount := Z.to_nat (read_u16 data 4) in
  let q_end := skip_questions data bytes qdcount 12 in
  match decode_name data bytes depth 12 with
  | Ret (qname, offset) =>
      let qtype := if (offset + 4 <=? bytes)%nat then read_u16 data offset else 0 in
      if matches m qname qtype then
        if (BUF_SIZE <? q_end)%nat then (Undefined, m)
        else
          send_response remote send_ok (read_u16 data 0) (take (q_end - 12) (drop 12 data)) m
      else (Ret tt, m)
  | Throw e => (Throw e, m)
  | Deadlock => (Deadlock, m)
  | Undefined => (Undefined, m)
  end.

(** [handle_receive]: asio has stored the datagram at the front of [recv_buf_],
    cut off at its size. *)
Definition handle_receive (depth : nat) (ec : bool) (remote : string) (send_ok : bool)
    (datagram : list byte) : M MdnsResponder unit := fun m =>
  let bytes := length (take BUF_SIZE datagram) in
  let m := set_io (running_ m) (mdns_open m) false
             (set_recv_buf (list_inserts 0 (take BUF_SIZE datagram) (recv_buf_ m)) m) in
  if ec || negb (running_ m) then (Ret tt, m)
  else
    ((if (12 <=? bytes)%nat then handle_datagram depth remote send_ok bytes else mret tt);;
     do_receive) m.

End Receive.

End MdnsResponder.

(** ** Names on the wire *)

(** A name as its labels, in text and on the wire. *)
Fixpoint join_labels (L : list (list byte)) : list byte :=
  match L with
  | [] => []
  | [l] => l
  | l :: L => l ++ MdnsResponder.dot :: join_labels L
  end.

Definition wire_labels (L : list (list byte)) : list byte :=
  concat ((fun l => byte_of_Z (Z.of_nat (length l)) :: l) <$> L).

(** RFC 1035: 1 to 63 octets, and none of them a dot. *)
Definition label_ok (l : list byte) : Prop :=
  (1 <= length l <= 63)%nat /\ MdnsResponder.dot ∉ l.

Lemma next_label_last l : MdnsResponder.dot ∉ l -> MdnsResponder.next_label l = (l, []).
Proof.
  induction l as [|c l IH]; intros Hd; [done|]. rewrite not_elem_of_cons in Hd.
  destruct Hd as [Hc Hl]. simpl.
  rewrite decide_False by congruence. by rewrite IH.
Qed.

Lemma next_label_dot l rest :
  MdnsResponder.dot ∉ l -> MdnsResponder.next_label (l ++ MdnsResponder.dot :: rest) = (l, rest).
Proof.
  induction l as [|c l IH]; intros Hd; [done|]. rewrite not_elem_of_cons in Hd.
  destruct Hd as [Hc Hl]. simpl.
  rewrite decide_False by congruence. by rewrite IH.
Qed.

Lemma encode_labels_join L : forall fuel,
  Forall label_ok L -> (length (join_labels L) <= fuel)%nat ->
  MdnsResponder.encode_labels fuel (join_labels L) = wire_labels L.
Proof.
  induction L as [|l L IH]; intros fuel HL Hf; [by destruct fuel|].
  apply Forall_cons_1 in HL as [[Hl Hd] HL]. destruct l as [|c l]; [simpl in Hl; lia|].
  assert (Hs : join_labels ((c :: l) :: L) <> []) by (by destruct L).
  destruct fuel as [|fuel]; [destruct L; simpl in Hf; lia|].
  destruct L as [|l2 L].
  - cbn [join_labels] in *. cbn [MdnsResponder.encode_labels].
    rewrite next_label_last by done. unfold wire_labels. simpl. by destruct fuel.
  - change (join_labels ((c :: l) :: l2 :: L)) with
      ((c :: l) ++ MdnsResponder.dot :: join_labels (l2 :: L)) in *.
    change (MdnsResponder.encode_labels (S fuel) ((c :: l) ++ MdnsResponder.dot :: join_labels (l2 :: L)))
      with (let '(label, rest) := MdnsResponder.next_label
              ((c :: l) ++ MdnsResponder.dot :: join_labels (l2 :: L)) in
            byte_of_Z (Z.of_nat (length label)) :: label ++ MdnsResponder.encode_labels fuel rest).
    rewrite (next_label_dot (c :: l)) by done. rewrite IH; [done|done|].
    rewrite length_app in Hf. cbn [length] in Hf. lia.
Qed.

Lemma encode_name_labels L :
  Forall label_ok L -> MdnsResponder.encode_name (join_labels L) = wire_labels L ++ [Byte.x00].
Proof. intros HL. unfold MdnsResponder.encode_name. by rewrite encode_labels_join. Qed.

(** The length octet of a label is neither zero nor a pointer. *)
Lemma label_octet l :
  label_ok l -> let b := byte_of_Z (Z.of_nat (length l)) in
  Z_of_byte b = Z.of_nat (length l) /\ Z_of_byte b <> 0 /\ MdnsResponder.is_pointer b = false.
Proof.
  intros [Hl _] b. assert (Hb : Z_of_byte b = Z.of_nat (length l)) by (apply Z_of_byte_of_Z_small; lia).
  split; [done|]. split; [lia|]. unfold MdnsResponder.is_pointer. rewrite Hb.
  assert (Hc : forall z, 0 <= z < 256 -> (negb (z <? 64) || negb (Z.land z 0xC0 =? 0xC0)) = true)
    by (apply below_256; by vm_compute).
  specialize (Hc (Z.of_nat (length l)) ltac:(lia)).
  apply orb_prop in Hc as [Hc|Hc]; tests_to_props; [lia|]. by apply Z.eqb_neq.
Qed.

(** The text [decode_name] has built after the labels [L]. *)
Fixpoint append_labels (first : bool) (name : list byte) (L : list (list byte)) : list byte :=
  match L with
  | [] => name
  | l :: L => append_labels false (MdnsResponder.separate first name ++ (MdnsResponder.lower <$> l)) L
  end.

Lemma lower_dot : MdnsResponder.lower MdnsResponder.dot = MdnsResponder.dot.
Proof. done. Qed.

Lemma append_labels_more L : forall name,
  append_labels false name L =
    name ++ match L with [] => [] | _ => MdnsResponder.dot :: (MdnsResponder.lower <$> join_labels L) end.
Proof.
  induction L as [|l L IH]; intros name; cbn [append_labels]; [by rewrite app_nil_r|].
  rewrite IH. unfold MdnsResponder.separate. destruct L as [|l2 L].
  - by rewrite app_nil_r, <- app_assoc.
  - cbn [join_labels]. rewrite fmap_app, fmap_cons, lower_dot. by rewrite <- !app_assoc.
Qed.

Lemma append_labels_join L : append_labels true [] L = MdnsResponder.lower <$> join_labels L.
Proof.
  destruct L as [|l L]; [done|]. cbn [append_labels]. rewrite append_labels_more.
  destruct L as [|l2 L]; [by rewrite app_nil_r|]. cbn [join_labels].
  by rewrite fmap_app, fmap_cons, lower_dot.
Qed.

(** The octet at the end of a known prefix of the datagram. *)
Lemma datagram_at (data : list byte) len pre b rest :
  take len data = pre ++ b :: rest ->
  (length pre < len)%nat /\ data !! length pre = Some b.
Proof.
  intros Ht.
  assert (Hl : (length pre < len)%nat).
  { apply (f_equal length) in Ht. rewrite length_take, length_app in Ht. simpl in Ht. lia. }
  split; [done|]. rewrite <- (lookup_take_lt data len) by done. rewrite Ht.
  by apply list_lookup_middle.
Qed.

Lemma decode_loop_labels data len decode L : forall rounds first name pre post,
  Forall label_ok L -> take len data = pre ++ wire_labels L ++ Byte.x00 :: post ->
  (length L < rounds)%nat ->
  MdnsResponder.decode_loop data len decode rounds first name (length pre) =
    Ret (append_labels first name L, (length pre + length (wire_labels L ++ [Byte.x00]))%nat).
Proof.
  induction L as [|l L IH]; intros [|rounds] first name pre post HL Ht Hr; try (simpl in Hr; lia).
  - destruct (datagram_at _ _ _ _ _ Ht) as [Hl Hb]. cbn [MdnsResponder.decode_loop].
    rewrite_test (len <=? length pre)%nat false. rewrite Hb. simpl. do 2 f_equal. lia.
  - apply Forall_cons_1 in HL as [Hl HL].
    destruct (label_octet l Hl) as (Hz & Hnz & Hp).
    assert (Ht' : take len data = pre ++ byte_of_Z (Z.of_nat (length l)) :: l ++
                    wire_labels L ++ Byte.x00 :: post).
    { rewrite Ht. unfold wire_labels. cbn [fmap list_fmap concat]. simpl. by rewrite <- app_assoc. }
    destruct (datagram_at _ _ _ _ _ Ht') as [Hlen Hb]. cbn [MdnsResponder.decode_loop].
    rewrite_test (len <=? length pre)%nat false. rewrite Hb, Hp.
    rewrite_test (Z_of_byte (byte_of_Z (Z.of_nat (length l))) =? 0) false. rewrite Hz, Nat2Z.id.
    assert (Ha : take (length l) (drop (S (length pre)) (take len data)) = l).
    { rewrite Ht', cons_middle, app_assoc, drop_app_length' by (rewrite length_app; simpl; lia).
      by rewrite take_app_length. }
    rewrite Ha. rewrite_test (length l <? length l)%nat false.
    cbn [append_labels].
    replace (S (length pre) + length l)%nat with
      (length (pre ++ byte_of_Z (Z.of_nat (length l)) :: l)) by (rewrite length_app; simpl; lia).
    rewrite (IH rounds _ _ _ post); [|done| |simpl in Hr; lia].
    + do 2 f_equal. unfold wire_labels. cbn [fmap list_fmap concat].
      rewrite ?length_app. simpl. rewrite ?length_app. simpl. lia.
    + rewrite Ht'. by rewrite <- app_assoc.
Qed.

Lemma length_wire L : Forall label_ok L -> (length L <= length (wire_labels L))%nat.
Proof.
  induction 1 as [|l L Hl HL IH]; [simpl; lia|].
  change (wire_labels (l :: L)) with (byte_of_Z (Z.of_nat (length l)) :: l ++ wire_labels L).
  simpl. rewrite length_app. lia.
Qed.

(** Decoding the encoding of a name, wherever it stands in a datagram. *)
Lemma decode_encoded data len L pre post depth :
  Forall label_ok L ->
  take len data = pre ++ MdnsResponder.encode_name (join_labels L) ++ post ->
  MdnsResponder.decode_name data len (S depth) (length pre) =
    Ret (MdnsResponder.lower <$> join_labels L,
         (length pre + length (MdnsResponder.encode_name (join_labels L)))%nat).
Proof.
  intros HL Ht. rewrite encode_name_labels in * by done. cbn [MdnsResponder.decode_name].
  rewrite <- app_assoc in Ht.
  rewrite (decode_loop_labels _ _ _ L _ _ _ pre post); [by rewrite append_labels_join|done|done|].
  pose proof (length_wire L HL). apply (f_equal length) in Ht.
  rewrite length_take, !length_app in Ht. lia.
Qed.

(** Skipping it. *)
Lemma skip_name_labels data bytes L : forall rounds pre post,
  Forall label_ok L -> take bytes data = pre ++ wire_labels L ++ Byte.x00 :: post ->
  (length L < rounds)%nat ->
  MdnsResponder.skip_name rounds data bytes (length pre) =
    (length pre + length (wire_labels L ++ [Byte.x00]))%nat.
Proof.
  induction L as [|l L IH]; intros [|rounds] pre post HL Ht Hr; try (simpl in Hr; lia).
  - destruct (datagram_at _ _ _ _ _ Ht) as [Hl Hb]. cbn [MdnsResponder.skip_name].
    rewrite_test (bytes <=? length pre)%nat false. rewrite Hb. simpl. lia.
  - apply Forall_cons_1 in HL as [Hl HL]. destruct (label_octet l Hl) as (Hz & Hnz & Hp).
    assert (Ht' : take bytes data = pre ++ byte_of_Z (Z.of_nat (length l)) :: l ++
                    wire_labels L ++ Byte.x00 :: post).
    { rewrite Ht. unfold wire_labels. cbn [fmap list_fmap concat]. simpl. by rewrite <- app_assoc. }
    destruct (datagram_at _ _ _ _ _ Ht') as [Hlen Hb]. cbn [MdnsResponder.skip_name].
    rewrite_test (bytes <=? length pre)%nat false. rewrite Hb. cbn [default from_option id]. rewrite Hp.
    rewrite_test (Z_of_byte (byte_of_Z (Z.of_nat (length l))) =? 0) false. rewrite Hz, Nat2Z.id.
    replace (length pre + 1 + length l)%nat with
      (length (pre ++ byte_of_Z (Z.of_nat (length l)) :: l)) by (rewrite length_app; simpl; lia).
    rewrite (IH rounds _ post); [|done| |simpl in Hr; lia].
    + unfold wire_labels. cbn [fmap list_fmap concat].
      rewrite ?length_app. simpl. rewrite ?length_app. simpl. lia.
    + rewrite Ht'. by rewrite <- app_assoc.
Qed.

(** ** How deep [decode_name] recurses *)

Section Depth.

Context (data : list byte) (len : nat) (Hlen : (len <= length data)%nat).

(** The pointer the loop meets from [offset] on, if it ends at one. *)
Fixpoint jump_from (rounds offset : nat) : option nat :=
  match rounds with
  | O => None
  | S rounds =>
      if (len <=? offset)%nat then None
      else
        b ← data !! offset;
        if Z_of_byte b =? 0 then None
        else if MdnsResponder.is_pointer b then
          if (len <? offset + 2)%nat then None
          else b' ← data !! S offset; Some (MdnsResponder.pointer b b')
        else
          let n := Z.to_nat (Z_of_byte b) in
          if (length (take n (drop (S offset) (take len data))) <? n)%nat then None
          else jump_from rounds (S offset + n)
  end.

Definition jump : nat -> option nat := jump_from (S len).

Lemma decode_loop_jump decode rounds : forall first name offset,
  (len - offset < rounds)%nat ->
  match jump_from rounds offset with
  | None => exists r, MdnsResponder.decode_loop data len decode rounds first name offset = Ret r
  | Some p =>
      (decode p = Undefined ->
       MdnsResponder.decode_loop data len decode rounds first name offset = Undefined) /\
      ((exists r, decode p = Ret r) ->
       exists r, MdnsResponder.decode_loop data len decode rounds first name offset = Ret r)
  end.
Proof using Hlen.
  induction rounds as [|rounds IH]; intros first name offset Hr; [lia|].
  cbn [jump_from MdnsResponder.decode_loop].
  destruct (len <=? offset)%nat eqn:Ho; [by eexists|]. apply Nat.leb_gt in Ho.
  destruct (lookup_lt_is_Some_2 data offset ltac:(lia)) as [b ->]. simpl.
  destruct (Z_of_byte b =? 0) eqn:Hz; [by eexists|].
  destruct (MdnsResponder.is_pointer b).
  - destruct (len <? offset + 2)%nat eqn:Ho2; [by eexists|]. apply Nat.ltb_ge in Ho2.
    destruct (lookup_lt_is_Some_2 data (S offset) ltac:(lia)) as [b' ->]. simpl. split.
    + by intros ->.
    + intros [[rest o] ->]. by eexists.
  - destruct (_ <? _)%nat; [by eexists|]. apply IH. lia.
Qed.

(** The offsets at which the calls of a chain start. *)
Fixpoint jumps (d offset : nat) : option nat :=
  match d with
  | O => Some offset
  | S d => p ← jump offset; jumps d p
  end.

Lemma jumps_add a b offset : jumps (a + b) offset = p ← jumps a offset; jumps b p.
Proof.
  revert offset. induction a as [|a IH]; intros offset; [done|]. simpl.
  destruct (jump offset) as [p|]; [|done]. apply IH.
Qed.

Lemma jump_below offset p : jump offset = Some p -> (offset < len)%nat.
Proof.
  unfold jump. cbn [jump_from]. destruct (len <=? offset)%nat eqn:Ho; [done|].
  intros _. by apply Nat.leb_gt.
Qed.

(** A call returns iff its chain of pointers ends within the stack. *)
Lemma decode_name_jumps d : forall offset,
  match jumps d offset with
  | None => exists r, MdnsResponder.decode_name data len d offset = Ret r
  | Some _ => MdnsResponder.decode_name data len d offset = Undefined
  end.
Proof using Hlen.
  induction d as [|d IH]; intros offset; [done|].
  cbn [jumps MdnsResponder.decode_name].
  pose proof (decode_loop_jump (MdnsResponder.decode_name data len d) (S len) true [] offset
                ltac:(lia)) as Hl. fold (jump offset) in Hl.
  destruct (jump offset) as [p|]; simpl; [|done]. destruct Hl as [Hu Hr].
  specialize (IH p). destruct (jumps d p); [by apply Hu | by apply Hr].
Qed.

(** A chain that goes on visits offsets of the datagram. *)
Lemma jumps_prefix d offset p : jumps d offset = Some p ->
  forall i, (i <= d)%nat -> exists x, jumps i offset = Some x /\ (i < d -> x < len)%nat.
Proof.
  intros Hd i Hi. replace d with (i + (d - i))%nat in Hd by lia. rewrite jumps_add in Hd.
  destruct (jumps i offset) as [x|]; [|done]. exists x. split; [done|]. intros Hlt. simpl in Hd.
  destruct (d - i)%nat eqn:E; [lia|]. simpl in Hd.
  destruct (jump x) as [y|] eqn:Ex; [|done]. by eapply jump_below.
Qed.

(** Among more than [len] calls two start at the same offset. *)
Lemma jumps_repeat d offset p :
  jumps d offset = Some p -> (len < d)%nat ->
  exists i j, (i < j < d)%nat /\ jumps i offset = jumps j offset.
Proof.
  intros Hd Hl. set (start := fun i => default 0%nat (jumps i offset)).
  destruct (decide (NoDup (start <$> seq 0 d))) as [Hn|Hn].
  - exfalso. assert (Hsub : start <$> seq 0 d ⊆ seq 0 len).
    { intros x (i & -> & Hi)%list_elem_of_fmap. apply elem_of_seq in Hi. apply elem_of_seq.
      destruct (jumps_prefix d offset p Hd i ltac:(lia)) as (x & Hx & Hlt).
      unfold start. rewrite Hx. simpl. lia. }
    apply NoDup_submseteq, submseteq_length in Hsub; [|done].
    rewrite length_fmap, !length_seq in Hsub. lia.
  - rewrite NoDup_ListNoDup in Hn. apply ListDec.not_NoDup in Hn as (a & l1 & l2 & l3 & Hs);
      [|intros x y; destruct (decide (x = y)); [by left|by right]].
    assert (Hat : forall i, (start <$> seq 0 d) !! i = Some a -> (i < d)%nat /\ jumps i offset = Some a).
    { intros i Hi. rewrite list_lookup_fmap in Hi.
      destruct (seq 0 d !! i) as [k|] eqn:Ek; [|done]. apply lookup_seq in Ek as [-> Hk].
      split; [done|]. simpl in Hi. injection Hi as Hi. unfold start in Hi.
      destruct (jumps_prefix d offset p Hd i ltac:(lia)) as (x & Hx & _).
      rewrite Hx in Hi. simpl in Hi. by rewrite Hx, Hi. }
    destruct (Hat (length l1)) as [H1 E1]; [rewrite Hs; by apply list_lookup_middle|].
    destruct (Hat (length (l1 ++ a :: l2))) as [H2 E2].
    { rewrite Hs. change (l1 ++ a :: l2 ++ a :: l3) with (l1 ++ (a :: l2) ++ a :: l3).
      rewrite app_assoc. by apply list_lookup_middle. }
    exists (length l1), (length (l1 ++ a :: l2)). rewrite E1, E2. split; [|done].
    rewrite length_app in *. simpl in *. lia.
Qed.

(** A chain that ends at all ends within [len] calls: otherwise two calls
    start at the same offset, and the chain repeats for ever. *)
Lemma jumps_bounded d : forall offset, jumps d offset = None -> jumps (S len) offset = None.
Proof.
  induction (lt_wf d) as [d _ IH]. intros offset Hd.
  destruct (le_lt_dec d (S len)) as [Hle|Hgt].
  { replace (S len) with (d + (S len - d))%nat by lia. by rewrite jumps_add, Hd. }
  destruct (jumps (d - 1) offset) as [p|] eqn:Hp; [|by apply (IH (d - 1)%nat ltac:(lia))].
  destruct (jumps_repeat (d - 1) offset p Hp ltac:(lia)) as (i & j & Hij & Heq).
  apply (IH (i + (d - j))%nat ltac:(lia)). rewrite jumps_add, Heq, <- jumps_add.
  replace (j + (d - j))%nat with d by lia. done.
Qed.

End Depth.

(** The compression pointers of a datagram, read off its octets: after zero or
    more complete labels from the first offset on stand the two octets of a
    pointer to the second. *)
Inductive points_to (data : list byte) (len : nat) : nat -> nat -> Prop :=
| pt_pointer offset b b' :
    (offset + 2 <= len)%nat -> data !! offset = Some b -> data !! S offset = Some b' ->
    MdnsResponder.is_pointer b = true ->
    points_to data len offset (MdnsResponder.pointer b b')
| pt_label offset b target :
    data !! offset = Some b -> Z_of_byte b <> 0 -> MdnsResponder.is_pointer b = false ->
    (S offset + Z.to_nat (Z_of_byte b) <= len)%nat ->
    points_to data len (S offset + Z.to_nat (Z_of_byte b)) target ->
    points_to data len offset target.

(** Following the pointers from an offset leads to one that leads back to
    itself. *)
Definition pointer_cycle (data : list byte) (len offset : nat) : Prop :=
  exists x, rtc (points_to data len) offset x /\ tc (points_to data len) x x.

Section Cycles.

Context (data : list byte) (len : nat) (Hlen : (len <= length data)%nat).

Lemma pointer_nonzero b : MdnsResponder.is_pointer b = true -> (Z_of_byte b =? 0) = false.
Proof.
  unfold MdnsResponder.is_pointer. destruct (Z.eqb_spec (Z_of_byte b) 0) as [->|]; [|done]. by vm_compute.
Qed.

(** The octets of a label that is not cut off. *)
Lemma label_avail n offset :
  (length (take n (drop offset (take len data))) <? n)%nat = false <-> (n = 0 \/ offset + n <= len)%nat.
Proof using Hlen.
  rewrite Nat.ltb_ge, length_take, length_drop, length_take. lia.
Qed.

Lemma jump_from_points rounds : forall offset p,
  jump_from data len rounds offset = Some p -> points_to data len offset p.
Proof using Hlen.
  induction rounds as [|rounds IH]; intros offset p; [done|]. cbn [jump_from].
  destruct (Nat.leb_spec len offset); [done|].
  destruct (data !! offset) as [b|] eqn:Hb; [|done]. simpl.
  destruct (Z.eqb_spec (Z_of_byte b) 0) as [|Hz]; [done|].
  destruct (MdnsResponder.is_pointer b) eqn:Hp.
  - destruct (Nat.ltb_spec len (offset + 2)); [done|].
    destruct (data !! S offset) as [b'|] eqn:Hb'; [|done]. simpl. intros [= <-]. by constructor.
  - destruct (_ <? _)%nat eqn:Ha; [done|]. apply label_avail in Ha. intros Hj. apply IH in Hj.
    apply (pt_label _ _ offset b); [done|done|done| |done]. pose proof (Z_of_byte_range b). lia.
Qed.

Lemma points_jump_from offset p : points_to data len offset p ->
  forall rounds, (len - offset < rounds)%nat -> jump_from data len rounds offset = Some p.
Proof using Hlen.
  induction 1 as [offset b b' Ho Hb Hb' Hp|offset b p Hb Hz Hp Ha _ IH]; intros [|rounds] Hr; try lia; cbn [jump_from].
  - rewrite_test (len <=? offset)%nat false. rewrite Hb. simpl. rewrite pointer_nonzero, Hp by done.
    rewrite_test (len <? offset + 2)%nat false. by rewrite Hb'.
  - rewrite_test (len <=? offset)%nat false. rewrite Hb. simpl. rewrite Hp.
    rewrite_test (Z_of_byte b =? 0) false. rewrite (proj2 (label_avail _ (S offset))) by (right; lia).
    apply IH. lia.
Qed.

Lemma jumps_nsteps d : forall offset x,
  jumps data len d offset = Some x <-> nsteps (points_to data len) d offset x.
Proof using Hlen.
  induction d as [|d IH]; intros offset x; cbn [jumps].
  - split; [intros [= ->]; constructor|]. by inversion 1.
  - split.
    + destruct (jump data len offset) as [p|] eqn:Hj; [|done]. simpl. intros Hx%IH.
      econstructor; [by eapply jump_from_points|done].
    + inversion 1 as [|? ? y ? Hp Hs]; subst. unfold jump.
      rewrite (points_jump_from _ _ Hp) by lia. simpl. by apply IH.
Qed.

(** A chain outlasts every stack iff it runs into a cycle. *)
Lemma jumps_cycle offset :
  is_Some (jumps data len (S len) offset) <-> pointer_cycle data len offset.
Proof using Hlen.
  split.
  - intros [p Hp]. destruct (jumps_repeat data len Hlen (S len) offset p Hp ltac:(lia)) as (i & j & Hij & He).
    destruct (jumps_prefix data len Hlen (S len) offset p Hp i ltac:(lia)) as (x & Hx & _). exists x. split.
    + apply rtc_nsteps. exists i. by apply jumps_nsteps.
    + apply tc_nsteps. exists (j - i)%nat. split; [lia|]. apply jumps_nsteps.
      rewrite Hx in He. replace j with (i + (j - i))%nat in He by lia. by rewrite jumps_add, Hx in He.
  - intros (x & [k Hk]%rtc_nsteps & (n & Hn & Hc)%tc_nsteps). apply jumps_nsteps in Hk, Hc.
    assert (Hl : forall i, jumps data len (i * n) x = Some x).
    { induction i as [|i IH]; [done|]. simpl. by rewrite jumps_add, Hc. }
    destruct (jumps data len (S len) offset) eqn:Hj; [by eexists|]. exfalso.
    assert (Hx : jumps data len (k + S len * n) offset = Some x) by (by rewrite jumps_add, Hk; exact (Hl (S len))).
    replace (k + S len * n)%nat with (S len + (k + S len * n - S len))%nat in Hx by nia.
    by rewrite jumps_add, Hj in Hx.
Qed.

End Cycles.

(** A deeper stack does not change a result. *)
Lemma decode_loop_mono data len (f g : nat -> outcome (list byte * nat)) rounds :
  (forall p r, f p = Ret r -> g p = Ret r) -> forall first name offset r,
  MdnsResponder.decode_loop data len f rounds first name offset = Ret r ->
  MdnsResponder.decode_loop data len g rounds first name offset = Ret r.
Proof.
  intros Hfg. induction rounds as [|rounds IH]; intros first name offset r; [done|].
  cbn [MdnsResponder.decode_loop].
  destruct (len <=? offset)%nat; [done|]. destruct (data !! offset) as [b|]; [|done].
  destruct (Z_of_byte b =? 0); [done|]. destruct (MdnsResponder.is_pointer b).
  - destruct (len <? offset + 2)%nat; [done|]. destruct (data !! S offset) as [b'|]; [|done].
    destruct (f _) as [[rest o]|e| |] eqn:Ef; try done. by rewrite (Hfg _ _ Ef).
  - destruct (_ <? _)%nat; [done|]. apply IH.
Qed.

Lemma decode_name_mono data len d : forall d' offset r,
  (d <= d')%nat -> MdnsResponder.decode_name data len d offset = Ret r ->
  MdnsResponder.decode_name data len d' offset = Ret r.
Proof.
  induction d as [|d IH]; intros d' offset r Hd; [done|].
  destruct d' as [|d']; [lia|].
  cbn [MdnsResponder.decode_name]. intros Hr. eapply decode_loop_mono; [|exact Hr].
  intros p r'. apply IH. lia.
Qed.

(** [C27] When [decode_name] returns: on a datagram of [len] octets it fails to
    return, whatever its stack, exactly if the chain of compression pointers
    from its offset runs into a cycle; otherwise [len + 1] nested calls
    suffice, and every larger stack gives the same result. *)
Theorem decode_name_decided data len offset :
  (len <= length data)%nat ->
  (pointer_cycle data len offset <->
     forall d, MdnsResponder.decode_name data len d offset = Undefined) /\
  (~ pointer_cycle data len offset ->
     exists r, forall d, (len < d)%nat -> MdnsResponder.decode_name data len d offset = Ret r).
Proof.
  intros Hl. rewrite <- (jumps_cycle data len Hl). pose proof (decode_name_jumps data len Hl (S len) offset) as Hd.
  destruct (jumps data len (S len) offset) as [p|] eqn:Hj.
  - split; [|intros Hc; destruct Hc; by eexists]. split; [intros _ d|by eexists].
    pose proof (decode_name_jumps data len Hl d offset) as Hd'.
    destruct (jumps data len d offset) eqn:Hj'; [done|].
    apply jumps_bounded in Hj'; congruence.
  - destruct Hd as [r Hr]. split.
    + split; [by intros [? ?]|]. intros Hu. by rewrite Hu in Hr.
    + intros _. exists r. intros d Hlt. by apply (decode_name_mono _ _ (S len)).
Qed.

(** ** The response as a list of resource records *)

Definition be16 (v : Z) : list byte := [byte_of_Z (Z.shiftr v 8); byte_of_Z (Z.land v 0xFF)].
Definition be32 (v : Z) : list byte :=
  [byte_of_Z (Z.shiftr v 24); byte_of_Z (Z.shiftr v 16); byte_of_Z (Z.shiftr v 8);
   byte_of_Z (Z.land v 0xFF)].

(** A record: its name on the wire, type, time to live and data. *)
Record rr : Type := mkRr { rr_name : list byte; rr_type : Z; rr_ttl : Z; rr_data : list byte }.

(** RFC 1035, 4.1.3. *)
Definition rr_bytes (r : rr) : list byte :=
  rr_name r ++ be16 (rr_type r) ++ be16 RR_CLASS_IN_FLUSH ++ be32 (rr_ttl r) ++
  be16 (Z.of_nat (length (rr_data r))) ++ rr_data r.

Lemma write_rdata_eq f data buf :
  (forall b, f b = b ++ data) ->
  MdnsResponder.write_rdata f buf = buf ++ be16 (Z.of_nat (length data)) ++ data.
Proof.
  intros Hf. unfold MdnsResponder.write_rdata, MdnsResponder.write_u16. rewrite Hf, <- app_assoc.
  set (h := [_; _]).
  replace (Z.of_nat _) with (Z.of_nat (length data)) by (rewrite !length_app; simpl; lia).
  rewrite <- (Nat.add_0_r (length buf)) at 2. rewrite insert_app_r.
  rewrite <- Nat.add_1_r, insert_app_r. done.
Qed.

Section Response.

Context (parse_v4 : string -> option (byte * byte * byte * byte)).

(** The four records that announce the broker. *)
Definition announcement (m : MdnsResponder) : list rr :=
  [mkRr (encoded_service_ m) RR_TYPE_PTR TTL_PTR (encoded_instance_ m);
   mkRr (encoded_instance_ m) RR_TYPE_SRV TTL_SRV_TXT
     (be16 0 ++ be16 0 ++ be16 (port_ m) ++ encoded_node_ m);
   mkRr (encoded_instance_ m) RR_TYPE_TXT TTL_SRV_TXT [Byte.x00];
   mkRr (encoded_node_ m) RR_TYPE_A TTL_A (MdnsResponder.ip_bytes parse_v4 m)].

Lemma length_ip_bytes m : length (MdnsResponder.ip_bytes parse_v4 m) = 4%nat.
Proof. unfold MdnsResponder.ip_bytes. by destruct (parse_v4 (ip_ m)) as [[[[a b] c] d]|]. Qed.

(** The header of a response: the id, one question, one answer, three more
    records. *)
Definition response_header (id : Z) : list byte :=
  be16 id ++ be16 DNS_FLAG_RESPONSE ++ be16 1 ++ be16 1 ++ be16 0 ++ be16 3.

Lemma response_eq m id question :
  MdnsResponder.response parse_v4 m id question =
    response_header id ++ question ++ concat (rr_bytes <$> announcement m).
Proof.
  unfold MdnsResponder.response, response_header, announcement.
  rewrite (write_rdata_eq (fun buf => buf ++ encoded_instance_ m) (encoded_instance_ m)) by done.
  rewrite (write_rdata_eq (fun buf => MdnsResponder.write_u16 (port_ m)
             (MdnsResponder.write_u16 0 (MdnsResponder.write_u16 0 buf)) ++ encoded_node_ m)
             (be16 0 ++ be16 0 ++ be16 (port_ m) ++ encoded_node_ m))
    by (intros b; unfold MdnsResponder.write_u16; by rewrite <- !app_assoc).
  rewrite (write_rdata_eq (fun buf => buf ++ [Byte.x00]) [Byte.x00]) by done.
  unfold MdnsResponder.write_rr_head, MdnsResponder.write_u16, MdnsResponder.write_u32.
  cbn [fmap list_fmap concat]. unfold rr_bytes. cbn [rr_name rr_type rr_ttl rr_data].
  rewrite length_ip_bytes. rewrite app_nil_r. rewrite <- !app_assoc. done.
Qed.

End Response.

(** ** Reading a datagram *)

Lemma be16_octets v :
  0 <= v < 65536 ->
  Z_of_byte (byte_of_Z (Z.shiftr v 8)) = v / 256 /\ Z_of_byte (byte_of_Z (Z.land v 0xFF)) = v mod 256.
Proof.
  intros Hv. rewrite !Z_of_byte_of_Z, land_ff, Z.shiftr_div_pow2 by lia. unfold u8.
  change (2 ^ 8) with 256. rewrite Z.mod_mod by lia. split; [|done].
  apply Z.mod_small. split; [apply Z.div_pos; lia|]. apply Z.div_lt_upper_bound; lia.
Qed.

Lemma read_u16_at data len pre v post :
  take len data = pre ++ be16 v ++ post -> 0 <= v < 65536 ->
  MdnsResponder.read_u16 data (length pre) = v.
Proof.
  intros Ht Hv. destruct (datagram_at _ _ pre _ _ Ht) as [_ H1].
  assert (Ht' : take len data = (pre ++ [byte_of_Z (Z.shiftr v 8)]) ++ byte_of_Z (Z.land v 0xFF) :: post)
    by (rewrite Ht; unfold be16; by rewrite <- app_assoc).
  destruct (datagram_at _ _ _ _ _ Ht') as [_ H2]. rewrite length_app in H2.
  cbn [length] in H2. rewrite Nat.add_1_r in H2.
  unfold MdnsResponder.read_u16. rewrite H1, H2. cbn [default from_option id].
  destruct (be16_octets v Hv) as [-> ->]. rewrite lor_shiftl_8.
  - rewrite u16_small; [|rewrite Z.mul_comm, <- Z.div_mod; lia].
    rewrite Z.mul_comm, <- Z.div_mod; lia.
  - apply Z.div_pos; lia.
  - apply Z.mod_pos_bound; lia.
Qed.

Lemma be32_small v : 0 <= v < 65536 -> be32 v = be16 0 ++ be16 v.
Proof.
  intros Hv. unfold be32, be16.
  replace (Z.shiftr v 24) with 0 by (rewrite Z.shiftr_div_pow2, Z.div_small; lia).
  replace (Z.shiftr v 16) with 0 by (rewrite Z.shiftr_div_pow2, Z.div_small; lia). done.
Qed.

(** Reading a record with the responder's own decoder of names. *)
Definition read_rr (data : list byte) (len offset : nat) : option (rr * nat) :=
  match MdnsResponder.decode_name data len (S len) offset with
  | Ret (name, o) =>
      let rdlen := Z.to_nat (MdnsResponder.read_u16 data (o + 8)) in
      if (o + 10 + rdlen <=? len)%nat then
        Some (mkRr name (MdnsResponder.read_u16 data o)
                (MdnsResponder.read_u16 data (o + 4) * 65536 + MdnsResponder.read_u16 data (o + 6))
                (take rdlen (drop (o + 10) data)), (o + 10 + rdlen)%nat)
      else None
  | _ => None
  end.

Fixpoint read_rrs (n : nat) (data : list byte) (len offset : nat) : option (list rr) :=
  match n with
  | O => Some []
  | S n => '(r, offset) ← read_rr data len offset; rs ← read_rrs n data len offset; Some (r :: rs)
  end.

(** A record that can be read: a name of proper labels, numbers in range. *)
Definition rr_ok (L : list (list byte)) (r : rr) : Prop :=
  Forall label_ok L /\ rr_name r = MdnsResponder.encode_name (join_labels L) /\
  0 <= rr_type r < 65536 /\ 0 <= rr_ttl r < 65536 /\ Z.of_nat (length (rr_data r)) < 65536.

(** The record as a reader sees it: the name in text and in lower case. *)
Definition rr_text (L : list (list byte)) (r : rr) : rr :=
  mkRr (MdnsResponder.lower <$> join_labels L) (rr_type r) (rr_ttl r) (rr_data r).

Lemma length_rr_bytes r : length (rr_bytes r) = (length (rr_name r) + 10 + length (rr_data r))%nat.
Proof. unfold rr_bytes. rewrite !length_app. simpl. lia. Qed.

Lemma read_rr_bytes data len pre post L r :
  rr_ok L r -> take len data = pre ++ rr_bytes r ++ post ->
  read_rr data len (length pre) = Some (rr_text L r, (length pre + length (rr_bytes r))%nat).
Proof.
  intros (HL & Hn & Hty & Httl & Hd) Ht.
  assert (Hlen : (length pre + length (rr_bytes r) <= len)%nat).
  { apply (f_equal length) in Ht. rewrite length_take, !length_app in Ht. lia. }
  rewrite length_rr_bytes in *. unfold rr_bytes in Ht. rewrite Hn, be32_small in Ht by done.
  rewrite <- !app_assoc in Ht. unfold read_rr. rewrite (decode_encoded data len L pre _ len HL Ht).
  rewrite <- Hn in *. set (o := (length pre + length (rr_name r))%nat).
  assert (Hat : forall mid v rest, take len data = pre ++ rr_name r ++ mid ++ be16 v ++ rest ->
    0 <= v < 65536 -> MdnsResponder.read_u16 data (o + length mid) = v).
  { intros mid v rest Hm Hv. replace (o + length mid)%nat with (length (pre ++ rr_name r ++ mid))
      by (rewrite !length_app; unfold o; lia).
    eapply read_u16_at; [|done]. rewrite Hm. by rewrite <- !app_assoc. }
  pose proof (Hat [] (rr_type r) _ Ht Hty) as H0. rewrite Nat.add_0_r in H0.
  pose proof (Hat (be16 (rr_type r) ++ be16 RR_CLASS_IN_FLUSH) 0 _ Ht ltac:(lia)) as H4.
  pose proof (Hat (be16 (rr_type r) ++ be16 RR_CLASS_IN_FLUSH ++ be16 0) (rr_ttl r) _ Ht Httl) as H6.
  pose proof (Hat (be16 (rr_type r) ++ be16 RR_CLASS_IN_FLUSH ++ be16 0 ++ be16 (rr_ttl r))
                (Z.of_nat (length (rr_data r))) _ Ht ltac:(lia)) as H8.
  cbn [be16 app length] in H4, H6, H8. rewrite H0, H4, H6, H8, Nat2Z.id.
  rewrite_test (o + 10 + length (rr_data r) <=? len)%nat true.
  assert (Hdata : take (length (rr_data r)) (drop (o + 10) data) = rr_data r).
  { rewrite <- (take_drop len data) at 1. rewrite Ht.
    set (hd := pre ++ rr_name r ++ be16 (rr_type r) ++ be16 RR_CLASS_IN_FLUSH ++ be16 0 ++
               be16 (rr_ttl r) ++ be16 (Z.of_nat (length (rr_data r)))).
    replace (_ ++ drop len data) with (hd ++ rr_data r ++ post ++ drop len data)
      by (unfold hd; by rewrite <- !app_assoc).
    rewrite drop_app_length' by (unfold hd, o; rewrite !length_app; simpl; lia).
    by rewrite take_app_length. }
  rewrite Hdata. unfold rr_text, o. rewrite Z.mul_0_l, Z.add_0_l.
  apply (f_equal (fun n => Some (_, n))). lia.
Qed.

Lemma read_rrs_bytes data len Ls rs : forall pre post,
  Forall2 rr_ok Ls rs -> take len data = pre ++ concat (rr_bytes <$> rs) ++ post ->
  read_rrs (length rs) data len (length pre) = Some (zip_with rr_text Ls rs).
Proof.
  intros pre post H. revert pre. induction H as [|L r Ls rs Hr Hrs IH]; intros pre Ht; [done|].
  cbn [fmap list_fmap concat] in Ht. rewrite <- app_assoc in Ht.
  cbn [length read_rrs]. rewrite (read_rr_bytes data len pre _ L r Hr Ht). simpl.
  rewrite <- length_app. rewrite IH; [done|]. rewrite Ht. by rewrite <- app_assoc.
Qed.

(** ** The names of a host *)

Lemma join_labels_app L1 L2 :
  L1 <> [] -> L2 <> [] -> join_labels (L1 ++ L2) = join_labels L1 ++ MdnsResponder.dot :: join_labels L2.
Proof.
  intros H1 H2. induction L1 as [|l L1 IH]; [done|]. destruct L1 as [|l' L1].
  - simpl. by destruct L2.
  - change (join_labels ((l :: l' :: L1) ++ L2)) with (l ++ MdnsResponder.dot :: join_labels ((l' :: L1) ++ L2)).
    rewrite IH by done.
    change (join_labels (l :: l' :: L1)) with (l ++ MdnsResponder.dot :: join_labels (l' :: L1)).
    by rewrite <- app_assoc.
Qed.

Lemma length_encode_name L :
  Forall label_ok L -> L <> [] ->
  length (MdnsResponder.encode_name (join_labels L)) = (length (join_labels L) + 2)%nat.
Proof.
  intros HL Hn. rewrite encode_name_labels, length_app by done. simpl.
  assert (Hw : length (wire_labels L) = S (length (join_labels L))); [|lia].
  clear HL. induction L as [|l L IH]; [done|]. destruct L as [|l' L].
  - unfold wire_labels. simpl. rewrite app_nil_r. done.
  - change (wire_labels (l :: l' :: L)) with (byte_of_Z (Z.of_nat (length l)) :: l ++ wire_labels (l' :: L)).
    change (join_labels (l :: l' :: L)) with (l ++ MdnsResponder.dot :: join_labels (l' :: L)).
    cbn [length]. rewrite !length_app, IH by done. simpl. lia.
Qed.

Definition local_labels : list (list byte) := [string_bytes "local"].
Definition service_labels : list (list byte) :=
  [string_bytes "_mqtt"; string_bytes "_tcp"; string_bytes "local"].

(** [label_ok] for every label, as a test. *)
Definition labels_okb (L : list (list byte)) : bool :=
  forallb (fun l => (1 <=? length l)%nat && (length l <=? 63)%nat &&
             forallb (fun c => negb (bool_decide (c = MdnsResponder.dot))) l) L.

Lemma labels_okb_spec L : labels_okb L = true -> Forall label_ok L.
Proof.
  unfold labels_okb. intros HL. apply Forall_forall. intros l Hl. rewrite forallb_forall in HL.
  specialize (HL l ltac:(by apply list_elem_of_In)).
  apply andb_prop in HL as [HL Hd]. tests_to_props. split; [lia|].
  intros Hin. rewrite forallb_forall in Hd. specialize (Hd _ ltac:(by apply list_elem_of_In)).
  by rewrite bool_decide_eq_true_2 in Hd.
Qed.

Lemma fixed_labels_ok : Forall label_ok service_labels /\ Forall label_ok local_labels.
Proof. split; apply labels_okb_spec; by vm_compute. Qed.

(** A host name as it is used: proper labels, 255 octets at most. *)
Record host_ok (L : list (list byte)) (hostname : string) : Prop := {
  host_labels : Forall label_ok L;
  host_nonempty : L <> [];
  host_name : string_bytes hostname = join_labels L;
  host_length : (String.length hostname <= 255)%nat
}.

(** The names a responder for the host has. *)
Definition names_of (L : list (list byte)) (m : MdnsResponder) : Prop :=
  service_ m = join_labels service_labels /\
  instance_ m = join_labels (L ++ service_labels) /\ node_ m = join_labels (L ++ local_labels).

Section Host.

Context (L : list (list byte)) (port : Z) (hostname ip : string) (HL : host_ok L hostname).

Lemma init_names : names_of L (MdnsResponder.init port hostname ip).
Proof using HL.
  destruct HL as [Hok Hne Hname _]. unfold names_of. simpl. rewrite Hname. rewrite !join_labels_app by done. done.
Qed.

Lemma init_encoded :
  let m := MdnsResponder.init port hostname ip in
  encoded_service_ m = MdnsResponder.encode_name (join_labels service_labels) /\
  encoded_instance_ m = MdnsResponder.encode_name (join_labels (L ++ service_labels)) /\
  encoded_node_ m = MdnsResponder.encode_name (join_labels (L ++ local_labels)).
Proof using HL.
  destruct init_names as (Hs & Hi & Hn). simpl in *. by rewrite Hi, Hn.
Qed.

Lemma host_labels_ok :
  Forall label_ok (L ++ service_labels) /\ Forall label_ok (L ++ local_labels).
Proof using HL.
  destruct HL as [Hok _ _ _], fixed_labels_ok. split; by apply Forall_app_2.
Qed.

Lemma encoded_lengths :
  let m := MdnsResponder.init port hostname ip in
  length (encoded_service_ m) = 18%nat /\
  length (encoded_instance_ m) = (String.length hostname + 19)%nat /\
  length (encoded_node_ m) = (String.length hostname + 8)%nat.
Proof using HL.
  intros m. destruct init_encoded as (Hs & Hi & Hn). subst m. rewrite Hs, Hi, Hn.
  destruct host_labels_ok as [H1 H2].
  destruct HL as [Hok Hne Hname _]. split; [by vm_compute|].
  rewrite !length_encode_name, !join_labels_app, !length_app by (done || (by destruct L)).
  rewrite <- Hname, length_string_bytes. split; simpl; lia.
Qed.

End Host.

(** ** What the responder says *)

Section Announce.

Context (parse_v4 : string -> option (byte * byte * byte * byte)).

Lemma announcement_ok L port hostname ip :
  host_ok L hostname ->
  Forall2 rr_ok [service_labels; L ++ service_labels; L ++ service_labels; L ++ local_labels]
    (announcement parse_v4 (MdnsResponder.init port hostname ip)).
Proof.
  intros HL. destruct (init_encoded L port hostname ip HL) as (Hs & Hi & Hn).
  destruct (encoded_lengths L port hostname ip HL) as (Ls & Li & Ln).
  destruct (host_labels_ok L hostname HL) as [H1 H2]. pose proof fixed_labels_ok as [H3 _].
  pose proof (host_length _ _ HL) as Hl.
  unfold announcement. set (m := MdnsResponder.init port hostname ip) in *.
  repeat (apply Forall2_cons_2; [unfold rr_ok; cbn [rr_name rr_type rr_ttl rr_data]|]);
    [..|apply Forall2_nil_2];
    (split; [done|]); (split; [done|]); rewrite ?length_ip_bytes, ?length_app; cbn [be16 length];
    unfold RR_TYPE_PTR, RR_TYPE_SRV, RR_TYPE_TXT, RR_TYPE_A, TTL_PTR, TTL_SRV_TXT, TTL_A; lia.
Qed.

(** [C20] The response is readable: reading the datagram [send_response] builds with
    the decoder of names gives back the query's id, the flags of a response
    and, after the echoed question, the four records that announce the
    broker: the service points to the instance, the instance has port and
    node, and the node has the address.  The length octets patched in
    afterwards are those of the data. *)
Theorem response_readable L port hostname ip id question :
  host_ok L hostname -> 0 <= id < 65536 ->
  let m := MdnsResponder.init port hostname ip in
  let data := MdnsResponder.response parse_v4 m id question in
  MdnsResponder.read_u16 data 0 = id /\ MdnsResponder.read_u16 data 2 = DNS_FLAG_RESPONSE /\
  read_rrs 4 data (length data) (12 + length question) =
    Some [mkRr (MdnsResponder.lower <$> service_ m) RR_TYPE_PTR TTL_PTR (encoded_instance_ m);
          mkRr (MdnsResponder.lower <$> instance_ m) RR_TYPE_SRV TTL_SRV_TXT
            (be16 0 ++ be16 0 ++ be16 port ++ encoded_node_ m);
          mkRr (MdnsResponder.lower <$> instance_ m) RR_TYPE_TXT TTL_SRV_TXT [Byte.x00];
          mkRr (MdnsResponder.lower <$> node_ m) RR_TYPE_A TTL_A (MdnsResponder.ip_bytes parse_v4 m)].
Proof.
  intros HL Hid m data. destruct (init_names L port hostname ip HL) as (Hs & Hi & Hn).
  pose proof (announcement_ok L port hostname ip HL) as Ha. fold m in Ha, Hs, Hi, Hn.
  assert (Hd : take (length data) data =
    (response_header id ++ question) ++ concat (rr_bytes <$> announcement parse_v4 m) ++ []).
  { rewrite take_ge by done. unfold data. by rewrite response_eq, app_nil_r, <- app_assoc. }
  rewrite <- app_assoc in Hd. split; [|split].
  - eapply (read_u16_at data (length data) [] id); [|done]. exact Hd.
  - eapply (read_u16_at data (length data) (be16 id)); [exact Hd|done].
  - rewrite app_assoc in Hd. replace (12 + length question)%nat
      with (length (response_header id ++ question)) by (rewrite length_app; done).
    pose proof (read_rrs_bytes data (length data) _ _ _ _ Ha Hd) as Hr.
    change (length (announcement parse_v4 m)) with 4%nat in Hr. rewrite Hr.
    rewrite Hs, Hi, Hn. done.
Qed.

(** ** What the responder answers *)

(** A datagram whose first question is [qname], [qtype], [qclass]. *)
Definition question_bytes (Q : list (list byte)) (qtype qclass : Z) : list byte :=
  MdnsResponder.encode_name (join_labels Q) ++ be16 qtype ++ be16 qclass.

Lemma handle_question m remote ok depth bytes hdr Q qtype qclass rest :
  Forall label_ok Q -> 0 <= qtype < 65536 -> length hdr = 12%nat -> (bytes <= BUF_SIZE)%nat ->
  take bytes (recv_buf_ m) = hdr ++ question_bytes Q qtype qclass ++ rest ->
  MdnsResponder.read_u16 (recv_buf_ m) 4 = 1 ->
  MdnsResponder.handle_datagram parse_v4 (S depth) remote ok bytes m =
    if MdnsResponder.matches m (MdnsResponder.lower <$> join_labels Q) qtype
    then MdnsResponder.send_response parse_v4 remote ok (MdnsResponder.read_u16 (recv_buf_ m) 0)
           (question_bytes Q qtype qclass) m
    else (Ret tt, m).
Proof.
  intros HQ Hty Hh Hb Ht Hone. unfold MdnsResponder.handle_datagram. rewrite Hone.
  set (data := recv_buf_ m) in *. set (enc := MdnsResponder.encode_name (join_labels Q)).
  assert (Hle : (12 + length enc + 4 <= bytes)%nat).
  { apply (f_equal length) in Ht. unfold question_bytes in Ht.
    rewrite length_take, !length_app in Ht. fold enc in Ht. simpl in Ht. lia. }
  unfold question_bytes in Ht. fold enc in Ht. rewrite <- !app_assoc in Ht.
  rewrite <- Hh. rewrite (decode_encoded data bytes Q hdr _ depth HQ Ht). fold enc.
  assert (Hsk : MdnsResponder.skip_questions data bytes (Z.to_nat 1) (length hdr) =
                (length hdr + length enc + 4)%nat).
  { change (Z.to_nat 1) with 1%nat. cbn [MdnsResponder.skip_questions].
    rewrite_test (bytes <=? length hdr)%nat false.
    unfold enc in Ht, Hle |- *. rewrite encode_name_labels in * by done.
    rewrite <- app_assoc in Ht. rewrite (skip_name_labels data bytes Q (S bytes) hdr _ HQ Ht).
    - by rewrite_test (length hdr + length (wire_labels Q ++ [Byte.x00]) + 4 <=? bytes)%nat true.
    - pose proof (length_wire Q HQ). rewrite length_app in Hle. lia. }
  rewrite Hsk. rewrite_test (length hdr + length enc + 4 <=? bytes)%nat true.
  replace (length hdr + length enc)%nat with (length (hdr ++ enc)) by (by rewrite length_app).
  rewrite (read_u16_at data bytes (hdr ++ enc) qtype (be16 qclass ++ rest))
    by (done || (by rewrite Ht, <- app_assoc)).
  destruct (MdnsResponder.matches _ _ _); [|done].
  rewrite length_app. rewrite_test (BUF_SIZE <? length hdr + length enc + 4)%nat false.
  f_equal. rewrite Hh. replace (12 + length enc + 4 - 12)%nat with (length enc + 4)%nat by lia.
  rewrite <- (take_drop bytes data) at 1. rewrite Ht, <- !app_assoc, <- Hh, drop_app_length.
  replace (enc ++ _) with ((enc ++ be16 qtype ++ be16 qclass) ++ rest ++ drop bytes data)
    by (by rewrite <- !app_assoc).
  rewrite take_app_length'; [done|]. rewrite !length_app. simpl. lia.
Qed.

(** The datagram of a message with a header and a first question. *)
Definition message (id flags qd an ns ar : Z) (body : list byte) : list byte :=
  be16 id ++ be16 flags ++ be16 qd ++ be16 an ++ be16 ns ++ be16 ar ++ body.

(** One receive of such a message, from another host or one's own. *)
Lemma receive_message m remote depth id flags an ns ar Q qtype qclass rest :
  let body := question_bytes Q qtype qclass ++ rest in
  running_ m = true -> length (recv_buf_ m) = BUF_SIZE ->
  Forall label_ok Q -> 0 <= qtype < 65536 -> 0 <= id < 65536 ->
  (length (message id flags 1 an ns ar body) <= BUF_SIZE)%nat ->
  exists m', MdnsResponder.handle_receive parse_v4 (S depth) false remote true
               (message id flags 1 an ns ar body) m = (Ret tt, m') /\
    receiving m' = true /\ running_ m' = true /\ length (recv_buf_ m') = BUF_SIZE /\
    (forall i q, MdnsResponder.response parse_v4 m' i q = MdnsResponder.response parse_v4 m i q) /\
    service_ m' = service_ m /\
    mdns_sent m' = mdns_sent m ++
      (if MdnsResponder.matches m (MdnsResponder.lower <$> join_labels Q) qtype
       then [(remote, MdnsResponder.response parse_v4 m id (question_bytes Q qtype qclass))] else []).
Proof.
  intros body Hrun Hbuf HQ Hty Hid Hlen. set (d := message id flags 1 an ns ar body) in *.
  unfold MdnsResponder.handle_receive. rewrite take_ge by done. rewrite Hrun. cbn [orb negb].
  set (data := list_inserts 0 d (recv_buf_ m)).
  assert (Hdata : take (length d) data = d).
  { unfold data. pose proof (take_list_inserts 0 d (recv_buf_ m)) as Hi. apply Hi. rewrite Hbuf. exact Hlen. }
  assert (Hdl : length data = BUF_SIZE) by (unfold data; by rewrite length_inserts).
  assert (H12 : (12 <= length d)%nat) by (unfold d, message; rewrite !length_app; simpl; lia).
  rewrite_test (12 <=? length d)%nat true.
  set (m1 := MdnsResponder.set_io _ _ _ _).
  assert (Hone : MdnsResponder.read_u16 data 4 = 1).
  { apply (read_u16_at data (length d) (be16 id ++ be16 flags) 1 (be16 an ++ be16 ns ++ be16 ar ++ body));
      [|lia]. by rewrite Hdata. }
  assert (Hi : MdnsResponder.read_u16 data 0 = id).
  { apply (read_u16_at data (length d) [] id (be16 flags ++ be16 1 ++ be16 an ++ be16 ns ++ be16 ar ++ body));
      [by rewrite Hdata|done]. }
  unfold mbind, M_bind.
  rewrite (handle_question m1 remote true depth (length d)
    (be16 id ++ be16 flags ++ be16 1 ++ be16 an ++ be16 ns ++ be16 ar) Q qtype qclass rest HQ Hty
    eq_refl Hlen); [|change (recv_buf_ m1) with data; rewrite Hdata; unfold d, message; by rewrite <- !app_assoc|exact Hone].
  change (MdnsResponder.read_u16 (recv_buf_ m1) 0) with (MdnsResponder.read_u16 data 0). rewrite Hi.
  change (MdnsResponder.matches m1) with (MdnsResponder.matches m).
  assert (Hm1 : running_ m1 = true) by reflexivity.
  destruct (MdnsResponder.matches m _ _); unfold MdnsResponder.send_response, MdnsResponder.do_receive;
    cbn [running_ MdnsResponder.add_sent]; rewrite Hm1; eexists; (split; [reflexivity|]);
    rewrite ?app_nil_r; (split; [reflexivity|]); (split; [reflexivity|]);
    (split; [exact Hdl|]); (split; [reflexivity|]); (split; reflexivity).
Qed.

(** [C19] Queries are answered exactly: a running responder that receives a query
    with one question sends one response, with the query's id and the question
    echoed, if the lower-case name and the type are those of the service, the
    instance or the node, and nothing otherwise; either way it receives
    again. *)
Theorem query_answered L m remote depth id flags an ns ar Q qtype qclass rest :
  names_of L m -> running_ m = true -> length (recv_buf_ m) = BUF_SIZE ->
  Forall label_ok Q -> 0 <= qtype < 65536 -> 0 <= id < 65536 ->
  let query := message id flags 1 an ns ar (question_bytes Q qtype qclass ++ rest) in
  (length query <= BUF_SIZE)%nat ->
  exists m', MdnsResponder.handle_receive parse_v4 (S depth) false remote true query m = (Ret tt, m') /\
    receiving m' = true /\
    let name := MdnsResponder.lower <$> join_labels Q in
    let asked := (name = join_labels service_labels /\ qtype = RR_TYPE_PTR) \/
                 (name = join_labels (L ++ service_labels) /\ (qtype = RR_TYPE_SRV \/ qtype = RR_TYPE_TXT)) \/
                 (name = join_labels (L ++ local_labels) /\ qtype = RR_TYPE_A) \/ qtype = 255 in
    (asked -> mdns_sent m' = mdns_sent m ++
       [(remote, MdnsResponder.response parse_v4 m id (question_bytes Q qtype qclass))]) /\
    (~ asked -> mdns_sent m' = mdns_sent m).
Proof.
  intros (E1 & E2 & E3) Hrun Hbuf HQ Hty Hid query Hlen.
  destruct (receive_message m remote depth id flags an ns ar Q qtype qclass rest Hrun Hbuf HQ Hty Hid Hlen)
    as (m' & Hr & Hrec & _ & _ & _ & _ & Hsent).
  exists m'. split; [exact Hr|]. split; [done|]. cbv zeta. rewrite Hsent.
  assert (Hm : forall n, MdnsResponder.matches m n qtype = true <->
    (n = join_labels service_labels /\ qtype = RR_TYPE_PTR) \/
    (n = join_labels (L ++ service_labels) /\ (qtype = RR_TYPE_SRV \/ qtype = RR_TYPE_TXT)) \/
    (n = join_labels (L ++ local_labels) /\ qtype = RR_TYPE_A) \/ qtype = 255).
  { intros n. unfold MdnsResponder.matches. rewrite E1, E2, E3.
    repeat case_bool_decide; simpl;
      repeat match goal with |- context [?x =? ?y] => destruct (Z.eqb_spec x y) end; naive_solver. }
  specialize (Hm (MdnsResponder.lower <$> join_labels Q)). split; intros Ha.
  - by rewrite (proj2 Hm Ha).
  - destruct (MdnsResponder.matches _ _ _); [exfalso; by apply Ha, Hm|]. by rewrite app_nil_r.
Qed.

(** Decoded names are in lower case. *)
Lemma lower_idem c : MdnsResponder.lower (MdnsResponder.lower c) = MdnsResponder.lower c.
Proof. by destruct c. Qed.

(** Host names with capitals are not resolved: names of questions are put
    into lower case and compared with the host's name as it was configured, so
    when that has a capital letter no question for the address of the node, in
    whatever case it is written, is answered. *)
Theorem capitals_not_resolved L m remote depth id flags an ns ar Q qclass rest c :
  names_of L m -> c ∈ node_ m -> MdnsResponder.lower c <> c ->
  running_ m = true -> length (recv_buf_ m) = BUF_SIZE ->
  Forall label_ok Q -> 0 <= id < 65536 ->
  let query := message id flags 1 an ns ar (question_bytes Q RR_TYPE_A qclass ++ rest) in
  (length query <= BUF_SIZE)%nat ->
  exists m', MdnsResponder.handle_receive parse_v4 (S depth) false remote true query m = (Ret tt, m') /\
    mdns_sent m' = mdns_sent m.
Proof.
  intros (E1 & E2 & E3) Hc Hcap Hrun Hbuf HQ Hid query Hlen.
  destruct (receive_message m remote depth id flags an ns ar Q RR_TYPE_A qclass rest Hrun Hbuf HQ
    ltac:(unfold RR_TYPE_A; lia) Hid Hlen) as (m' & Hr & _ & _ & _ & _ & _ & Hsent).
  exists m'. split; [exact Hr|]. rewrite Hsent. unfold MdnsResponder.matches. rewrite !andb_false_r.
  rewrite bool_decide_eq_false_2; [by rewrite app_nil_r|].
  intros He. rewrite <- He in Hc. apply list_elem_of_fmap in Hc as (c' & -> & _).
  by rewrite lower_idem in Hcap.
Qed.

(** Two responders that hear each other: each receives the last datagram of the
    other. *)
Fixpoint exchange (depth n : nat) (a b : MdnsResponder) : MdnsResponder * MdnsResponder :=
  match n with
  | O => (a, b)
  | S n =>
      match last (mdns_sent a) with
      | Some (_, d) =>
          exchange depth n (MdnsResponder.handle_receive parse_v4 depth false "peer" true d b).2 a
      | None => (a, b)
      end
  end.

(** A running responder whose answer to the question for the service fits a
    datagram. *)
Record answering (m : MdnsResponder) : Prop := {
  an_running : running_ m = true;
  an_buf : length (recv_buf_ m) = BUF_SIZE;
  an_service : service_ m = join_labels service_labels;
  an_size : forall i, (length (MdnsResponder.response parse_v4 m i
              (question_bytes service_labels RR_TYPE_PTR 1)) <= BUF_SIZE)%nat
}.

Lemma answering_receives id a b depth :
  answering a -> answering b -> 0 <= id < 65536 ->
  exists b', MdnsResponder.handle_receive parse_v4 (S depth) false "peer" true
      (MdnsResponder.response parse_v4 a id (question_bytes service_labels RR_TYPE_PTR 1)) b = (Ret tt, b') /\
    answering b' /\
    mdns_sent b' = mdns_sent b ++ [("peer"%string, MdnsResponder.response parse_v4 b' id
                                     (question_bytes service_labels RR_TYPE_PTR 1))].
Proof.
  intros Ha Hb Hid.
  assert (Hd : MdnsResponder.response parse_v4 a id (question_bytes service_labels RR_TYPE_PTR 1) =
    message id DNS_FLAG_RESPONSE 1 1 0 3 (question_bytes service_labels RR_TYPE_PTR 1 ++
      concat (rr_bytes <$> announcement parse_v4 a))) by (rewrite response_eq; done).
  pose proof (an_size a Ha id) as Hsz. rewrite Hd in Hsz |- *.
  destruct (receive_message b "peer" depth id DNS_FLAG_RESPONSE 1 0 3 service_labels RR_TYPE_PTR 1
    (concat (rr_bytes <$> announcement parse_v4 a)) (an_running b Hb) (an_buf b Hb)
    (proj1 fixed_labels_ok) ltac:(unfold RR_TYPE_PTR; lia) Hid Hsz)
    as (b' & Hr & Hrec & Hrun & Hbuf & Hresp & Hsv & Hsent).
  exists b'. split; [exact Hr|].
  assert (Hmt : MdnsResponder.matches b (MdnsResponder.lower <$> join_labels service_labels) RR_TYPE_PTR = true).
  { unfold MdnsResponder.matches. rewrite (an_service b Hb). by rewrite bool_decide_eq_true_2. }
  rewrite Hmt in Hsent. split; [|by rewrite Hresp].
  constructor; [done|done| |].
  - rewrite Hsv. exact (an_service b Hb).
  - intros i. rewrite Hresp. exact (an_size b Hb i).
Qed.

(** Responses are taken for queries: the flags of a message are not looked at, so
    a response that echoes the question for the service is answered like the
    question, and sent to where it came from.  Once a broker has received a
    response of another, the two go on answering each other for ever: every
    datagram either sends makes the other send the next one. *)
Theorem responders_never_stop depth n id a b d :
  0 <= id < 65536 -> answering a -> answering b ->
  last (mdns_sent a) = Some ("peer"%string, MdnsResponder.response parse_v4 a id
                               (question_bytes service_labels RR_TYPE_PTR 1)) ->
  (length (mdns_sent a) + length (mdns_sent b))%nat = d ->
  let '(a', b') := exchange (S depth) n a b in
  (length (mdns_sent a') + length (mdns_sent b') = d + n)%nat.
Proof.
  intros Hid. revert a b d. induction n as [|n IH]; intros a b d Ha Hb Hlast Hd; cbn [exchange]; [lia|].
  rewrite Hlast. destruct (answering_receives id a b depth Ha Hb Hid) as (b' & Hr & Hb' & Hsent).
  rewrite Hr. cbn [snd]. specialize (IH b' a (S d) Hb' Ha).
  assert (Hl : last (mdns_sent b') = Some ("peer"%string, MdnsResponder.response parse_v4 b' id
                               (question_bytes service_labels RR_TYPE_PTR 1)))
    by (rewrite Hsent; apply last_snoc).
  specialize (IH Hl ltac:(rewrite Hsent, length_app; simpl; lia)).
  destruct (exchange (S depth) n b' a) as [a2 b2]. lia.
Qed.

End Announce.

(** ** Bounds *)

Lemma not_pointer_bound b : MdnsResponder.is_pointer b = false -> Z_of_byte b < 192.
Proof.
  unfold MdnsResponder.is_pointer. intros Hp.
  assert (Hc : forall z, 0 <= z < 256 -> ((Z.land z 0xC0 =? 0xC0) || (z <? 192)) = true)
    by (apply below_256; by vm_compute).
  specialize (Hc _ (Z_of_byte_range b)). rewrite Hp in Hc. by apply Z.ltb_lt.
Qed.

(** A label is at most 191 octets long, so the scan overshoots by less. *)
Lemma skip_name_bound rounds data bytes : forall o,
  (o <= bytes + 191)%nat -> (MdnsResponder.skip_name rounds data bytes o <= bytes + 191)%nat.
Proof.
  induction rounds as [|rounds IH]; intros o Ho; cbn [MdnsResponder.skip_name]; [done|].
  destruct (bytes <=? o)%nat eqn:Hb; [done|]. apply Nat.leb_gt in Hb.
  destruct (_ =? 0); [lia|]. destruct (MdnsResponder.is_pointer _) eqn:Hp; [lia|].
  apply IH. pose proof (not_pointer_bound _ Hp). lia.
Qed.

Lemma skip_questions_bound data bytes n : forall o,
  (o <= bytes + 191)%nat -> (MdnsResponder.skip_questions data bytes n o <= bytes + 191)%nat.
Proof.
  induction n as [|n IH]; intros o Ho; cbn [MdnsResponder.skip_questions]; [done|].
  destruct (bytes <=? o)%nat; [done|]. apply IH.
  pose proof (skip_name_bound (S bytes) data bytes o Ho). case_if; tests_to_props; lia.
Qed.

(** Without compression pointers [decode_name] returns from any offset. *)
Lemma no_pointer_jump data len rounds : forall o,
  (forall i b, (i < len)%nat -> data !! i = Some b -> (o <= i)%nat -> MdnsResponder.is_pointer b = false) ->
  jump_from data len rounds o = None.
Proof.
  induction rounds as [|rounds IH]; intros o Hp; cbn [jump_from]; [done|].
  destruct (len <=? o)%nat eqn:Ho; [done|]. apply Nat.leb_gt in Ho.
  destruct (data !! o) as [b|] eqn:Hb; [|done]. simpl. destruct (_ =? 0); [done|].
  rewrite (Hp o b Ho Hb) by lia. destruct (_ <? _)%nat; [done|].
  apply IH. intros i b' Hi Hb' Hle. apply (Hp i b' Hi Hb'). lia.
Qed.

Section Receiving.

Context (parse_v4 : string -> option (byte * byte * byte * byte)).

Lemma receive_buffer (m : MdnsResponder) (d : list byte) :
  length (recv_buf_ m) = BUF_SIZE -> (length d <= BUF_SIZE)%nat ->
  take BUF_SIZE d = d /\ take (length d) (list_inserts 0 d (recv_buf_ m)) = d /\
  length (list_inserts 0 d (recv_buf_ m)) = BUF_SIZE.
Proof.
  intros Hb Hd. split; [by apply take_ge|]. split; [|by rewrite length_inserts].
  pose proof (take_list_inserts 0 d (recv_buf_ m)) as Hi. apply Hi. by rewrite Hb.
Qed.

(** Plain datagrams are handled safely: on any datagram of at most 1309 octets
    without compression pointers, whatever else it contains, the handler reads
    only received octets for the name, slices within its buffer, sends at most
    one datagram and receives again. *)
Theorem receive_defined m remote depth d :
  running_ m = true -> length (recv_buf_ m) = BUF_SIZE -> (length d + 191 <= BUF_SIZE)%nat ->
  Forall (fun b => MdnsResponder.is_pointer b = false) d ->
  exists m', MdnsResponder.handle_receive parse_v4 (S depth) false remote true d m = (Ret tt, m') /\
    receiving m' = true /\
    exists out, mdns_sent m' = mdns_sent m ++ out /\ (length out <= 1)%nat.
Proof.
  intros Hrun Hbuf Hd Hp. destruct (receive_buffer m d Hbuf ltac:(lia)) as (Ht & Hdata & Hdl).
  unfold MdnsResponder.handle_receive. rewrite Ht, Hrun. cbn [orb negb].
  set (data := list_inserts 0 d (recv_buf_ m)) in *. set (m1 := MdnsResponder.set_io _ _ _ _).
  assert (Hr1 : running_ m1 = true) by reflexivity.
  destruct (12 <=? length d)%nat eqn:H12; unfold mbind, M_bind;
    [|unfold MdnsResponder.do_receive; rewrite Hr1; eexists; split; [reflexivity|];
      split; [reflexivity|]; exists []; split; [by rewrite app_nil_r|simpl; lia]].
  unfold MdnsResponder.handle_datagram. change (recv_buf_ m1) with data.
  pose proof (decode_name_jumps data (length d) ltac:(lia) (S depth) 12) as Hj.
  cbn [jumps] in Hj. unfold jump in Hj. rewrite no_pointer_jump in Hj.
  2: { intros i b Hi Hb _. rewrite <- Hdata in Hp. rewrite Forall_lookup in Hp.
       apply (Hp i). by rewrite lookup_take_lt. }
  destruct Hj as [[qname o] ->]. pose proof (skip_questions_bound data (length d)
    (Z.to_nat (MdnsResponder.read_u16 data 4)) 12 ltac:(apply Nat.leb_le in H12; lia)) as Hsk.
  destruct (MdnsResponder.matches m1 qname _).
  - rewrite_test (BUF_SIZE <? MdnsResponder.skip_questions data (length d)
      (Z.to_nat (MdnsResponder.read_u16 data 4)) 12)%nat false.
    unfold MdnsResponder.send_response, MdnsResponder.do_receive.
    cbn [running_ MdnsResponder.add_sent]. rewrite Hr1.
    eexists. split; [reflexivity|]. split; [reflexivity|]. eexists. split; [reflexivity|done].
  - unfold MdnsResponder.do_receive. rewrite Hr1. eexists. split; [reflexivity|].
    split; [reflexivity|]. exists []. split; [by rewrite app_nil_r|simpl; lia].
Qed.

(** A pointer to itself: the chain never ends. *)
Lemma self_pointer data len o b b' :
  (len <= length data)%nat -> (o + 2 <= len)%nat -> data !! o = Some b -> data !! S o = Some b' ->
  MdnsResponder.is_pointer b = true -> MdnsResponder.pointer b b' = o ->
  forall d, MdnsResponder.decode_name data len d o = Undefined.
Proof.
  intros Hl Ho Hb Hb' Hp Hpt.
  assert (Hz : Z_of_byte b =? 0 = false).
  { apply Z.eqb_neq. intros Hz. unfold MdnsResponder.is_pointer in Hp. by rewrite Hz in Hp. }
  induction d as [|d IH]; [done|]. cbn [MdnsResponder.decode_name MdnsResponder.decode_loop].
  rewrite_test (len <=? o)%nat false. rewrite Hb, Hz, Hp.
  rewrite_test (len <? o + 2)%nat false. by rewrite Hb', Hpt, IH.
Qed.

(** Fourteen octets crash the process: on a datagram whose question name is a
    compression pointer to itself [decode_name] recurses until the stack is
    used up, however large it is. *)
Theorem pointer_loop_crashes m remote ok depth hdr rest :
  running_ m = true -> length (recv_buf_ m) = BUF_SIZE -> length hdr = 12%nat ->
  (14 + length rest <= BUF_SIZE)%nat ->
  (MdnsResponder.handle_receive parse_v4 depth false remote ok
     (hdr ++ [Byte.xc0; Byte.x0c] ++ rest) m).1 = Undefined.
Proof.
  intros Hrun Hbuf Hh Hr. set (d := hdr ++ _).
  assert (Hd : length d = (14 + length rest)%nat) by (unfold d; rewrite !length_app, Hh; done).
  destruct (receive_buffer m d Hbuf ltac:(lia)) as (Ht & Hdata & Hdl).
  unfold MdnsResponder.handle_receive. rewrite Ht, Hrun. cbn [orb negb].
  rewrite_test (12 <=? length d)%nat true. unfold mbind, M_bind, MdnsResponder.handle_datagram.
  set (data := list_inserts 0 d (recv_buf_ m)) in *. cbn [recv_buf_ MdnsResponder.set_io MdnsResponder.set_recv_buf].
  unfold d in Hdata at 2.
  destruct (datagram_at _ _ hdr _ _ Hdata) as [_ H0].
  replace (hdr ++ [Byte.xc0; Byte.x0c] ++ rest) with ((hdr ++ [Byte.xc0]) ++ Byte.x0c :: rest) in Hdata
    by (by rewrite <- app_assoc).
  destruct (datagram_at _ _ _ _ _ Hdata) as [_ H1]. rewrite length_app, Hh in H1. rewrite Hh in H0.
  rewrite (self_pointer data (length d) 12 Byte.xc0 Byte.x0c); [done|lia|lia|done|done|done|done].
Qed.

End Receiving.

(** ** Concrete runs *)

Definition demo_v4 (s : string) : option (byte * byte * byte * byte) :=
  if String.eqb s "10.0.0.7" then Some (Byte.x0a, Byte.x00, Byte.x00, Byte.x07) else None.

Definition demo_host : list (list byte) := [string_bytes "hub"].
Definition demo_mdns : MdnsResponder :=
  (MdnsResponder.start true true true (MdnsResponder.init 1883 "hub" "10.0.0.7")).2.

Lemma demo_host_ok : host_ok demo_host "hub".
Proof. constructor; [apply labels_okb_spec; by vm_compute|done|done|apply Nat.leb_le; by vm_compute]. Qed.

(** A name that ends in a pointer to its own start, and one that ends in a
    pointer to an earlier name. *)
Definition looping : list byte := [Byte.x01; "a"%byte; Byte.xc0; Byte.x00].
Definition compressed : list byte := [Byte.x01; "a"%byte; Byte.x00; Byte.x01; "b"%byte; Byte.xc0; Byte.x00].

Lemma decode_name_decided_witness :
  (forall d, MdnsResponder.decode_name looping 4 d 0 = Undefined) /\
  (forall d, (7 < d)%nat -> MdnsResponder.decode_name compressed 7 d 3 = Ret (string_bytes "b.a", 7%nat)).
Proof.
  destruct (decode_name_decided looping 4 0) as [Hc _]; [reflexivity|].
  destruct (decode_name_decided compressed 7 3) as [Hn Hr]; [reflexivity|]. split.
  - apply Hc. exists 0%nat. split; [constructor|]. apply tc_once.
    apply (pt_label looping 4 0 Byte.x01 0); [reflexivity|discriminate|reflexivity|apply Nat.leb_le; reflexivity|].
    exact (pt_pointer looping 4 2 Byte.xc0 Byte.x00 (le_n 4) eq_refl eq_refl eq_refl).
  - destruct Hr as [r Hr]; [intros Hx; pose proof (proj1 Hn Hx 8%nat) as Hy; vm_compute in Hy; discriminate Hy|].
    intros d Hd. rewrite (Hr d Hd). rewrite <- (Hr 8%nat) by lia. vm_compute. reflexivity.
Defined.

Lemma response_readable_witness :
  MdnsResponder.read_u16 (MdnsResponder.response demo_v4 (MdnsResponder.init 1883 "hub" "10.0.0.7") 7 []) 0 = 7.
Proof.
  exact (proj1 (response_readable demo_v4 demo_host 1883 "hub" "10.0.0.7" 7 [] demo_host_ok
                  ltac:(lia))).
Defined.

Definition demo_query (qtype : Z) : list byte :=
  message 7 0 1 0 0 0 (question_bytes (demo_host ++ local_labels) qtype 1 ++ []).

Lemma query_answered_witness :
  exists m', MdnsResponder.handle_receive demo_v4 1 false "peer" true (demo_query RR_TYPE_A) demo_mdns = (Ret tt, m') /\
    mdns_sent m' = [("peer"%string, MdnsResponder.response demo_v4 demo_mdns 7
                       (question_bytes (demo_host ++ local_labels) RR_TYPE_A 1))].
Proof.
  destruct (query_answered demo_v4 demo_host demo_mdns "peer" 0 7 0 0 0 0 (demo_host ++ local_labels)
    RR_TYPE_A 1 [] (init_names demo_host 1883 "hub" "10.0.0.7" demo_host_ok) eq_refl eq_refl
    ltac:(apply labels_okb_spec; by vm_compute) ltac:(unfold RR_TYPE_A; lia) ltac:(lia)
    ltac:(apply Nat.leb_le; by vm_compute)) as (m' & Hr & _ & Ha & _).
  exists m'. split; [exact Hr|]. rewrite Ha; [done|]. right. right. left. by split.
Defined.

Lemma capitals_not_resolved_witness :
  exists m', MdnsResponder.handle_receive demo_v4 1 false "peer" true
      (message 7 0 1 0 0 0 (question_bytes ([string_bytes "Hub"] ++ local_labels) RR_TYPE_A 1 ++ []))
      (MdnsResponder.start true true true (MdnsResponder.init 1883 "Hub" "10.0.0.7")).2 = (Ret tt, m') /\
    mdns_sent m' = [].
Proof.
  assert (Hok : host_ok [string_bytes "Hub"] "Hub")
    by (constructor; [apply labels_okb_spec; by vm_compute|done|done|apply Nat.leb_le; by vm_compute]).
  apply (capitals_not_resolved demo_v4 [string_bytes "Hub"]
    (MdnsResponder.start true true true (MdnsResponder.init 1883 "Hub" "10.0.0.7")).2 "peer" 0 7 0 0 0 0
    ([string_bytes "Hub"] ++ local_labels) 1 [] "H"%byte (init_names _ 1883 "Hub" "10.0.0.7" Hok));
    [by apply list_elem_of_here|by vm_compute|done|done|apply labels_okb_spec; by vm_compute|lia
    |apply Nat.leb_le; by vm_compute].
Defined.

Lemma demo_answering sent : answering demo_v4
  (mkMdns 1883 (instance_ demo_mdns) (service_ demo_mdns) (node_ demo_mdns) "10.0.0.7"
     (encoded_instance_ demo_mdns) (encoded_service_ demo_mdns) (encoded_node_ demo_mdns) true
     (recv_buf_ demo_mdns) true true sent).
Proof.
  constructor; [done|done|done|]. intros i. rewrite response_eq.
  apply Nat.leb_le. by vm_compute.
Qed.

Lemma responders_never_stop_witness :
  let d := MdnsResponder.response demo_v4 demo_mdns 7 (question_bytes service_labels RR_TYPE_PTR 1) in
  let '(a, b) := exchange demo_v4 1 1000 (MdnsResponder.add_sent ("peer"%string, d) demo_mdns) demo_mdns in
  (length (mdns_sent a) + length (mdns_sent b) = 1 + 1000)%nat.
Proof.
  intros d. apply (responders_never_stop demo_v4 0 1000 7 _ _ 1); [lia| | |done|done].
  - exact (demo_answering [("peer"%string, d)]).
  - exact (demo_answering []).
Defined.

Lemma receive_defined_witness :
  exists m', MdnsResponder.handle_receive demo_v4 1 false "peer" true [Byte.x01; Byte.x02] demo_mdns = (Ret tt, m') /\
    receiving m' = true /\
    exists out, mdns_sent m' = mdns_sent demo_mdns ++ out /\ (length out <= 1)%nat.
Proof.
  apply (receive_defined demo_v4 demo_mdns "peer" 0 [Byte.x01; Byte.x02]);
    [done|done|apply Nat.leb_le; by vm_compute|by repeat constructor].
Defined.

Lemma pointer_loop_crashes_witness :
  (MdnsResponder.handle_receive demo_v4 100000 false "peer" true
     (replicate 12 Byte.x00 ++ [Byte.xc0; Byte.x0c] ++ []) demo_mdns).1 = Undefined.
Proof.
  apply pointer_loop_crashes; [done|done|done|apply Nat.leb_le; by vm_compute].
Defined.
