(* ===== verification/ConfigLoad.v ===== *)
(** * The configuration file ([src/config.h], [src/config.cpp])

    [Config] holds a JSON document; every getter looks its value up anew, with
    a default.  The JSON library is not code of the repository: it is the class
    [Json] of the calls the code makes.  [settings] collects the results of
    the getters the other components use into the record of [Config.v]. *)

From Stdlib Require Import Strings.String ZArith QArith.QArith_base Lia.
From stdpp Require Import base strings numbers option list.
From S2P Require Import Prelude Config.

Open Scope Z_scope.

(** ** [nlohmann::json] *)

(** [object()], and [value(key, default)] at the types the code uses it at.
    [value] throws on a document that is not an object and on a value that does
    not convert to the type of the default. *)
Class Json (J : Type) : Type := {
  json_object : J;
  value_json : J -> string -> J -> outcome J;
  value_int : J -> string -> Z -> outcome Z;
  value_string : J -> string -> string -> outcome string;
  value_bool : J -> string -> bool -> outcome bool;
  value_double : J -> string -> Q -> outcome Q
}.

(** The range of [int]. *)
Definition is_int (z : Z) : Prop := - 2 ^ 31 <= z < 2 ^ 31.

(** A library call that comes back: it returns or throws. *)
Definition comes_back {X} (o : outcome X) : Prop :=
  match o with Ret _ | Throw _ => True | _ => False end.

(** What is documented: a missing key gives the default, the result has the
    type of the default, and a value that does not convert throws. *)
Class JsonLaws (J : Type) `{Json J} : Prop := {
  value_json_ends : forall j k d, comes_back (value_json j k d);
  value_int_ends : forall j k d, comes_back (value_int j k d);
  value_string_ends : forall j k d, comes_back (value_string j k d);
  value_bool_ends : forall j k d, comes_back (value_bool j k d);
  value_int_type : forall j k d z, is_int d -> value_int j k d = Ret z -> is_int z;
  value_json_missing : forall k d, value_json json_object k d = Ret d;
  value_int_missing : forall k d, value_int json_object k d = Ret d;
  value_string_missing : forall k d, value_string json_object k d = Ret d;
  value_bool_missing : forall k d, value_bool json_object k d = Ret d;
  value_double_missing : forall k d, value_double json_object k d = Ret d
}.

Record ConfigObject (J : Type) : Type := mkConfigObject {
  json_ : J;
  validation_error_ : string
}.
Arguments mkConfigObject {J}.
Arguments json_ {J}.
Arguments validation_error_ {J}.

Module Config.

Section Getters.

Context {J : Type} `{Json J}.
Abbreviation C := (ConfigObject J).

Definition init : C := mkConfigObject json_object "".

(** [json_.value(name, json::object())], and [.value(key, default)] on what it
    returned. *)
Definition section (name : string) : M C J := fun c =>
  (value_json (json_ c) name json_object, c).
Definition lift {X} (o : outcome X) : M C X := fun c => (o, c).

Definition host : M C string := j ← section "broker"; lift (value_string j "host" "0.0.0.0").

(** The [int] that [value] returns is narrowed to [uint16_t]. *)
Definition port : M C Z := j ← section "broker"; n ← lift (value_int j "port" 1883); mret (u16 n).

(** [std::clamp(n, 1, 128)]. *)
Definition thread_pool_size : M C Z :=
  j ← section "broker"; n ← lift (value_int j "thread_pool_size" 4);
  mret (if n <? 1 then 1 else if 128 <? n then 128 else n).

Definition max_connections : M C Z :=
  j ← section "broker"; lift (value_int j "max_connections" 100000).
Definition max_connections_per_ip : M C Z :=
  j ← section "broker"; lift (value_int j "max_connections_per_ip" 100).
Definition session_expiry_seconds : M C Z :=
  j ← section "broker"; lift (value_int j "session_expiry_seconds" 86400).
Definition keepalive_multiplier : M C Q :=
  j ← section "broker"; lift (value_double j "keepalive_multiplier" (Qmake 3 2)).
Definition max_keepalive : M C Z :=
  j ← section "broker"; lift (value_int j "max_keepalive" 3600).
Definition max_packet_size : M C Z :=
  j ← section "broker"; lift (value_int j "max_packet_size" 262144).
Definition max_topic_depth : M C Z :=
  j ← section "broker"; lift (value_int j "max_topic_depth" 128).
Definition max_topic_length : M C Z :=
  j ← section "broker"; lift (value_int j "max_topic_length" 65536).
Definition max_subscriptions_per_client : M C Z :=
  j ← section "broker"; lift (value_int j "max_subscriptions_per_client" 1000).
Definition max_retained_messages : M C Z :=
  j ← section "broker"; lift (value_int j "max_retained_messages" 10000).
Definition max_write_queue_size : M C Z :=
  j ← section "broker"; lift (value_int j "max_write_queue_size" 10000).
Definition max_parser_buffer_size : M C Z :=
  j ← section "broker"; lift (value_int j "max_parser_buffer_size" 1048576).
Definition max_auth_attempts : M C Z :=
  j ← section "broker"; lift (value_int j "max_auth_attempts" 10).
Definition auth_ban_seconds : M C Z :=
  j ← section "broker"; lift (value_int j "auth_ban_seconds" 60).
Definition retry_interval_seconds : M C Z :=
  j ← section "broker"; lift (value_int j "retry_interval_seconds" 5).
Definition max_retry_count : M C Z :=
  j ← section "broker"; lift (value_int j "max_retry_count" 5).

Definition log_level : M C string := j ← section "logging"; lift (value_string j "level" "info").
Definition log_file : M C string := j ← section "logging"; lift (value_string j "file" "").

Definition auth_backend : M C string :=
  j ← section "auth"; lift (value_string j "backend" "allow_all").
Definition pg_connection_string : M C string :=
  j ← section "auth"; p ← lift (value_json j "postgres" json_object);
  lift (value_string p "connection_string" "").
Definition pg_pool_size : M C Z :=
  j ← section "auth"; p ← lift (value_json j "postgres" json_object);
  lift (value_int p "pool_size" 4).
Definition acl_cache_ttl : M C Z := j ← section "auth"; lift (value_int j "acl_cache_ttl" 60).

Definition tls_enabled : M C bool := j ← section "tls"; lift (value_bool j "enabled" false).
Definition tls_cert_file : M C string := j ← section "tls"; lift (value_string j "cert_file" "").
Definition tls_key_file : M C string := j ← section "tls"; lift (value_string j "key_file" "").
Definition tls_ca_file : M C string := j ← section "tls"; lift (value_string j "ca_file" "").

Definition mdns_enabled : M C bool := j ← section "mdns"; lift (value_bool j "enabled" false).
Definition admin_enabled : M C bool := j ← section "admin"; lift (value_bool j "enabled" false).
Definition admin_port : M C Z := j ← section "admin"; n ← lift (value_int j "port" 1884); mret (u16 n).
Definition admin_tls_enabled : M C bool :=
  j ← section "admin"; lift (value_bool j "tls_enabled" false).

Definition validation_error : M C string := gets validation_error_.

(** [validation_error_ = why; return false]. *)
Definition invalid (why : string) : M C bool :=
  modify (fun c => mkConfigObject (json_ c) why);; mret false.

Definition is_valid : M C bool :=
  port_val ← port;
  if port_val =? 0 then invalid "port must not be 0" else
  pool_size ← thread_pool_size;
  if (pool_size <? 1) || (128 <? pool_size) then
    invalid "thread_pool_size must be between 1 and 128" else
  mkeep ← max_keepalive;
  if (mkeep <? 10) || (65535 <? mkeep) then
    invalid "max_keepalive must be between 10 and 65535" else
  mps ← max_packet_size;
  if (mps <? 256) || (268435455 <? mps) then
    invalid "max_packet_size must be between 256 and 268435455" else
  tls ← tls_enabled;
  cert_missing ← (if tls : bool then cert ← tls_cert_file; mret (String.eqb cert "") else mret false);
  if cert_missing : bool then invalid "tls.cert_file is required when TLS is enabled" else
  key_missing ← (if tls : bool then key ← tls_key_file; mret (String.eqb key "") else mret false);
  if key_missing : bool then invalid "tls.key_file is required when TLS is enabled" else
  cache_ttl ← acl_cache_ttl;
  if cache_ttl <? 0 then invalid "acl_cache_ttl must be >= 0 (0 disables caching)" else
  admin ← admin_enabled;
  if admin : bool then
    admin_port_val ← admin_port;
    if admin_port_val =? 0 then invalid "admin.port must not be 0 when admin is enabled"
    else mret true
  else mret true.

(** [load]: [file] is [None] when the file cannot be opened; otherwise what
    [file >> json_] returns or throws, and the document it leaves behind. *)
Definition load (path : string) (file : option (outcome unit * J)) : M C unit :=
  match file with
  | None => throw (runtime_error ("Cannot open config file: " ++ path))
  | Some (parsed, j) =>
      modify (fun c => mkConfigObject j (validation_error_ c));;
      lift parsed;;
      ok ← is_valid;
      if ok : bool then mret tt
      else
        why ← gets validation_error_;
        throw (runtime_error ("Config validation failed: " ++ why))
  end.

(** The getters of the other components, as the record they are modelled with. *)
Definition settings : M C Config :=
  a ← max_connections; b ← max_connections_per_ip; c ← max_keepalive; d ← keepalive_multiplier;
  e ← max_packet_size; f ← max_topic_depth; g ← max_topic_length;
  h ← max_subscriptions_per_client; i ← max_retained_messages; j ← max_write_queue_size;
  k ← max_parser_buffer_size; l ← max_auth_attempts; m ← auth_ban_seconds;
  n ← retry_interval_seconds; o ← max_retry_count;
  mret (mkConfig a b c d e f g h i j k l m n o).

End Getters.

End Config.

(** ** Reading does not change the object *)

Section Reading.

Context {J : Type} `{Json J}.
Abbreviation C := (ConfigObject J).

Definition pure {X} (m : M C X) : Prop := forall c, (m c).2 = c.

Lemma pure_section name : pure (Config.section name).
Proof. done. Qed.

Lemma pure_lift {X} (o : outcome X) : pure (Config.lift o).
Proof. done. Qed.

Lemma pure_ret {X} (x : X) : pure (mret x).
Proof. done. Qed.

Lemma pure_bind {X Y} (m : M C X) (k : X -> M C Y) :
  pure m -> (forall x, pure (k x)) -> pure (m ≫= k).
Proof.
  intros Hm Hk c. unfold mbind, M_bind. specialize (Hm c). destruct (m c) as [[x|e| |] c']; try done.
  simpl in Hm. subst. apply Hk.
Qed.

Lemma pure_ret_inv {X} (m : M C X) c x c' : pure m -> m c = (Ret x, c') -> (m c).1 = Ret x /\ c' = c.
Proof. intros Hp Hm. specialize (Hp c). rewrite Hm in *. done. Qed.

End Reading.

Create HintDb getters.
#[export] Hint Resolve pure_section pure_lift pure_ret pure_bind : getters.
#[export] Hint Extern 2 (pure _) => progress unfold Config.port, Config.thread_pool_size,
  Config.max_connections, Config.max_connections_per_ip, Config.keepalive_multiplier,
  Config.max_keepalive, Config.max_packet_size, Config.max_topic_depth, Config.max_topic_length,
  Config.max_subscriptions_per_client, Config.max_retained_messages, Config.max_write_queue_size,
  Config.max_parser_buffer_size, Config.max_auth_attempts, Config.auth_ban_seconds,
  Config.retry_interval_seconds, Config.max_retry_count, Config.acl_cache_ttl,
  Config.log_level, Config.log_file, Config.tls_enabled, Config.tls_cert_file, Config.tls_key_file,
  Config.admin_enabled, Config.admin_port : getters.

(** ** What [load] accepts *)

Section Validity.

Context {J : Type} `{Json J}.
Abbreviation C := (ConfigObject J).

(** The value a getter returns. *)
Definition returns {X} (m : M C X) (c : C) (x : X) : Prop := (m c).1 = Ret x.

(** The document holds [x] in a section: what the library reads there, with
    the default of a missing key. *)
Definition reads {X} (value : J -> string -> X -> outcome X) (c : C) (sec key : string) (d x : X) : Prop :=
  exists j, value_json (json_ c) sec json_object = Ret j /\ value j key d = Ret x.

(** The documents [is_valid] stands for, by the values they hold: the members it
    looks at convert, and are in range.  A port only has to differ from 0 in
    its low 16 bits; any number of workers will do. *)
Record sound (c : C) : Prop := {
  sound_port : exists n, reads value_int c "broker" "port" 1883 n /\ n mod 2 ^ 16 <> 0;
  sound_pool : exists n, reads value_int c "broker" "thread_pool_size" 4 n;
  sound_keepalive : exists k, reads value_int c "broker" "max_keepalive" 3600 k /\ 10 <= k <= 65535;
  sound_packet : exists n, reads value_int c "broker" "max_packet_size" 262144 n /\ 256 <= n <= 268435455;
  sound_tls : exists b, reads value_bool c "tls" "enabled" false b /\
    (b = true -> (exists f, reads value_string c "tls" "cert_file" "" f /\ f <> ""%string) /\
                 (exists f, reads value_string c "tls" "key_file" "" f /\ f <> ""%string));
  sound_ttl : exists n, reads value_int c "auth" "acl_cache_ttl" 60 n /\ 0 <= n;
  sound_admin : exists b, reads value_bool c "admin" "enabled" false b /\
    (b = true -> exists n, reads value_int c "admin" "port" 1884 n /\ n mod 2 ^ 16 <> 0)
}.

(** A getter returns what the document holds. *)
Lemma returns_reads {X} (value : J -> string -> X -> outcome X) c sec key d x :
  returns (j ← Config.section sec; Config.lift (value j key d)) c x <-> reads value c sec key d x.
Proof.
  unfold returns, reads, mbind, M_bind, Config.section, Config.lift.
  destruct (value_json (json_ c) sec json_object) as [j|e| |]; simpl.
  1: split; [intros Hx; by exists j|by intros (j' & [= <-] & Hx)].
  all: split; [done|by intros (j & ? & _)].
Qed.

Lemma returns_narrowed (f : Z -> Z) c sec key d x :
  returns (j ← Config.section sec; n ← Config.lift (value_int j key d); mret (f n)) c x <->
  exists n, reads value_int c sec key d n /\ x = f n.
Proof.
  unfold returns, reads, mbind, M_bind, Config.section, Config.lift, mret, M_ret.
  destruct (value_json (json_ c) sec json_object) as [j|e| |]; simpl.
  2-4: split; [done|by intros (n & (j & ? & _) & _)].
  destruct (value_int j key d) as [n|e| |] eqn:Ev; simpl.
  - split; [intros [= <-]; exists n; split; [by exists j|done]|].
    intros (m & (j' & [= <-] & Hm) & ->). rewrite Ev in Hm. by injection Hm as <-.
  - split; [done|]. intros (m & (j' & [= <-] & Hm) & _). by rewrite Ev in Hm.
  - split; [done|]. intros (m & (j' & [= <-] & Hm) & _). by rewrite Ev in Hm.
  - split; [done|]. intros (m & (j' & [= <-] & Hm) & _). by rewrite Ev in Hm.
Qed.

(** A computation that answers [true] exactly if [P], and then leaves the
    object alone. *)
Definition answers (m : M C bool) (c : C) (P : Prop) : Prop :=
  (m c = (Ret true, c) /\ P) \/ ((forall c', m c <> (Ret true, c')) /\ ~ P).

Lemma answers_true c : answers (mret true) c True.
Proof. by left. Qed.

Lemma answers_iff m c (P Q : Prop) : answers m c P -> (P <-> Q) -> answers m c Q.
Proof. unfold answers. tauto. Qed.

(** One check: the getter, the test that rejects, and the rest. *)
Lemma answers_check {X} (m : M C X) (bad : X -> bool) why (k : X -> M C bool) c (P : X -> Prop) :
  pure m -> (forall x, answers (k x) c (P x)) ->
  answers (x ← m; if bad x then Config.invalid why else k x) c
    (exists x, returns m c x /\ bad x = false /\ P x).
Proof.
  intros Hm Hk. unfold returns, answers, mbind, M_bind. specialize (Hm c).
  destruct (m c) as [[x|e| |] c1]; simpl in Hm; subst c1; cbn [fst];
    try (right; split; [done|]; by intros (x & Hx & _)).
  destruct (bad x) eqn:Hb; [right; split; [done|]; intros (y & Hy & Hb' & _); simplify_eq; congruence|].
  destruct (Hk x) as [[Hr HP]|[Hr HP]]; [left; eauto|right; split; [done|]].
  intros (y & Hy & _ & HP'). by simplify_eq.
Qed.

Lemma answers_bind {X} (m : M C X) (k : X -> M C bool) c (P : X -> Prop) :
  pure m -> (forall x, answers (k x) c (P x)) ->
  answers (m ≫= k) c (exists x, returns m c x /\ P x).
Proof.
  intros Hm Hk. eapply answers_iff.
  - exact (answers_check m (fun _ => false) "" k c P Hm Hk).
  - naive_solver.
Qed.

(** The two checks of the files of an enabled TLS. *)
Lemma answers_file (tls : bool) (g : M C string) why (k : M C bool) c (P : Prop) :
  pure g -> answers k c P ->
  answers (missing ← (if tls then f ← g; mret (String.eqb f "") else mret false);
           if missing : bool then Config.invalid why else k) c
    ((tls = true -> exists f, returns g c f /\ f <> ""%string) /\ P).
Proof.
  intros Hg Hk. destruct tls.
  - eapply answers_iff; [eapply (answers_check _ id why (fun _ => k) c (fun _ => P))|].
    + apply pure_bind; [done|intros; apply pure_ret].
    + done.
    + unfold returns, mbind, M_bind, mret, M_ret. specialize (Hg c).
      destruct (g c) as [[f|e| |] c1]; simpl in *; subst.
      1: destruct (String.eqb_spec f ""); naive_solver.
      all: split; [naive_solver|intros [(f & ? & _) _]; [done|done]].
  - eapply answers_iff; [exact (answers_check (mret false) id why (fun _ => k) c (fun _ => P)
      (pure_ret false) (fun _ => Hk))|]. unfold returns. naive_solver.
Qed.

Lemma u16_nonzero n : (u16 n =? 0) = false <-> n mod 2 ^ 16 <> 0.
Proof. apply Z.eqb_neq. Qed.

(** The number of workers is clamped before it is tested. *)
Lemma pool_in_range n :
  let m := if n <? 1 then 1 else if 128 <? n then 128 else n in ((m <? 1) || (128 <? m)) = false.
Proof.
  cbv zeta. destruct (Z.ltb_spec n 1); [done|]. destruct (Z.ltb_spec 128 n); [done|].
  apply orb_false_iff. split; apply Z.ltb_ge; lia.
Qed.

Lemma outside_range a b n : ((n <? a) || (b <? n)) = false <-> a <= n <= b.
Proof. rewrite orb_false_iff, !Z.ltb_ge. done. Qed.

Lemma is_valid_answers c : answers Config.is_valid c (sound c).
Proof.
  eapply answers_iff.
  - unfold Config.is_valid.
    apply answers_check; [eauto with getters|intros p].
    apply answers_check; [eauto with getters|intros pool].
    apply answers_check; [eauto with getters|intros k].
    apply answers_check; [eauto with getters|intros n].
    apply answers_bind; [eauto with getters|intros tls].
    apply answers_file; [eauto with getters|].
    apply answers_file; [eauto with getters|].
    apply answers_check; [eauto with getters|intros ttl].
    apply (answers_bind _ _ _ (fun admin => admin = true ->
      exists p, returns Config.admin_port c p /\ (p =? 0) = false /\ True)); [eauto with getters|].
    intros [|].
    + eapply answers_iff; [apply answers_check; [eauto with getters|intros; apply answers_true]|].
      naive_solver.
    + eapply answers_iff; [apply answers_true|naive_solver].
  - cbv beta. unfold Config.port, Config.thread_pool_size, Config.max_keepalive, Config.max_packet_size,
      Config.tls_enabled, Config.tls_cert_file, Config.tls_key_file, Config.acl_cache_ttl,
      Config.admin_enabled, Config.admin_port.
    setoid_rewrite returns_narrowed. setoid_rewrite returns_reads. split.
    + intros (p & (np & Hp & ->) & Hp0%u16_nonzero & n & (nn & Hn & ->) & _ & k & Hk & Hkr%outside_range & m & Hm &
              Hmr%outside_range & tls & Ht & Hc & Hkey & ttl & Httl & Htr%Z.ltb_ge & admin & Had & Hap).
      constructor; [by eauto|by eauto|by eauto|by eauto
        |exists tls; split; [done|]; intros Ht1; by split; eauto|by eauto|exists admin; split; [done|]].
      intros Ha. destruct (Hap Ha) as (q & (nq & Hq & ->) & Hq0%u16_nonzero & _). by eauto.
    + intros [(p & Hp & Hp0) (n & Hn) (k & Hk & Hkr) (m & Hm & Hmr) (tls & Ht & Hfiles)
              (ttl & Httl & Htr) (admin & Had & Hap)].
      exists (u16 p). split; [by eauto|]. split; [by apply u16_nonzero|].
      eexists. split; [by eauto|]. split; [apply pool_in_range|].
      exists k. split; [done|]. split; [by apply outside_range|].
      exists m. split; [done|]. split; [by apply outside_range|]. exists tls. split; [done|].
      split; [intros Ht1; exact (proj1 (Hfiles Ht1))|]. split; [intros Ht1; exact (proj2 (Hfiles Ht1))|].
      exists ttl. split; [done|]. split; [by apply Z.ltb_ge|]. exists admin. split; [done|].
      intros Ha. destruct (Hap Ha) as (q & Hq & Hq0). exists (u16 q). split; [by eauto|].
      split; [by apply u16_nonzero|done].
Qed.

Lemma load_iff path file (c c' : C) :
  Config.load path file c = (Ret tt, c') <->
  exists j, file = Some (Ret tt, j) /\ c' = mkConfigObject j (validation_error_ c) /\ sound c'.
Proof.
  split.
  - destruct file as [[[[]|e| |] j]|]; [|done..]. unfold Config.load, mbind, M_bind, modify, Config.lift.
    destruct (is_valid_answers (mkConfigObject j (validation_error_ c))) as [[-> Hs]|[Hr _]].
    + intros Hl. injection Hl as <-. exists j. split; [done|]. split; [done|exact Hs].
    + destruct (Config.is_valid _) as [[[]|e| |] c1]; [exfalso; by eapply Hr|done..].
  - intros (j & -> & -> & Hs). unfold Config.load, mbind, M_bind, modify, Config.lift.
    destruct (is_valid_answers (mkConfigObject j (validation_error_ c))) as [[-> _]|[_ Hn]]; [done|].
    by destruct Hn.
Qed.

End Validity.

(** ** Defaults and types *)

Section Types.

Context {J : Type} `{JsonLaws J}.
Abbreviation C := (ConfigObject J).

Lemma section_init name : Config.section name Config.init = (Ret json_object, Config.init).
Proof. unfold Config.section. simpl. by rewrite value_json_missing. Qed.

Lemma value_default {X} (v : J -> string -> X -> outcome X) key (d : X) sec :
  (forall k d, v json_object k d = Ret d) ->
  (j ← Config.section sec; Config.lift (v j key d)) (Config.init (J := J)) = (Ret d, Config.init).
Proof. intros Hv. unfold mbind, M_bind. rewrite section_init. unfold Config.lift. by rewrite Hv. Qed.

Lemma int_default key d sec :
  (j ← Config.section sec; Config.lift (value_int j key d)) (Config.init (J := J)) = (Ret d, Config.init).
Proof. apply value_default, value_int_missing. Qed.

Lemma string_default key d sec :
  (j ← Config.section sec; Config.lift (value_string j key d)) (Config.init (J := J)) = (Ret d, Config.init).
Proof. apply value_default, value_string_missing. Qed.

Lemma bool_default key d sec :
  (j ← Config.section sec; Config.lift (value_bool j key d)) (Config.init (J := J)) = (Ret d, Config.init).
Proof. apply value_default, value_bool_missing. Qed.

Lemma double_default key d sec :
  (j ← Config.section sec; Config.lift (value_double j key d)) (Config.init (J := J)) = (Ret d, Config.init).
Proof. apply value_default, value_double_missing. Qed.

Lemma narrowed_default (f : Z -> Z) key d sec :
  (j ← Config.section sec; n ← Config.lift (value_int j key d); mret (f n)) (Config.init (J := J)) =
  (Ret (f d), Config.init).
Proof.
  unfold mbind, M_bind. rewrite section_init. unfold Config.lift. by rewrite value_int_missing.
Qed.

Lemma bind_returned {S X Y} (m : M S X) (k : X -> M S Y) s x s' :
  m s = (Ret x, s') -> (m ≫= k) s = k x s'.
Proof. intros Hm. unfold mbind, M_bind. by rewrite Hm. Qed.

Lemma returned {X} (m : M C X) c x c' : m c = (Ret x, c') -> returns m c x.
Proof. intros Hm. unfold returns. by rewrite Hm. Qed.

Lemma reads_default {X} (value : J -> string -> X -> outcome X) sec key (d : X) :
  (forall k d, value json_object k d = Ret d) -> reads value (Config.init (J := J)) sec key d d.
Proof. intros Hv. exists json_object. split; [apply value_json_missing|apply Hv]. Qed.

Lemma sound_init : sound (Config.init (J := J)).
Proof.
  constructor; eexists;
    [split; [apply reads_default, value_int_missing|done]|apply reads_default, value_int_missing|..];
    (split; [apply reads_default; first [apply value_int_missing|apply value_bool_missing]|first [lia|done]]).
Qed.

(** *** Loading ends *)

Definition goes_on {X} (m : M C X) : Prop := forall c, comes_back (m c).1.

Lemma goes_on_bind {X Y} (m : M C X) (k : X -> M C Y) :
  goes_on m -> (forall x, goes_on (k x)) -> goes_on (m ≫= k).
Proof.
  intros Hm Hk c. unfold mbind, M_bind. specialize (Hm c). destruct (m c) as [[x|e| |] c1]; try done. apply Hk.
Qed.

Lemma goes_on_if {X} (b : bool) (m1 m2 : M C X) : goes_on m1 -> goes_on m2 -> goes_on (if b then m1 else m2).
Proof. by destruct b. Qed.

Lemma goes_on_section sec : goes_on (Config.section sec).
Proof. intros c. apply value_json_ends. Qed.

Lemma goes_on_lift {X} (o : outcome X) : comes_back o -> goes_on (Config.lift o).
Proof. by intros Ho c. Qed.

Lemma goes_on_ret {X} (x : X) : goes_on (mret x).
Proof. done. Qed.

Lemma goes_on_invalid why : goes_on (Config.invalid why).
Proof. done. Qed.

Lemma is_valid_goes_on : goes_on Config.is_valid.
Proof.
  unfold Config.is_valid, Config.port, Config.thread_pool_size, Config.max_keepalive, Config.max_packet_size,
    Config.tls_enabled, Config.tls_cert_file, Config.tls_key_file, Config.acl_cache_ttl,
    Config.admin_enabled, Config.admin_port.
  repeat first
    [ apply goes_on_section | apply goes_on_ret | apply goes_on_invalid
    | apply goes_on_lift; first [apply value_int_ends | apply value_bool_ends | apply value_string_ends]
    | apply goes_on_bind; [|intros ?] | apply goes_on_if ].
Qed.

(** [C18] Exactly the sound documents are accepted: [load] returns if and only if
    the file could be opened and parsed and the document holds, where [is_valid]
    looks, a port whose low 16 bits are not all 0, some integer for the worker
    threads, a keepalive limit of 10 to 65535 seconds, packets of 256 to
    268435455 octets, certificate and key when TLS is on, a cache lifetime that
    is not negative, and such a port for the admin endpoint when it is on; the
    object then holds that document.  Every other file makes it throw. *)
Theorem load_accepts_sound path file (c : C) :
  (forall c', Config.load path file c = (Ret tt, c') <->
     exists j, file = Some (Ret tt, j) /\ c' = mkConfigObject j (validation_error_ c) /\ sound c') /\
  (match file with Some (parsed, _) => comes_back parsed | None => True end ->
   (forall j, file = Some (Ret tt, j) -> ~ sound (mkConfigObject j (validation_error_ c))) ->
   exists e c', Config.load path file c = (Throw e, c')).
Proof.
  split; [intros c'; apply load_iff|]. intros Hf Hn.
  assert (Hl : comes_back (Config.load path file c).1).
  { destruct file as [[parsed j]|]; [|done]. unfold Config.load.
    apply goes_on_bind; [done|intros _]. apply goes_on_bind; [by apply goes_on_lift|intros []].
    apply goes_on_bind; [apply is_valid_goes_on|]. intros []; [apply goes_on_ret|].
    by apply goes_on_bind. }
  destruct (Config.load path file c) as [[[]|e| |] c'] eqn:El; [|by eexists _, _|done..].
  apply load_iff in El as (j & Hj & -> & Hs). exfalso. by apply (Hn j).
Qed.

(** An empty document gives the documented defaults, and they are
    sound: host 0.0.0.0, port 1883, four workers, everybody allowed, TLS, mDNS
    and the admin endpoint off, and the limits of [default_config]. *)
Theorem defaults_documented :
  Config.settings Config.init = (Ret default_config, Config.init (J := J)) /\
  sound (Config.init (J := J)) /\
  returns Config.host (Config.init (J := J)) "0.0.0.0"%string /\
  returns Config.port (Config.init (J := J)) 1883 /\
  returns Config.thread_pool_size (Config.init (J := J)) 4 /\
  returns Config.auth_backend (Config.init (J := J)) "allow_all"%string /\
  returns Config.tls_enabled (Config.init (J := J)) false /\
  returns Config.mdns_enabled (Config.init (J := J)) false /\
  returns Config.admin_enabled (Config.init (J := J)) false.
Proof.
  split; [|split; [exact sound_init|]].
  - unfold Config.settings.
    repeat (erewrite bind_returned by (apply int_default || apply double_default)). reflexivity.
  - split; [exact (returned _ _ _ _ (string_default "host" "0.0.0.0" "broker"))|].
    split; [exact (returned _ _ _ _ (narrowed_default u16 "port" 1883 "broker"))|].
    split; [exact (returned _ _ _ _ (narrowed_default _ "thread_pool_size" 4 "broker"))|].
    split; [exact (returned _ _ _ _ (string_default "backend" "allow_all" "auth"))|].
    split; [exact (returned _ _ _ _ (bool_default "enabled" false "tls"))|].
    split; [exact (returned _ _ _ _ (bool_default "enabled" false "mdns"))|].
    exact (returned _ _ _ _ (bool_default "enabled" false "admin")).
Qed.

(** The types of the getters. *)
Record typed (cfg : Config) : Prop := {
  typed_connections : is_int (max_connections cfg);
  typed_per_ip : is_int (max_connections_per_ip cfg);
  typed_keepalive : is_int (max_keepalive cfg);
  typed_packet : is_int (max_packet_size cfg);
  typed_depth : is_int (max_topic_depth cfg);
  typed_length : is_int (max_topic_length cfg);
  typed_subscriptions : is_int (max_subscriptions_per_client cfg);
  typed_retained : is_int (max_retained_messages cfg);
  typed_queue : is_int (max_write_queue_size cfg);
  typed_parser : is_int (max_parser_buffer_size cfg);
  typed_attempts : is_int (max_auth_attempts cfg);
  typed_ban : is_int (auth_ban_seconds cfg);
  typed_interval : is_int (retry_interval_seconds cfg);
  typed_retries : is_int (max_retry_count cfg)
}.

Lemma int_getter_type sec key d (c c' : C) z :
  is_int d -> (j ← Config.section sec; Config.lift (value_int j key d)) c = (Ret z, c') ->
  is_int z.
Proof.
  intros Hd Hr. apply bind_ret_inv in Hr as (j & c1 & _ & Hr). unfold Config.lift in Hr.
  injection Hr as Hr _. by eapply value_int_type.
Qed.

Lemma settings_typed (c c' : C) cfg : Config.settings c = (Ret cfg, c') -> typed cfg.
Proof.
  unfold Config.settings. intros Hs.
  repeat match type of Hs with
  | (_ ≫= _) _ = _ =>
      let x := fresh "x" in let c1 := fresh "c" in let E := fresh "E" in
      apply bind_ret_inv in Hs as (x & c1 & E & Hs)
  end.
  injection Hs as <- _.
  constructor; cbn;
    match goal with E : _ = (Ret ?x, _) |- is_int ?x => eapply int_getter_type in E; [exact E|unfold is_int; lia] end.
Qed.

Lemma settings_connections (c c' : C) cfg :
  Config.settings c = (Ret cfg, c') -> returns Config.max_connections c (max_connections cfg).
Proof.
  unfold Config.settings. intros Hs. apply bind_ret_inv in Hs as (x & c1 & E & Hs).
  unfold returns. rewrite E. clear E.
  repeat match type of Hs with
  | (_ ≫= _) _ = _ =>
      let y := fresh "y" in let c2 := fresh "c" in
      apply bind_ret_inv in Hs as (y & c2 & _ & Hs)
  end.
  by injection Hs as <- _.
Qed.

End Types.

(** ** A concrete document type *)

Inductive json : Type :=
| JObject (members : list (string * json))
| JInt (z : Z)
| JBool (b : bool)
| JString (s : string)
| JDouble (q : Q).

Fixpoint member (key : string) (l : list (string * json)) : option json :=
  match l with
  | [] => None
  | (k, v) :: l => if String.eqb k key then Some v else member key l
  end.

(** [value]: the member converted, the default, or an exception. *)
Definition json_value {X} (convert : json -> option X) (j : json) (key : string) (d : X) : outcome X :=
  match j with
  | JObject l =>
      match member key l with
      | None => Ret d
      | Some v => match convert v with Some x => Ret x | None => Throw (runtime_error "type_error.302") end
      end
  | _ => Throw (runtime_error "type_error.306")
  end.

#[export] Instance json_Json : Json json := {
  json_object := JObject [];
  value_json := json_value Some;
  value_int := json_value (fun v => match v with JInt z => Some (i32 z) | _ => None end);
  value_string := json_value (fun v => match v with JString s => Some s | _ => None end);
  value_bool := json_value (fun v => match v with JBool b => Some b | _ => None end);
  value_double := json_value (fun v => match v with JDouble q => Some q | _ => None end)
}.

#[export] Instance json_laws : JsonLaws json.
Proof.
  split; try done; try by (intros j k d; cbn; unfold json_value; repeat case_match).
  intros j k d z Hd. cbn. unfold json_value.
  destruct j; try done. destruct (member k members) as [[]|]; try done; [|intros Hz; by simplify_eq].
  intros Hz. simplify_eq. unfold is_int, i32. pose proof (Z.mod_pos_bound (z0 + 2 ^ 31) (2 ^ 32) ltac:(lia)). lia.
Qed.

Definition demo_doc (port : Z) : json := JObject [("broker"%string, JObject [("port"%string, JInt port)])].

(** A port that does not fit is accepted and another one is used. *)
Example port_wraps :
  (Config.load "broker.json" (Some (Ret tt, demo_doc 70000)) Config.init).1 = Ret tt /\
  returns Config.port (mkConfigObject (demo_doc 70000) "") 4464.
Proof. split; by vm_compute. Qed.

(** The limits other components read are not looked at when the file is loaded. *)
Example limits_unchecked :
  let doc := JObject [("broker"%string, JObject [("max_topic_depth"%string, JString "deep")])] in
  (Config.load "broker.json" (Some (Ret tt, doc)) Config.init).1 = Ret tt /\
  (Config.max_topic_depth (mkConfigObject doc "")).1 = Throw (runtime_error "type_error.302").
Proof. split; by vm_compute. Qed.

Lemma demo_doc_loads :
  Config.load "broker.json" (Some (Ret tt, demo_doc 1884)) Config.init =
  (Ret tt, mkConfigObject (demo_doc 1884) "").
Proof. by vm_compute. Qed.

Definition pool_doc (n : Z) : json :=
  JObject [("broker"%string, JObject [("thread_pool_size"%string, JInt n)])].

(** A thousand workers are accepted, and 128 are used. *)
Example pool_clamped :
  (Config.load "broker.json" (Some (Ret tt, pool_doc 1000)) Config.init).1 = Ret tt /\
  returns Config.thread_pool_size (mkConfigObject (pool_doc 1000) "") 128.
Proof. split; by vm_compute. Qed.

(** A document that loads is sound; a port 0 makes [load] throw. *)
Lemma load_accepts_sound_witness :
  sound (mkConfigObject (demo_doc 1884) "") /\
  exists e c', Config.load "broker.json" (Some (Ret tt, demo_doc 0)) (Config.init (J := json)) = (Throw e, c').
Proof.
  split.
  - destruct (proj1 (proj1 (load_accepts_sound _ _ _) _) demo_doc_loads) as (j & _ & _ & Hs). exact Hs.
  - apply (load_accepts_sound "broker.json"%string (Some (Ret tt, demo_doc 0)) Config.init); [exact I|].
    intros j Hj [(n & (b & Hb & Hn) & Hm) _ _ _ _ _ _]. assert (j = demo_doc 0) as -> by congruence.
    vm_compute in Hb. assert (b = JObject [("port"%string, JInt 0)]) as -> by congruence.
    vm_compute in Hn. assert (n = 0) as -> by congruence. apply Hm. reflexivity.
Defined.

Lemma defaults_documented_witness :
  Config.settings Config.init = (Ret default_config, Config.init (J := json)).
Proof. exact (proj1 (defaults_documented (J := json))). Defined.
