(* ===== verification/Admin.v ===== *)
(** * The admin endpoint ([src/admin/])

    [AdminServer] accepts connections on a port of its own, reads one line from
    each, answers it in JSON from the broker's state and closes the connection.
    The commands are computations on the [World] of the broker; the connections
    are a state machine driven by asio's completion handlers.  The JSON library
    and the order in which an [unordered_map] is visited are parameters. *)

From Stdlib Require Import Strings.Byte Strings.String Strings.Ascii ZArith Lia.
From stdpp Require Import base strings pretty numbers option gmap fin_maps list.
From S2P Require Import Prelude Config Buffer Packet Parser Filter TopicTree Subscription Auth Timer Qos Inflight Qos1 Qos2 Delivery World Session Closing Server Safety.

Open Scope Z_scope.

(** ** JSON values *)

Inductive jvalue : Type :=
| JStr (s : string)
| JNum (z : Z)
| JBln (b : bool)
| JArr (l : list jvalue)
| JObj (l : list (string * jvalue)).

(** [obj[key] = v]. *)
Fixpoint assign (key : string) (v : jvalue) (l : list (string * jvalue)) : list (string * jvalue) :=
  match l with
  | [] => [(key, v)]
  | (k, x) :: l => if String.eqb k key then (k, v) :: l else (k, x) :: assign key v l
  end.

(** Which of its pointers a [BrokerContext] ([src/core/context.h]) has set. *)
Record BrokerContext : Type := mkContext {
  ctx_topic_tree : bool;
  ctx_sub_manager : bool;
  ctx_auth : bool;
  ctx_delivery : bool;
  ctx_server_state : bool;
  ctx_ssl_ctx : bool;
  ctx_counters : bool
}.

(** ** Connections *)

(** [struct Connection]: whether it has a TLS stream, and the operation that is
    outstanding on it. *)
Inductive stage : Type :=
| Handshaking
| ReadingLine
| Responding (response : string)
| ClosedConn.

Record Connection : Type := mkConn {
  conn_ssl : bool;
  conn_stage : stage;
  (** what the peer has been sent *)
  conn_sent : list string
}.

Record AdminServer : Type := mkAdmin {
  admin_running_ : bool;
  admin_ssl_ctx_ : bool;
  admin_open : bool;
  admin_accepting : bool;
  admin_conns : gmap nat Connection
}.

(** The admin server and the broker it reports on. *)
Record AdminWorld (W : Type) : Type := mkAdminWorld { adm : AdminServer; world : W }.
Arguments mkAdminWorld {W}.
Arguments adm {W}.
Arguments world {W}.

Module AdminServer.

(** ** Commands *)

Section Commands.

(** [dump()] and [dump(2)], and the order of a map's elements. *)
Context {A : Type} (dump : option nat -> jvalue -> outcome string)
  (iterate : gmap string session_id -> list (string * session_id)) (ctx : BrokerContext).
Abbreviation W := (World A).

Definition dumped (indent : option nat) (v : jvalue) : M W string := fun w => (dump indent v, w).

(** The fields of a session that both commands report. *)
Definition session_fields (s : Session) (obj : list (string * jvalue)) : list (string * jvalue) :=
  let obj := assign "client_id" (JStr (client_id_ s)) obj in
  let obj := assign "remote_ip" (JStr (remote_ip_ s)) obj in
  let obj := assign "username" (JStr (username_ s)) obj in
  let obj := assign "clean_session" (JBln (clean_session_ s)) obj in
  let obj := assign "keepalive" (JNum (keepalive_ s)) obj in
  assign "connected" (JBln (connected_ s)) obj.

(** The loop over [active_clients]; an expired [weak_ptr] is passed over. *)
Fixpoint client_entries (l : list (string * session_id)) : M W (list jvalue) :=
  match l with
  | [] => mret []
  | (_, wptr) :: l =>
      w ← get;
      match sessions w !! wptr with
      | None => client_entries l
      | Some session => rest ← client_entries l; mret (JObj (session_fields session []) :: rest)
      end
  end.

Definition cmd_clients : M W string :=
  if negb (ctx_server_state ctx) then dumped None (JArr []) else
  with_lock (
    w ← get;
    arr ← client_entries (iterate (active_clients (server_state w)));
    dumped (Some 2%nat) (JArr arr)).

Definition cmd_stats : M W string :=
  let obj := assign "active_connections" (JNum 0) [] in
  obj ← (if ctx_server_state ctx then
           with_lock (w ← get; mret (assign "active_connections"
             (JNum (i32 (Z.of_nat (size (active_clients (server_state w)))))) obj))
         else mret obj);
  w ← get;
  let obj :=
    if ctx_counters ctx then
      let obj := assign "received" (JNum (received (counters w))) obj in
      let obj := assign "published" (JNum (published (counters w))) obj in
      let obj := assign "dropped" (JNum (dropped (counters w))) obj in
      assign "subscribed" (JNum (subscribed (counters w))) obj
    else obj in
  dumped (Some 2%nat) (JObj obj).

(** The lookup under the lock: an answer, or the session. *)
Definition find_client (client_id : string) : M W (string + session_id) :=
  with_lock (
    w ← get;
    match active_clients (server_state w) !! client_id with
    | None => r ← dumped None (JObj (assign "error" (JStr ("Client not found: " ++ client_id)) [])); mret (inl r)
    | Some wptr =>
        if alive w wptr then mret (inr wptr)
        else r ← dumped None (JObj (assign "error" (JStr ("Client disconnected: " ++ client_id)) [])); mret (inl r)
    end).

Definition subscription_entry (sub : Subscription) : jvalue :=
  JObj (assign "qos" (JNum (sub_qos sub)) (assign "topic_filter" (JStr (topic_filter sub)) [])).

Definition cmd_client (client_id : string) : M W string :=
  if negb (ctx_server_state ctx) then
    dumped None (JObj (assign "error" (JStr "Server state unavailable") []))
  else
    found ← find_client client_id;
    match found with
    | inl answer => mret answer
    | inr sid =>
        s ← this sid;
        let obj := session_fields s [] in
        w ← get;
        let obj :=
          if ctx_sub_manager ctx then
            assign "subscriptions"
              (JArr (subscription_entry <$> SubscriptionManager.get_client_subs client_id (sub_manager w))) obj
          else obj in
        dumped (Some 2%nat) (JObj obj)
    end.

(** [std::toupper] on every character, in the C locale. *)
Definition toupper (c : ascii) : ascii :=
  let n := nat_of_ascii c in
  if ((97 <=? n) && (n <=? 122))%nat then ascii_of_nat (n - 32) else c.

Fixpoint upper (s : string) : string :=
  match s with EmptyString => EmptyString | String c s => String (toupper c) (upper s) end.

Definition handle_command (line : string) : M W string :=
  if String.eqb (upper line) "CLIENTS" then cmd_clients
  else if String.eqb (upper line) "STATS" then cmd_stats
  else if String.eqb (substring 0 7 (upper line)) "CLIENT " && (7 <? String.length (upper line))%nat then
    cmd_client (substring 7 (String.length line - 7) line)
  else dumped None (JObj (assign "error"
         (JStr "Unknown command. Try: CLIENTS, STATS, CLIENT <id>") [])).

(** ** Lines *)

Definition newline : ascii := "010"%char.
Definition return_ : ascii := "013"%char.

(** [std::getline]: up to the first newline. *)
Fixpoint getline (s : string) : string :=
  match s with
  | EmptyString => EmptyString
  | String c s => if Ascii.eqb c newline then EmptyString else String c (getline s)
  end.

(** [if (!line.empty() && line.back() == '\r') line.pop_back()]. *)
Fixpoint strip_return (s : string) : string :=
  match s with
  | EmptyString => EmptyString
  | String c EmptyString => if Ascii.eqb c return_ then EmptyString else s
  | String c s => String c (strip_return s)
  end.

(** The answer to a line: the first part of [handle_line]. *)
Definition answer_line (line : string) : M W string :=
  response ← (if String.eqb line "" then mret ""%string else handle_command line);
  mret (response ++ String newline "")%string.

End Commands.

(** ** The acceptor *)

Section Acceptor.

Context {W : Type}.
Abbreviation AW := (AdminWorld W).

(** The constructor: any of its calls may throw, then there is no object. *)
Definition init (listening : outcome unit) (ssl_ctx : bool) : outcome AdminServer :=
  match listening with
  | Ret _ => Ret (mkAdmin false ssl_ctx true false ∅)
  | Throw e => Throw e
  | Deadlock => Deadlock
  | Undefined => Undefined
  end.

Definition set_adm (f : AdminServer -> AdminServer) : M AW unit :=
  modify (fun aw => mkAdminWorld (f (adm aw)) (world aw)).

(** [do_accept]: on a closed acceptor the operation ends at once with an
    error, which is an event of its own. *)
Definition do_accept : M AW unit :=
  a ← gets adm;
  if negb (admin_running_ a) then mret tt
  else set_adm (fun a => mkAdmin (admin_running_ a) (admin_ssl_ctx_ a) (admin_open a) true (admin_conns a)).

Definition start : M AW unit :=
  set_adm (fun a => mkAdmin true (admin_ssl_ctx_ a) (admin_open a) (admin_accepting a) (admin_conns a));;
  do_accept.

Definition stop : M AW unit :=
  set_adm (fun a => mkAdmin false (admin_ssl_ctx_ a) false (admin_accepting a) (admin_conns a)).

End Acceptor.

(** ** The state machine *)

Section Machine.

Context {A : Type} (dump : option nat -> jvalue -> outcome string)
  (iterate : gmap string session_id -> list (string * session_id)) (ctx : BrokerContext).
Abbreviation AW := (AdminWorld (World A)).

Definition on_world {X} (m : M (World A) X) : M AW X := fun aw =>
  let '(o, w) := m (world aw) in (o, mkAdminWorld (adm aw) w).

Definition set_conn (id : nat) (f : Connection -> Connection) : M AW unit :=
  set_adm (fun a => mkAdmin (admin_running_ a) (admin_ssl_ctx_ a) (admin_open a) (admin_accepting a)
                      (alter f id (admin_conns a))).

Definition set_stage (st : stage) (id : nat) : M AW unit :=
  set_conn id (fun c => mkConn (conn_ssl c) st (conn_sent c)).

Definition close_conn (id : nat) : M AW unit := set_stage ClosedConn id.

Definition do_tls_handshake (id : nat) : M AW unit := set_stage Handshaking id.
Definition start_read (id : nat) : M AW unit := set_stage ReadingLine id.

(** The handler of [async_accept]; the [Connection] it was given is new. *)
Definition accept_handler (ec : bool) : M AW unit :=
  set_adm (fun a => mkAdmin (admin_running_ a) (admin_ssl_ctx_ a) (admin_open a) false (admin_conns a));;
  a ← gets adm;
  if negb (admin_running_ a) then mret tt
  else if ec then do_accept
  else
    let id := fresh (dom (admin_conns a)) in
    set_adm (fun a => mkAdmin (admin_running_ a) (admin_ssl_ctx_ a) (admin_open a) (admin_accepting a)
                        (<[id := mkConn (admin_ssl_ctx_ a) ClosedConn []]> (admin_conns a)));;
    (if admin_ssl_ctx_ a then do_tls_handshake id else start_read id);;
    do_accept.

Definition handshake_handler (id : nat) (ec : bool) : M AW unit :=
  if ec then close_conn id else start_read id.

Definition handle_line (id : nat) (line : string) : M AW unit :=
  response ← on_world (answer_line dump iterate ctx line);
  set_stage (Responding response) id.

(** The handler of [async_read_until]: [data] is what the buffer holds. *)
Definition read_handler (id : nat) (ec : bool) (data : string) : M AW unit :=
  if ec then close_conn id
  else handle_line id (strip_return (getline data)).

(** The handler of [async_write]: whatever the result, the connection is
    closed; [ec] only says whether the peer got the response. *)
Definition write_handler (id : nat) (ec : bool) : M AW unit :=
  set_conn id (fun c => mkConn (conn_ssl c) ClosedConn
    (match conn_stage c, ec with
     | Responding r, false => conn_sent c ++ [r]
     | _, _ => conn_sent c
     end)).

End Machine.

End AdminServer.

(** ** Events *)

Inductive admin_event : Type :=
| AdminAccepted (ec : bool)
| AdminHandshake (id : nat) (ec : bool)
| AdminRead (id : nat) (ec : bool) (data : string)
| AdminWritten (id : nat) (ec : bool).

Section AdminEvents.

Context {A : Type} (dump : option nat -> jvalue -> outcome string)
  (iterate : gmap string session_id -> list (string * session_id)) (ctx : BrokerContext).

Definition admin_exec (e : admin_event) : M (AdminWorld (World A)) unit :=
  match e with
  | AdminAccepted ec => AdminServer.accept_handler ec
  | AdminHandshake id ec => AdminServer.handshake_handler id ec
  | AdminRead id ec data => AdminServer.read_handler dump iterate ctx id ec data
  | AdminWritten id ec => AdminServer.write_handler id ec
  end.

(** A handler runs for an operation that was started; [async_read_until]
    succeeds on data with a newline. *)
Definition admin_enabled (a : AdminServer) (e : admin_event) : Prop :=
  match e with
  | AdminAccepted _ => admin_accepting a = true
  | AdminHandshake id _ => exists c, admin_conns a !! id = Some c /\ conn_stage c = Handshaking
  | AdminRead id ec data =>
      (exists c, admin_conns a !! id = Some c /\ conn_stage c = ReadingLine) /\
      (ec = false -> exists l r, data = (l ++ String AdminServer.newline r)%string)
  | AdminWritten id _ =>
      exists c r, admin_conns a !! id = Some c /\ conn_stage c = Responding r
  end.

End AdminEvents.

(** ** The JSON library *)

(** Well-formed UTF-8 (RFC 3629). *)
Definition between (a b : Z) (x : byte) : bool := (a <=? Z_of_byte x) && (Z_of_byte x <=? b).
Definition continuation : byte -> bool := between 128 191.

Fixpoint utf8b (l : list byte) : bool :=
  match l with
  | [] => true
  | a :: l1 =>
      if between 0 127 a then utf8b l1
      else
        match l1 with
        | [] => false
        | b :: l2 =>
            if between 194 223 a then continuation b && utf8b l2
            else
              match l2 with
              | [] => false
              | c :: l3 =>
                  if between 224 239 a then
                    (if between 224 224 a then between 160 191 b
                     else if between 237 237 a then between 128 159 b else continuation b)
                    && continuation c && utf8b l3
                  else
                    match l3 with
                    | [] => false
                    | d :: l4 =>
                        between 240 244 a &&
                        (if between 240 240 a then between 144 191 b
                         else if between 244 244 a then between 128 143 b else continuation b)
                        && continuation c && continuation d && utf8b l4
                    end
              end
        end
  end.

Definition utf8 (s : string) : Prop := utf8b (string_bytes s) = true.

#[export] Instance utf8_dec s : Decision (utf8 s).
Proof. unfold utf8. apply _. Defined.

Fixpoint strings_of (v : jvalue) : list string :=
  match v with
  | JStr s => [s]
  | JNum _ | JBln _ => []
  | JArr l => flat_map strings_of l
  | JObj l => flat_map (fun '(k, v) => k :: strings_of v) l
  end.

Definition type_error_316 : exn := runtime_error "type_error.316: invalid UTF-8 byte".

(** What is documented of [dump]: it serializes text in UTF-8, and throws on a
    string that is not. *)
Class DumpLaws (dump : option nat -> jvalue -> outcome string) : Prop := {
  dump_utf8 : forall i v, Forall utf8 (strings_of v) -> exists s, dump i v = Ret s;
  dump_not_utf8 : forall i v, ~ Forall utf8 (strings_of v) -> dump i v = Throw type_error_316
}.

(** An [unordered_map] is visited in some order, every element once. *)
Class IterateLaws (iterate : gmap string session_id -> list (string * session_id)) : Prop :=
  iterate_perm : forall m, iterate m ≡ₚ map_to_list m.

(** ** The commands only read *)

Section Reports.

Context {A : Type} (dump : option nat -> jvalue -> outcome string)
  (iterate : gmap string session_id -> list (string * session_id)) (ctx : BrokerContext).
Abbreviation W := (World A).

Lemma with_lock_reads {X} (m : M W X) w o :
  mutex (server_state w) = false ->
  m (put_server_state (set_mutex true (server_state w)) w) =
    (o, put_server_state (set_mutex true (server_state w)) w) ->
  o <> Deadlock -> with_lock m w = (o, w).
Proof.
  intros Hm Hr Ho. unfold with_lock. rewrite Hm, Hr.
  destruct w as [a b c d e [mu f g h i] j k]. simpl in Hm. subst. by destruct o.
Qed.

(** The entries of the live clients among [l]. *)
Definition live_entries (w : W) (l : list (string * session_id)) : list jvalue :=
  omap (fun x => (fun s => JObj (AdminServer.session_fields s [])) <$> sessions w !! x.2) l.

Lemma client_entries_eq l w : AdminServer.client_entries l w = (Ret (live_entries w l), w).
Proof.
  induction l as [|[cid sid] l IH]; [done|]. cbn [AdminServer.client_entries].
  unfold mbind, M_bind, get. unfold live_entries. cbn [omap list_omap snd].
  destruct (sessions w !! sid) as [s|]; simpl; rewrite IH; done.
Qed.

Lemma cmd_clients_eq w :
  mutex (server_state w) = false -> ctx_server_state ctx = true ->
  dump (Some 2%nat) (JArr (live_entries w (iterate (active_clients (server_state w))))) <> Deadlock ->
  AdminServer.cmd_clients dump iterate ctx w =
    (dump (Some 2%nat) (JArr (live_entries w (iterate (active_clients (server_state w))))), w).
Proof.
  intros Hm Hc Hd. unfold AdminServer.cmd_clients. rewrite Hc. cbn [negb].
  apply with_lock_reads; [done| |done]. unfold mbind, M_bind at 1, get.
  unfold mbind, M_bind. by rewrite client_entries_eq.
Qed.

Definition stats_fields (w : W) : list (string * jvalue) :=
  [("active_connections"%string, JNum (i32 (Z.of_nat (size (active_clients (server_state w))))));
   ("received"%string, JNum (received (counters w))); ("published"%string, JNum (published (counters w)));
   ("dropped"%string, JNum (dropped (counters w))); ("subscribed"%string, JNum (subscribed (counters w)))].

Lemma cmd_stats_eq w :
  mutex (server_state w) = false -> ctx_server_state ctx = true -> ctx_counters ctx = true ->
  AdminServer.cmd_stats dump ctx w = (dump (Some 2%nat) (JObj (stats_fields w)), w).
Proof.
  intros Hm Hs Hc. unfold AdminServer.cmd_stats. rewrite Hs, Hc. unfold mbind, M_bind at 1.
  erewrite with_lock_reads; [|done|reflexivity|done]. reflexivity.
Qed.

Definition error_value (why : string) : jvalue := JObj [("error"%string, JStr why)].

(** The answer to [CLIENT id], and whether it is a report. *)
Definition client_report (w : W) (id : string) : option nat * jvalue :=
  match active_clients (server_state w) !! id with
  | None => (None, error_value ("Client not found: " ++ id))
  | Some sid =>
      match sessions w !! sid with
      | None => (None, error_value ("Client disconnected: " ++ id))
      | Some s =>
          (Some 2%nat, JObj (AdminServer.session_fields s [] ++
             [("subscriptions"%string,
               JArr (AdminServer.subscription_entry <$>
                       SubscriptionManager.get_client_subs id (sub_manager w)))]))
      end
  end.

(** An answer given under the lock. *)
Definition answered (o : outcome string) : outcome (string + session_id) :=
  match o with
  | Ret r => Ret (inl r)
  | Throw e => Throw e
  | Deadlock => Deadlock
  | Undefined => Undefined
  end.

Lemma find_client_eq id w :
  mutex (server_state w) = false -> dump (client_report w id).1 (client_report w id).2 <> Deadlock ->
  AdminServer.find_client dump id w =
    (match active_clients (server_state w) !! id with
     | Some sid => if alive w sid then Ret (inr sid) else answered (dump None (error_value ("Client disconnected: " ++ id)))
     | None => answered (dump None (error_value ("Client not found: " ++ id)))
     end, w).
Proof.
  intros Hm Hd. unfold AdminServer.find_client, client_report in *. apply with_lock_reads; [done| |].
  - unfold mbind, M_bind, get. simpl. destruct (active_clients _ !! id) as [sid|].
    + unfold alive. simpl. destruct (sessions w !! sid); simpl; [done|].
      unfold AdminServer.dumped. by destruct (dump None _).
    + unfold AdminServer.dumped. simpl. by destruct (dump None _).
  - destruct (active_clients _ !! id) as [sid|].
    + unfold alive. destruct (sessions w !! sid); [done|]. simpl in *. by destruct (dump None _).
    + simpl in *. by destruct (dump None _).
Qed.

Lemma cmd_client_eq id w :
  mutex (server_state w) = false -> ctx_server_state ctx = true -> ctx_sub_manager ctx = true ->
  dump (client_report w id).1 (client_report w id).2 <> Deadlock ->
  AdminServer.cmd_client dump ctx id w = (dump (client_report w id).1 (client_report w id).2, w).
Proof.
  intros Hm Hs Hsm Hd. unfold AdminServer.cmd_client. rewrite Hs, Hsm. cbn [negb].
  unfold mbind, M_bind. rewrite find_client_eq by done. unfold client_report, alive in *.
  destruct (active_clients _ !! id) as [sid|].
  - unfold this. destruct (sessions w !! sid) as [s|] eqn:Es; simpl; [|by destruct (dump None _)].
    rewrite Es. reflexivity.
  - simpl. by destruct (dump None _).
Qed.

End Reports.

(** ** The text of a command *)

Lemma upper_app s t : AdminServer.upper (s ++ t) = (AdminServer.upper s ++ AdminServer.upper t)%string.
Proof. induction s as [|c s IH]; [done|]. simpl. by rewrite IH. Qed.

Lemma upper_length s : String.length (AdminServer.upper s) = String.length s.
Proof. induction s as [|c s IH]; [done|]. simpl. by rewrite IH. Qed.

Lemma substring_all s : substring 0 (String.length s) s = s.
Proof. induction s as [|c s IH]; [done|]. simpl. by rewrite IH. Qed.

Lemma substring_after s t : substring (String.length s) (String.length t) (s ++ t) = t.
Proof. induction s as [|c s IH]; [apply substring_all|]. exact IH. Qed.

Lemma string_length_app s t : String.length (s ++ t) = (String.length s + String.length t)%nat.
Proof. induction s as [|c s IH]; [done|]. simpl. by rewrite IH. Qed.

Section Lines.

Context {A : Type} (dump : option nat -> jvalue -> outcome string)
  (iterate : gmap string session_id -> list (string * session_id)) (ctx : BrokerContext).

(** The command word in any case, and the rest of the line as it is. *)
Lemma command_client p id :
  AdminServer.upper p = "CLIENT "%string -> id <> ""%string ->
  AdminServer.handle_command (A := A) dump iterate ctx (p ++ id) = AdminServer.cmd_client dump ctx id.
Proof.
  intros Hp Hid. unfold AdminServer.handle_command.
  assert (Hl : String.length p = 7%nat) by (by rewrite <- upper_length, Hp).
  rewrite upper_app, Hp, !string_length_app, upper_length, Hl.
  replace (7 + String.length id - 7)%nat with (String.length id) by lia.
  rewrite <- Hl, substring_after, Hl. destruct id as [|c id]; [done|]. reflexivity.
Qed.

Lemma command_clients line :
  AdminServer.upper line = "CLIENTS"%string ->
  AdminServer.handle_command (A := A) dump iterate ctx line = AdminServer.cmd_clients dump iterate ctx.
Proof. intros Hl. unfold AdminServer.handle_command. by rewrite Hl. Qed.

Lemma command_stats line :
  AdminServer.upper line = "STATS"%string ->
  AdminServer.handle_command (A := A) dump iterate ctx line = AdminServer.cmd_stats dump ctx.
Proof. intros Hl. unfold AdminServer.handle_command. by rewrite Hl. Qed.

End Lines.

(** ** What is reported *)

Section Promises.

Context {A : Type} (dump : option nat -> jvalue -> outcome string) `{!DumpLaws dump}
  (iterate : gmap string session_id -> list (string * session_id)) `{!IterateLaws iterate}
  (ctx : BrokerContext).
Abbreviation W := (World A).

Lemma dump_cases i v : (exists s, dump i v = Ret s) \/ dump i v = Throw type_error_316.
Proof using DumpLaws0.
  destruct (decide (Forall utf8 (strings_of v))); [left; by apply dump_utf8|right; by apply dump_not_utf8].
Qed.

Lemma dump_no_deadlock i v : dump i v <> Deadlock.
Proof using DumpLaws0. by destruct (dump_cases i v) as [[s ->]| ->]. Qed.

(** The context of a running broker, as [Broker::update_context] sets it. *)
Definition context_set : Prop :=
  ctx_server_state ctx = true /\ ctx_sub_manager ctx = true /\ ctx_counters ctx = true.

(** [C28] The admin endpoint only reads: whatever line it is sent, a command
    leaves the state of the broker as it was, with the server lock released,
    and it either answers or ends in the exception of the JSON library for
    text that is not UTF-8; it never waits for a lock it holds. *)
Theorem admin_reads_only line (w : W) :
  context_set -> mutex (server_state w) = false ->
  exists o, AdminServer.handle_command dump iterate ctx line w = (o, w) /\
    ((exists s, o = Ret s) \/ o = Throw type_error_316).
Proof using DumpLaws0.
  intros (Hs & Hsm & Hc) Hm. unfold AdminServer.handle_command.
  destruct (String.eqb _ _).
  { rewrite cmd_clients_eq by (done || apply dump_no_deadlock). eauto using dump_cases. }
  destruct (String.eqb _ _); [rewrite cmd_stats_eq by done; eauto using dump_cases|].
  destruct (_ && _); [rewrite cmd_client_eq by (done || apply dump_no_deadlock); eauto using dump_cases|].
  unfold AdminServer.dumped. eauto using dump_cases.
Qed.

(** CLIENTS lists the live clients: the answer is the array with exactly
    one object for every registered client whose session still exists, with
    that session's client id, address, user name, clean-session flag,
    keepalive and connection state, in some order. *)
Theorem clients_reported line (w : W) :
  context_set -> mutex (server_state w) = false -> AdminServer.upper line = "CLIENTS"%string ->
  exists entries,
    AdminServer.handle_command dump iterate ctx line w = (dump (Some 2%nat) (JArr entries), w) /\
    entries ≡ₚ omap (fun x => (fun s =>
        JObj [("client_id"%string, JStr (client_id_ s)); ("remote_ip"%string, JStr (remote_ip_ s));
              ("username"%string, JStr (username_ s)); ("clean_session"%string, JBln (clean_session_ s));
              ("keepalive"%string, JNum (keepalive_ s)); ("connected"%string, JBln (connected_ s))])
        <$> sessions w !! x.2) (map_to_list (active_clients (server_state w))).
Proof using DumpLaws0 IterateLaws0.
  intros (Hs & Hsm & Hc) Hm Hl. rewrite command_clients by done.
  rewrite cmd_clients_eq by (done || apply dump_no_deadlock). eexists. split; [reflexivity|].
  unfold live_entries. apply omap_Permutation, iterate_perm.
Qed.

(** [C29] CLIENT reports one client: for a registered client with a live session
    the object of that session with its subscriptions as the subscription
    manager has them; an error object for a client that is not registered and
    for one whose session is gone.  The command word is taken in any case, the
    client id as it is written. *)
Theorem client_reported p id (w : W) :
  context_set -> mutex (server_state w) = false ->
  AdminServer.upper p = "CLIENT "%string -> id <> ""%string ->
  AdminServer.handle_command dump iterate ctx (p ++ id) w =
    (match active_clients (server_state w) !! id with
     | None => dump None (JObj [("error"%string, JStr ("Client not found: " ++ id))])
     | Some sid =>
         match sessions w !! sid with
         | None => dump None (JObj [("error"%string, JStr ("Client disconnected: " ++ id))])
         | Some s =>
             dump (Some 2%nat) (JObj
               [("client_id"%string, JStr (client_id_ s)); ("remote_ip"%string, JStr (remote_ip_ s));
                ("username"%string, JStr (username_ s)); ("clean_session"%string, JBln (clean_session_ s));
                ("keepalive"%string, JNum (keepalive_ s)); ("connected"%string, JBln (connected_ s));
                ("subscriptions"%string, JArr ((fun sub =>
                    JObj [("topic_filter"%string, JStr (topic_filter sub)); ("qos"%string, JNum (sub_qos sub))])
                  <$> SubscriptionManager.get_client_subs id (sub_manager w)))])
         end
     end, w).
Proof using DumpLaws0.
  intros (Hs & Hsm & Hc) Hm Hp Hid. rewrite command_client by done.
  rewrite cmd_client_eq by (done || apply dump_no_deadlock). unfold client_report.
  destruct (active_clients _ !! id) as [sid|]; [|done]. by destruct (sessions w !! sid).
Qed.

(** One line can end the broker: when a client id that is not UTF-8 is
    asked for and nobody has it, the handler throws the exception of [dump];
    nothing catches it between the handler and the thread that runs it. *)
Theorem admin_crash aw id name data :
  context_set -> mutex (server_state (world aw)) = false ->
  AdminServer.strip_return (AdminServer.getline data) = ("CLIENT " ++ name)%string ->
  name <> ""%string -> ~ utf8 ("Client not found: " ++ name)%string ->
  active_clients (server_state (world aw)) !! name = None ->
  (admin_exec (A := A) dump iterate ctx (AdminRead id false data) aw).1 = Throw type_error_316.
Proof using DumpLaws0.
  intros (Hs & Hsm & Hc) Hm Hl Hn Hu Ha. cbn [admin_exec]. unfold AdminServer.read_handler. rewrite Hl.
  unfold AdminServer.handle_line, AdminServer.answer_line.
  destruct (String.eqb_spec ("CLIENT " ++ name) ""); [done|].
  rewrite (command_client dump iterate ctx "CLIENT " name) by done.
  unfold mbind, M_bind, AdminServer.on_world.
  rewrite cmd_client_eq by (done || apply dump_no_deadlock). unfold client_report. rewrite Ha.
  rewrite dump_not_utf8; [done|]. intros Hf. apply Hu.
  by apply Forall_cons_1 in Hf as [_ [? _]%Forall_cons_1].
Qed.

End Promises.

(** ** Connections *)

Section Connections.

Context {A : Type} (dump : option nat -> jvalue -> outcome string)
  (iterate : gmap string session_id -> list (string * session_id)) (ctx : BrokerContext).

(** A response: what [answer_line] makes of the first line of the data that was
    read, in some state of the broker.  It is one or more lines of text ([dump(2)]
    breaks lines), the last one ended by a newline. *)
Definition is_answer (r : string) : Prop :=
  (exists s, r = (s ++ String AdminServer.newline "")%string) /\
  exists data (w w' : World A),
    AdminServer.answer_line dump iterate ctx (AdminServer.strip_return (AdminServer.getline data)) w = (Ret r, w').

(** What holds of every connection: it has a TLS stream when the endpoint is
    configured for it, it is sent one response at most, and is closed then. *)
Definition conn_ok (tls : bool) (c : Connection) : Prop :=
  conn_ssl c = tls /\
  match conn_stage c with
  | Handshaking => conn_sent c = [] /\ tls = true
  | ReadingLine => conn_sent c = []
  | Responding r => conn_sent c = [] /\ is_answer r
  | ClosedConn => (length (conn_sent c) <= 1)%nat /\ Forall is_answer (conn_sent c)
  end.

Definition admin_wf (a : AdminServer) : Prop :=
  (admin_running_ a = true -> admin_accepting a = true) /\
  map_Forall (fun _ => conn_ok (admin_ssl_ctx_ a)) (admin_conns a).

(** A handler runs, the endpoint is stopped, or the broker does something. *)
Inductive admin_step : AdminWorld (World A) -> AdminWorld (World A) -> Prop :=
| admin_handler e aw o aw' :
    admin_enabled (adm aw) e -> admin_exec dump iterate ctx e aw = (o, aw') -> admin_step aw aw'
| admin_stopped aw : admin_step aw (AdminServer.stop aw).2
| admin_broker aw w : admin_step aw (mkAdminWorld (adm aw) w).

Inductive admin_reachable (tls : bool) : AdminWorld (World A) -> Prop :=
| admin_start a w : AdminServer.init (Ret tt) tls = Ret a ->
    admin_reachable tls (AdminServer.start (mkAdminWorld a w)).2
| admin_next aw aw' : admin_reachable tls aw -> admin_step aw aw' -> admin_reachable tls aw'.

Lemma alter_ok tls (f : Connection -> Connection) id (m : gmap nat Connection) :
  (forall c, m !! id = Some c -> conn_ok tls c -> conn_ok tls (f c)) ->
  map_Forall (fun _ => conn_ok tls) m -> map_Forall (fun _ => conn_ok tls) (alter f id m).
Proof.
  intros Hf Hm i c. destruct (decide (i = id)) as [->|Hne].
  - rewrite lookup_alter_eq. destruct (m !! id) as [c0|] eqn:E; [|done]. simpl. intros Hc. simplify_eq.
    apply Hf; [done|]. by apply (Hm id).
  - rewrite lookup_alter_ne by done. apply Hm.
Qed.

Lemma accept_wf ec (aw : AdminWorld (World A)) : admin_wf (adm aw) -> admin_wf (adm (AdminServer.accept_handler ec aw).2).
Proof.
  intros [_ Hc]. destruct aw as [[run tls op acc conns] w]. simpl in Hc.
  unfold AdminServer.accept_handler, AdminServer.set_adm, AdminServer.do_accept, mbind, M_bind, modify, gets.
  simpl. destruct run; simpl; [|by split]. destruct ec; simpl; [by split|].
  set (id := fresh (dom conns)).
  assert (Hid : conns !! id = None) by (apply not_elem_of_dom, is_fresh).
  destruct tls; simpl; (split; [done|]); simpl; unfold AdminServer.set_stage, AdminServer.set_conn;
    apply alter_ok; try (apply map_Forall_insert_2; [by repeat split; simpl; auto|exact Hc]);
    intros c; rewrite lookup_insert_eq; intros ? _; by simplify_eq.
Qed.

Lemma set_conn_wf f id (aw : AdminWorld (World A)) :
  (forall c, admin_conns (adm aw) !! id = Some c -> conn_ok (admin_ssl_ctx_ (adm aw)) c ->
             conn_ok (admin_ssl_ctx_ (adm aw)) (f c)) ->
  admin_wf (adm aw) -> admin_wf (adm (AdminServer.set_conn id f aw).2).
Proof. intros Hf [Ha Hc]. split; [exact Ha|]. by apply alter_ok. Qed.

Lemma answer_is_answer data (w w' : World A) r :
  AdminServer.answer_line dump iterate ctx (AdminServer.strip_return (AdminServer.getline data)) w = (Ret r, w') ->
  is_answer r.
Proof.
  intros Ha. split; [|by eexists _, _, _]. unfold AdminServer.answer_line in Ha.
  apply bind_ret_inv in Ha as (s & w1 & _ & Hr). injection Hr as <- _. by exists s.
Qed.

Lemma admin_exec_wf e (aw : AdminWorld (World A)) :
  admin_enabled (adm aw) e -> admin_wf (adm aw) -> admin_wf (adm (admin_exec dump iterate ctx e aw).2).
Proof.
  intros He Hw. destruct e as [ec|id ec|id ec data|id ec]; cbn [admin_exec admin_enabled] in *.
  - by apply accept_wf.
  - destruct He as (c & Hc & Hst). unfold AdminServer.handshake_handler, AdminServer.close_conn,
      AdminServer.start_read, AdminServer.set_stage.
    destruct ec; apply set_conn_wf; try done; intros c' Hc' [Ht Hs]; simplify_eq; rewrite Hst in Hs;
      destruct Hs as [-> ?]; by repeat split; simpl; auto.
  - destruct He as [(c & Hc & Hst) _]. unfold AdminServer.read_handler, AdminServer.close_conn,
      AdminServer.set_stage, AdminServer.handle_line.
    destruct ec; [apply set_conn_wf; [|done]; intros c' Hc' [Ht Hs]; simplify_eq; rewrite Hst in Hs;
      rewrite Hs; by repeat split; simpl; auto|].
    unfold mbind, M_bind, AdminServer.on_world.
    destruct (AdminServer.answer_line _ _ _ _ _) as [[r|x| |] w'] eqn:Ea; try exact Hw.
    apply (set_conn_wf _ id (mkAdminWorld (adm aw) w')); [|exact Hw]. simpl.
    intros c' Hc' [Ht Hs]. simplify_eq. rewrite Hst in Hs.
    split; [done|]. simpl. rewrite Hs. by eauto using answer_is_answer.
  - destruct He as (c & r & Hc & Hst). unfold AdminServer.write_handler. apply set_conn_wf; [|done].
    intros c' Hc' [Ht Hs]. simplify_eq. rewrite Hst in *. destruct Hs as [-> Hr].
    split; [done|]. by destruct ec; simpl; split; auto.
Qed.

Lemma admin_exec_tls e (aw : AdminWorld (World A)) :
  admin_ssl_ctx_ (adm (admin_exec dump iterate ctx e aw).2) = admin_ssl_ctx_ (adm aw).
Proof.
  destruct e as [ec|id ec|id ec data|id ec]; cbn [admin_exec]; [|by destruct ec| |done].
  - destruct aw as [[run tls op acc conns] w].
    unfold AdminServer.accept_handler, AdminServer.do_accept, mbind, M_bind, modify, gets.
    simpl. destruct run; simpl; [|done]. destruct ec; [done|]. by destruct tls.
  - unfold AdminServer.read_handler. destruct ec; [done|].
    unfold AdminServer.handle_line, mbind, M_bind, AdminServer.on_world.
    by destruct (AdminServer.answer_line _ _ _ _ _) as [[r|x| |] w'].
Qed.


End Connections.

(** ** Concrete runs *)

(** A serializer without escapes. *)
Fixpoint flat (v : jvalue) : string :=
  match v with
  | JStr s => String.String "034" (s ++ String.String "034" "")
  | JNum z => pretty z
  | JBln b => if b then "true" else "false"
  | JArr l => "[" ++ fold_right (fun v acc => flat v ++ "," ++ acc) "" l ++ "]"
  | JObj l => "{" ++ fold_right (fun kv acc => kv.1 ++ ":" ++ flat kv.2 ++ "," ++ acc) "" l ++ "}"
  end%string.

Definition demo_dump (_ : option nat) (v : jvalue) : outcome string :=
  if decide (Forall utf8 (strings_of v)) then Ret (flat v) else Throw type_error_316.

#[export] Instance demo_dump_laws : DumpLaws demo_dump.
Proof.
  split; intros i v Hv; unfold demo_dump; [rewrite decide_True by done; eauto|by rewrite decide_False].
Qed.

#[export] Instance map_to_list_laws : IterateLaws map_to_list.
Proof. intros m. done. Qed.

Definition demo_context : BrokerContext := mkContext true true true true true false true.

Lemma demo_context_set : context_set demo_context.
Proof. done. Qed.

Lemma admin_reads_only_witness :
  exists o, AdminServer.handle_command demo_dump map_to_list demo_context "clients" demo_connected =
      (o, demo_connected) /\
    ((exists s, o = Ret s) \/ o = Throw type_error_316).
Proof.
  apply (admin_reads_only demo_dump map_to_list demo_context "clients" demo_connected demo_context_set).
  by vm_compute.
Defined.

Lemma clients_reported_witness :
  exists entries,
    AdminServer.handle_command demo_dump map_to_list demo_context "Clients" demo_connected =
      (demo_dump (Some 2%nat) (JArr entries), demo_connected) /\ length entries = 1%nat.
Proof.
  destruct (clients_reported demo_dump map_to_list demo_context "Clients" demo_connected demo_context_set
    ltac:(by vm_compute) eq_refl) as (entries & He & Hp).
  exists entries. split; [exact He|]. rewrite Hp. by vm_compute.
Defined.

Lemma client_reported_witness :
  AdminServer.handle_command demo_dump map_to_list demo_context "client nobody" demo_connected =
    (demo_dump None (JObj [("error"%string, JStr "Client not found: nobody")]), demo_connected).
Proof.
  etransitivity; [exact (client_reported demo_dump map_to_list demo_context "client " "nobody" demo_connected
    demo_context_set ltac:(by vm_compute) eq_refl ltac:(done))|].
  assert (Ha : active_clients (server_state demo_connected) !! "nobody"%string = None) by (by vm_compute).
  by rewrite Ha.
Defined.

(** An octet that never occurs in UTF-8. *)
Definition not_text : string := String.String "255" "".

Definition demo_admin : AdminWorld (World unit) :=
  mkAdminWorld (mkAdmin true false true true {[0%nat := mkConn false ReadingLine []]}) demo_connected.

Lemma admin_crash_witness :
  (admin_exec demo_dump map_to_list demo_context
     (AdminRead 0 false ("CLIENT " ++ not_text ++ String.String AdminServer.newline "")) demo_admin).1 =
  Throw type_error_316.
Proof.
  apply (admin_crash demo_dump map_to_list demo_context demo_admin 0 not_text);
    [exact demo_context_set|by vm_compute|by vm_compute|done|by vm_compute|by vm_compute].
Defined.

(** A connection is accepted, asks for STATS, and is answered. *)
Definition demo_exec (e : admin_event) (aw : AdminWorld (World unit)) : AdminWorld (World unit) :=
  (admin_exec demo_dump map_to_list demo_context e aw).2.

Definition stats_line : string := "stats" ++ String AdminServer.return_ (String AdminServer.newline "").

Definition demo_served : list (AdminWorld (World unit)) :=
  let aw0 := (AdminServer.start (mkAdminWorld (mkAdmin false false true false ∅) demo_connected)).2 in
  let aw1 := demo_exec (AdminAccepted false) aw0 in
  let aw2 := demo_exec (AdminRead 0 false stats_line) aw1 in
  [aw0; aw1; aw2; demo_exec (AdminWritten 0 false) aw2].

Definition demo_stats : string :=
  (flat (JObj [("active_connections", JNum 1); ("received", JNum 0); ("published", JNum 0); ("dropped", JNum 0);
               ("subscribed", JNum 0)]) ++ String AdminServer.newline "")%string.

