(* ===== verification/Logger.v ===== *)
(** * Logging ([src/logger.h], [src/logger.cpp])

    [Logger] owns one spdlog logger, made by [init] and dropped by [shutdown].
    spdlog is a parameter: [Spdlog] has the calls the code makes and what can
    be observed of them, [SpdlogLaws] what its documentation promises.  The
    process-wide registry of named loggers is explicit, since registering a
    name twice throws. *)

From Stdlib Require Import Strings.String ZArith Lia.
From stdpp Require Import base strings numbers option gmap fin_sets list.
From S2P Require Import Prelude.

Open Scope Z_scope.

(** [spdlog::level]. *)
Inductive level : Type := trace | debug | info | warn | err.

Definition severity (l : level) : Z :=
  match l with trace => 0 | debug => 1 | info => 2 | warn => 3 | err => 4 end.

(** [stdout_color_sink_mt] and [rotating_file_sink_mt(file, size, files)]. *)
Inductive sink : Type :=
| Console
| RotatingFile (file : string) (max_size max_files : Z).

(** A logger of spdlog. *)
Class Spdlog (L : Type) : Type := {
  spd_make : list sink -> L;
  spd_set_level : level -> L -> L;
  spd_log : level -> string -> L -> L;
  (** what was made, and what reached the sinks *)
  spd_sinks : L -> list sink;
  spd_level : L -> level;
  spd_written : L -> list (level * string)
}.

(** A logger passes a message to its sinks when the message's level is at least
    its own. *)
Class SpdlogLaws L `{Spdlog L} : Prop := {
  made_sinks l : spd_sinks (spd_make l) = l;
  made_written l : spd_written (spd_make l) = [];
  set_level_level l x : spd_level (spd_set_level l x) = l;
  set_level_sinks l x : spd_sinks (spd_set_level l x) = spd_sinks x;
  set_level_written l x : spd_written (spd_set_level l x) = spd_written x;
  log_level l t x : spd_level (spd_log l t x) = spd_level x;
  log_sinks l t x : spd_sinks (spd_log l t x) = spd_sinks x;
  log_written l t x : spd_written (spd_log l t x) =
    spd_written x ++ (if severity (spd_level x) <=? severity l then [(l, t)] else [])
}.

(** The singleton, and the names registered with spdlog. *)
Record Logger (L : Type) : Type := mkLogger {
  logger_ : option L;
  registry : gset string
}.
Arguments mkLogger {L}.
Arguments logger_ {L}.
Arguments registry {L}.

Module Logger.

Section Operations.

Context {L : Type} `{Spdlog L}.
Abbreviation S := (Logger L).

(** [static Logger inst], at the start of the process. *)
Definition instance : S := mkLogger None ∅.

Definition set_logger (x : option L) (s : S) : S := mkLogger x (registry s).

Definition level_of (level : string) : Logger.level :=
  if String.eqb level "trace" then trace
  else if String.eqb level "debug" then debug
  else if String.eqb level "warn" then warn
  else if String.eqb level "error" then err
  else info.

(** [spdlog::register_logger]. *)
Definition register_logger (name : string) : M S unit := fun s =>
  if bool_decide (name ∈ registry s)
  then (Throw (runtime_error "logger with name 'broker' already exists"), s)
  else (Ret tt, mkLogger (logger_ s) ({[name]} ∪ registry s)).

(** The sinks; [open] is the constructor of the file sink. *)
Definition make_sinks (open : string -> outcome unit) (file : string) : outcome (list sink) :=
  if String.eqb file "" then Ret [Console]
  else
    match open file with
    | Ret _ => Ret [Console; RotatingFile file (5 * 1024 * 1024) 3]
    | Throw e => Throw e
    | Deadlock => Deadlock
    | Undefined => Undefined
    end.

Definition init (open : string -> outcome unit) (level file : string) : M S unit := fun s =>
  match make_sinks open file with
  | Ret sinks =>
      (modify (set_logger (Some (spd_make sinks)));;
       register_logger "broker";;
       modify (fun s => set_logger (spd_set_level (level_of level) <$> logger_ s) s)) s
  | Throw e => (Throw e, s)
  | Deadlock => (Deadlock, s)
  | Undefined => (Undefined, s)
  end.

Definition shutdown (s : S) : S :=
  match logger_ s with
  | Some _ => mkLogger None (registry s ∖ {["broker"%string]})
  | None => s
  end.

(** [if (logger_) logger_->...(fmt, args...)]; the text is formatted. *)
Definition log (l : level) (text : string) (s : S) : S := set_logger (spd_log l text <$> logger_ s) s.

Definition trace (text : string) : S -> S := log Logger.trace text.
Definition debug (text : string) : S -> S := log Logger.debug text.
Definition info (text : string) : S -> S := log Logger.info text.
Definition warn (text : string) : S -> S := log Logger.warn text.
Definition error (text : string) : S -> S := log Logger.err text.

End Operations.

End Logger.

Section Properties.

Context {L : Type} `{SpdlogLaws L}.
Abbreviation S := (Logger L).

(** Messages in order. *)
Definition log_all (ms : list (level * string)) (s : S) : S :=
  foldl (fun s m => Logger.log m.1 m.2 s) s ms.

(** The messages a level lets through. *)
Definition at_least (l : level) (ms : list (level * string)) : list (level * string) :=
  filter (fun m => severity l <= severity m.1) ms.

Lemma log_all_written ms : forall s x,
  logger_ s = Some x ->
  exists x', logger_ (log_all ms s) = Some x' /\ registry (log_all ms s) = registry s /\
    spd_sinks x' = spd_sinks x /\ spd_written x' = spd_written x ++ at_least (spd_level x) ms.
Proof.
  unfold at_least. induction ms as [|[l t] ms IH]; intros s x Hs.
  - exists x. simpl. by rewrite app_nil_r.
  - destruct (IH (Logger.log l t s) (spd_log l t x)) as (x' & H1 & H2 & H3 & H4).
    { unfold Logger.log. simpl. by rewrite Hs. }
    exists x'. split; [exact H1|]. split; [exact H2|]. rewrite log_sinks in H3. split; [exact H3|].
    rewrite H4, log_level, log_written, <- app_assoc. f_equal. rewrite filter_cons. cbn [fst].
    destruct (Z.leb_spec (severity (spd_level x)) (severity l)); case_decide; (done || lia).
Qed.

(** Logging does what the configuration says: [init] with a file that can be
    opened makes a logger on the console and the file; of the messages logged
    then, exactly those at or above the configured level reach the sinks, in
    order; [shutdown] ends it and frees the name, after which, as before
    [init], messages go nowhere and [init] may be called again. *)
Theorem logger_filters open lvl file (s : S) ms :
  open file = Ret tt -> "broker"%string ∉ registry s ->
  let file_sinks := if String.eqb file "" then [] else [RotatingFile file (5 * 1024 * 1024) 3] in
  exists s1 x, Logger.init open lvl file s = (Ret tt, s1) /\
    logger_ (log_all ms s1) = Some x /\ spd_sinks x = Console :: file_sinks /\
    spd_written x = at_least (Logger.level_of lvl) ms /\
    logger_ (Logger.shutdown (log_all ms s1)) = None /\
    "broker"%string ∉ registry (Logger.shutdown (log_all ms s1)) /\
    forall ms', log_all ms' (Logger.shutdown (log_all ms s1)) = Logger.shutdown (log_all ms s1).
Proof.
  intros Ho Hn file_sinks.
  assert (Hm : Logger.make_sinks open file = Ret (Console :: file_sinks)).
  { unfold Logger.make_sinks, file_sinks. destruct (String.eqb file ""); [done|]. by rewrite Ho. }
  set (s1 := mkLogger (Some (spd_set_level (Logger.level_of lvl) (spd_make (Console :: file_sinks))))
               ({["broker"%string]} ∪ registry s)). exists s1.
  assert (Hi : Logger.init open lvl file s = (Ret tt, s1)).
  { unfold Logger.init. rewrite Hm. unfold Logger.register_logger, modify, mbind, M_bind. simpl.
    by rewrite bool_decide_false. }
  destruct (log_all_written ms s1 (spd_set_level (Logger.level_of lvl) (spd_make (Console :: file_sinks))) eq_refl)
    as (x & Hx & Hr & Hsk & Hw). exists x.
  rewrite set_level_sinks, made_sinks in Hsk. rewrite set_level_written, made_written, set_level_level in Hw.
  do 4 (split; [done|]).
  assert (Hsd : Logger.shutdown (log_all ms s1) = mkLogger None (registry s1 ∖ {["broker"%string]})).
  { unfold Logger.shutdown. by rewrite Hx, Hr. }
  rewrite Hsd. split; [done|]. split; [simpl; set_solver|]. intros ms'.
  induction ms' as [|m ms' IH]; [done|]. exact IH.
Qed.

(** A second [init] without a [shutdown] throws, and leaves the new logger in
    place without its level. *)
Theorem second_init_throws open lvl file (s : S) sinks :
  Logger.make_sinks open file = Ret sinks -> "broker"%string ∈ registry s ->
  exists e, Logger.init open lvl file s = (Throw e, mkLogger (Some (spd_make sinks)) (registry s)).
Proof.
  intros Hm Hn. unfold Logger.init. rewrite Hm. unfold Logger.register_logger, modify, mbind, M_bind. simpl.
  rewrite bool_decide_true by done. by eexists.
Qed.

(** What of [init] can fail at the start of the process. *)
Lemma init_fresh open lvl file :
  (Logger.init open lvl file (Logger.instance : S)).1 =
    match Logger.make_sinks open file with
    | Ret _ => Ret tt | Throw e => Throw e | Deadlock => Deadlock | Undefined => Undefined
    end.
Proof. unfold Logger.init. by destruct (Logger.make_sinks open file). Qed.

End Properties.

(** ** An instance, for the witnesses *)

(** Sinks, level and the messages written. *)
Definition list_log : Type := list sink * level * list (level * string).

#[local] Instance list_spdlog : Spdlog list_log := {
  spd_make sinks := (sinks, info, []);
  spd_set_level l x := (x.1.1, l, x.2);
  spd_log l t x := (x.1, x.2 ++ (if severity x.1.2 <=? severity l then [(l, t)] else []));
  spd_sinks x := x.1.1;
  spd_level x := x.1.2;
  spd_written x := x.2
}.

#[local] Instance list_spdlog_laws : SpdlogLaws list_log.
Proof. constructor; done. Qed.

Lemma logger_filters_witness :
  exists s1 x, Logger.init (L := list_log) (fun _ => Ret tt) "warn" "broker.log" Logger.instance = (Ret tt, s1) /\
    logger_ (log_all [(info, "started"%string); (err, "failed"%string)] s1) = Some x /\
    spd_written x = [(err, "failed"%string)].
Proof.
  destruct (logger_filters (L := list_log) (fun _ => Ret tt) "warn" "broker.log" Logger.instance
    [(info, "started"%string); (err, "failed"%string)]) as (s1 & x & H1 & H2 & _ & H3 & _).
  - reflexivity.
  - apply not_elem_of_empty.
  - exists s1, x. split; [exact H1|]. split; [exact H2|exact H3].
Defined.

Lemma second_init_throws_witness :
  exists e s, Logger.init (L := list_log) (fun _ => Ret tt) "info" "" (mkLogger None {["broker"%string]}) = (Throw e, s).
Proof.
  destruct (second_init_throws (L := list_log) (fun _ => Ret tt) "info" "" (mkLogger None {["broker"%string]}) [Console])
    as (e & He).
  - reflexivity.
  - apply elem_of_singleton_2. reflexivity.
  - exists e. eexists. exact He.
Defined.
