(* ===== verification/Broker.v ===== *)
(** * Start-up and shutdown ([src/broker.h], [src/broker.cpp], [src/main.cpp])

    [main] loads the configuration, [Broker::run] sets up authentication, TLS,
    signals, the listening server, the mDNS responder and the admin endpoint
    and starts the worker threads; [shutdown] takes them down.  What the
    operating system and the libraries answer on the way is collected in
    [Host]. *)

From Stdlib Require Import Strings.Byte Strings.String ZArith QArith.QArith_base Lia.
From stdpp Require Import base strings numbers option gmap fin_maps list.
From S2P Require Import Prelude Config Subscription Auth World Server Safety Mdns ConfigLoad Admin Logger.

Open Scope Z_scope.

(** ** The outside *)

(** [exception::what()]. *)
Definition what (e : exn) : string :=
  match e with
  | out_of_range s => s
  | runtime_error s => s
  | broken_connection => "broken connection"
  end.

(** The build and the answers of one start; calls that can throw are
    outcomes. *)
Record Host : Type := mkHost {
  has_libpqxx : bool;
  (** the database, for each connection the pool opens *)
  host_pg : nat -> PgEnv;
  (** [use_certificate_file], [use_private_key_file], [load_verify_file] *)
  host_certificate : string -> outcome unit;
  host_private_key : string -> outcome unit;
  host_verify_file : string -> outcome unit;
  (** [make_address], [open], [bind] and [listen] for an address and a port *)
  host_listen : string -> Z -> outcome unit;
  (** [signals_.add(SIGINT)] and [signals_.add(SIGTERM)] *)
  host_signal_add : outcome unit;
  host_name : outcome string;
  (** the mDNS socket: [open], [bind], [join_group] *)
  host_mdns : bool * bool * bool;
  (** the constructor of the [i]-th [std::thread] *)
  host_thread : nat -> outcome unit;
  (** [rotating_file_sink_mt] for a file *)
  host_log_sink : string -> outcome unit
}.

(** ** The members *)

(** The authenticator that was installed. *)
Inductive Backend : Type :=
| AllowAll
| Postgres (a : PgAuthenticator).

Record SslContext : Type := mkSsl {
  ssl_certificate : option string;
  ssl_private_key : option string;
  ssl_verify : option string
}.

(** [Server] with its acceptor. *)
Record Listener : Type := mkListener {
  listen_host : string;
  listen_port : Z;
  acceptor_open : bool;
  listen_server : Server
}.

(** A worker thread: it runs [io_.run()], or has been joined. *)
Inductive worker : Type := Working | Joined.

#[export] Instance worker_eq_dec : EqDecision worker.
Proof. solve_decision. Defined.

Record Broker (J : Type) : Type := mkBroker {
  config_ : ConfigObject J;
  auth_ : option Backend;
  ssl_ctx_ : option SslContext;
  ctx_ : BrokerContext;
  server_ : option Listener;
  mdns_ : option MdnsResponder;
  admin_ : option AdminServer;
  (** [signals_.async_wait] is outstanding *)
  signal_wait : bool;
  threads_ : list worker;
  broker_running_ : bool;
  io_stopped : bool
}.
Arguments mkBroker {J}.
Arguments config_ {J}.
Arguments auth_ {J}.
Arguments ssl_ctx_ {J}.
Arguments ctx_ {J}.
Arguments server_ {J}.
Arguments mdns_ {J}.
Arguments admin_ {J}.
Arguments signal_wait {J}.
Arguments threads_ {J}.
Arguments broker_running_ {J}.
Arguments io_stopped {J}.

(** ** [Server]: its constructor, [start] and [stop] ([src/server.cpp]) *)

Module Listener.

Definition init (listening : outcome unit) (host : string) (port max_connections : Z) : outcome Listener :=
  match listening with
  | Ret _ => Ret (mkListener host port true (mkServer 0 max_connections false 0))
  | Throw e => Throw e
  | Deadlock => Deadlock
  | Undefined => Undefined
  end.

(** [do_accept]. *)
Definition start (l : Listener) : Listener :=
  mkListener (listen_host l) (listen_port l) (acceptor_open l)
    (mkServer (active_connections_ (listen_server l)) (max_connections_ (listen_server l)) true
       (created (listen_server l))).

Definition stop (l : Listener) : Listener :=
  mkListener (listen_host l) (listen_port l) false (listen_server l).

End Listener.

(** ** [Broker] *)

Module Broker.

Section Members.

Context {J : Type} `{Json J} (h : Host).
Abbreviation B := (Broker J).

Definition init (c : ConfigObject J) : B :=
  mkBroker c None None (mkContext false false false false false false false) None None None false []
    false false.

Definition put_auth (x : Backend) (b : B) : B :=
  mkBroker (config_ b) (Some x) (ssl_ctx_ b) (ctx_ b) (server_ b) (mdns_ b) (admin_ b)
    (signal_wait b) (threads_ b) (broker_running_ b) (io_stopped b).
Definition put_ssl (x : option SslContext) (b : B) : B :=
  mkBroker (config_ b) (auth_ b) x (ctx_ b) (server_ b) (mdns_ b) (admin_ b)
    (signal_wait b) (threads_ b) (broker_running_ b) (io_stopped b).
Definition put_ctx (x : BrokerContext) (b : B) : B :=
  mkBroker (config_ b) (auth_ b) (ssl_ctx_ b) x (server_ b) (mdns_ b) (admin_ b)
    (signal_wait b) (threads_ b) (broker_running_ b) (io_stopped b).
Definition put_server (x : option Listener) (b : B) : B :=
  mkBroker (config_ b) (auth_ b) (ssl_ctx_ b) (ctx_ b) x (mdns_ b) (admin_ b)
    (signal_wait b) (threads_ b) (broker_running_ b) (io_stopped b).
Definition put_mdns (x : option MdnsResponder) (b : B) : B :=
  mkBroker (config_ b) (auth_ b) (ssl_ctx_ b) (ctx_ b) (server_ b) x (admin_ b)
    (signal_wait b) (threads_ b) (broker_running_ b) (io_stopped b).
Definition put_admin (x : option AdminServer) (b : B) : B :=
  mkBroker (config_ b) (auth_ b) (ssl_ctx_ b) (ctx_ b) (server_ b) (mdns_ b) x
    (signal_wait b) (threads_ b) (broker_running_ b) (io_stopped b).
Definition put_signal (x : bool) (b : B) : B :=
  mkBroker (config_ b) (auth_ b) (ssl_ctx_ b) (ctx_ b) (server_ b) (mdns_ b) (admin_ b)
    x (threads_ b) (broker_running_ b) (io_stopped b).
Definition put_threads (x : list worker) (b : B) : B :=
  mkBroker (config_ b) (auth_ b) (ssl_ctx_ b) (ctx_ b) (server_ b) (mdns_ b) (admin_ b)
    (signal_wait b) x (broker_running_ b) (io_stopped b).
Definition put_running (x : bool) (b : B) : B :=
  mkBroker (config_ b) (auth_ b) (ssl_ctx_ b) (ctx_ b) (server_ b) (mdns_ b) (admin_ b)
    (signal_wait b) (threads_ b) x (io_stopped b).
Definition put_stopped (x : bool) (b : B) : B :=
  mkBroker (config_ b) (auth_ b) (ssl_ctx_ b) (ctx_ b) (server_ b) (mdns_ b) (admin_ b)
    (signal_wait b) (threads_ b) (broker_running_ b) x.

(** A getter of [config_], and a call of the outside. *)
Definition config {X} (g : M (ConfigObject J) X) : M B X := fun b => ((g (config_ b)).1, b).
Definition call {X} (o : outcome X) : M B X := fun b => (o, b).

Definition setup_auth : M B unit :=
  backend ← config Config.auth_backend;
  if String.eqb backend "allow_all" then modify (put_auth AllowAll)
  else if String.eqb backend "postgres" then
    if has_libpqxx h then
      try_catch (
        _ ← config Config.pg_connection_string;
        pool_size ← config Config.pg_pool_size;
        ttl ← config Config.acl_cache_ttl;
        a ← call (PgAuthenticator.init (host_pg h) pool_size ttl);
        modify (put_auth (Postgres a)))
        (fun e => throw (runtime_error ("Auth backend 'postgres' unavailable: " ++ what e)))
    else
      throw (runtime_error ("Auth backend 'postgres' requested but libpqxx not available. " ++
                            "Recompile with libpqxx or set auth.backend to 'allow_all'."))
  else
    let available := if has_libpqxx h then "allow_all, postgres"%string else "allow_all"%string in
    throw (runtime_error ("Unknown auth backend: '" ++ backend ++ "'. Available: " ++ available)).

Definition setup_tls : M B unit :=
  tls ← config Config.tls_enabled;
  if negb tls then mret tt else
  try_catch (
    modify (put_ssl (Some (mkSsl None None None)));;
    cert ← config Config.tls_cert_file;
    call (host_certificate h cert);;
    modify (put_ssl (Some (mkSsl (Some cert) None None)));;
    key ← config Config.tls_key_file;
    call (host_private_key h key);;
    modify (put_ssl (Some (mkSsl (Some cert) (Some key) None)));;
    ca ← config Config.tls_ca_file;
    if String.eqb ca "" then mret tt
    else
      call (host_verify_file h ca);;
      modify (put_ssl (Some (mkSsl (Some cert) (Some key) (Some ca)))))
    (fun e => throw (runtime_error ("TLS setup failed: " ++ what e))).

(** The members are objects, so their addresses are never null; [auth_] and
    [ssl_ctx_] may be empty. *)
Definition update_context : M B unit :=
  modify (fun b => put_ctx (mkContext true true (bool_decide (is_Some (auth_ b))) true true
                              (bool_decide (is_Some (ssl_ctx_ b))) true) b).

Definition setup_signals : M B unit := call (host_signal_add h);; modify (put_signal true).

Definition start_server : M B unit :=
  host ← config Config.host;
  port ← config Config.port;
  max ← config Config.max_connections;
  l ← call (Listener.init (host_listen h host port) host port max);
  modify (put_server (Some (Listener.start l))).

Definition start_mdns : M B unit :=
  enabled ← config Config.mdns_enabled;
  if negb enabled then mret tt else
  hostname ← call (host_name h);
  ip ← config Config.host;
  let ip := if String.eqb ip "0.0.0.0" then "127.0.0.1"%string else ip in
  port ← config Config.port;
  let '(open_ok, bind_ok, join_ok) := host_mdns h in
  modify (put_mdns (Some (MdnsResponder.start open_ok bind_ok join_ok
                            (MdnsResponder.init port hostname ip)).2)).

Definition start_admin : M B unit :=
  enabled ← config Config.admin_enabled;
  if negb enabled then mret tt else
  tls ← config Config.admin_tls_enabled;
  b ← get;
  let admin_ssl := if tls : bool then bool_decide (is_Some (ssl_ctx_ b)) else false in
  host ← config Config.host;
  port ← config Config.admin_port;
  a ← call (AdminServer.init (host_listen h host port) admin_ssl);
  modify (put_admin (Some (adm (AdminServer.start (mkAdminWorld a tt)).2))).

(** [for (int i = 0; i < pool_size; ++i) threads_.emplace_back(...)]. *)
Definition start_workers : M B unit :=
  pool_size ← config Config.thread_pool_size;
  for_each (seq 0 (Z.to_nat pool_size)) (fun i =>
    call (host_thread h i);; modify (fun b => put_threads (threads_ b ++ [Working]) b)).

(** [run] up to the loop that joins the workers, in which it stays until
    [io_.run()] returns. *)
Definition run : M B unit :=
  setup_auth;;
  setup_tls;;
  update_context;;
  setup_signals;;
  start_server;;
  start_mdns;;
  start_admin;;
  modify (put_running true);;
  start_workers.

(** *** Shutdown *)

(** [std::thread::join] on the [i]-th worker: [self] is the worker that calls it,
    if it is one, and [joining] the worker another thread waits for.  A thread
    that joins itself gets [resource_deadlock_would_occur]; two joins of one
    thread race; otherwise the call waits for [io_.run()] to return. *)
Definition join (self joining : option nat) (i : nat) : M B unit :=
  b ← get;
  match threads_ b !! i with
  | Some Working =>
      if decide (self = Some i) then throw (runtime_error "Resource deadlock avoided")
      else if decide (joining = Some i) then undefined
      else modify (put_threads (<[i := Joined]> (threads_ b)))
  | _ => mret tt
  end.

(** [mdns_->stop(); mdns_.reset();] and the same for [admin_]: the object is
    stopped and destroyed. *)
Definition stop_mdns : M B unit :=
  b ← get;
  match mdns_ b with
  | None => mret tt
  | Some m => modify (put_mdns (Some (MdnsResponder.stop m).2));; modify (put_mdns None)
  end.

Definition stop_admin : M B unit :=
  b ← get;
  match admin_ b with
  | None => mret tt
  | Some a =>
      modify (put_admin (Some (adm (AdminServer.stop (mkAdminWorld a tt)).2)));; modify (put_admin None)
  end.

Definition stop_server : M B unit := modify (fun b => put_server (Listener.stop <$> server_ b) b).

Definition stop_io : M B unit := modify (put_stopped true).

(** [shutdown] in the thread [self]; [joining] is the worker that [run] waits
    for in the main thread, if it does. *)
Definition shutdown (self joining : option nat) : M B unit :=
  b ← get;
  if negb (broker_running_ b) then mret tt else
  modify (put_running false);;
  stop_mdns;;
  stop_admin;;
  stop_server;;
  stop_io;;
  for_each (seq 0 (length (threads_ b))) (join self joining).

(** The handler of SIGINT and SIGTERM, on the worker [k]; [run] waits for the
    first worker it has not joined. *)
Definition waits_for (b : B) : option nat := fst <$> list_find (fun t => t = Working) (threads_ b).

Definition signal_handler (ec : bool) (k : nat) : M B unit :=
  modify (put_signal false);;
  if ec then mret tt
  else b ← get; shutdown (Some k) (waits_for b).

End Members.

End Broker.

(** ** [main] *)

(** The process ends with an exit code, or [run] waits for the workers. *)
Inductive main_result (J : Type) : Type :=
| Exited (code : Z)
| Serving (b : Broker J).
Arguments Exited {J}.
Arguments Serving {J}.

Section Main.

Context {J L : Type} `{Json J} `{Spdlog L} (h : Host).

(** [Broker broker; broker.run();]: an exception runs the destructor. *)
Definition run_broker (c : ConfigObject J) : outcome (Broker J) :=
  match Broker.run h (Broker.init c) with
  | (Ret _, b) => Ret b
  | (Throw e, b) =>
      match (Broker.shutdown None None b).1 with
      | Ret _ => Throw e
      | _ => Undefined
      end
  | (Deadlock, _) => Deadlock
  | (Undefined, _) => Undefined
  end.

(** The body of the [try] block. *)
Definition main_body (config_path : string) (file : string -> option (outcome unit * J))
  : M (ConfigObject J) (Broker J) :=
  Config.load config_path (file config_path);;
  level ← Config.log_level;
  log ← Config.log_file;
  Config.lift (Logger.init (host_log_sink h) level log (Logger.instance (L := L))).1;;
  c ← get;
  Config.lift (run_broker c).

(** [arg] is [argv[1]], [exists_] the file system and [file] the reading of a
    file. *)
Definition main (arg : option string) (exists_ : string -> bool)
    (file : string -> option (outcome unit * J)) : outcome (main_result J) :=
  let config_path := default "config/broker.json"%string arg in
  if negb (exists_ config_path) then Ret (Exited 1)
  else
    match (main_body config_path file Config.init).1 with
    | Ret b => Ret (Serving b)
    | Throw _ => Ret (Exited 1)
    | Deadlock => Deadlock
    | Undefined => Undefined
    end.

End Main.

(** ** What a started broker has *)

Section Started.

Context {J : Type} `{Json J} (h : Host).
Abbreviation B := (Broker J).

Lemma config_ret {X} (g : M (ConfigObject J) X) (b b' : B) x :
  Broker.config g b = (Ret x, b') -> returns g (config_ b) x /\ b' = b.
Proof. unfold Broker.config, returns. intros Hr. injection Hr as -> ->. done. Qed.

Lemma call_ret {X} (o : outcome X) (b b' : B) x : Broker.call o b = (Ret x, b') -> o = Ret x /\ b' = b.
Proof. unfold Broker.call. intros Hr. injection Hr as -> ->. done. Qed.

Lemma rethrow_ret {S X} (m : M S X) (f : exn -> exn) s x s' :
  try_catch m (fun e => throw (f e)) s = (Ret x, s') -> m s = (Ret x, s').
Proof. unfold try_catch, throw. by destruct (m s) as [[] ?]. Qed.

(** The authenticator is the one that was asked for. *)
Definition backend_ok (c : ConfigObject J) (x : Backend) : Prop :=
  match x with
  | AllowAll => returns Config.auth_backend c "allow_all"%string
  | Postgres a =>
      returns Config.auth_backend c "postgres"%string /\ has_libpqxx h = true /\
      exists pool ttl, returns Config.pg_pool_size c pool /\ returns Config.acl_cache_ttl c ttl /\
        PgAuthenticator.init (host_pg h) pool ttl = Ret a
  end.

(** TLS is set up with the files that were configured, all of them loaded, or
    it is off. *)
Definition tls_ok (c : ConfigObject J) (x : option SslContext) : Prop :=
  match x with
  | None => returns Config.tls_enabled c false
  | Some ssl =>
      returns Config.tls_enabled c true /\
      exists cert key ca, returns Config.tls_cert_file c cert /\ returns Config.tls_key_file c key /\
        returns Config.tls_ca_file c ca /\
        host_certificate h cert = Ret tt /\ host_private_key h key = Ret tt /\
        (ca = ""%string \/ host_verify_file h ca = Ret tt) /\
        ssl = mkSsl (Some cert) (Some key) (if String.eqb ca "" then None else Some ca)
  end.

Lemma modify_ret (f : B -> B) (b b' : B) x : modify f b = (Ret x, b') -> x = tt /\ b' = f b.
Proof. intros Hr. injection Hr as <- <-. done. Qed.

(** The first computation of a sequence that returned. *)
Tactic Notation "first_of" hyp(H) "as" ident(x) ident(E) :=
  let b := fresh "b" in
  apply bind_ret_inv in H as (x & b & E & H);
  first [apply config_ret in E as [E ->] | apply call_ret in E as [E ->]
        | apply modify_ret in E as [-> ->] | idtac].

Lemma setup_auth_ret (b b' : B) :
  Broker.setup_auth h b = (Ret tt, b') ->
  exists x, b' = Broker.put_auth x b /\ backend_ok (config_ b) x.
Proof.
  unfold Broker.setup_auth. intros Hr. first_of Hr as backend Eb.
  destruct (String.eqb_spec backend "allow_all") as [->|].
  { injection Hr as <-. exists AllowAll. by split. }
  destruct (String.eqb_spec backend "postgres") as [->|]; [|done].
  destruct (has_libpqxx h) eqn:Hh; [|done].
  apply (rethrow_ret _ (fun e => runtime_error _)) in Hr.
  first_of Hr as s Es. first_of Hr as pool Ep. first_of Hr as ttl Et. first_of Hr as a Ea.
  injection Hr as <-. exists (Postgres a). split; [done|]. cbn. eauto 10.
Qed.

Lemma setup_tls_ret (b b' : B) :
  ssl_ctx_ b = None -> Broker.setup_tls h b = (Ret tt, b') ->
  exists x, b' = Broker.put_ssl x b /\ tls_ok (config_ b) x.
Proof.
  unfold Broker.setup_tls. intros Hn Hr. first_of Hr as tls Et. destruct tls; cbn [negb] in Hr.
  2: { injection Hr as <-. exists None. split; [|done]. destruct b. simpl in Hn. by subst. }
  apply (rethrow_ret _ (fun e => runtime_error _)) in Hr. first_of Hr as u0 E0.
  first_of Hr as cert Ec. first_of Hr as u1 Hc. first_of Hr as u2 E2.
  first_of Hr as key Ek. first_of Hr as u3 Hk. first_of Hr as u4 E4.
  first_of Hr as ca Eca. destruct u1, u3.
  assert (Hok : exists v, b' = Broker.put_ssl (Some (mkSsl (Some cert) (Some key) v)) b /\
    (ca = ""%string \/ host_verify_file h ca = Ret tt) /\ v = if String.eqb ca "" then None else Some ca).
  { destruct (String.eqb_spec ca "") as [->|Hca].
    - injection Hr as <-. exists None. eauto.
    - first_of Hr as u5 Hv. injection Hr as <-. destruct u5. exists (Some ca). eauto. }
  destruct Hok as (v & -> & Hca & ->). eexists. split; [reflexivity|]. split; [done|].
  exists cert, key, ca. eauto 10.
Qed.

Lemma start_workers_ret (b b' : B) :
  Broker.start_workers h b = (Ret tt, b') ->
  exists n, returns Config.thread_pool_size (config_ b) n /\
    b' = Broker.put_threads (threads_ b ++ replicate (Z.to_nat n) Working) b.
Proof.
  unfold Broker.start_workers. intros Hr. first_of Hr as n En. exists n. split; [done|]. clear En.
  revert b Hr. generalize 0%nat as k. induction (Z.to_nat n) as [|m IH]; intros k b Hr; cbn [seq for_each] in Hr.
  - injection Hr as <-. rewrite app_nil_r. by destruct b.
  - first_of Hr as u Hu. apply bind_ret_inv in Hu as (u0 & b1 & E1 & E2).
    apply call_ret in E1 as [_ ->]. apply modify_ret in E2 as [-> ->].
    apply IH in Hr. rewrite Hr. simpl. by rewrite <- app_assoc.
Qed.

(** The responder of an enabled mDNS: the port that is listened on, the name of
    the machine, and the configured address, 0.0.0.0 replaced by 127.0.0.1. *)
Definition mdns_ok (c : ConfigObject J) (x : option MdnsResponder) : Prop :=
  match x with
  | None => returns Config.mdns_enabled c false
  | Some m =>
      returns Config.mdns_enabled c true /\
      exists name ip port, host_name h = Ret name /\ returns Config.host c ip /\
        returns Config.port c port /\
        m = (MdnsResponder.start (host_mdns h).1.1 (host_mdns h).1.2 (host_mdns h).2
               (MdnsResponder.init port name (if String.eqb ip "0.0.0.0" then "127.0.0.1" else ip))).2
  end.

(** The endpoint of an enabled admin interface: it speaks TLS if that was asked
    for and the broker itself has TLS. *)
Definition admin_ok (c : ConfigObject J) (tls : bool) (x : option AdminServer) : Prop :=
  match x with
  | None => returns Config.admin_enabled c false
  | Some a =>
      returns Config.admin_enabled c true /\
      exists wanted host port, returns Config.admin_tls_enabled c wanted /\
        returns Config.host c host /\ returns Config.admin_port c port /\
        host_listen h host port = Ret tt /\ a = mkAdmin true (wanted && tls) true true ∅
  end.

Lemma start_mdns_ret (b b' : B) :
  mdns_ b = None -> Broker.start_mdns h b = (Ret tt, b') ->
  exists x, b' = Broker.put_mdns x b /\ mdns_ok (config_ b) x.
Proof.
  unfold Broker.start_mdns. intros Hn Hr. first_of Hr as en Een. destruct en; cbn [negb] in Hr.
  - first_of Hr as name En. first_of Hr as ip Ei. first_of Hr as port Ep.
    destruct (host_mdns h) as [[o bd] jn] eqn:Hm. injection Hr as <-. eexists.
    split; [reflexivity|]. split; [done|]. exists name, ip, port. rewrite Hm. by repeat (split; [done|]).
  - injection Hr as <-. exists None. split; [|done]. destruct b. simpl in Hn. by subst.
Qed.

Lemma init_listen (o : outcome unit) t a : AdminServer.init o t = Ret a -> o = Ret tt /\ a = mkAdmin false t true false ∅.
Proof. destruct o as [[]| | |]; try done. intros Hi. by injection Hi as <-. Qed.

Lemma start_admin_ret (b b' : B) :
  admin_ b = None -> Broker.start_admin h b = (Ret tt, b') ->
  exists x, b' = Broker.put_admin x b /\
    admin_ok (config_ b) (bool_decide (is_Some (ssl_ctx_ b))) x.
Proof.
  unfold Broker.start_admin. intros Hn Hr. first_of Hr as en Een. destruct en; cbn [negb] in Hr.
  - first_of Hr as tls Et. apply bind_ret_inv in Hr as (b0 & b1 & E0 & Hr). injection E0 as <- <-.
    first_of Hr as host Eh. first_of Hr as port Ep. first_of Hr as a Ea. apply init_listen in Ea as [El ->].
    injection Hr as <-. eexists. split; [reflexivity|]. split; [done|]. exists tls, host, port.
    repeat (split; [done|]). by destruct tls.
  - injection Hr as <-. exists None. split; [|done]. destruct b. simpl in Hn. by subst.
Qed.

Lemma start_server_ret (b b' : B) :
  Broker.start_server h b = (Ret tt, b') ->
  exists host port max, returns Config.host (config_ b) host /\ returns Config.port (config_ b) port /\
    returns Config.max_connections (config_ b) max /\ host_listen h host port = Ret tt /\
    b' = Broker.put_server (Some (mkListener host port true (mkServer 0 max true 0))) b.
Proof.
  unfold Broker.start_server. intros Hr. first_of Hr as host Eh. first_of Hr as port Ep.
  first_of Hr as max Em. first_of Hr as l El. injection Hr as <-. unfold Listener.init in El.
  destruct (host_listen h host port) as [[]| | |] eqn:Hl; try done. injection El as <-.
  exists host, port, max. by repeat (split; [done|]).
Qed.

(** A broker whose [run] waits for its workers. *)
Record started (b : B) : Prop := {
  st_auth : exists x, auth_ b = Some x /\ backend_ok (config_ b) x;
  st_tls : tls_ok (config_ b) (ssl_ctx_ b);
  st_ctx : ctx_ b = mkContext true true true true true (bool_decide (is_Some (ssl_ctx_ b))) true;
  st_server : exists host port max, returns Config.host (config_ b) host /\
    returns Config.port (config_ b) port /\ returns Config.max_connections (config_ b) max /\
    host_listen h host port = Ret tt /\
    server_ b = Some (mkListener host port true (mkServer 0 max true 0));
  st_mdns : mdns_ok (config_ b) (mdns_ b);
  st_admin : admin_ok (config_ b) (bool_decide (is_Some (ssl_ctx_ b))) (admin_ b);
  st_workers : exists n, returns Config.thread_pool_size (config_ b) n /\
    threads_ b = replicate (Z.to_nat n) Working;
  st_running : broker_running_ b = true /\ signal_wait b = true /\ io_stopped b = false
}.

Lemma run_started (c : ConfigObject J) (b : B) :
  Broker.run h (Broker.init c) = (Ret tt, b) -> config_ b = c /\ started b.
Proof.
  unfold Broker.run. intros Hr.
  apply bind_ret_inv in Hr as ([] & b1 & E1 & Hr). apply setup_auth_ret in E1 as (x & -> & Hx).
  apply bind_ret_inv in Hr as ([] & b2 & E2 & Hr). apply setup_tls_ret in E2 as (ssl & -> & Ht); [|done].
  apply bind_ret_inv in Hr as ([] & b3 & E3 & Hr). apply modify_ret in E3 as [_ ->].
  apply bind_ret_inv in Hr as ([] & b4 & E4 & Hr). unfold Broker.setup_signals in E4.
  first_of E4 as u Es. apply modify_ret in E4 as [_ ->].
  apply bind_ret_inv in Hr as ([] & b5 & E5 & Hr).
  apply start_server_ret in E5 as (host & port & max & Eh & Ep & Em & El & ->).
  apply bind_ret_inv in Hr as ([] & b6 & E6 & Hr). apply start_mdns_ret in E6 as (md & -> & Hm); [|done].
  apply bind_ret_inv in Hr as ([] & b7 & E7 & Hr). apply start_admin_ret in E7 as (ad & -> & Ha); [|done].
  apply bind_ret_inv in Hr as ([] & b8 & E8 & Hr). apply modify_ret in E8 as [_ ->].
  apply start_workers_ret in Hr as (n & En & ->). simpl in *.
  split; [done|]. constructor; simpl; eauto 10.
Qed.

End Started.

(** ** Starting *)

Section Starting.

Context {J L : Type} `{Json J} `{Spdlog L} (h : Host).
Abbreviation B := (Broker J).

Lemma run_broker_ret (c : ConfigObject J) b :
  run_broker h c = Ret b -> Broker.run h (Broker.init c) = (Ret tt, b).
Proof.
  unfold run_broker. destruct (Broker.run _ _) as [[[]|e| |] b1]; [|by destruct (_.1)|done..].
  intros Hr. by injection Hr as ->.
Qed.

(** [C17] The broker starts as configured or not at all: when [main] gets to the
    point where it serves, the file was there, its settings are sound, the
    authenticator is the one the file names (a database only if its connections
    were opened) and the sessions' context points to it, TLS is on with the
    certificate and key of the file exactly if the file enables it, and the
    server listens on the configured address with the configured limit. *)
Theorem start_fail_closed arg exists_ file (b : B) :
  main (L := L) h arg exists_ file = Ret (Serving b) ->
  let path := default "config/broker.json"%string arg in
  exists_ path = true /\
  (exists j, file path = Some (Ret tt, j) /\ config_ b = mkConfigObject j "") /\
  sound (config_ b) /\ started h b /\ ctx_auth (ctx_ b) = true.
Proof.
  intros Hm path. unfold main in Hm. fold path in Hm. destruct (exists_ path); [|done]. cbn [negb] in Hm.
  split; [done|]. destruct (main_body (L := L) h path file Config.init) as [[b1|e| |] c1] eqn:Hb; try done. simpl in Hm.
  injection Hm as ->.
  apply bind_ret_inv in Hb as ([] & c & Hl & Hb). apply load_iff in Hl as (j & Hf & -> & Hs).
  apply bind_ret_inv in Hb as (lv & c2 & E2 & Hb). apply (pure_ret_inv Config.log_level) in E2 as [_ ->];
    [|eauto with getters].
  apply bind_ret_inv in Hb as (lf & c3 & E3 & Hb). apply (pure_ret_inv Config.log_file) in E3 as [_ ->];
    [|eauto with getters].
  apply bind_ret_inv in Hb as (u & c4 & E4 & Hb). injection E4 as _ <-.
  apply bind_ret_inv in Hb as (c5 & c6 & E5 & Hb).
  injection E5 as <- <-. injection Hb as Hb _. apply run_broker_ret, run_started in Hb as [Hc Hst].
  rewrite Hc. split; [by exists j|]. split; [exact Hs|]. split; [exact Hst|].
  by rewrite (st_ctx _ _ Hst).
Qed.

(** [C39] Shutting down on a signal never completes: in a started broker the
    handler of SIGINT and SIGTERM stops the server and the event loop and then
    joins the workers from one of them.  On the first worker it throws, out of
    the thread's function; on any other it joins a thread that the main thread
    is already joining.  It never returns. *)
Theorem signal_shutdown_fails (b : B) (k : nat) :
  started h b -> (k < length (threads_ b))%nat ->
  let r := Broker.signal_handler false k b in
  r.1 = (if decide (k = 0%nat) then Throw (runtime_error "Resource deadlock avoided") else Undefined) /\
  io_stopped r.2 = true /\ broker_running_ r.2 = false /\ admin_ r.2 = None /\ mdns_ r.2 = None /\
  (acceptor_open <$> server_ r.2) = Some false.
Proof.
  intros [_ _ _ (host & port & max & _ & _ & _ & _ & Hsv) _ _ (n & _ & Hth) (Hrun & _ & _)] Hk.
  rewrite Hth in Hk. rewrite length_replicate in Hk.
  destruct b as [c au ssl ctx sv md ad sig th run st]. simpl in Hth, Hrun, Hsv. subst.
  destruct (Z.to_nat n) as [|m]; [lia|].
  unfold Broker.signal_handler, mbind, M_bind, modify, get. cbv beta iota zeta.
  unfold Broker.shutdown, mbind, M_bind, get, modify. simpl.
  unfold Broker.stop_mdns, Broker.stop_admin, Broker.stop_server, Broker.stop_io, mbind, M_bind, get, modify.
  destruct md, ad; simpl; unfold Broker.join, mbind, M_bind, get; simpl;
    (destruct k as [|k]; simpl; [by repeat split|by repeat split]).
Qed.

(** TLS on the admin port is dropped silently: a file that enables TLS for
    the admin endpoint but not for the broker is accepted, and the endpoint
    listens without TLS. *)
Theorem admin_tls_dropped (b : B) :
  started h b -> returns Config.admin_enabled (config_ b) true ->
  returns Config.admin_tls_enabled (config_ b) true -> returns Config.tls_enabled (config_ b) false ->
  exists a, admin_ b = Some a /\ admin_running_ a = true /\ admin_ssl_ctx_ a = false.
Proof.
  intros Hst Hen Hw Ht. pose proof (st_tls _ _ Hst) as Htls. pose proof (st_admin _ _ Hst) as Had.
  unfold tls_ok in Htls. destruct (ssl_ctx_ b) as [ssl|]; [destruct Htls as [Ht' _]; unfold returns in *; congruence|].
  unfold admin_ok in Had. destruct (admin_ b) as [a|]; [|unfold returns in *; congruence].
  destruct Had as (_ & wanted & host & port & Hw' & _ & _ & _ & ->).
  eexists. split; [reflexivity|]. simpl. by rewrite andb_false_r.
Qed.

(** The announced address: with the default address 0.0.0.0 the responder
    announces 127.0.0.1 as the address of the broker, whatever the addresses
    of the machine are. *)
Theorem mdns_announces_loopback parse_v4 (b : B) m :
  started h b -> mdns_ b = Some m -> returns Config.host (config_ b) "0.0.0.0"%string ->
  parse_v4 "127.0.0.1"%string = Some (Byte.x7f, Byte.x00, Byte.x00, Byte.x01) ->
  MdnsResponder.ip_bytes parse_v4 m = [Byte.x7f; Byte.x00; Byte.x00; Byte.x01].
Proof.
  intros Hst Hm Hh Hp. pose proof (st_mdns _ _ Hst) as Hok. rewrite Hm in Hok.
  destruct Hok as (_ & name & ip & port & _ & Hip & _ & ->).
  assert (ip = "0.0.0.0"%string) as -> by (unfold returns in *; congruence).
  unfold MdnsResponder.ip_bytes.
  replace (ip_ _) with "127.0.0.1"%string; [by rewrite Hp|].
  destruct (host_mdns h) as [[[] []] []]; done.
Qed.

End Starting.

(** ** The default start, and the broker that serves *)

Section Serving.

Context {J L : Type} `{JsonLaws J} `{Spdlog L} (h : Host).
Abbreviation B := (Broker J).

Lemma config_default {X} (g : M (ConfigObject J) X) (b : B) x c' :
  config_ b = Config.init -> g Config.init = (Ret x, c') -> Broker.config g b = (Ret x, b).
Proof. intros Hc Hg. unfold Broker.config. by rewrite Hc, Hg. Qed.

Lemma start_workers_spawned (n : Z) (b : B) :
  (forall i, host_thread h i = Ret tt) ->
  for_each (seq 0 (Z.to_nat n)) (fun i =>
    Broker.call (host_thread h i);; modify (fun b => Broker.put_threads (threads_ b ++ [Working]) b)) b =
  (Ret tt, Broker.put_threads (threads_ b ++ replicate (Z.to_nat n) Working) b).
Proof.
  intros Ht. generalize 0%nat as k. revert b. induction (Z.to_nat n) as [|m IH]; intros b k; cbn [seq for_each].
  - rewrite app_nil_r. by destruct b.
  - unfold mbind at 1, M_bind at 1. unfold Broker.call. rewrite Ht. simpl. rewrite IH. simpl.
    by rewrite <- app_assoc.
Qed.

Section Defaults.

Context (b : B) (Hb : config_ b = Config.init).

Lemma default_auth : Broker.setup_auth h b = (Ret tt, Broker.put_auth AllowAll b).
Proof using Hb H0.
  unfold Broker.setup_auth.
  erewrite bind_returned by (eapply config_default; [exact Hb|apply (string_default "backend" "allow_all" "auth")]).
  done.
Qed.

Lemma default_tls : Broker.setup_tls h b = (Ret tt, b).
Proof using Hb H0.
  unfold Broker.setup_tls.
  erewrite bind_returned by (eapply config_default; [exact Hb|apply (bool_default "enabled" false "tls")]).
  done.
Qed.

Lemma default_mdns : Broker.start_mdns h b = (Ret tt, b).
Proof using Hb H0.
  unfold Broker.start_mdns.
  erewrite bind_returned by (eapply config_default; [exact Hb|apply (bool_default "enabled" false "mdns")]).
  done.
Qed.

Lemma default_admin : Broker.start_admin h b = (Ret tt, b).
Proof using Hb H0.
  unfold Broker.start_admin.
  erewrite bind_returned by (eapply config_default; [exact Hb|apply (bool_default "enabled" false "admin")]).
  done.
Qed.

Lemma default_server :
  host_listen h "0.0.0.0" 1883 = Ret tt ->
  Broker.start_server h b =
    (Ret tt, Broker.put_server (Some (mkListener "0.0.0.0" 1883 true (mkServer 0 100000 true 0))) b).
Proof using Hb H0.
  intros Hl. unfold Broker.start_server.
  erewrite bind_returned by (eapply config_default; [exact Hb|apply (string_default "host" "0.0.0.0" "broker")]).
  erewrite bind_returned by (eapply config_default; [exact Hb|apply (narrowed_default u16 "port" 1883 "broker")]).
  erewrite bind_returned by (eapply config_default; [exact Hb|apply (int_default "max_connections" 100000 "broker")]).
  change (u16 1883) with 1883. by rewrite Hl.
Qed.

Lemma default_workers :
  (forall i, host_thread h i = Ret tt) ->
  Broker.start_workers h b = (Ret tt, Broker.put_threads (threads_ b ++ replicate 4 Working) b).
Proof using Hb H0.
  intros Ht. unfold Broker.start_workers.
  erewrite bind_returned by (eapply config_default; [exact Hb|apply (narrowed_default _ "thread_pool_size" 4 "broker")]).
  by rewrite (start_workers_spawned _ b Ht).
Qed.

End Defaults.

(** An empty file starts an open broker: with no [auth] section, on a
    machine where port 1883 can be listened on, the broker starts with four
    workers and without TLS, and lets everybody in. *)
Theorem default_start arg exists_ file :
  let path := default "config/broker.json"%string arg in
  exists_ path = true -> file path = Some (Ret tt, json_object) ->
  host_listen h "0.0.0.0" 1883 = Ret tt -> host_signal_add h = Ret tt ->
  (forall i, host_thread h i = Ret tt) ->
  exists b : B, main (L := L) h arg exists_ file = Ret (Serving b) /\
    auth_ b = Some AllowAll /\ ssl_ctx_ b = None /\ mdns_ b = None /\ admin_ b = None /\
    server_ b = Some (mkListener "0.0.0.0" 1883 true (mkServer 0 100000 true 0)) /\
    threads_ b = replicate 4 Working.
Proof.
  intros path He Hf Hl Hs Ht. unfold main. fold path. rewrite He. cbn [negb]. unfold main_body.
  rewrite Hf.
  erewrite bind_returned by (apply load_iff; exists json_object; split; [done|]; split;
    [reflexivity|exact sound_init]).
  erewrite bind_returned by (apply (string_default "level" "info" "logging")).
  erewrite bind_returned by (apply (string_default "file" "" "logging")).
  erewrite bind_returned by reflexivity. erewrite bind_returned by reflexivity.
  unfold Config.lift, run_broker, Broker.run.
  erewrite bind_returned by (by apply default_auth). erewrite bind_returned by (by apply default_tls).
  erewrite bind_returned by reflexivity.
  erewrite bind_returned by (unfold Broker.setup_signals, Broker.call, mbind, M_bind; by rewrite Hs).
  erewrite bind_returned by (by apply default_server). erewrite bind_returned by (by apply default_mdns).
  erewrite bind_returned by (by apply default_admin). erewrite bind_returned by reflexivity.
  rewrite default_workers by done. eexists. split; [reflexivity|]. done.
Qed.

(** The settings a serving broker has read: the range of [int] is given by
    their type, so [settings_ok] comes down to the keepalive multiplier, which
    nothing checks, and to a limit per address that is not the largest [int]. *)
Lemma serving_settings (b : B) cfg c' :
  Config.settings (config_ b) = (Ret cfg, c') ->
  Z.abs (Qnum (keepalive_multiplier cfg)) * 65535 < 2 ^ 31 * Zpos (Qden (keepalive_multiplier cfg)) ->
  max_connections_per_ip cfg <> 2 ^ 31 - 1 ->
  max_write_queue_size cfg < 2 ^ 31 /\ settings_ok cfg.
Proof.
  intros Hs Hk Hn. pose proof (settings_typed _ _ _ Hs) as Ht. split; [apply Ht|].
  pose proof (typed_per_ip _ Ht) as [_ Hp]. constructor; [done|apply Ht|lia].
Qed.

End Serving.

(** ** Concrete starts *)

Definition demo_machine : Host := {|
  has_libpqxx := false;
  host_pg := fun _ => demo_env true;
  host_certificate := fun _ => Ret tt;
  host_private_key := fun _ => Ret tt;
  host_verify_file := fun _ => Ret tt;
  host_listen := fun _ _ => Ret tt;
  host_signal_add := Ret tt;
  host_name := Ret "hub"%string;
  host_mdns := (true, true, true);
  host_thread := fun _ => Ret tt;
  host_log_sink := fun _ => Ret tt
|}.

Definition demo_open_doc : json := JObject
  [("mdns"%string, JObject [("enabled"%string, JBool true)]);
   ("admin"%string, JObject [("enabled"%string, JBool true); ("tls_enabled"%string, JBool true)])].

Definition demo_broker : Broker json :=
  (Broker.run demo_machine (Broker.init (mkConfigObject demo_open_doc ""))).2.

Lemma demo_started : started demo_machine demo_broker.
Proof.
  apply (run_started demo_machine (mkConfigObject demo_open_doc "")).
  assert (Hr : (Broker.run demo_machine (Broker.init (mkConfigObject demo_open_doc ""))).1 = Ret tt)
    by (vm_compute; reflexivity).
  unfold demo_broker. destruct (Broker.run _ _) as [o b]. cbn [fst] in Hr. rewrite Hr. reflexivity.
Qed.

#[local] Existing Instance list_spdlog.

Lemma demo_main :
  main (L := list_log) demo_machine None (fun _ => true) (fun _ => Some (Ret tt, demo_open_doc)) = Ret (Serving demo_broker).
Proof. vm_compute. reflexivity. Qed.

Lemma demo_settings : Config.settings (config_ demo_broker) = (Ret default_config, config_ demo_broker).
Proof. vm_compute. reflexivity. Qed.

Lemma demo_workers : threads_ demo_broker = replicate 4 Working.
Proof. vm_compute. reflexivity. Qed.

Lemma start_fail_closed_witness : sound (config_ demo_broker) /\ ctx_auth (ctx_ demo_broker) = true.
Proof.
  destruct (start_fail_closed demo_machine None (fun _ => true) (fun _ => Some (Ret tt, demo_open_doc))
    demo_broker demo_main) as (_ & _ & Hs & _ & Ha). exact (conj Hs Ha).
Defined.

Lemma signal_shutdown_fails_witness :
  (Broker.signal_handler false 0 demo_broker).1 = Throw (runtime_error "Resource deadlock avoided").
Proof.
  apply (signal_shutdown_fails demo_machine demo_broker 0 demo_started). rewrite demo_workers.
  apply Nat.lt_0_succ.
Defined.

Lemma admin_tls_dropped_witness :
  exists a, admin_ demo_broker = Some a /\ admin_running_ a = true /\ admin_ssl_ctx_ a = false.
Proof.
  apply (admin_tls_dropped demo_machine demo_broker demo_started); by vm_compute.
Defined.

Definition loopback_v4 (s : string) : option (byte * byte * byte * byte) :=
  if String.eqb s "127.0.0.1" then Some (Byte.x7f, Byte.x00, Byte.x00, Byte.x01) else None.

Lemma mdns_announces_loopback_witness :
  exists m, mdns_ demo_broker = Some m /\
    MdnsResponder.ip_bytes loopback_v4 m = [Byte.x7f; Byte.x00; Byte.x00; Byte.x01].
Proof.
  destruct (mdns_ demo_broker) as [m|] eqn:Hm; [|by vm_compute in Hm]. exists m. split; [done|].
  apply (mdns_announces_loopback demo_machine loopback_v4 demo_broker m demo_started Hm); by vm_compute.
Defined.

Lemma default_start_witness :
  exists b : Broker json,
    main (L := list_log) demo_machine None (fun _ => true) (fun _ => Some (Ret tt, json_object)) = Ret (Serving b) /\
    auth_ b = Some AllowAll.
Proof.
  destruct (default_start (J := json) demo_machine None (fun _ => true) (fun _ => Some (Ret tt, json_object))
    eq_refl eq_refl eq_refl eq_refl (fun _ => eq_refl)) as (b & Hb & Ha & _). exists b. exact (conj Hb Ha).
Defined.
