(* ===== verification/UnitTests.v ===== *)
(** * The repository's unit tests ([tests/])

    The assertions of [tests/test_topic_filter.cpp], [test_buffer.cpp],
    [test_topic_tree.cpp] and [test_parser.cpp], evaluated on the definitions:
    the model passes the tests of the program it models. *)

From Stdlib Require Import Strings.Byte Strings.String ZArith.
From stdpp Require Import base list strings numbers gmap option.
From S2P Require Import Prelude Buffer Config Packet Parser Filter TopicTree.

Open Scope Z_scope.
Open Scope string_scope.

(** The tests run on the default configuration. *)
Abbreviation cfg := default_config.

Module TopicFilterTest.

(** A table of [matches(topic, filter)] and the value asserted. *)
Definition asserts (rows : list (string * string * bool)) : bool :=
  forallb (fun '(t, f, b) => Bool.eqb (topic.matches t f) b) rows.

Example exact_match : asserts
  [("sensor/temp", "sensor/temp", true); ("a/b/c", "a/b/c", true);
   ("sensor/temp", "sensor/humidity", false); ("a/b", "a/b/c", false)] = true.
Proof. reflexivity. Qed.

Example single_level_wildcard : asserts
  [("sensor/temp", "sensor/+", true); ("sensor/humidity", "sensor/+", true); ("a/b", "+/b", true);
   ("a/b/c", "+/+/c", true); ("sensor/temp/extra", "sensor/+", false); ("a/b/c", "+/c", false)] = true.
Proof. reflexivity. Qed.

Example multi_level_wildcard : asserts
  [("sensor/temp", "sensor/#", true); ("sensor/temp/inside", "sensor/#", true); ("a/b/c/d", "a/#", true);
   ("anything", "#", true); ("a/b/c", "#", true); ("sensor", "sensor/#", false)] = true.
Proof. reflexivity. Qed.

Example mixed_wildcards : asserts
  [("home/room1/temp", "home/+/temp", true); ("home/room1/temp/inside", "home/+/temp/#", true);
   ("home/room1/humidity", "home/+/temp", false)] = true.
Proof. reflexivity. Qed.

Example valid_topics :
  topic.is_valid_topic cfg <$> ["sensor/temp"; "a"; "a/b/c"; ""; "sensor/+"; "sensor/#"] =
    [true; true; true; false; false; false].
Proof. reflexivity. Qed.

Example valid_filters :
  topic.is_valid_filter cfg <$> ["sensor/temp"; "sensor/+"; "sensor/#"; "#"; "+"; ""; "sensor/#/extra"] =
    [true; true; true; true; true; false; false].
Proof. reflexivity. Qed.

Example split_abc : topic.split "a/b/c" = ["a"; "b"; "c"].
Proof. reflexivity. Qed.

Example edge_cases : asserts [("+", "+", true); ("#", "#", true); ("a", "+", true)] = true.
Proof. reflexivity. Qed.

End TopicFilterTest.

Module BufferTest.

(** Written, then read: the value and the buffer that is left. *)
Example write_read_byte :
  let buf := Buffer.write_byte (byte_of_Z 0xAB) Buffer.init in
  Buffer.readable buf = 1%nat /\ (Buffer.read_byte buf).1 = Ret (byte_of_Z 0xAB) /\
  Buffer.empty (Buffer.read_byte buf).2 = true.
Proof. by vm_compute. Qed.

Example write_read_uint16 :
  let buf := Buffer.write_uint16 0x1234 Buffer.init in
  Buffer.readable buf = 2%nat /\ (Buffer.read_uint16 buf).1 = Ret 0x1234.
Proof. by vm_compute. Qed.

Example write_read_string : (Buffer.read_string (Buffer.write_string "hello" Buffer.init)).1 = Ret "hello".
Proof. reflexivity. Qed.

Definition remaining_length_case (value : Z) (encoded : list Z) : Prop :=
  let buf := Buffer.write_remaining_length value Buffer.init in
  contents buf = byte_of_Z <$> encoded /\ (Buffer.read_remaining_length buf).1 = Ret value.

Example remaining_length_cases :
  remaining_length_case 0 [0x00] /\ remaining_length_case 127 [0x7F] /\
  remaining_length_case 128 [0x80; 0x01] /\ remaining_length_case 16383 [0xFF; 0x7F] /\
  remaining_length_case 2097151 [0xFF; 0xFF; 0x7F] /\
  remaining_length_case 268435455 [0xFF; 0xFF; 0xFF; 0x7F].
Proof. by vm_compute. Qed.

Example multiple_operations :
  (x ← Buffer.read_byte; v ← Buffer.read_uint16; s ← Buffer.read_string; mret (x, v, s))
    (Buffer.write_string "test" (Buffer.write_uint16 0x0203 (Buffer.write_byte Byte.x01 Buffer.init))) =
  (Ret (Byte.x01, 0x0203, "test"), mkBuffer (byte_of_Z <$> [1; 2; 3; 0; 4; 116; 101; 115; 116]) 9 9).
Proof. by vm_compute. Qed.

Example skip_two :
  ((Buffer.skip 2;; Buffer.read_byte)
     (Buffer.write_byte Byte.x03 (Buffer.write_byte Byte.x02 (Buffer.write_byte Byte.x01 Buffer.init)))).1 =
  Ret Byte.x03.
Proof. reflexivity. Qed.

Example clear_empties :
  let buf := Buffer.write_byte Byte.x01 Buffer.init in
  Buffer.empty buf = false /\ Buffer.empty (Buffer.clear buf) = true /\ Buffer.readable (Buffer.clear buf) = 0%nat.
Proof. by vm_compute. Qed.

Definition throws_out_of_range {A} (m : M Buffer A) : Prop := exists what, (m Buffer.init).1 = Throw (out_of_range what).

Example underflow :
  throws_out_of_range Buffer.read_byte /\ throws_out_of_range Buffer.read_uint16 /\
  throws_out_of_range Buffer.read_string.
Proof. repeat split; eexists; reflexivity. Qed.

Example from_raw_data :
  (Buffer.read_string (Buffer.of_bytes (byte_of_Z <$> [0x00; 0x05; 104; 101; 108; 108; 111]))).1 = Ret "hello".
Proof. reflexivity. Qed.

End BufferTest.

Module TopicTreeTest.

(** The tests' sessions are null, or pointers nobody destroys. *)
Abbreviation alive := (fun _ : session_id => true).

Definition found (filters topics : list string) : list nat :=
  let t := foldl (fun t f => TopicTree.subscribe alive f (mkEntry None 1) t) TopicTree.init filters in
  (fun x => length (TopicTree.lookup x t)) <$> topics.

Example subscribe_and_lookup :
  TopicTree.lookup "sensor/temp" (TopicTree.subscribe alive "sensor/temp" (mkEntry None 1) TopicTree.init) =
    [mkEntry None 1] /\ TopicTree.lock alive None = None.
Proof. by vm_compute. Qed.

Example wildcard_lookup :
  found ["sensor/+"] ["sensor/temp"; "sensor/humidity"; "other/value"] = [1; 1; 0]%nat.
Proof. by vm_compute. Qed.

Example tree_multi_level_wildcard :
  found ["home/#"] ["home"; "home/room1"; "home/room1/temp"; "away/room1"] = [1; 1; 1; 0]%nat.
Proof. by vm_compute. Qed.

Example multiple_subscribers :
  length (TopicTree.lookup "test/topic"
    (TopicTree.subscribe alive "test/topic" (mkEntry (Some 2%nat) 2)
      (TopicTree.subscribe alive "test/topic" (mkEntry (Some 1%nat) 0) TopicTree.init))) = 2%nat.
Proof. by vm_compute. Qed.

Example overwrite_qos :
  TopicTree.lookup "topic"
    (TopicTree.subscribe alive "topic" (mkEntry (Some 42%nat) 2)
      (TopicTree.subscribe alive "topic" (mkEntry (Some 42%nat) 1) TopicTree.init)) = [mkEntry (Some 42%nat) 2].
Proof. by vm_compute. Qed.

Example retained_messages :
  let msg := mkRetained (Buffer.of_bytes (string_bytes "hello")) 1 in
  let tree := (TopicTree.set_retained cfg "sensor/value" msg TopicTree.init).2 in
  TopicTree.get_retained "sensor/value" tree = Some msg /\
  TopicTree.get_all_retained tree = [("sensor/value", msg)].
Proof. by vm_compute. Qed.

End TopicTreeTest.

Module ParserTest.

(** A packet as the tests build it, and the packets a parser fed with some
    bytes hands out. *)
Definition packet (byte1 : Z) (body : Buffer) : list byte :=
  contents (Buffer.write (contents body)
    (Buffer.write_remaining_length (Z.of_nat (Buffer.size body))
      (Buffer.write_byte (byte_of_Z byte1) Buffer.init))).

Definition extracted (bs : list byte) (n : nat) : list (option Buffer) :=
  fst (Nat.iter n (fun '(out, p) => let '(o, p) := PacketParser.try_extract cfg p in (out ++ [o], p))
         ([], PacketParser.feed cfg bs PacketParser.init))%list.

(** The header and the packet [parse] makes of the only packet in [bs]. *)
Definition parsed_with {A} (parse : FixedHeader -> M Buffer A) (bs : list byte) : option (Z * outcome A) :=
  match extracted bs 1 with
  | [Some out] =>
      match (hdr ← read_header; get ≫= fun b => mret (hdr_type hdr, (parse hdr b).1)) out with
      | (Ret r, _) => Some r
      | _ => None
      end
  | _ => None
  end.

Definition parsed {A} (parse : M Buffer A) : list byte -> option (Z * outcome A) := parsed_with (fun _ => parse).

Definition connect_packet (client_id : string) : list byte :=
  packet 0x10 (Buffer.write_string client_id (Buffer.write_uint16 60 (Buffer.write_byte Byte.x02
    (Buffer.write_byte Byte.x04 (Buffer.write_string "MQTT" Buffer.init))))).

Example test_connect :
  parsed parse_connect (connect_packet "test-client") =
    Some (packet_type_val CONNECT, Ret {| protocol_name := "MQTT"; protocol_level := 4; clean_session := true;
      will_flag := false; will_qos := 0; will_retain := false; will_topic := ""; will_message := "";
      username := ""; password := ""; keepalive := 60; client_id := "test-client" |}).
Proof. by vm_compute. Qed.

Example test_connect_with_auth :
  parsed parse_connect (packet 0x10 (Buffer.write_string "pass" (Buffer.write_string "user"
    (Buffer.write_string "will message" (Buffer.write_string "will/topic" (Buffer.write_string "client1"
      (Buffer.write_uint16 30 (Buffer.write_byte (byte_of_Z 0xC6) (Buffer.write_byte Byte.x04
        (Buffer.write_string "MQTT" Buffer.init)))))))))) =
    Some (packet_type_val CONNECT, Ret {| protocol_name := "MQTT"; protocol_level := 4; clean_session := true;
      will_flag := true; will_qos := 0; will_retain := false; will_topic := "will/topic";
      will_message := "will message"; username := "user"; password := "pass"; keepalive := 30;
      client_id := "client1" |}).
Proof. by vm_compute. Qed.

Example test_publish_qos0 :
  let bs := packet 0x30 (Buffer.write (string_bytes "23.5") (Buffer.write_string "sensor/temp" Buffer.init)) in
  parsed_with (fun hdr => pub ← parse_publish hdr;
      mret (topic pub, qos pub, retain pub, Buffer.readable (payload pub), contents (payload pub))) bs =
    Some (packet_type_val PUBLISH, Ret ("sensor/temp", 0, false, 4%nat, string_bytes "23.5")).
Proof. by vm_compute. Qed.

Example test_subscribe :
  parsed parse_subscribe (packet 0x82 (Buffer.write_byte Byte.x00 (Buffer.write_string "home/#"
    (Buffer.write_byte Byte.x01 (Buffer.write_string "sensor/+" (Buffer.write_uint16 1 Buffer.init)))))) =
    Some (packet_type_val SUBSCRIBE, Ret (mkSubscribePacket 1
      [mkSubscribeFilter "sensor/+" 1; mkSubscribeFilter "home/#" 0])).
Proof. by vm_compute. Qed.

Example multiple_packets_in_one_read :
  extracted (connect_packet "client1" ++ connect_packet "client2") 3 =
    [Some (Buffer.of_bytes (connect_packet "client1")); Some (Buffer.of_bytes (connect_packet "client2")); None].
Proof. by vm_compute. Qed.

Example test_pingreq : parsed (mret tt) (packet 0xC0 Buffer.init) = Some (packet_type_val PINGREQ, Ret tt).
Proof. by vm_compute. Qed.

Example test_pingresp :
  parsed (mret tt) (contents PacketBuilder.build_pingresp) = Some (packet_type_val PINGRESP, Ret tt).
Proof. by vm_compute. Qed.

Example test_connack :
  parsed (p ← Buffer.read_byte; c ← Buffer.read_byte; mret (Z_of_byte p, Z_of_byte c))
    (contents (PacketBuilder.build_connack true ACCEPTED)) =
  Some (packet_type_val CONNACK, Ret (1, connack_code_val ACCEPTED)).
Proof. by vm_compute. Qed.

Example test_suback :
  parsed (pid ← Buffer.read_uint16; bs ← Buffer.read 3; mret (pid, Z_of_byte <$> bs))
    (contents (PacketBuilder.build_suback 42 [MAX_QOS0; MAX_QOS1; FAILURE])) =
  Some (packet_type_val SUBACK, Ret (42, suback_code_val <$> [MAX_QOS0; MAX_QOS1; FAILURE])).
Proof. by vm_compute. Qed.

End ParserTest.
